(** * The network driver communication module of the LWIP service (ndev.c)

    A shallow embedding of [minix/net/lwip/ndev.c]: the request pool, the
    per-driver send and receive queues, the driver table and the handlers
    of discovery events, driver replies and upper-layer requests, followed
    by the invariants of the module and the properties of its interface. *)

From Stdlib Require Import ZArith Lia Bool Ascii String.
From stdpp Require Import base tactics option list.

#[local] Open Scope Z_scope.

(** ** Machine integers

    [uint8_t] and [uint32_t] values are integers with the wrap-around of
    the C arithmetic written out. *)

Definition u8 (x : Z) : Z := x mod 256.
Definition u32 (x : Z) : Z := x mod 2 ^ 32.

(** ** Constants *)

Definition LABEL_MAX : nat := 16.

Definition NDEV_SENDQ : Z := 2.   (* minimum guaranteed send queue depth *)
Definition NDEV_RECVQ : Z := 2.   (* guaranteed receive queue depth *)
Definition NREQ_SPARES : Z := 8.  (* spare send queue (request) objects *)

(** Modelled from the spec: ndev.h is not part of the sources at hand; the
    driver table has [NR_NDEV = 8] slots (section 8 of the specification). *)
Definition NR_NDEV : nat := 8.

(** Modelled from the spec: ndev.h is not part of the sources at hand.  A
    request carries up to [NDEV_IOV_MAX] grants.  With the 40 request
    objects of [NR_NREQ], the 320 preallocated grants that the comment in
    [ndev_init] reports give 8 per request; the scenarios of the
    specification take 4.  The development only uses that the value is
    positive: every proof below goes through unchanged with 4. *)
Definition NDEV_IOV_MAX : nat := 8.

(** Modelled from the spec: the size of the hardware address array of
    [struct ndev_hwaddr] (ndev.h), an Ethernet address in the scenarios of
    the specification. *)
Definition NDEV_HWADDR_MAX : nat := 6.

Definition NR_NREQ : nat :=
  (Z.to_nat (NDEV_SENDQ + NDEV_RECVQ) * NR_NDEV + Z.to_nat NREQ_SPARES)%nat.

(** Endpoints, grants and ethif objects are opaque to this module. *)
Definition endpoint_t := Z.

(** Modelled from the spec: [NONE] (a system header, not part of the
    sources at hand) is the endpoint value that stands for "no process";
    only its being a fixed endpoint value matters here. *)
Definition NONE : endpoint_t := 0x6ACE.

Definition cp_grant_id_t := Z.

(** Modelled from the spec: [GRANT_INVALID] (a system header) is the
    sentinel that differs from every valid grant. *)
Definition GRANT_INVALID : cp_grant_id_t := -1.

(** Modelled from the spec: the macro [GRANT_VALID] (a system header) tells
    a valid grant from the sentinel. *)
Definition GRANT_VALID (g : cp_grant_id_t) : bool := negb (g =? GRANT_INVALID).

(** A [struct ethif *]; [None] is the NULL pointer. *)
Definition ethif_ptr := Z.

(** Return values of the request interface. *)
Inductive errno := OK | EBUSY | ENOMEM.

(** Modelled from the spec: [ENOENT] (a system header, not part of the
    sources at hand) is the code with which [ds_check] reports that no
    change is left; only its being a fixed value matters here. *)
Definition ENOENT : Z := -2.

(** ** Requests and queues *)

(** The type of a request message. *)
Inductive req_type := NDEV_INIT | NDEV_CONF | NDEV_SEND | NDEV_RECV.

Definition req_type_eqb (a b : req_type) : bool :=
  match a, b with
  | NDEV_INIT, NDEV_INIT | NDEV_CONF, NDEV_CONF
  | NDEV_SEND, NDEV_SEND | NDEV_RECV, NDEV_RECV => true
  | _, _ => false
  end.

(** [struct ndev_req].  The queue linkage [nreq_next] is carried by the
    lists that hold the objects.  [nreq_id] is a ghost field: it records
    the sequence ID that was stored in the request message built with this
    object, and no function of the module reads it. *)
Record ndev_req := mk_ndev_req {
  nreq_type : req_type;                (* type of request message *)
  nreq_grant : list cp_grant_id_t;     (* grants for request *)
  nreq_id : Z                          (* ghost: ID sent with the request *)
}.

(** [struct ndev_queue]; [nq_req] lists the request objects of the queue
    by their index in [nreq_array], oldest first. *)
Record ndev_queue := mk_ndev_queue {
  nq_head : Z;          (* ID of oldest pending request (uint32_t) *)
  nq_count : Z;         (* current nr of pending requests (uint8_t) *)
  nq_max : Z;           (* maximum nr of pending requests (uint8_t) *)
  nq_req : list nat     (* queue of pending requests *)
}.

(** [struct ndev]. *)
Record ndev := mk_ndev {
  ndev_endpt : endpoint_t;          (* driver endpoint *)
  ndev_label : string;              (* driver label *)
  ndev_ethif : option ethif_ptr;    (* ethif object, or NULL if init'ing *)
  ndev_sendq : ndev_queue;          (* packet send and configure queue *)
  ndev_recvq : ndev_queue           (* packet receive queue *)
}.

(** This macro checks whether the network driver is active rather than
    initializing. *)
Definition NDEV_ACTIVE (d : ndev) : bool := 0 <? nq_max (ndev_sendq d).

(** ** Messages *)

(** Payload of an initialization reply.  [ir_name] is the content of the
    fixed-size name buffer of the message. *)
Record init_reply := mk_init_reply {
  ir_id : Z;
  ir_name : list ascii;
  ir_hwaddr : list Z;
  ir_hwaddr_len : Z;
  ir_caps : Z;
  ir_link : Z;
  ir_media : Z;
  ir_max_send : Z;
  ir_max_recv : Z
}.

(** Payload of a status report. *)
Record status_report := mk_status_report {
  sr_id : Z;
  sr_link : Z;
  sr_media : Z;
  sr_oerror : Z;
  sr_coll : Z;
  sr_ierror : Z;
  sr_iqdrop : Z
}.

(** The messages a driver sends, by message type. *)
Inductive reply_body :=
| NDEV_INIT_REPLY (r : init_reply)
| NDEV_CONF_REPLY (id result : Z)
| NDEV_SEND_REPLY (id result : Z)
| NDEV_RECV_REPLY (id result : Z)
| NDEV_STATUS (s : status_report)
| NDEV_OTHER (m_type : Z).

Record message := mk_message {
  m_source : endpoint_t;
  m_body : reply_body
}.

(** The messages sent to a driver. *)
Inductive request_msg :=
| M_INIT (id : Z)
| M_CONF (id set mode : Z) (mcast_grant : cp_grant_id_t)
         (mcast_count caps flags media : Z) (hwaddr : list Z)
| M_TRANSFER (do_send : bool) (id : Z) (grant : list cp_grant_id_t)
             (len : list Z) (count : nat)
| M_STATUS_REPLY (id : Z).

(** ** Calls out of the module

    Calls into the ethif layer, the grant library, the IPC primitive and
    the console are recorded, in order, in a trace.  The results of
    [cpf_grant_direct], [ethif_add], [ethif_enable] and of the calls to the
    data store are inputs of the functions that make these calls.  The
    calls of [cpf_revoke] in [ndev_queue_advance], of [asynsend3] and of
    [asynsend] can fail too, and the module then calls [panic], which ends
    the service with the failed call.  Their results are no inputs here:
    the model follows the module for as long as these calls succeed, and
    has no run in which one of them fails. *)
Inductive cpf_access := CPF_READ | CPF_WRITE.

Inductive output :=
| asynsend3 (dst : endpoint_t) (m : request_msg)
| asynsend (dst : endpoint_t) (m : request_msg)
| cpf_grant_direct (dst : endpoint_t) (addr bytes : Z) (access : cpf_access)
                   (grant : cp_grant_id_t)
| cpf_revoke (grant : cp_grant_id_t)
| printf (format : string) (args : list Z)
| ethif_add (id : nat) (name : list ascii) (caps : Z)
| ethif_enable (ethif : ethif_ptr) (name : option (list ascii))
               (hwaddr : list Z) (hwaddr_len caps link media : Z)
| ethif_disable (ethif : ethif_ptr)
| ethif_remove (ethif : ethif_ptr)
| ethif_configured (ethif : ethif_ptr) (result : Z)
| ethif_sent (ethif : ethif_ptr) (result : Z)
| ethif_received (ethif : ethif_ptr) (result : Z)
| ethif_status (ethif : ethif_ptr) (link media oerror coll ierror iqdrop : Z).

(** The line feed that ends a line of the console. *)
Definition LF : string := String "010" EmptyString.

(** ** The state of the module *)

Record ndev_state := mk_state {
  nreq_array : list ndev_req;    (* the request objects *)
  nreq_freelist : list nat;      (* free request objects, by index *)
  nreq_spares : Z;               (* number of free spare objects *)
  ndev_array : list ndev;        (* the driver table *)
  ndev_max : nat;                (* highest driver count ever seen *)
  ndev_pending : Z;              (* number of initializing drivers, an
                                    int in the code; it is not wrapped *)
  reported : bool;               (* the static flag of ndev_up *)
  trace : list output            (* calls made so far, oldest first *)
}.

Definition set_nreq_array (v : list ndev_req) (st : ndev_state) : ndev_state :=
  mk_state v (nreq_freelist st) (nreq_spares st) (ndev_array st)
           (ndev_max st) (ndev_pending st) (reported st) (trace st).
Definition set_nreq_freelist (v : list nat) (st : ndev_state) : ndev_state :=
  mk_state (nreq_array st) v (nreq_spares st) (ndev_array st)
           (ndev_max st) (ndev_pending st) (reported st) (trace st).
Definition set_nreq_spares (v : Z) (st : ndev_state) : ndev_state :=
  mk_state (nreq_array st) (nreq_freelist st) v (ndev_array st)
           (ndev_max st) (ndev_pending st) (reported st) (trace st).
Definition set_ndev_array (v : list ndev) (st : ndev_state) : ndev_state :=
  mk_state (nreq_array st) (nreq_freelist st) (nreq_spares st) v
           (ndev_max st) (ndev_pending st) (reported st) (trace st).
Definition set_ndev_max (v : nat) (st : ndev_state) : ndev_state :=
  mk_state (nreq_array st) (nreq_freelist st) (nreq_spares st) (ndev_array st)
           v (ndev_pending st) (reported st) (trace st).
Definition set_ndev_pending (v : Z) (st : ndev_state) : ndev_state :=
  mk_state (nreq_array st) (nreq_freelist st) (nreq_spares st) (ndev_array st)
           (ndev_max st) v (reported st) (trace st).
Definition set_reported (v : bool) (st : ndev_state) : ndev_state :=
  mk_state (nreq_array st) (nreq_freelist st) (nreq_spares st) (ndev_array st)
           (ndev_max st) (ndev_pending st) v (trace st).
Definition set_trace (v : list output) (st : ndev_state) : ndev_state :=
  mk_state (nreq_array st) (nreq_freelist st) (nreq_spares st) (ndev_array st)
           (ndev_max st) (ndev_pending st) (reported st) v.

(** ** A state and failure monad

    A computation reads and updates the state of the module and returns a
    value, or stops: a failed [assert], a [panic], or a dereference of a
    pointer that is not there ends the service, which is the result
    [None]. *)

Definition M (A : Type) : Type := ndev_state -> option (A * ndev_state).

Definition ret {A} (a : A) : M A := fun st => Some (a, st).

Definition bind {A B} (c : M A) (k : A -> M B) : M B :=
  fun st => match c st with
            | Some (a, st') => k a st'
            | None => None
            end.

Definition panic {A} : M A := fun _ => None.

Definition gets {A} (f : ndev_state -> A) : M A := fun st => Some (f st, st).

Definition modify (f : ndev_state -> ndev_state) : M unit :=
  fun st => Some (tt, f st).

Notation "x <- c1 ;; c2" := (bind c1 (fun x => c2))
  (at level 100, c1 at next level, right associativity).
Notation "c1 ;; c2" := (bind c1 (fun _ => c2))
  (at level 100, right associativity).

Definition c_assert (b : bool) : M unit := if b then ret tt else panic.

Definition emit (o : output) : M unit :=
  modify (fun st => set_trace (trace st ++ [o]) st).

(** When [c] is a conditional statement without a value. *)
Definition when (b : bool) (c : M unit) : M unit := if b then c else ret tt.

(** *** Pointers

    A [struct ndev *] is a slot of [ndev_array]; a [struct ndev_queue *]
    is one of the two queues of a slot; a [struct ndev_req *] is an index
    of [nreq_array]. *)

Inductive qsel := SENDQ | RECVQ.

#[global] Instance qsel_eq_dec : EqDecision qsel.
Proof. solve_decision. Defined.

Definition qref : Type := nat * qsel.

Definition queue_of (s : qsel) (d : ndev) : ndev_queue :=
  match s with SENDQ => ndev_sendq d | RECVQ => ndev_recvq d end.

Definition set_queue_of (s : qsel) (nq : ndev_queue) (d : ndev) : ndev :=
  match s with
  | SENDQ => mk_ndev (ndev_endpt d) (ndev_label d) (ndev_ethif d) nq (ndev_recvq d)
  | RECVQ => mk_ndev (ndev_endpt d) (ndev_label d) (ndev_ethif d) (ndev_sendq d) nq
  end.

Definition read_ndev (slot : nat) : M ndev :=
  fun st => match ndev_array st !! slot with
            | Some d => Some (d, st)
            | None => None
            end.

Definition write_ndev (slot : nat) (d : ndev) : M unit :=
  modify (fun st => set_ndev_array (<[slot := d]> (ndev_array st)) st).

Definition read_queue (q : qref) : M ndev_queue :=
  d <- read_ndev q.1 ;; ret (queue_of q.2 d).

Definition write_queue (q : qref) (nq : ndev_queue) : M unit :=
  d <- read_ndev q.1 ;; write_ndev q.1 (set_queue_of q.2 nq d).

Definition read_req (nreq : nat) : M ndev_req :=
  fun st => match nreq_array st !! nreq with
            | Some r => Some (r, st)
            | None => None
            end.

Definition write_req (nreq : nat) (r : ndev_req) : M unit :=
  modify (fun st => set_nreq_array (<[nreq := r]> (nreq_array st)) st).

(** ** The request queues *)

(** Initialize a queue for first use. *)
Definition ndev_queue_init (q : qref) : M unit :=
  nq <- read_queue q ;;
  (* Only ever increase sequence numbers. *)
  write_queue q (mk_ndev_queue (u32 (nq_head nq + 1)) 0 0 []).

(** The loop of [ndev_queue_advance] over the grants of a request: revoke
    them in order up to the first invalid one. *)
Fixpoint revoke_grants (gs : list cp_grant_id_t) : M unit :=
  match gs with
  | [] => ret tt
  | grant :: gs' =>
      if GRANT_VALID grant
      then emit (cpf_revoke grant) ;; revoke_grants gs'
      else ret tt
  end.

(** Advance the given request queue, freeing up the request at the head of
    the queue including any grants in use for it. *)
Definition ndev_queue_advance (q : qref) : M unit :=
  nq <- read_queue q ;;
  match nq_req nq with
  | [] => panic                       (* SIMPLEQ_FIRST is NULL *)
  | nreq :: rest =>
      r <- read_req nreq ;;
      revoke_grants (nreq_grant r) ;;
      when (negb (req_type_eqb (nreq_type r) NDEV_RECV)
            && (NDEV_SENDQ <? nq_count nq))
        (modify (fun st => set_nreq_spares (u32 (nreq_spares st + 1)) st) ;;
         spares <- gets nreq_spares ;;
         c_assert (spares <=? NREQ_SPARES)) ;;
      modify (fun st => set_nreq_freelist (nreq :: nreq_freelist st) st) ;;
      write_queue q (mk_ndev_queue (u32 (nq_head nq + 1))
                                   (u8 (nq_count nq - 1))
                                   (nq_max nq) rest)
  end.

(** The loop of [ndev_queue_reset].  [nq_count] is a [uint8_t] that every
    iteration decrements, so 256 iterations always suffice; a loop that
    needs more stops the computation. *)
Fixpoint ndev_queue_reset_loop (fuel : nat) (q : qref) : M unit :=
  nq <- read_queue q ;;
  if 0 <? nq_count nq then
    match fuel with
    | O => panic
    | S fuel' =>
        c_assert (negb (bool_decide (nq_req nq = []))) ;;
        ndev_queue_advance q ;;
        ndev_queue_reset_loop fuel' q
    end
  else ret tt.

(** Clear any outstanding requests from the given queue and reset it to a
    pre-initialization state. *)
Definition ndev_queue_reset (q : qref) : M unit :=
  ndev_queue_reset_loop 256 q ;;
  nq <- read_queue q ;;
  write_queue q (mk_ndev_queue (nq_head nq) (nq_count nq) 0 (nq_req nq)).

(** Obtain a request object for use in a new request.  Return the request
    object, with its request type field set to [type], together with the
    request sequence ID; return [None] (NULL) if no request objects are
    available for the given request type. *)
Definition ndev_queue_get (q : qref) (type : req_type) : M (option (nat * Z)) :=
  nq <- read_queue q ;;
  (* Has the hard queue depth limit been reached? *)
  if nq_count nq =? nq_max nq then ret None else
  spares <- gets nreq_spares ;;
  (* For send requests, we may use request objects from the spares pool. *)
  if negb (req_type_eqb type NDEV_RECV) && (NDEV_SENDQ <=? nq_count nq)
     && (spares =? 0)
  then ret None else
  freelist <- gets nreq_freelist ;;
  match freelist with
  | [] => panic                       (* assert(!SIMPLEQ_EMPTY(&nreq_freelist)) *)
  | nreq :: _ =>
      r <- read_req nreq ;;
      write_req nreq (mk_ndev_req type (nreq_grant r) (nreq_id r)) ;;
      ret (Some (nreq, u32 (nq_head nq + nq_count nq)))
  end.

(** Add a successfully sent request to the given queue.  The request must
    have been obtained using [ndev_queue_get] directly before the call. *)
Definition ndev_queue_add (q : qref) (nreq : nat) : M unit :=
  nq <- read_queue q ;;
  r <- read_req nreq ;;
  when (negb (req_type_eqb (nreq_type r) NDEV_RECV)
        && (NDEV_SENDQ <=? nq_count nq))
    (spares <- gets nreq_spares ;;
     c_assert (0 <? spares) ;;
     modify (set_nreq_spares (u32 (spares - 1)))) ;;
  freelist <- gets nreq_freelist ;;
  match freelist with
  | [] => panic                       (* SIMPLEQ_REMOVE_HEAD of an empty list *)
  | _ :: freelist' =>
      modify (set_nreq_freelist freelist') ;;
      write_queue q (mk_ndev_queue (nq_head nq) (u8 (nq_count nq + 1))
                                   (nq_max nq) (nq_req nq ++ [nreq]))
  end.

(** Remove the head of the given request queue, but only if it matches the
    given request type and sequence ID.  Return [true] if the head was
    indeed removed. *)
Definition ndev_queue_remove (q : qref) (type : req_type) (seq : Z) : M bool :=
  nq <- read_queue q ;;
  if (nq_count nq <? 1) || negb (nq_head nq =? seq) then ret false else
  match nq_req nq with
  | [] => panic                       (* assert(!SIMPLEQ_EMPTY(&nq->nq_req)) *)
  | nreq :: _ =>
      r <- read_req nreq ;;
      if negb (req_type_eqb (nreq_type r) type) then ret false else
      ndev_queue_advance q ;;
      ret true
  end.

(** ** Initialization *)

Definition ndev_req_zero : ndev_req :=
  mk_ndev_req NDEV_INIT (replicate NDEV_IOV_MAX 0) 0.

Definition ndev_queue_zero (head : Z) : ndev_queue := mk_ndev_queue head 0 0 [].

(** Initialize the network driver communication module.  The arrays are
    static storage and start zeroed; a zero request type is no request
    type, and the model takes [NDEV_INIT], which no queued request has.
    All queues start off with wildly different request sequence numbers.
    The subscription to the data store, the preallocation of grants and
    the registration of the management node act on other services only
    and are left out. *)
Definition ndev_init : ndev_state :=
  mk_state
    (replicate NR_NREQ ndev_req_zero)
    (seq 0 NR_NREQ)
    NREQ_SPARES
    (map (fun slot : nat =>
            mk_ndev 0 EmptyString None
              (ndev_queue_zero (u32 (Z.shiftl (Z.of_nat slot) 21)))
              (ndev_queue_zero (u32 (Z.shiftl (Z.of_nat slot * 2 + 1) 20))))
         (seq 0 NR_NDEV))
    0%nat 0 false [].

(** ** Drivers coming up and going down *)

(** Send an initialization request to a driver. *)
Definition ndev_send_init (slot : nat) : M unit :=
  d <- read_ndev slot ;;
  emit (asynsend3 (ndev_endpt d) (M_INIT (nq_head (ndev_sendq d)))).

(** The search loop of [ndev_up] over the slots below [ndev_max]: [inl
    slot] when [slot] holds a driver with this label, otherwise [inr] of
    the first slot without a driver, if any. *)
Fixpoint ndev_up_scan (label : string) (l : list ndev) (slot : nat)
    (free : option nat) : nat + option nat :=
  match l with
  | [] => inr free
  | d :: l' =>
      if ndev_endpt d =? NONE
      then ndev_up_scan label l' (S slot)
             (match free with None => Some slot | Some _ => free end)
      else if String.eqb (ndev_label d) label then inl slot
      else ndev_up_scan label l' (S slot) free
  end.

(** [strlcpy] into the label field of [LABEL_MAX] bytes. *)
Definition strlcpy_label (label : string) : string :=
  substring 0 (LABEL_MAX - 1) label.

(** A network device driver has been started or restarted. *)
Definition ndev_up (label : string) (endpt : endpoint_t) : M unit :=
  arr <- gets ndev_array ;;
  max <- gets ndev_max ;;
  match ndev_up_scan label (take max arr) 0 None with
  | inl slot =>
      (* Cancel any ongoing requests. *)
      ndev_queue_reset (slot, SENDQ) ;;
      ndev_queue_reset (slot, RECVQ) ;;
      d <- read_ndev slot ;;
      match ndev_ethif d with
      | Some ethif =>
          emit (ethif_disable ethif) ;;
          modify (fun st => set_ndev_pending (ndev_pending st + 1) st)
      | None => ret tt
      end ;;
      write_ndev slot (mk_ndev endpt (ndev_label d) (ndev_ethif d)
                               (ndev_sendq d) (ndev_recvq d)) ;;
      (* Attempt to resume communication. *)
      ndev_send_init slot
  | inr free =>
      chosen <- match free with
                | Some slot => ret (Some slot)
                | None =>
                    if (max =? NR_NDEV)%nat then
                      rep <- gets reported ;;
                      when (negb rep)
                        (emit (printf ("LWIP: not enough ndev slots!" ++ LF) []) ;;
                         modify (set_reported true)) ;;
                      ret None
                    else
                      modify (set_ndev_max (S max)) ;;
                      ret (Some max)
                end ;;
      match chosen with
      | None => ret tt
      | Some slot =>
          (* Initialize the slot. *)
          d <- read_ndev slot ;;
          write_ndev slot (mk_ndev endpt (strlcpy_label label) None
                                   (ndev_sendq d) (ndev_recvq d)) ;;
          ndev_queue_init (slot, SENDQ) ;;
          ndev_queue_init (slot, RECVQ) ;;
          ndev_send_init slot ;;
          modify (fun st => set_ndev_pending (ndev_pending st + 1) st)
      end
  end.

(** The last loop of [ndev_down]: lower [ndev_max] past the trailing slots
    without a driver. *)
Fixpoint ndev_max_shrink (arr : list ndev) (max : nat) : nat :=
  match max with
  | O => O
  | S m =>
      match arr !! m with
      | Some d => if ndev_endpt d =? NONE then ndev_max_shrink arr m else max
      | None => max
      end
  end.

(** A network device driver has been terminated. *)
Definition ndev_down (slot : nat) : M unit :=
  (* Cancel any ongoing requests. *)
  ndev_queue_reset (slot, SENDQ) ;;
  ndev_queue_reset (slot, RECVQ) ;;
  d <- read_ndev slot ;;
  match ndev_ethif d with
  | Some ethif => emit (ethif_remove ethif)
  | None => modify (fun st => set_ndev_pending (ndev_pending st - 1) st)
  end ;;
  (* Remove the driver from our own administration. *)
  write_ndev slot (mk_ndev NONE (ndev_label d) (ndev_ethif d)
                           (ndev_sendq d) (ndev_recvq d)) ;;
  modify (fun st => set_ndev_max (ndev_max_shrink (ndev_array st) (ndev_max st)) st).

(** *** Discovery events *)

(** An entry that [ds_check] yields: the key, the endpoint, and whether
    [ds_retrieve_u32] succeeds on the key with the value [DS_DRIVER_UP]. *)
Record ds_entry := mk_ds_entry {
  ds_key : string;
  ds_endpt : endpoint_t;
  ds_driver_up : bool
}.

Definition ds_prefix : string := "drv.net.".

(** The body of the first loop of [ndev_check]. *)
Definition ndev_check_entry (e : ds_entry) : M unit :=
  if negb (String.prefix ds_prefix (ds_key e)) || (ds_endpt e =? NONE)
  then ret tt else
  if negb (ds_driver_up e) then ret tt else
  let label := substring (String.length ds_prefix)
                 (String.length (ds_key e) - String.length ds_prefix)
                 (ds_key e) in
  if (String.length label =? 0)%nat || (LABEL_MAX <=? String.length label)%nat
  then ret tt else
  ndev_up label (ds_endpt e).

Fixpoint ndev_check_up (changes : list ds_entry) : M unit :=
  match changes with
  | [] => ret tt
  | e :: changes' => ndev_check_entry e ;; ndev_check_up changes'
  end.

(** The second loop of [ndev_check], from [slot] on.  [ds_label] tells
    whether [ds_retrieve_label_endpt] finds the label.  The loop runs at
    most once per slot of the table; one that needs more iterations than
    [fuel] stops the computation. *)
Fixpoint ndev_check_down (fuel : nat) (ds_label : string -> bool)
    (slot : nat) : M unit :=
  max <- gets ndev_max ;;
  if (slot <? max)%nat then
    match fuel with
    | O => panic
    | S fuel' =>
        d <- read_ndev slot ;;
        when (negb (ndev_endpt d =? NONE) && negb (ds_label (ndev_label d)))
          (ndev_down slot) ;;
        ndev_check_down fuel' ds_label (S slot)
    end
  else ret tt.

(** The DS service has notified us of changes to our subscriptions.
    [changes] are the entries that [ds_check] yields before it fails with
    the code [r]. *)
Definition ndev_check (changes : list ds_entry) (r : Z)
    (ds_label : string -> bool) : M unit :=
  (* Check whether any drivers have been (re)started. *)
  ndev_check_up changes ;;
  when (negb (r =? ENOENT))
    (emit (printf ("LWIP: DS check failed (%d)" ++ LF) [r])) ;;
  (* Check whether the drivers we currently know about are still up. *)
  ndev_check_down NR_NDEV ds_label 0.

(** ** Requests of the ethif layer *)

(** [struct ndev_conf]; [nconf_mclist] is a pointer, [None] when NULL. *)
Record struct_ndev_conf := mk_ndev_conf {
  nconf_set : Z;
  nconf_mode : Z;
  nconf_mclist : option Z;
  nconf_mccount : Z;
  nconf_caps : Z;
  nconf_flags : Z;
  nconf_media : Z;
  nconf_hwaddr : list Z
}.

(** The bits of [nconf_set] and [nconf_mode] are declared in ndev.h, which
    is not part of the sources at hand; each is a single bit that selects
    one part of a configuration request. *)

(** Modelled from the spec: the receive mode is part of the request. *)
Definition NDEV_SET_MODE : Z := 0x01.

(** Modelled from the spec: the capabilities are part of the request. *)
Definition NDEV_SET_CAPS : Z := 0x02.

(** Modelled from the spec: the flags are part of the request. *)
Definition NDEV_SET_FLAGS : Z := 0x04.

(** Modelled from the spec: the media selection is part of the request. *)
Definition NDEV_SET_MEDIA : Z := 0x08.

(** Modelled from the spec: the hardware address is part of the request. *)
Definition NDEV_SET_HWADDR : Z := 0x10.

(** Modelled from the spec: the receive mode asks for the multicast
    addresses of the list that comes with the request. *)
Definition NDEV_MODE_MCAST_LIST : Z := 0x04.

Definition has_bit (x bit : Z) : bool := negb (Z.land x bit =? 0).

(** One buffer of a [struct pbuf] chain; a chain is the list of its
    buffers, linked by [next], and the NULL pointer is the empty list. *)
Record pbuf := mk_pbuf {
  payload : Z;
  tot_len : Z;
  len : Z
}.

(** The grant library.  A request that needs grants comes with the results
    of its successive calls of [cpf_grant_direct]; a call past the end of
    the list fails.  Calls are recorded in the trace with their result. *)
Definition grant_result (grants : list cp_grant_id_t) (i : nat)
    : cp_grant_id_t :=
  nth i grants GRANT_INVALID.

(** The ethif layer passes the driver by its slot number.  [ndev_conf],
    [ndev_send], [ndev_can_recv] and [ndev_recv] each start with the same
    three assertions on it and then work on the slot. *)
Definition ndev_of_id (id : nat) : M ndev :=
  c_assert (id <? NR_NDEV)%nat ;;
  d <- read_ndev id ;;
  c_assert (negb (ndev_endpt d =? NONE)) ;;
  c_assert (NDEV_ACTIVE d) ;;
  ret d.

Definition set_nreq_grant (nreq : nat) (i : nat) (grant : cp_grant_id_t)
    : M unit :=
  r <- read_req nreq ;;
  c_assert (i <? length (nreq_grant r))%nat ;;
  write_req nreq (mk_ndev_req (nreq_type r) (<[i := grant]> (nreq_grant r))
                              (nreq_id r)).

(** Ghost: record the sequence ID stored in the message of a request. *)
Definition set_nreq_id (nreq : nat) (seq : Z) : M unit :=
  r <- read_req nreq ;;
  write_req nreq (mk_ndev_req (nreq_type r) (nreq_grant r) seq).

(** Request that a network device driver change its configuration.  Return
    [OK] if the configuration request was sent to the driver, [EBUSY] if
    no (more) requests can be sent to the driver right now, or [ENOMEM] on
    grant allocation failure. *)
Definition ndev_conf (id : nat) (nconf : struct_ndev_conf)
    (grants : list cp_grant_id_t) : M errno :=
  d <- ndev_of_id id ;;
  got <- ndev_queue_get (id, SENDQ) NDEV_CONF ;;
  match got with
  | None => ret EBUSY
  | Some (nreq, seq) =>
      set_nreq_id nreq seq ;;
      let with_list := has_bit (nconf_set nconf) NDEV_SET_MODE
                       && has_bit (nconf_mode nconf) NDEV_MODE_MCAST_LIST in
      (if with_list then
         c_assert (bool_decide (nconf_mclist nconf <> None)) ;;
         c_assert (negb (nconf_mccount nconf =? 0))
       else ret tt) ;;
      let grant := if with_list then grant_result grants 0
                   else GRANT_INVALID in
      when with_list
        (emit (cpf_grant_direct (ndev_endpt d)
                 (default 0 (nconf_mclist nconf))
                 (Z.of_nat NDEV_HWADDR_MAX * nconf_mccount nconf)
                 CPF_READ grant)) ;;
      if with_list && negb (GRANT_VALID grant) then ret ENOMEM else
      let field (bit v : Z) := if has_bit (nconf_set nconf) bit then v else 0 in
      emit (asynsend3 (ndev_endpt d)
              (M_CONF seq (nconf_set nconf)
                 (field NDEV_SET_MODE (nconf_mode nconf))
                 grant
                 (if with_list then nconf_mccount nconf else 0)
                 (field NDEV_SET_CAPS (nconf_caps nconf))
                 (field NDEV_SET_FLAGS (nconf_flags nconf))
                 (field NDEV_SET_MEDIA (nconf_media nconf))
                 (if has_bit (nconf_set nconf) NDEV_SET_HWADDR
                  then nconf_hwaddr nconf else []))) ;;
      set_nreq_grant nreq 0 grant ;;   (* may also be invalid *)
      set_nreq_grant nreq 1 GRANT_INVALID ;;
      ndev_queue_add (id, SENDQ) nreq ;;
      ret OK
  end.

(** The inner loop of [ndev_transfer] on a grant failure at index [i]:
    revoke the grants stored so far, last one first. *)
Fixpoint ndev_transfer_undo (nreq : nat) (i : nat) : M unit :=
  match i with
  | O => ret tt
  | S j =>
      r <- read_req nreq ;;
      match nreq_grant r !! j with
      | Some grant => emit (cpf_revoke grant) ;; ndev_transfer_undo nreq j
      | None => panic
      end
  end.

(** The loop of [ndev_transfer] over the buffers of the chain, from the
    index [i] on.  It returns [None] on a grant allocation failure,
    otherwise the final index with the grants and the lengths stored in
    the message, in order. *)
Fixpoint ndev_transfer_loop (endpt : endpoint_t) (do_send : bool) (nreq : nat)
    (grants : list cp_grant_id_t) (chain : list pbuf) (left : Z) (i : nat)
    (mgrant : list cp_grant_id_t) (mlen : list Z)
    : M (option (nat * list cp_grant_id_t * list Z)) :=
  if 0 <? left then
    c_assert (i <? NDEV_IOV_MAX)%nat ;;
    match chain with
    | [] => panic                          (* pbuf is NULL *)
    | p :: next =>
        let grant := grant_result grants i in
        emit (cpf_grant_direct endpt (payload p) (len p)
                (if do_send then CPF_READ else CPF_WRITE) grant) ;;
        if negb (GRANT_VALID grant) then
          ndev_transfer_undo nreq i ;;
          ret None
        else
          set_nreq_grant nreq i grant ;;
          c_assert (len p <=? left) ;;
          ndev_transfer_loop endpt do_send nreq grants next (left - len p)
            (S i) (mgrant ++ [grant]) (mlen ++ [len p])
    end
  else ret (Some (i, mgrant, mlen)).

(** Construct a packet send or receive request and send it off to a
    network driver.  Return [OK] if the request was successfully sent, or
    [ENOMEM] on grant allocation failure. *)
Definition ndev_transfer (slot : nat) (chain : list pbuf) (do_send : bool)
    (seq : Z) (nreq : nat) (grants : list cp_grant_id_t) : M errno :=
  d <- read_ndev slot ;;
  set_nreq_id nreq seq ;;
  match chain with
  | [] => panic                            (* pbuf->tot_len of NULL *)
  | p :: _ =>
      built <- ndev_transfer_loop (ndev_endpt d) do_send nreq grants chain
                 (tot_len p) 0 [] [] ;;
      match built with
      | None => ret ENOMEM
      | Some (i, mgrant, mlen) =>
          (* An invalid grant marks the end of the list, unless it is full. *)
          when (i <? NDEV_IOV_MAX)%nat (set_nreq_grant nreq i GRANT_INVALID) ;;
          emit (asynsend3 (ndev_endpt d) (M_TRANSFER do_send seq mgrant mlen i)) ;;
          ret OK
      end
  end.

(** Send a packet to the given network driver.  Return [OK] if the packet
    is sent off to the driver, [EBUSY] if no (more) packets can be sent to
    the driver at this time, or [ENOMEM] on grant allocation failure. *)
Definition ndev_send (id : nat) (chain : list pbuf)
    (grants : list cp_grant_id_t) : M errno :=
  _ <- ndev_of_id id ;;
  got <- ndev_queue_get (id, SENDQ) NDEV_SEND ;;
  match got with
  | None => ret EBUSY
  | Some (nreq, seq) =>
      r <- ndev_transfer id chain true seq nreq grants ;;
      match r with
      | OK => ndev_queue_add (id, SENDQ) nreq ;; ret OK
      | _ => ret r
      end
  end.

(** Return [true] if a new receive request can be spawned for a particular
    network driver, or [false] if its queue of receive requests is full. *)
Definition ndev_can_recv (id : nat) : M bool :=
  d <- ndev_of_id id ;;
  ret (nq_count (ndev_recvq d) <? nq_max (ndev_recvq d)).

(** Start the process of receiving a packet from a network driver.  Return
    [OK] if the receive request is sent to the driver, [EBUSY] if the
    maximum number of concurrent receive requests has been reached for
    this driver, or [ENOMEM] on grant allocation failure. *)
Definition ndev_recv (id : nat) (chain : list pbuf)
    (grants : list cp_grant_id_t) : M errno :=
  _ <- ndev_of_id id ;;
  got <- ndev_queue_get (id, RECVQ) NDEV_RECV ;;
  match got with
  | None => ret EBUSY
  | Some (nreq, seq) =>
      r <- ndev_transfer id chain false seq nreq grants ;;
      match r with
      | OK => ndev_queue_add (id, RECVQ) nreq ;; ret OK
      | _ => ret r
      end
  end.

(** What the ethif layer asks of this module. *)
Inductive request :=
| REQ_CONF (id : nat) (nconf : struct_ndev_conf) (grants : list cp_grant_id_t)
| REQ_SEND (id : nat) (chain : list pbuf) (grants : list cp_grant_id_t)
| REQ_CAN_RECV (id : nat)
| REQ_RECV (id : nat) (chain : list pbuf) (grants : list cp_grant_id_t).

Definition ndev_request (r : request) : M unit :=
  match r with
  | REQ_CONF id nconf grants => _ <- ndev_conf id nconf grants ;; ret tt
  | REQ_SEND id chain grants => _ <- ndev_send id chain grants ;; ret tt
  | REQ_CAN_RECV id => _ <- ndev_can_recv id ;; ret tt
  | REQ_RECV id chain grants => _ <- ndev_recv id chain grants ;; ret tt
  end.

Fixpoint ndev_requests (rs : list request) : M unit :=
  match rs with
  | [] => ret tt
  | r :: rs' => ndev_request r ;; ndev_requests rs'
  end.

(** ** Replies of the drivers *)

(** How the ethif layer answers the calls made while an initialization
    reply is processed: the object that [ethif_add] returns (or NULL), the
    requests that [ethif_enable] issues before it returns, and its
    result. *)
Record ethif_env := mk_ethif_env {
  ethif_add_result : option ethif_ptr;
  ethif_enable_calls : list request;
  ethif_enable_result : bool
}.

Definition is_nul (c : ascii) : bool := Ascii.eqb c Ascii.zero.

(** The sanity check of [ndev_init_reply] on the name buffer: [memchr]
    finds no NUL byte in it, or its first byte is NUL. *)
Definition invalid_name (name : list ascii) : bool :=
  negb (existsb is_nul name) || is_nul (hd Ascii.zero name).

(** The hardware address handed to [ethif_enable]: a zeroed [struct
    ndev_hwaddr] with the first [hwaddr_len] bytes of the reply. *)
Definition copy_hwaddr (hwaddr : list Z) (hwaddr_len : Z) : list Z :=
  take (Z.to_nat hwaddr_len) hwaddr
  ++ replicate (NDEV_HWADDR_MAX - Z.to_nat hwaddr_len) 0.

(** A network device driver has sent a reply to our initialization
    request. *)
Definition ndev_init_reply (slot : nat) (source : endpoint_t) (m : init_reply)
    (env : ethif_env) : M unit :=
  d <- read_ndev slot ;;
  (* Make sure that we were waiting for a reply to an initialization
     request, and that this is the reply to that request. *)
  if NDEV_ACTIVE d || negb (ir_id m =? nq_head (ndev_sendq d)) then ret tt else
  if invalid_name (ir_name m) then
    emit (printf ("LWIP: driver %d provided invalid name" ++ LF) [source]) ;;
    ndev_down slot
  else
  let hwaddr_len := u8 (ir_hwaddr_len m) in
  if (hwaddr_len <? 1) || (Z.of_nat NDEV_HWADDR_MAX <? hwaddr_len) then
    emit (printf ("LWIP: driver %d provided invalid HW-addr length" ++ LF)
            [source]) ;;
    ndev_down slot
  else
  let max_send := u8 (ir_max_send m) in
  let max_recv := u8 (ir_max_recv m) in
  if (max_send <? 1) || (max_recv <? 1) then
    emit (printf ("LWIP: driver %d provided invalid queue maximum" ++ LF)
            [source]) ;;
    ndev_down slot
  else
  (* If the driver is new, allocate a new ethif object for it. *)
  name <- match ndev_ethif d with
          | None =>
              emit (ethif_add slot (ir_name m) (ir_caps m)) ;;
              write_ndev slot (mk_ndev (ndev_endpt d) (ndev_label d)
                                       (ethif_add_result env)
                                       (ndev_sendq d) (ndev_recvq d)) ;;
              ret None
          | Some _ => ret (Some (ir_name m))
          end ;;
  d <- read_ndev slot ;;
  enabled <- match ndev_ethif d with
             | Some ethif =>
                 (* Set the maximum numbers of pending requests first. *)
                 let sendq := ndev_sendq d in
                 let recvq := ndev_recvq d in
                 let max_recv :=
                   if NDEV_RECVQ <? max_recv then NDEV_RECVQ else max_recv in
                 write_ndev slot
                   (mk_ndev (ndev_endpt d) (ndev_label d) (ndev_ethif d)
                      (mk_ndev_queue (u32 (nq_head sendq + 1)) (nq_count sendq)
                                     max_send (nq_req sendq))
                      (mk_ndev_queue (u32 (nq_head recvq + 1)) (nq_count recvq)
                                     max_recv (nq_req recvq))) ;;
                 emit (ethif_enable ethif name
                         (copy_hwaddr (ir_hwaddr m) hwaddr_len)
                         (ir_hwaddr_len m) (ir_caps m) (ir_link m)
                         (ir_media m)) ;;
                 ndev_requests (ethif_enable_calls env) ;;
                 ret (ethif_enable_result env)
             | None => ret false
             end ;;
  (* If we did not manage to enable the interface, remove it again. *)
  if negb enabled then ndev_down slot
  else modify (fun st => set_ndev_pending (ndev_pending st - 1) st).

(** The three request replies share one shape: remove the head of the
    queue if the reply answers it, then tell the ethif layer. *)
Definition ndev_reply (slot : nat) (q : qsel) (type : req_type) (id : Z)
    (call : ethif_ptr -> output) : M unit :=
  d <- read_ndev slot ;;
  if negb (NDEV_ACTIVE d) then ret tt else
  removed <- ndev_queue_remove (slot, q) type id ;;
  if negb removed then ret tt else
  d <- read_ndev slot ;;
  match ndev_ethif d with
  | None => panic                     (* assert(ndev->ndev_ethif != NULL) *)
  | Some ethif => emit (call ethif)
  end.

(** The network device driver has sent a reply to a configuration
    request. *)
Definition ndev_conf_reply (slot : nat) (id result : Z) : M unit :=
  ndev_reply slot SENDQ NDEV_CONF id (fun ethif => ethif_configured ethif result).

(** The network device driver has sent a reply to a send request. *)
Definition ndev_send_reply (slot : nat) (id result : Z) : M unit :=
  ndev_reply slot SENDQ NDEV_SEND id (fun ethif => ethif_sent ethif result).

(** The network device driver has sent a reply to a receive request. *)
Definition ndev_recv_reply (slot : nat) (id result : Z) : M unit :=
  ndev_reply slot RECVQ NDEV_RECV id (fun ethif => ethif_received ethif result).

(** A network device driver sent a status report to us.  Process it and
    send a reply. *)
Definition ndev_status (slot : nat) (source : endpoint_t) (s : status_report)
    : M unit :=
  d <- read_ndev slot ;;
  if negb (NDEV_ACTIVE d) then ret tt else
  match ndev_ethif d with
  | None => panic                     (* assert(ndev->ndev_ethif != NULL) *)
  | Some ethif =>
      emit (ethif_status ethif (sr_link s) (sr_media s) (sr_oerror s)
              (sr_coll s) (sr_ierror s) (sr_iqdrop s)) ;;
      emit (asynsend source (M_STATUS_REPLY (sr_id s)))
  end.

(** The search loop of [ndev_process]: the first slot below [ndev_max]
    whose endpoint is [endpt]. *)
Fixpoint ndev_find (endpt : endpoint_t) (l : list ndev) (slot : nat)
    : option nat :=
  match l with
  | [] => None
  | d :: l' =>
      if ndev_endpt d =? endpt then Some slot else ndev_find endpt l' (S slot)
  end.

(** Process a network driver reply message. *)
Definition ndev_process (m : message) (env : ethif_env) : M unit :=
  arr <- gets ndev_array ;;
  max <- gets ndev_max ;;
  match ndev_find (m_source m) (take max arr) 0 with
  | None => ret tt                    (* drop the message *)
  | Some slot =>
      match m_body m with
      | NDEV_INIT_REPLY r => ndev_init_reply slot (m_source m) r env
      | NDEV_CONF_REPLY id result => ndev_conf_reply slot id result
      | NDEV_SEND_REPLY id result => ndev_send_reply slot id result
      | NDEV_RECV_REPLY id result => ndev_recv_reply slot id result
      | NDEV_STATUS s => ndev_status slot (m_source m) s
      | NDEV_OTHER _ => ret tt
      end
  end.

(** ** Runs of the module

    The service is an event loop: each event is a call of one entry point
    of the module, together with what its environment answers. *)
Inductive event :=
| EV_CHECK (changes : list ds_entry) (r : Z) (ds_label : string -> bool)
| EV_PROCESS (m : message) (env : ethif_env)
| EV_REQUEST (r : request).

Definition step (e : event) (st : ndev_state) : option ndev_state :=
  match e with
  | EV_CHECK changes r ds_label =>
      snd <$> ndev_check changes r ds_label st
  | EV_PROCESS m env => snd <$> ndev_process m env st
  | EV_REQUEST r => snd <$> ndev_request r st
  end.

Fixpoint run (es : list event) (st : ndev_state) : option ndev_state :=
  match es with
  | [] => Some st
  | e :: es' => match step e st with
                | Some st' => run es' st'
                | None => None
                end
  end.


(** Messages come from a process: the IPC primitive never delivers a
    message whose source is [NONE]. *)
Definition valid_event (e : event) : Prop :=
  match e with
  | EV_PROCESS m _ => m_source m <> NONE
  | _ => True
  end.

(** The states that the module reaches from its initial state. *)
Inductive reachable : ndev_state -> Prop :=
| reachable_init : reachable ndev_init
| reachable_step st e st' :
    reachable st -> valid_event e -> step e st = Some st' -> reachable st'.

(** ** The states of a driver slot *)

Definition slot_vacant (d : ndev) : bool := ndev_endpt d =? NONE.

Definition slot_initializing (d : ndev) : bool :=
  negb (ndev_endpt d =? NONE) && (nq_max (ndev_sendq d) =? 0).

Definition slot_active (d : ndev) : bool :=
  negb (ndev_endpt d =? NONE) && NDEV_ACTIVE d.

(** The number of slots of the table, below [ndev_max], that hold an
    initializing driver. *)
Definition count_initializing (st : ndev_state) : Z :=
  Z.of_nat (length (List.filter slot_initializing
                      (take (ndev_max st) (ndev_array st)))).

(** ** Invariants *)

Definition sumZ {A} (f : A -> Z) (l : list A) : Z :=
  foldr (fun x acc => f x + acc) 0 l.

(** The spare request objects that the send queue of a driver holds: those
    beyond its guaranteed depth. *)
Definition spare_use (d : ndev) : Z :=
  Z.max 0 (nq_count (ndev_sendq d) - NDEV_SENDQ).

Definition spares_in_use (st : ndev_state) : Z :=
  sumZ spare_use (ndev_array st).

(** The request objects in the queues of a driver, and of the table. *)
Definition queued (d : ndev) : list nat :=
  nq_req (ndev_sendq d) ++ nq_req (ndev_recvq d).

Definition all_queued (arr : list ndev) : list nat := concat (map queued arr).

(** The sequence IDs sent with the requests of a queue, oldest first. *)
Definition queue_ids (reqs : list ndev_req) (nq : ndev_queue) : list Z :=
  omap (fun nreq => nreq_id <$> reqs !! nreq) (nq_req nq).

(** The IDs [head], [head + 1], ..., [head + count - 1], as [uint32_t]. *)
Definition ids_from (head : Z) (count : nat) : list Z :=
  map (fun i : nat => u32 (head + Z.of_nat i)) (seq 0 count).

(** A well-formed queue: its count is the length of its list and does not
    exceed its maximum; the receive queue is bounded by [NDEV_RECVQ]; the
    receive queue holds receive requests and the send queue holds none;
    the [j]-th request was sent with the ID [nq_head + j]. *)
Definition queue_wf (reqs : list ndev_req) (s : qsel) (nq : ndev_queue) : Prop :=
  nq_count nq = Z.of_nat (length (nq_req nq)) /\
  nq_count nq <= nq_max nq <= 255 /\
  0 <= nq_head nq < 2 ^ 32 /\
  (s = RECVQ -> nq_max nq <= NDEV_RECVQ) /\
  forall (j nreq : nat), nq_req nq !! j = Some nreq ->
    exists r, reqs !! nreq = Some r /\
              (nreq_type r = NDEV_RECV <-> s = RECVQ) /\
              nreq_id r = u32 (nq_head nq + Z.of_nat j).

(** The invariant of the request pool and the queues. *)
Record pool_inv (st : ndev_state) : Prop := mk_pool_inv {
  pool_nreq_length : length (nreq_array st) = NR_NREQ;
  pool_grant_length :
    forall nreq r, nreq_array st !! nreq = Some r ->
      length (nreq_grant r) = NDEV_IOV_MAX;
  pool_partition :
    nreq_freelist st ++ all_queued (ndev_array st) ≡ₚ seq 0 NR_NREQ;
  pool_spares_nonneg : 0 <= nreq_spares st;
  pool_spares : nreq_spares st = NREQ_SPARES - spares_in_use st;
  pool_ndev_length : length (ndev_array st) = NR_NDEV;
  pool_queues :
    forall slot d s, ndev_array st !! slot = Some d ->
      queue_wf (nreq_array st) s (queue_of s d)
}.

(** The invariant of the driver table: slots without a driver, and the
    slots from [ndev_max] on, have closed queues; the two queues of a slot
    open and close together; an active driver has an ethif object. *)
Record table_inv (st : ndev_state) : Prop := mk_table_inv {
  table_max : (ndev_max st <= NR_NDEV)%nat;
  table_vacant :
    forall slot d, ndev_array st !! slot = Some d ->
      (ndev_max st <= slot)%nat \/ ndev_endpt d = NONE ->
      nq_max (ndev_sendq d) = 0;
  table_both :
    forall slot d, ndev_array st !! slot = Some d ->
      (nq_max (ndev_sendq d) = 0 <-> nq_max (ndev_recvq d) = 0);
  table_ethif :
    forall slot d, ndev_array st !! slot = Some d ->
      NDEV_ACTIVE d = true -> ndev_ethif d <> None
}.

Definition inv (st : ndev_state) : Prop := pool_inv st /\ table_inv st.

(** ** Vocabulary of the properties

    The definitions below name the states and the effects that the
    properties of the module speak about. *)

(** The grants that [ndev_queue_advance] revokes for a request. *)
Fixpoint valid_grants (gs : list cp_grant_id_t) : list cp_grant_id_t :=
  match gs with
  | [] => []
  | g :: gs' => if GRANT_VALID g then g :: valid_grants gs' else []
  end.

(** The spare object, if any, behind the last request of a queue that
    holds [count] requests. *)
Definition spare_of (s : qsel) (count : Z) : Z :=
  match s with
  | SENDQ => if NDEV_SENDQ <? count then 1 else 0
  | RECVQ => 0
  end.

(** The state after the head of the queue [s] of [slot] is released. *)
Definition advanced (slot : nat) (s : qsel) (d : ndev) (nreq : nat)
    (rest : list nat) (r : ndev_req) (st : ndev_state) : ndev_state :=
  let nq := queue_of s d in
  set_ndev_array
    (<[slot := set_queue_of s
                 (mk_ndev_queue (u32 (nq_head nq + 1)) (nq_count nq - 1)
                                (nq_max nq) rest) d]> (ndev_array st))
    (set_nreq_freelist (nreq :: nreq_freelist st)
       (set_nreq_spares (nreq_spares st + spare_of s (nq_count nq))
          (set_trace (trace st ++ map cpf_revoke (valid_grants (nreq_grant r)))
             st))).

(** What is left alone when requests of a queue are released: the request
    objects, the other fields of the state, and the trace but for the
    revocations. *)
Definition released (st st' : ndev_state) : Prop :=
  nreq_array st' = nreq_array st /\
  ndev_max st' = ndev_max st /\
  ndev_pending st' = ndev_pending st /\
  reported st' = reported st /\
  exists gs, trace st' = trace st ++ map cpf_revoke gs.

(** The guaranteed part of the queues of a driver. *)
Definition reserved_use (d : ndev) : Z :=
  Z.min (nq_count (ndev_sendq d)) NDEV_SENDQ + nq_count (ndev_recvq d).

(** The admission test of [ndev_queue_get]. *)
Definition get_denied (type : req_type) (nq : ndev_queue) (spares : Z) : bool :=
  (nq_count nq =? nq_max nq)
  || (negb (req_type_eqb type NDEV_RECV) && (NDEV_SENDQ <=? nq_count nq)
      && (spares =? 0)).

(** The state after the request object [nreq], first of the free list
    [nreq :: fl], is added to the queue [s] of [slot]. *)
Definition added (slot : nat) (s : qsel) (d : ndev) (nreq : nat)
    (fl : list nat) (st : ndev_state) : ndev_state :=
  let nq := queue_of s d in
  set_ndev_array
    (<[slot := set_queue_of s
                 (mk_ndev_queue (nq_head nq) (nq_count nq + 1) (nq_max nq)
                                (nq_req nq ++ [nreq])) d]> (ndev_array st))
    (set_nreq_freelist fl
       (set_nreq_spares (nreq_spares st - spare_of s (nq_count nq + 1)) st)).

(** The record of a slot whose driver is gone: both queues are cleared. *)
Definition closed_queue (nq : ndev_queue) : ndev_queue :=
  mk_ndev_queue (u32 (nq_head nq + nq_count nq)) 0 0 [].

Definition downed (d : ndev) : ndev :=
  mk_ndev NONE (ndev_label d) (ndev_ethif d)
          (closed_queue (ndev_sendq d)) (closed_queue (ndev_recvq d)).

(** While a request is built, only the grants of its request object and
    the trace change. *)
Definition req_touched (nreq : nat) (st st' : ndev_state) : Prop :=
  nreq_freelist st' = nreq_freelist st /\
  nreq_spares st' = nreq_spares st /\
  ndev_array st' = ndev_array st /\
  ndev_max st' = ndev_max st /\
  ndev_pending st' = ndev_pending st /\
  reported st' = reported st /\
  length (nreq_array st') = length (nreq_array st) /\
  (forall n, n <> nreq -> nreq_array st' !! n = nreq_array st !! n) /\
  (forall r, nreq_array st !! nreq = Some r ->
     exists r', nreq_array st' !! nreq = Some r' /\
                length (nreq_grant r') = length (nreq_grant r)).

(** What the loop does, as a function of the chain and of the results of
    the grant library: it stops on a failed assertion or a NULL buffer, or
    the grant for the buffer [k] fails, or it ends after [k] buffers. *)
Inductive loop_outcome := LOOP_PANIC | LOOP_ENOMEM (k : nat) | LOOP_OK (k : nat).

Fixpoint transfer_outcome (grants : list cp_grant_id_t) (chain : list pbuf)
    (left : Z) (i : nat) : loop_outcome :=
  if 0 <? left then
    if (i <? NDEV_IOV_MAX)%nat then
      match chain with
      | [] => LOOP_PANIC
      | p :: next =>
          if negb (GRANT_VALID (grant_result grants i)) then LOOP_ENOMEM i
          else if len p <=? left
               then transfer_outcome grants next (left - len p) (S i)
               else LOOP_PANIC
      end
    else LOOP_PANIC
  else LOOP_OK i.

(** The calls of [cpf_grant_direct] for the first [n] buffers of a chain,
    the first of which has the index [i]. *)
Fixpoint grant_calls (endpt : endpoint_t) (do_send : bool)
    (grants : list cp_grant_id_t) (chain : list pbuf) (i n : nat) {struct n}
    : list output :=
  match n, chain with
  | S n', p :: next =>
      cpf_grant_direct endpt (payload p) (len p)
        (if do_send then CPF_READ else CPF_WRITE) (grant_result grants i)
      :: grant_calls endpt do_send grants next (S i) n'
  | _, _ => []
  end.

(** The grants with the indices below [k], last one first. *)
Definition grants_below (grants : list cp_grant_id_t) (k : nat)
    : list cp_grant_id_t :=
  rev (map (grant_result grants) (seq 0 k)).

(** [ndev_send] and [ndev_recv] are one function, on the send queue with
    send requests and on the receive queue with receive requests. *)
Definition ndev_sendrecv (s : qsel) (type : req_type) (do_send : bool)
    (id : nat) (chain : list pbuf) (grants : list cp_grant_id_t) : M errno :=
  _ <- ndev_of_id id ;;
  got <- ndev_queue_get (id, s) type ;;
  match got with
  | None => ret EBUSY
  | Some (nreq, seq) =>
      r <- ndev_transfer id chain do_send seq nreq grants ;;
      match r with
      | OK => ndev_queue_add (id, s) nreq ;; ret OK
      | _ => ret r
      end
  end.

(** Whether a configuration request carries a multicast list, and the
    call of [cpf_grant_direct] that it then makes. *)
Definition conf_with_list (nconf : struct_ndev_conf) : bool :=
  has_bit (nconf_set nconf) NDEV_SET_MODE
  && has_bit (nconf_mode nconf) NDEV_MODE_MCAST_LIST.

Definition conf_grant_call (d : ndev) (nconf : struct_ndev_conf)
    (grants : list cp_grant_id_t) : output :=
  cpf_grant_direct (ndev_endpt d) (default 0 (nconf_mclist nconf))
    (Z.of_nat NDEV_HWADDR_MAX * nconf_mccount nconf) CPF_READ
    (grant_result grants 0).

(** The sanity checks of [ndev_init_reply] on the hardware address length
    and on the queue maxima of the reply. *)
Definition invalid_hwaddr_len (m : init_reply) : bool :=
  (u8 (ir_hwaddr_len m) <? 1) || (Z.of_nat NDEV_HWADDR_MAX <? u8 (ir_hwaddr_len m)).

Definition invalid_queue_max (m : init_reply) : bool :=
  (u8 (ir_max_send m) <? 1) || (u8 (ir_max_recv m) <? 1).

(** The ethif object of the driver once [ethif_add] has been called, if it
    had to be. *)
Definition ethif_after_add (d : ndev) (env : ethif_env) : option ethif_ptr :=
  match ndev_ethif d with
  | None => ethif_add_result env
  | Some ethif => Some ethif
  end.

Definition add_calls (slot : nat) (d : ndev) (m : init_reply) : list output :=
  match ndev_ethif d with
  | None => [ethif_add slot (ir_name m) (ir_caps m)]
  | Some _ => []
  end.

(** The record of the slot when [ethif_enable] is called. *)
Definition enabled_ndev (d : ndev) (m : init_reply) (ethif : ethif_ptr) : ndev :=
  mk_ndev (ndev_endpt d) (ndev_label d) (Some ethif)
    (mk_ndev_queue (u32 (nq_head (ndev_sendq d) + 1)) (nq_count (ndev_sendq d))
                   (u8 (ir_max_send m)) (nq_req (ndev_sendq d)))
    (mk_ndev_queue (u32 (nq_head (ndev_recvq d) + 1)) (nq_count (ndev_recvq d))
                   (if NDEV_RECVQ <? u8 (ir_max_recv m)
                    then NDEV_RECVQ else u8 (ir_max_recv m))
                   (nq_req (ndev_recvq d))).

(** The state in which [ethif_enable] is called: the call is the last one
    of the trace. *)
Definition enable_state (slot : nat) (d : ndev) (m : init_reply)
    (ethif : ethif_ptr) (st : ndev_state) : ndev_state :=
  set_trace
    (trace st ++ add_calls slot d m
     ++ [ethif_enable ethif
           (match ndev_ethif d with None => None | Some _ => Some (ir_name m) end)
           (copy_hwaddr (ir_hwaddr m) (u8 (ir_hwaddr_len m)))
           (ir_hwaddr_len m) (ir_caps m) (ir_link m) (ir_media m)])
    (set_ndev_array (<[slot := enabled_ndev d m ethif]> (ndev_array st)) st).

(** What follows the call of [ethif_enable]: the requests that the ethif
    layer issues from within the call, then the end of
    [ndev_init_reply]. *)
Definition after_enable (slot : nat) (env : ethif_env) : M unit :=
  ndev_requests (ethif_enable_calls env) ;;
  if negb (ethif_enable_result env) then ndev_down slot
  else modify (fun st => set_ndev_pending (ndev_pending st - 1) st).

(** The spare pool is balanced: the free spares and the spares in use add
    up to [NREQ_SPARES]. *)
Definition spares_balanced (st : ndev_state) : Prop :=
  nreq_spares st = NREQ_SPARES - spares_in_use st.

(** The data store announces that the driver [label] is up, at the
    endpoint [endpt]; the labels of all known drivers are still there. *)
Definition ev_up (label : string) (endpt : endpoint_t) : event :=
  EV_CHECK [mk_ds_entry (ds_prefix ++ label) endpt true] ENOENT (fun _ => true).

(** The data store has nothing new, and no label is left in it. *)
Definition ev_down : event := EV_CHECK [] ENOENT (fun _ => false).

(** The name buffer of an initialization reply, of [LABEL_MAX] bytes. *)
Definition eth0 : list ascii :=
  list_ascii_of_string "eth0" ++ replicate 12 Ascii.zero.

(** An initialization reply with a hardware address of six bytes that
    advertises 16 send and 16 receive requests. *)
Definition sample_reply (id : Z) (name : list ascii) : init_reply :=
  mk_init_reply id name [1; 2; 3; 4; 5; 6] 6 0 1 1 16 16.

(** The ethif layer accepts the interface, and issues no request from
    within [ethif_enable]. *)
Definition sample_env : ethif_env := mk_ethif_env (Some 77) [] true.

(** The driver at [source] answers the initialization request [id]. *)
Definition ev_init_reply (source : endpoint_t) (id : Z) (name : list ascii)
    : event :=
  EV_PROCESS (mk_message source (NDEV_INIT_REPLY (sample_reply id name)))
             sample_env.

(** A driver comes up and answers the initialization request. *)
Definition cold_start : list event :=
  [ev_up "e0" 1001; ev_init_reply 1001 1 eth0].

(** The state with one active driver, in the slot 0. *)
Definition st_active : ndev_state :=
  Eval vm_compute in default ndev_init (run cold_start ndev_init).

(** The three replies to requests, with the queue that each one answers,
    the type of the request that it answers, and the call that forwards
    it to the ethif layer. *)
Inductive reply_kind := REPLY_CONF | REPLY_SEND | REPLY_RECV.

Definition reply_handler (k : reply_kind) : nat -> Z -> Z -> M unit :=
  match k with
  | REPLY_CONF => ndev_conf_reply
  | REPLY_SEND => ndev_send_reply
  | REPLY_RECV => ndev_recv_reply
  end.

Definition reply_queue (k : reply_kind) : qsel :=
  match k with REPLY_CONF | REPLY_SEND => SENDQ | REPLY_RECV => RECVQ end.

Definition reply_type (k : reply_kind) : req_type :=
  match k with
  | REPLY_CONF => NDEV_CONF
  | REPLY_SEND => NDEV_SEND
  | REPLY_RECV => NDEV_RECV
  end.

Definition reply_call (k : reply_kind) (ethif : ethif_ptr) (result : Z)
    : output :=
  match k with
  | REPLY_CONF => ethif_configured ethif result
  | REPLY_SEND => ethif_sent ethif result
  | REPLY_RECV => ethif_received ethif result
  end.

(** The queue is not empty, its head has the sequence ID [id], and the
    request object at its head has the type [type]. *)
Definition head_matches (st : ndev_state) (nq : ndev_queue) (type : req_type)
    (id : Z) : Prop :=
  exists nreq rest r,
    nq_req nq = nreq :: rest /\
    nreq_array st !! nreq = Some r /\
    nq_head nq = id /\
    nreq_type r = type.

(** A zeroed slot of the driver table. *)
Definition ndev_zero : ndev :=
  mk_ndev 0 EmptyString None (ndev_queue_zero 0) (ndev_queue_zero 0).

(** The slot 0 of [st_active]. *)
Definition d_active : ndev :=
  Eval vm_compute in default ndev_zero (ndev_array st_active !! 0%nat).

(** The driver has come up and has not answered yet. *)
Definition st_up : ndev_state :=
  Eval vm_compute in default ndev_init (run [ev_up "e0" 1001] ndev_init).

(** The slot 0 of [st_up]. *)
Definition d_up : ndev :=
  Eval vm_compute in default ndev_zero (ndev_array st_up !! 0%nat).

(** The active driver has been sent one packet, in one buffer. *)
Definition packet : list pbuf := [mk_pbuf 4096 64 64].

Definition sent_one : list event :=
  cold_start ++ [EV_REQUEST (REQ_SEND 0 packet [5])].

Definition st_sent : ndev_state :=
  Eval vm_compute in default ndev_init (run sent_one ndev_init).

(** The slot 0 of [st_sent]. *)
Definition d_sent : ndev :=
  Eval vm_compute in default ndev_zero (ndev_array st_sent !! 0%nat).

(** A packet in two buffers, for which the second grant fails. *)
Definition packet2 : list pbuf := [mk_pbuf 4096 128 64; mk_pbuf 8192 64 64].

(** Ten send requests and two receive requests are pending for the active
    driver: the receive queue is at its maximum, and the send queue has
    used up its guaranteed depth and all the spares. *)
Definition busy_start : list event :=
  cold_start
  ++ replicate 10 (EV_REQUEST (REQ_SEND 0 packet [5]))
  ++ replicate 2 (EV_REQUEST (REQ_RECV 0 packet [6])).

Definition st_busy : ndev_state :=
  Eval vm_compute in default ndev_init (run busy_start ndev_init).

(** The slot 0 of [st_busy]. *)
Definition d_busy : ndev :=
  Eval vm_compute in default ndev_zero (ndev_array st_busy !! 0%nat).

(** The grants that releasing the requests [l] revokes, oldest request
    first. *)
Definition queue_grants (reqs : list ndev_req) (l : list nat)
    : list cp_grant_id_t :=
  flat_map (fun nreq => match reqs !! nreq with
                        | Some r => valid_grants (nreq_grant r)
                        | None => []
                        end) l.

(** The part of the state that the release of requests changes besides the
    driver table. *)
Record released_to (l : list nat) (st st' : ndev_state) : Prop := mk_released_to {
  rel_reqs : nreq_array st' = nreq_array st;
  rel_free : nreq_freelist st' = rev l ++ nreq_freelist st;
  rel_trace :
    trace st' = trace st ++ map cpf_revoke (queue_grants (nreq_array st) l);
  rel_max : ndev_max st' = ndev_max st;
  rel_pending : ndev_pending st' = ndev_pending st;
  rel_reported : reported st' = reported st
}.

(** A slot that holds a driver with the given label. *)
Definition holds_label (label : string) (d : ndev) : Prop :=
  ndev_endpt d <> NONE /\ ndev_label d = label.

(** The slot of the table that holds the driver [label], if any: the first
    one below [ndev_max]. *)
Definition is_slot_of (label : string) (st : ndev_state) (slot : nat) : Prop :=
  (slot < ndev_max st)%nat /\
  (exists d, ndev_array st !! slot = Some d /\ holds_label label d) /\
  forall j dj, (j < slot)%nat -> ndev_array st !! j = Some dj ->
               ~ holds_label label dj.

(** No slot of the table below [ndev_max] holds the driver [label]. *)
Definition unknown_label (label : string) (st : ndev_state) : Prop :=
  forall j dj, (j < ndev_max st)%nat -> ndev_array st !! j = Some dj ->
               ~ holds_label label dj.

(** The slot that a new driver gets: the first slot below [ndev_max]
    without a driver, or else the slot [ndev_max] if the table has room. *)
Definition is_free_slot (st : ndev_state) (slot : nat) : Prop :=
  (slot < NR_NDEV)%nat /\ (slot <= ndev_max st)%nat /\
  (forall j dj, (j < slot)%nat -> ndev_array st !! j = Some dj ->
                ndev_endpt dj <> NONE) /\
  (forall d, (slot < ndev_max st)%nat -> ndev_array st !! slot = Some d ->
             ndev_endpt d = NONE).

(** The table is full: it has [NR_NDEV] drivers. *)
Definition table_full (st : ndev_state) : Prop :=
  ndev_max st = NR_NDEV /\
  forall j dj, (j < NR_NDEV)%nat -> ndev_array st !! j = Some dj ->
               ndev_endpt dj <> NONE.

(** The state after a new driver has been put into a slot. *)
Definition driver_added (slot : nat) (d : ndev) (label : string)
    (endpt : endpoint_t) (st : ndev_state) : ndev_state :=
  let head := u32 (nq_head (ndev_sendq d) + 1) in
  set_ndev_pending (ndev_pending st + 1)
    (set_trace (trace st ++ [asynsend3 endpt (M_INIT head)])
       (set_ndev_array
          (<[slot := mk_ndev endpt (strlcpy_label label) None
                       (mk_ndev_queue head 0 0 [])
                       (mk_ndev_queue (u32 (nq_head (ndev_recvq d) + 1)) 0 0 [])]>
             (ndev_array st))
          (set_ndev_max (Nat.max (ndev_max st) (S slot)) st))).

(** The test of the second loop of [ndev_check] on a slot: it holds a
    driver whose label the data store no longer has. *)
Definition is_gone (ds_label : string -> bool) (d : ndev) : bool :=
  negb (ndev_endpt d =? NONE) && negb (ds_label (ndev_label d)).

(** What the second loop of [ndev_check] makes of a slot of the table. *)
Definition checked_down (ds_label : string -> bool) (from max slot : nat)
    (d : ndev) : ndev :=
  if (from <=? slot)%nat && (slot <? max)%nat && is_gone ds_label d
  then downed d else d.

(** The slot of the driver that sent a message from [source]: the first
    slot below [ndev_max] with that endpoint. *)
Definition is_sender (st : ndev_state) (source : endpoint_t) (slot : nat) : Prop :=
  (slot < ndev_max st)%nat /\
  (exists d, ndev_array st !! slot = Some d /\ ndev_endpt d = source) /\
  forall j dj, (j < slot)%nat -> ndev_array st !! j = Some dj ->
               ndev_endpt dj <> source.

(** No slot below [ndev_max] has the endpoint [source]. *)
Definition unknown_sender (st : ndev_state) (source : endpoint_t) : Prop :=
  forall j dj, (j < ndev_max st)%nat -> ndev_array st !! j = Some dj ->
               ndev_endpt dj <> source.

(** The messages that [ndev_process] drops. *)
Definition dropped (d : ndev) (body : reply_body) : Prop :=
  match body with
  | NDEV_INIT_REPLY r =>
      NDEV_ACTIVE d = true \/ ir_id r <> nq_head (ndev_sendq d)
  | NDEV_CONF_REPLY _ _ | NDEV_SEND_REPLY _ _ | NDEV_RECV_REPLY _ _
  | NDEV_STATUS _ => NDEV_ACTIVE d = false
  | NDEV_OTHER _ => True
  end.

(** An initialization reply that passes the checks of [ndev_init_reply]. *)
Definition valid_init_reply (m : init_reply) : bool :=
  negb (invalid_name (ir_name m)) && negb (invalid_hwaddr_len m)
  && negb (invalid_queue_max m).

(** The first [k] buffers of the chain make up its first packet: each
    holds some data, and together they hold the [tot_len] bytes that the
    first buffer announces.  The chain may go on with other packets. *)
Definition packet_of (chain : list pbuf) (k : nat) : Prop :=
  match chain with
  | [] => False
  | p :: _ =>
      (k <= length chain)%nat /\
      Forall (fun b => 0 < len b) (take k chain) /\
      sumZ len (take k chain) = tot_len p
  end.

(** The state after a request has been built in the object [nreq] and
    has been added to the queue [s] of the slot [id]. *)
Record request_sent (id : nat) (s : qsel) (d : ndev) (nreq : nat) (fl : list nat)
    (type : req_type) (gs : list cp_grant_id_t) (out : list output)
    (st st' : ndev_state) : Prop := mk_request_sent {
  sent_table :
    ndev_array st'
    = <[id := set_queue_of s
                (mk_ndev_queue (nq_head (queue_of s d))
                   (nq_count (queue_of s d) + 1) (nq_max (queue_of s d))
                   (nq_req (queue_of s d) ++ [nreq])) d]> (ndev_array st);
  sent_free : nreq_freelist st = nreq :: fl /\ nreq_freelist st' = fl;
  sent_spares :
    nreq_spares st'
    = nreq_spares st - spare_of s (nq_count (queue_of s d) + 1);
  sent_trace : trace st' = trace st ++ out;
  sent_object :
    exists r', nreq_array st' !! nreq = Some r' /\
      nreq_type r' = type /\
      nreq_id r' = u32 (nq_head (queue_of s d) + nq_count (queue_of s d)) /\
      valid_grants (nreq_grant r') = gs;
  sent_others :
    length (nreq_array st') = length (nreq_array st) /\
    forall n, n <> nreq -> nreq_array st' !! n = nreq_array st !! n;
  sent_rest :
    ndev_max st' = ndev_max st /\ ndev_pending st' = ndev_pending st;
  sent_inv : inv st'
}.

(** The side of the interface that a request is on. *)
Definition transfer_queue (do_send : bool) : qsel :=
  if do_send then SENDQ else RECVQ.

Definition transfer_type (do_send : bool) : req_type :=
  if do_send then NDEV_SEND else NDEV_RECV.

Definition transfer_request (do_send : bool)
    : nat -> list pbuf -> list cp_grant_id_t -> M errno :=
  if do_send then ndev_send else ndev_recv.

(** The reply that answers a request. *)
Definition transfer_reply (do_send : bool) : reply_kind :=
  if do_send then REPLY_SEND else REPLY_RECV.

(** The configuration request that [ndev_conf] sends: the message is
    zeroed, and a setting is copied into it only if its bit is set in
    [nconf_set]. *)
Definition conf_message (seq : Z) (nconf : struct_ndev_conf)
    (grant : cp_grant_id_t) : request_msg :=
  let field (bit v : Z) := if has_bit (nconf_set nconf) bit then v else 0 in
  M_CONF seq (nconf_set nconf)
    (field NDEV_SET_MODE (nconf_mode nconf))
    grant
    (if conf_with_list nconf then nconf_mccount nconf else 0)
    (field NDEV_SET_CAPS (nconf_caps nconf))
    (field NDEV_SET_FLAGS (nconf_flags nconf))
    (field NDEV_SET_MEDIA (nconf_media nconf))
    (if has_bit (nconf_set nconf) NDEV_SET_HWADDR then nconf_hwaddr nconf else []).

(** What the table tells about the driver of a slot, its queues apart:
    the endpoint, the label, the ethif object and the two maxima. *)
Definition driver_view (d : ndev)
    : endpoint_t * string * option ethif_ptr * Z * Z :=
  (ndev_endpt d, ndev_label d, ndev_ethif d,
   nq_max (ndev_sendq d), nq_max (ndev_recvq d)).

(** The two states have the same drivers, in the same slots and in the
    same states, and count the same number of them as pending. *)
Definition same_drivers (st st' : ndev_state) : Prop :=
  map driver_view (ndev_array st') = map driver_view (ndev_array st) /\
  ndev_max st' = ndev_max st /\
  ndev_pending st' = ndev_pending st /\
  reported st' = reported st.

(** The events that are requests of the ethif layer, replies of a driver
    to such requests, and status reports. *)
Definition request_traffic (e : event) : Prop :=
  match e with
  | EV_REQUEST _ => True
  | EV_PROCESS m _ =>
      match m_body m with NDEV_INIT_REPLY _ => False | _ => True end
  | EV_CHECK _ _ _ => False
  end.

(** No two slots below [ndev_max] hold drivers with the same label. *)
Definition labels_unique (st : ndev_state) : Prop :=
  forall i j di dj,
    (i < ndev_max st)%nat -> (j < ndev_max st)%nat ->
    ndev_array st !! i = Some di -> ndev_array st !! j = Some dj ->
    ndev_endpt di <> NONE -> ndev_endpt dj <> NONE ->
    ndev_label di = ndev_label dj -> i = j.

(** Every initializing driver is counted in [ndev_pending]. *)
Definition pending_covers (st : ndev_state) : Prop :=
  count_initializing st <= ndev_pending st.

(** One for an initializing driver, as a function of the slot and of what
    the table tells about it. *)
Definition initc (d : ndev) : Z := if slot_initializing d then 1 else 0.

Definition view_initc (v : endpoint_t * string * option ethif_ptr * Z * Z) : Z :=
  let '(e, _, _, ms, _) := v in
  if negb (e =? NONE) && (ms =? 0) then 1 else 0.

Definition drivers_inv (st : ndev_state) : Prop :=
  labels_unique st /\ pending_covers st.

(** The number of entries that [ds_check] has yielded in the events
    [es]. *)
Definition ds_entries (es : list event) : Z :=
  sumZ (fun e => match e with
                 | EV_CHECK changes _ _ => Z.of_nat (length changes)
                 | _ => 0
                 end) es.

(** Modelled from the spec: [INT_MAX] (a system header, not part of the
    sources at hand) is the largest value of an [int], which has 32 bits
    on the platforms of the system. *)
Definition INT_MAX : Z := 2147483647.

(** Eight drivers come up: the table is full. *)
Definition full_start : list event :=
  [ev_up "e0" 1001; ev_up "e1" 1002; ev_up "e2" 1003; ev_up "e3" 1004;
   ev_up "e4" 1005; ev_up "e5" 1006; ev_up "e6" 1007; ev_up "e7" 1008].

Definition st_full : ndev_state :=
  Eval vm_compute in default ndev_init (run full_start ndev_init).

(** The slot 1 of [st_up], which holds no driver. *)
Definition d_free : ndev :=
  Eval vm_compute in default ndev_zero (ndev_array st_up !! 1%nat).

(** [ethif_add] returns no object. *)
Definition env_no_ethif : ethif_env := mk_ethif_env None [] true.

(** A status report with the ID 9. *)
Definition sample_status : status_report := mk_status_report 9 1 0 0 0 0 0.

(** A configuration request that sets nothing. *)
Definition conf_nothing : struct_ndev_conf := mk_ndev_conf 0 0 None 0 0 0 0 [].

(** Two drivers have come up and have not answered yet. *)
Definition st_two : ndev_state :=
  Eval vm_compute in
    default ndev_init (run [ev_up "e0" 1001; ev_up "e1" 1002] ndev_init).

(** The slots 0 and 1 of [st_two]. *)
Definition d_two_0 : ndev :=
  Eval vm_compute in default ndev_zero (ndev_array st_two !! 0%nat).

Definition d_two_1 : ndev :=
  Eval vm_compute in default ndev_zero (ndev_array st_two !! 1%nat).

(** The state after a discovery event in [st_two] in which [ds_check]
    fails with the code -5 and the data store has the label e1 only. *)
Definition st_two_checked : ndev_state :=
  Eval vm_compute in
    default ndev_init (snd <$> ndev_check [] (-5) (String.eqb "e1") st_two).

(** * Proofs *)

(** ** Machine integers *)

Lemma u8_small x : 0 <= x < 256 -> u8 x = x.
Proof. intros H. unfold u8. apply Z.mod_small. lia. Qed.

Lemma u32_small x : 0 <= x < 2 ^ 32 -> u32 x = x.
Proof. intros H. unfold u32. apply Z.mod_small. lia. Qed.

Lemma u32_range x : 0 <= u32 x < 2 ^ 32.
Proof. unfold u32. apply Z.mod_pos_bound. lia. Qed.

Lemma u32_add_l a b : u32 (u32 a + b) = u32 (a + b).
Proof. unfold u32. apply Zplus_mod_idemp_l. Qed.

Lemma u32_succ_add a (j : nat) :
  u32 (u32 (a + 1) + Z.of_nat j) = u32 (a + Z.of_nat (S j)).
Proof. rewrite u32_add_l. f_equal. lia. Qed.

(** ** Sums over the driver table *)

Lemma sumZ_app {A} (f : A -> Z) l1 l2 :
  sumZ f (l1 ++ l2) = sumZ f l1 + sumZ f l2.
Proof. induction l1 as [|x l1 IH]; simpl; [|rewrite IH]; lia. Qed.

Lemma sumZ_insert {A} (f : A -> Z) (l : list A) i d d' :
  l !! i = Some d -> sumZ f (<[i := d']> l) = sumZ f l - f d + f d'.
Proof.
  revert i. induction l as [|x l IH]; intros [|i] H; simplify_eq/=; [lia|].
  rewrite (IH _ H). lia.
Qed.

Lemma sumZ_upper {A} (f : A -> Z) (l : list A) B :
  (forall x, x ∈ l -> f x <= B) -> sumZ f l <= B * Z.of_nat (length l).
Proof.
  induction l as [|x l IH]; intros H; simpl; [lia|].
  specialize (H x (list_elem_of_here _ _)) as Hx.
  assert (sumZ f l <= B * Z.of_nat (length l)).
  { apply IH. intros y Hy. apply H. by apply list_elem_of_further. }
  lia.
Qed.

Lemma sumZ_upper_at {A} (f : A -> Z) (l : list A) B i d :
  (forall x, x ∈ l -> f x <= B) -> l !! i = Some d ->
  sumZ f l <= B * Z.of_nat (length l) - (B - f d).
Proof.
  intros H Hi.
  rewrite <- (take_drop_middle l i d Hi) at 1.
  rewrite sumZ_app. simpl.
  assert (sumZ f (take i l) <= B * Z.of_nat (length (take i l))).
  { apply sumZ_upper. intros x Hx. apply H. eapply subseteq_take; eauto. }
  assert (sumZ f (drop (S i) l) <= B * Z.of_nat (length (drop (S i) l))).
  { apply sumZ_upper. intros x Hx. apply H. eapply subseteq_drop; eauto. }
  apply lookup_lt_Some in Hi.
  assert (Z.of_nat (length l)
          = Z.of_nat (length (take i l)) + 1 + Z.of_nat (length (drop (S i) l)))
    as ->.
  { rewrite length_take, length_drop. lia. }
  rewrite !Z.mul_add_distr_l. lia.
Qed.

Lemma sumZ_nonneg {A} (f : A -> Z) (l : list A) :
  (forall x, 0 <= f x) -> 0 <= sumZ f l.
Proof. intros H. induction l as [|x l IH]; simpl; [lia|]. specialize (H x). lia. Qed.

#[global] Arguments all_queued : simpl never.
#[global] Arguments spares_in_use : simpl never.
#[global] Arguments queue_wf : simpl never.
#[global] Arguments u8 : simpl never.
#[global] Arguments u32 : simpl never.
#[global] Arguments NR_NREQ : simpl never.
#[global] Arguments NR_NDEV : simpl never.
#[global] Arguments NDEV_IOV_MAX : simpl never.
#[global] Arguments sumZ : simpl never.

(** ** The request objects of the table *)

Lemma all_queued_insert arr i d d' :
  arr !! i = Some d ->
  exists pre post,
    all_queued arr = pre ++ queued d ++ post /\
    all_queued (<[i := d']> arr) = pre ++ queued d' ++ post.
Proof.
  unfold all_queued.
  revert i. induction arr as [|x arr IH]; intros [|i] H; simplify_eq/=.
  - by exists [], (concat (map queued arr)).
  - destruct (IH _ H) as (pre & post & E1 & E2).
    exists (queued x ++ pre), post.
    rewrite E1, E2, <- !app_assoc. done.
Qed.

Lemma elem_of_all_queued arr slot d s nreq :
  arr !! slot = Some d -> nreq ∈ nq_req (queue_of s d) -> nreq ∈ all_queued arr.
Proof.
  intros Hd Hn.
  destruct (all_queued_insert arr slot d d Hd) as (pre & post & E & _).
  rewrite E, !elem_of_app. right; left. unfold queued.
  rewrite elem_of_app. destruct s; auto.
Qed.

(** ** The monad *)

Lemma bind_eq {A B} (c : M A) (k : A -> M B) st a st' :
  c st = Some (a, st') -> bind c k st = k a st'.
Proof. intros H. unfold bind. by rewrite H. Qed.

Lemma bind_inv {A B} (c : M A) (k : A -> M B) st b st'' :
  bind c k st = Some (b, st'') ->
  exists a st', c st = Some (a, st') /\ k a st' = Some (b, st'').
Proof.
  unfold bind. destruct (c st) as [[a st']|] eqn:E; [|done]. eauto.
Qed.

Lemma bind_None {A B} (c : M A) (k : A -> M B) st :
  c st = None -> bind c k st = None.
Proof. intros H. unfold bind. by rewrite H. Qed.

Lemma bind_assoc {A B C} (c : M A) (k1 : A -> M B) (k2 : B -> M C) st :
  bind (bind c k1) k2 st = bind c (fun a => bind (k1 a) k2) st.
Proof. unfold bind. by destruct (c st) as [[a st']|]. Qed.

Lemma bind_ret {A B} (a : A) (k : A -> M B) st : bind (ret a) k st = k a st.
Proof. reflexivity. Qed.

Lemma bind_gets {A B} (f : ndev_state -> A) (k : A -> M B) st :
  bind (gets f) k st = k (f st) st.
Proof. reflexivity. Qed.

Lemma bind_modify {B} (f : ndev_state -> ndev_state) (k : unit -> M B) st :
  bind (modify f) k st = k tt (f st).
Proof. reflexivity. Qed.

Lemma bind_emit {B} (o : output) (k : unit -> M B) st :
  bind (emit o) k st = k tt (set_trace (trace st ++ [o]) st).
Proof. reflexivity. Qed.

Lemma bind_assert_true {B} (k : unit -> M B) st :
  bind (c_assert true) k st = k tt st.
Proof. reflexivity. Qed.

Lemma bind_assert_false {B} (k : unit -> M B) st :
  bind (c_assert false) k st = None.
Proof. reflexivity. Qed.

Lemma bind_panic {A B} (k : A -> M B) st : bind panic k st = None.
Proof. reflexivity. Qed.

Lemma bind_write_ndev {B} slot d (k : unit -> M B) st :
  bind (write_ndev slot d) k st
  = k tt (set_ndev_array (<[slot := d]> (ndev_array st)) st).
Proof. reflexivity. Qed.

(** One step of a computation that cannot fail. *)
Ltac mstep :=
  first [ rewrite bind_assoc | rewrite bind_ret | rewrite bind_gets
        | rewrite bind_modify | rewrite bind_emit | rewrite bind_assert_true
        | rewrite bind_write_ndev
        | progress change (when true ?c) with c
        | progress change (when false ?c) with (ret tt) ].

Lemma read_ndev_eq st slot d :
  ndev_array st !! slot = Some d -> read_ndev slot st = Some (d, st).
Proof. intros H. unfold read_ndev. by rewrite H. Qed.

Lemma read_ndev_inv st slot d st' :
  read_ndev slot st = Some (d, st') -> ndev_array st !! slot = Some d /\ st' = st.
Proof.
  unfold read_ndev. destruct (ndev_array st !! slot); intros; by simplify_eq.
Qed.

Lemma read_queue_eq st slot s d :
  ndev_array st !! slot = Some d ->
  read_queue (slot, s) st = Some (queue_of s d, st).
Proof. intros H. unfold read_queue. by rewrite (bind_eq _ _ _ _ _ (read_ndev_eq _ _ _ H)). Qed.

Lemma write_ndev_eq st slot d :
  write_ndev slot d st
  = Some (tt, set_ndev_array (<[slot := d]> (ndev_array st)) st).
Proof. done. Qed.

Lemma write_queue_eq st slot s nq d :
  ndev_array st !! slot = Some d ->
  write_queue (slot, s) nq st
  = Some (tt, set_ndev_array (<[slot := set_queue_of s nq d]> (ndev_array st)) st).
Proof. intros H. unfold write_queue. by rewrite (bind_eq _ _ _ _ _ (read_ndev_eq _ _ _ H)). Qed.

Lemma read_req_eq st nreq r :
  nreq_array st !! nreq = Some r -> read_req nreq st = Some (r, st).
Proof. intros H. unfold read_req. by rewrite H. Qed.

Lemma queue_of_set_queue_of s nq d : queue_of s (set_queue_of s nq d) = nq.
Proof. by destruct s. Qed.

Lemma queue_of_set_queue_of_ne s s' nq d :
  s <> s' -> queue_of s' (set_queue_of s nq d) = queue_of s' d.
Proof. by destruct s, s'. Qed.

Lemma set_queue_of_id s d : set_queue_of s (queue_of s d) d = d.
Proof. by destruct s, d. Qed.

(** ** The pool invariant under updates of the state *)

(** Updating a slot without moving request objects. *)
Lemma pool_inv_set_ndev st slot d d' :
  pool_inv st ->
  ndev_array st !! slot = Some d ->
  queued d' = queued d ->
  nq_count (ndev_sendq d') = nq_count (ndev_sendq d) ->
  (forall s, queue_wf (nreq_array st) s (queue_of s d')) ->
  pool_inv (set_ndev_array (<[slot := d']> (ndev_array st)) st).
Proof.
  intros [H1 H2 H3 H4 H5 H6 H7] Hd Hq Hc Hwf.
  split; cbn; try done.
  - destruct (all_queued_insert _ _ _ d' Hd) as (pre & post & E1 & E2).
    rewrite E2, Hq, <- E1. done.
  - unfold spares_in_use in *. cbn. rewrite (sumZ_insert _ _ _ _ _ Hd).
    unfold spare_use at 2 3. rewrite Hc. lia.
  - by rewrite length_insert.
  - intros slot' d0 s Hs.
    destruct (decide (slot = slot')) as [->|Hne].
    + rewrite list_lookup_insert_eq in Hs by (by eapply lookup_lt_Some).
      simplify_eq. apply Hwf.
    + rewrite list_lookup_insert_ne in Hs by done. eauto.
Qed.

(** Writing to a request object that is on the free list. *)
Lemma pool_free_not_queued st nreq slot d s j :
  pool_inv st ->
  nreq ∈ nreq_freelist st ->
  ndev_array st !! slot = Some d ->
  nq_req (queue_of s d) !! j = Some nreq -> False.
Proof.
  intros Hp Hf Hd Hj.
  assert (NoDup (nreq_freelist st ++ all_queued (ndev_array st))) as Hnd.
  { rewrite (pool_partition _ Hp). apply NoDup_seq. }
  apply NoDup_app in Hnd as (_ & Hdisj & _).
  apply (Hdisj nreq Hf).
  eapply elem_of_all_queued; [done|]. by eapply list_elem_of_lookup_2.
Qed.

Lemma pool_free_lookup st nreq :
  pool_inv st -> nreq ∈ nreq_freelist st ->
  exists r, nreq_array st !! nreq = Some r.
Proof.
  intros Hp Hf. apply lookup_lt_is_Some.
  rewrite (pool_nreq_length _ Hp).
  assert (nreq ∈ seq 0 NR_NREQ) as Hin.
  { rewrite <- (pool_partition _ Hp). apply elem_of_app. by left. }
  apply elem_of_seq in Hin. lia.
Qed.

Lemma pool_inv_write_req st nreq r r' :
  pool_inv st ->
  nreq ∈ nreq_freelist st ->
  nreq_array st !! nreq = Some r ->
  length (nreq_grant r') = length (nreq_grant r) ->
  pool_inv (set_nreq_array (<[nreq := r']> (nreq_array st)) st).
Proof.
  intros Hp Hf Hr Hlen.
  pose proof Hp as [H1 H2 H3 H4 H5 H6 H7].
  split; cbn; try done.
  - by rewrite length_insert.
  - intros n r0 Hn.
    destruct (decide (nreq = n)) as [->|Hne].
    + rewrite list_lookup_insert_eq in Hn by (by eapply lookup_lt_Some).
      simplify_eq. rewrite Hlen. eauto.
    + rewrite list_lookup_insert_ne in Hn by done. eauto.
  - intros slot d s Hd.
    destruct (H7 slot d s Hd) as (Ha & Hb & Hc & He & Hg).
    repeat split; try done; try tauto.
    intros j n Hj.
    destruct (Hg j n Hj) as (r0 & Hr0 & Hty & Hid).
    exists r0. split; [|done].
    rewrite list_lookup_insert_ne; [done|].
    intros ->. eapply pool_free_not_queued; eauto.
Qed.

Lemma pool_inv_set_trace st t : pool_inv st -> pool_inv (set_trace t st).
Proof. intros [H1 H2 H3 H4 H5 H6 H7]. by split. Qed.

Lemma pool_inv_set_pending st v : pool_inv st -> pool_inv (set_ndev_pending v st).
Proof. intros [H1 H2 H3 H4 H5 H6 H7]. by split. Qed.

Lemma pool_inv_set_max st v : pool_inv st -> pool_inv (set_ndev_max v st).
Proof. intros [H1 H2 H3 H4 H5 H6 H7]. by split. Qed.

Lemma pool_inv_set_reported st v : pool_inv st -> pool_inv (set_reported v st).
Proof. intros [H1 H2 H3 H4 H5 H6 H7]. by split. Qed.

Lemma revoke_grants_eq gs st :
  revoke_grants gs st
  = Some (tt, set_trace (trace st ++ map cpf_revoke (valid_grants gs)) st).
Proof.
  revert st. induction gs as [|g gs IH]; intros st; simpl.
  - rewrite app_nil_r. by destruct st.
  - destruct (GRANT_VALID g); simpl.
    + unfold bind, emit, modify. rewrite IH. cbn.
      by rewrite <- app_assoc.
    + rewrite app_nil_r. by destruct st.
Qed.

Lemma spare_use_nonneg d : 0 <= spare_use d.
Proof. unfold spare_use. lia. Qed.

Lemma spares_in_use_ge st slot d :
  ndev_array st !! slot = Some d -> spare_use d <= spares_in_use st.
Proof.
  intros Hd. unfold spares_in_use.
  rewrite <- (take_drop_middle _ _ _ Hd), sumZ_app.
  change (sumZ spare_use (d :: ?l)) with (spare_use d + sumZ spare_use l).
  pose proof (sumZ_nonneg spare_use (take slot (ndev_array st)) spare_use_nonneg).
  pose proof (sumZ_nonneg spare_use (drop (S slot) (ndev_array st)) spare_use_nonneg).
  lia.
Qed.

Lemma queue_wf_head_lookup reqs s nq nreq rest :
  queue_wf reqs s nq -> nq_req nq = nreq :: rest ->
  exists r, reqs !! nreq = Some r /\
            (nreq_type r = NDEV_RECV <-> s = RECVQ) /\
            nreq_id r = nq_head nq.
Proof.
  intros (_ & _ & Hh & _ & Hq) E.
  destruct (Hq 0%nat nreq) as (r & Hr & Hty & Hid); [by rewrite E|].
  exists r. repeat split; try tauto.
  rewrite Hid, Z.add_0_r. by apply u32_small.
Qed.

Lemma req_type_eqb_eq a b : req_type_eqb a b = true <-> a = b.
Proof. destruct a, b; simpl; split; congruence. Qed.

Lemma spare_test s r nq :
  (nreq_type r = NDEV_RECV <-> s = RECVQ) ->
  (negb (req_type_eqb (nreq_type r) NDEV_RECV) && (NDEV_SENDQ <? nq_count nq)
   = true <-> spare_of s (nq_count nq) = 1) /\
  (negb (req_type_eqb (nreq_type r) NDEV_RECV) && (NDEV_SENDQ <? nq_count nq)
   = false <-> spare_of s (nq_count nq) = 0).
Proof.
  intros Hty. unfold spare_of.
  destruct (req_type_eqb (nreq_type r) NDEV_RECV) eqn:E.
  - apply req_type_eqb_eq in E. apply Hty in E as ->. simpl. lia.
  - assert (s = SENDQ) as ->.
    { destruct s; [done|]. exfalso.
      assert (nreq_type r = NDEV_RECV) as Hr by tauto.
      apply req_type_eqb_eq in Hr. congruence. }
    simpl. destruct (NDEV_SENDQ <? nq_count nq); lia.
Qed.

(** Releasing the head of a queue, in a state that satisfies the pool
    invariant, succeeds with the state [advanced]. *)
Lemma ndev_queue_advance_eq st slot s d nreq rest :
  pool_inv st ->
  ndev_array st !! slot = Some d ->
  nq_req (queue_of s d) = nreq :: rest ->
  exists r, nreq_array st !! nreq = Some r /\
    (nreq_type r = NDEV_RECV <-> s = RECVQ) /\
    nreq_id r = nq_head (queue_of s d) /\
    ndev_queue_advance (slot, s) st = Some (tt, advanced slot s d nreq rest r st).
Proof.
  intros Hp Hd E.
  pose proof (pool_queues _ Hp slot d s Hd) as Hwf.
  destruct (queue_wf_head_lookup _ _ _ _ _ Hwf E) as (r & Hr & Hty & Hid).
  exists r. repeat split; try tauto.
  destruct Hwf as (Hc & Hm & Hh & _ & _).
  rewrite E in Hc. simpl length in Hc.
  unfold ndev_queue_advance.
  rewrite (bind_eq _ _ _ _ _ (read_queue_eq _ _ s _ Hd)), E.
  rewrite (bind_eq _ _ _ _ _ (read_req_eq _ _ _ Hr)).
  rewrite (bind_eq _ _ _ _ _ (revoke_grants_eq _ _)).
  destruct (spare_test s r (queue_of s d) Hty) as [Hs1 Hs0].
  assert (u8 (nq_count (queue_of s d) - 1) = nq_count (queue_of s d) - 1) as Hu8.
  { apply u8_small. lia. }
  destruct (negb _ && _) eqn:Ht.
  - apply proj1 in Hs1. specialize (Hs1 eq_refl).
    assert (s = SENDQ) as ->.
    { destruct s; [done|]. simpl in Hs1. lia. }
    pose proof (spares_in_use_ge _ _ _ Hd) as Hge.
    pose proof (pool_spares _ Hp) as Hsp.
    pose proof (pool_spares_nonneg _ Hp) as Hnn.
    unfold spare_of in Hs1. simpl in *.
    destruct (NDEV_SENDQ <? nq_count (ndev_sendq d)) eqn:Hlt; [|lia].
    apply Z.ltb_lt in Hlt.
    assert (spare_use d >= 1) by (unfold spare_use; lia).
    assert (u32 (nreq_spares st + 1) = nreq_spares st + 1) as Hu32.
    { apply u32_small. unfold NREQ_SPARES in *. lia. }
    unfold when, bind, modify, gets, c_assert. cbn.
    rewrite Hu32.
    destruct (nreq_spares st + 1 <=? NREQ_SPARES) eqn:Hle.
    2:{ apply Z.leb_gt in Hle. unfold NREQ_SPARES in *. lia. }
    cbn. unfold write_queue, bind, read_ndev. cbn. rewrite Hd. cbn.
    unfold advanced, spare_of. simpl queue_of.
    rewrite Hu8. destruct (NDEV_SENDQ <? nq_count (ndev_sendq d)) eqn:Hlt2;
      [|apply Z.ltb_ge in Hlt2; lia].
    by destruct st.
  - apply proj1 in Hs0. specialize (Hs0 eq_refl).
    unfold when, bind, modify. cbn.
    unfold write_queue, bind, read_ndev. cbn. rewrite Hd. cbn.
    unfold advanced. rewrite Hs0, Hu8, Z.add_0_r.
    by destruct st.
Qed.

Lemma pool_inv_advanced st slot s d nreq rest r :
  pool_inv st ->
  ndev_array st !! slot = Some d ->
  nq_req (queue_of s d) = nreq :: rest ->
  pool_inv (advanced slot s d nreq rest r st).
Proof.
  intros Hp Hd E.
  pose proof Hp as [H1 H2 H3 H4 H5 H6 H7].
  pose proof (H7 slot d s Hd) as (Hc & Hm & Hh & Hrq & Hq).
  rewrite E in Hc. simpl length in Hc.
  split; unfold advanced; cbn; try done.
  - (* the request object moves from the queue to the free list *)
    destruct (all_queued_insert _ _ _
                (set_queue_of s
                   (mk_ndev_queue (u32 (nq_head (queue_of s d) + 1))
                      (nq_count (queue_of s d) - 1) (nq_max (queue_of s d)) rest) d)
                Hd) as (pre & post & E1 & E2).
    rewrite E2. rewrite <- H3, E1.
    assert (queued d ≡ₚ nreq :: queued (set_queue_of s
                   (mk_ndev_queue (u32 (nq_head (queue_of s d) + 1))
                      (nq_count (queue_of s d) - 1) (nq_max (queue_of s d)) rest) d))
      as ->.
    { unfold queued. destruct s; simpl in *; rewrite E; simpl.
      - reflexivity.
      - symmetry. apply Permutation_middle. }
    simpl. rewrite (app_assoc (nreq_freelist st) pre (nreq :: _)).
    apply Permutation_cons_app. by rewrite <- app_assoc.
  - unfold spare_of. destruct s; [destruct (_ <? _)|]; lia.
  - unfold spares_in_use in *. cbn. rewrite (sumZ_insert _ _ _ _ _ Hd).
    rewrite H5. unfold spare_use, spare_of.
    destruct s; simpl in *.
    + destruct (NDEV_SENDQ <? nq_count (ndev_sendq d)) eqn:Hlt;
        [apply Z.ltb_lt in Hlt|apply Z.ltb_ge in Hlt]; unfold NDEV_SENDQ in *; lia.
    + lia.
  - by rewrite length_insert.
  - intros slot' d0 s' Hs.
    destruct (decide (slot = slot')) as [<-|Hne].
    2:{ rewrite list_lookup_insert_ne in Hs by done. eauto. }
    rewrite list_lookup_insert_eq in Hs by (by eapply lookup_lt_Some).
    simplify_eq.
    destruct (decide (s = s')) as [<-|Hns].
    2:{ rewrite queue_of_set_queue_of_ne by done. eauto. }
    rewrite queue_of_set_queue_of.
    unfold queue_wf. cbn. repeat split; try lia; try tauto.
    + apply u32_range.
    + apply u32_range.
    + intros j n Hj.
      destruct (Hq (S j) n) as (r0 & Hr0 & Hty & Hid); [by rewrite E|].
      exists r0. repeat split; try tauto.
      by rewrite u32_succ_add.
Qed.

Lemma released_refl st : released st st.
Proof. repeat split. exists []. by rewrite app_nil_r. Qed.

Lemma released_trans st1 st2 st3 :
  released st1 st2 -> released st2 st3 -> released st1 st3.
Proof.
  intros (A1 & A2 & A3 & A4 & g1 & A5) (B1 & B2 & B3 & B4 & g2 & B5).
  repeat split; try congruence.
  exists (g1 ++ g2). by rewrite B5, A5, map_app, app_assoc.
Qed.

Lemma released_advanced slot s d nreq rest r st :
  released st (advanced slot s d nreq rest r st).
Proof. repeat split. by eexists. Qed.

Lemma ndev_queue_reset_loop_unfold fuel q :
  ndev_queue_reset_loop fuel q
  = (nq <- read_queue q ;;
     if 0 <? nq_count nq then
       match fuel with
       | O => panic
       | S fuel' =>
           c_assert (negb (bool_decide (nq_req nq = []))) ;;
           ndev_queue_advance q ;;
           ndev_queue_reset_loop fuel' q
       end
     else ret tt).
Proof. by destruct fuel. Qed.

Lemma set_queue_of_empty s d :
  nq_count (queue_of s d) = 0 -> nq_req (queue_of s d) = [] ->
  set_queue_of s (mk_ndev_queue (nq_head (queue_of s d)) 0
                                (nq_max (queue_of s d)) []) d = d.
Proof. destruct s, d as [? ? ? [] []]; cbn; congruence. Qed.

(** The loop of [ndev_queue_reset] empties a well-formed queue: the head
    moves on by the number of requests it held. *)
Lemma ndev_queue_reset_loop_eq fuel st slot s d :
  pool_inv st ->
  ndev_array st !! slot = Some d ->
  (length (nq_req (queue_of s d)) <= fuel)%nat ->
  exists st',
    ndev_queue_reset_loop fuel (slot, s) st = Some (tt, st') /\
    pool_inv st' /\
    released st st' /\
    (nq_count (queue_of s d) = 0 -> st' = st) /\
    ndev_array st'
    = <[slot := set_queue_of s
                  (mk_ndev_queue
                     (u32 (nq_head (queue_of s d) + nq_count (queue_of s d)))
                     0 (nq_max (queue_of s d)) []) d]> (ndev_array st).
Proof.
  revert st d. induction fuel as [|fuel IH]; intros st d Hp Hd Hlen;
    pose proof (pool_queues _ Hp slot d s Hd) as (Hc & Hm & Hh & _ & _);
    rewrite ndev_queue_reset_loop_unfold;
    rewrite (bind_eq _ _ _ _ _ (read_queue_eq _ _ s _ Hd));
    destruct (nq_req (queue_of s d)) as [|nreq rest] eqn:E;
    simpl length in *.
  1,3: change (nq_count (queue_of s d) = 0) in Hc; rewrite Hc; cbn;
    exists st; split_and!; try done; [apply released_refl|];
    rewrite Z.add_0_r, u32_small by done;
    rewrite set_queue_of_empty by done;
    symmetry; by apply list_insert_id.
  - lia.
  - destruct (0 <? nq_count (queue_of s d)) eqn:Hpos;
      [|apply Z.ltb_ge in Hpos; lia].
    rewrite bool_decide_eq_false_2 by done.
    change (c_assert (negb false)) with (ret tt).
    unfold bind at 1. unfold ret at 1.
    destruct (ndev_queue_advance_eq _ _ _ _ _ _ Hp Hd E)
      as (r & Hr & Hty & Hid & Hadv).
    rewrite (bind_eq _ _ _ _ _ Hadv).
    pose proof (pool_inv_advanced _ _ _ _ _ _ r Hp Hd E) as Hp'.
    set (d' := set_queue_of s
                 (mk_ndev_queue (u32 (nq_head (queue_of s d) + 1))
                    (nq_count (queue_of s d) - 1) (nq_max (queue_of s d)) rest) d).
    assert (ndev_array (advanced slot s d nreq rest r st) !! slot = Some d')
      as Hd'.
    { unfold advanced. cbn. apply list_lookup_insert_eq. by eapply lookup_lt_Some. }
    destruct (IH _ d' Hp' Hd') as (st' & Hrun & Hp'' & Hrel & _ & Harr).
    { unfold d'. rewrite queue_of_set_queue_of. simpl. lia. }
    exists st'. split_and!; try done.
    + eapply released_trans; [apply released_advanced|done].
    + lia.
    + rewrite Harr. unfold d', advanced. cbn.
      rewrite queue_of_set_queue_of. cbn.
      rewrite list_insert_insert_eq.
      f_equal. rewrite u32_add_l.
      destruct s, d; cbn; do 3 f_equal; lia.
Qed.

Lemma queue_wf_length reqs s nq :
  queue_wf reqs s nq -> (length (nq_req nq) <= 256)%nat.
Proof. intros (Hc & Hm & _). lia. Qed.

Lemma queue_wf_closed reqs s nq :
  queue_wf reqs s nq -> nq_max nq = 0 ->
  nq_count nq = 0 /\ nq_req nq = [].
Proof.
  intros (Hc & Hm & _) H0.
  assert (length (nq_req nq) = 0%nat) as Hl by lia.
  apply length_zero_iff_nil in Hl. split; [lia|done].
Qed.

Lemma queue_wf_reset reqs s head :
  0 <= head < 2 ^ 32 -> queue_wf reqs s (mk_ndev_queue head 0 0 []).
Proof.
  intros Hh. unfold queue_wf, NDEV_RECVQ. cbn. split_and!; try lia.
  intros j n Hj. by rewrite lookup_nil in Hj.
Qed.

(** Clearing a queue: the requests are released, the head moves on by
    their number, and the queue is closed. *)
Lemma ndev_queue_reset_eq st slot s d :
  pool_inv st ->
  ndev_array st !! slot = Some d ->
  exists st',
    ndev_queue_reset (slot, s) st = Some (tt, st') /\
    pool_inv st' /\
    released st st' /\
    (nq_count (queue_of s d) = 0 -> trace st' = trace st) /\
    ndev_array st'
    = <[slot := set_queue_of s
                  (mk_ndev_queue
                     (u32 (nq_head (queue_of s d) + nq_count (queue_of s d)))
                     0 0 []) d]> (ndev_array st).
Proof.
  intros Hp Hd.
  pose proof (pool_queues _ Hp slot d s Hd) as Hwf.
  destruct (ndev_queue_reset_loop_eq 256 _ _ s _ Hp Hd)
    as (st1 & Hrun & Hp1 & Hrel & Hsame & Harr).
  { by eapply queue_wf_length. }
  set (nq1 := mk_ndev_queue
                (u32 (nq_head (queue_of s d) + nq_count (queue_of s d)))
                0 (nq_max (queue_of s d)) []) in *.
  assert (ndev_array st1 !! slot = Some (set_queue_of s nq1 d)) as Hd1.
  { rewrite Harr. apply list_lookup_insert_eq. by eapply lookup_lt_Some. }
  unfold ndev_queue_reset.
  rewrite (bind_eq _ _ _ _ _ Hrun).
  rewrite (bind_eq _ _ _ _ _ (read_queue_eq _ _ s _ Hd1)).
  rewrite (write_queue_eq _ _ _ _ _ Hd1).
  eexists. split; [reflexivity|].
  rewrite queue_of_set_queue_of. cbn.
  split_and!.
  - eapply pool_inv_set_ndev; eauto.
    + by destruct s.
    + by destruct s.
    + intros s'. destruct (decide (s = s')) as [<-|Hne].
      * rewrite queue_of_set_queue_of. apply queue_wf_reset, u32_range.
      * pose proof (pool_queues _ Hp1 slot _ s' Hd1) as Hq.
        rewrite queue_of_set_queue_of_ne in Hq by done.
        by rewrite !queue_of_set_queue_of_ne by done.
  - destruct Hrel as (A1 & A2 & A3 & A4 & A5). by split_and!.
  - intros H0. by rewrite (Hsame H0).
  - rewrite Harr, list_insert_insert_eq. f_equal. by destruct s.
Qed.

(** Initializing a closed queue for first use. *)
Lemma ndev_queue_init_eq st slot s d :
  ndev_array st !! slot = Some d ->
  ndev_queue_init (slot, s) st
  = Some (tt, set_ndev_array
                (<[slot := set_queue_of s
                     (mk_ndev_queue (u32 (nq_head (queue_of s d) + 1)) 0 0 []) d]>
                   (ndev_array st)) st).
Proof.
  intros Hd. unfold ndev_queue_init.
  rewrite (bind_eq _ _ _ _ _ (read_queue_eq _ _ s _ Hd)).
  by rewrite (write_queue_eq _ _ _ _ _ Hd).
Qed.

Lemma pool_inv_queue_init st slot s d :
  pool_inv st ->
  ndev_array st !! slot = Some d ->
  nq_max (queue_of s d) = 0 ->
  pool_inv (set_ndev_array
              (<[slot := set_queue_of s
                   (mk_ndev_queue (u32 (nq_head (queue_of s d) + 1)) 0 0 []) d]>
                 (ndev_array st)) st).
Proof.
  intros Hp Hd H0.
  pose proof (pool_queues _ Hp slot d s Hd) as Hwf.
  destruct (queue_wf_closed _ _ _ Hwf H0) as [Hc Hl].
  eapply pool_inv_set_ndev; eauto.
  - unfold queued. destruct s; cbn in *; by rewrite Hl.
  - destruct s; cbn in *; [by rewrite Hc|done].
  - intros s'. destruct (decide (s = s')) as [<-|Hne].
    + rewrite queue_of_set_queue_of. apply queue_wf_reset, u32_range.
    + rewrite queue_of_set_queue_of_ne by done. by apply (pool_queues _ Hp slot).
Qed.

(** ** The size of the pool *)

Lemma sumZ_add {A} (f g : A -> Z) l :
  sumZ (fun x => f x + g x) l = sumZ f l + sumZ g l.
Proof.
  unfold sumZ. induction l as [|x l IH]; simpl; [done|]. rewrite IH. lia.
Qed.

Lemma sumZ_ext_in {A} (f g : A -> Z) l :
  (forall x, x ∈ l -> f x = g x) -> sumZ f l = sumZ g l.
Proof.
  unfold sumZ. induction l as [|x l IH]; intros H; simpl; [done|].
  rewrite IH, (H x) by (intros; first [apply H; by right | by left]). done.
Qed.

Lemma length_all_queued arr :
  Z.of_nat (length (all_queued arr))
  = sumZ (fun d => Z.of_nat (length (queued d))) arr.
Proof.
  unfold all_queued, sumZ. induction arr as [|d arr IH]; simpl; [done|].
  rewrite length_app. lia.
Qed.

Lemma reserved_use_le st slot d :
  pool_inv st -> ndev_array st !! slot = Some d ->
  reserved_use d <= NDEV_SENDQ + NDEV_RECVQ.
Proof.
  intros Hp Hd.
  pose proof (pool_queues _ Hp slot d RECVQ Hd) as (Hc & Hm & _ & Hr & _).
  specialize (Hr eq_refl). unfold reserved_use. simpl in *. lia.
Qed.

(** The free list holds at least the unused guaranteed objects of any one
    driver, and the free spares. *)
Lemma pool_freelist_length st slot d :
  pool_inv st -> ndev_array st !! slot = Some d ->
  NDEV_SENDQ + NDEV_RECVQ - reserved_use d + nreq_spares st
  <= Z.of_nat (length (nreq_freelist st)).
Proof.
  intros Hp Hd.
  pose proof (pool_partition _ Hp) as Hperm.
  apply Permutation_length in Hperm.
  rewrite length_app, length_seq in Hperm.
  pose proof (length_all_queued (ndev_array st)) as Hlen.
  rewrite (sumZ_ext_in _ (fun d => reserved_use d + spare_use d)) in Hlen.
  2:{ intros x Hx. apply list_elem_of_lookup_1 in Hx as [i Hi].
      pose proof (pool_queues _ Hp i x SENDQ Hi) as (Hc1 & _).
      pose proof (pool_queues _ Hp i x RECVQ Hi) as (Hc2 & _).
      unfold queued, reserved_use, spare_use. rewrite length_app.
      simpl in *. lia. }
  rewrite sumZ_add in Hlen.
  pose proof (sumZ_upper_at reserved_use (ndev_array st)
                (NDEV_SENDQ + NDEV_RECVQ) slot d) as Hub.
  rewrite (pool_ndev_length _ Hp) in Hub.
  specialize (Hub (fun x Hx =>
    match list_elem_of_lookup_1 _ _ Hx with
    | ex_intro _ i Hi => reserved_use_le st i x Hp Hi
    end) Hd).
  pose proof (pool_spares _ Hp) as Hsp. unfold spares_in_use in Hsp.
  unfold NR_NREQ, NR_NDEV, NDEV_SENDQ, NDEV_RECVQ, NREQ_SPARES in *.
  simpl Z.to_nat in *. lia.
Qed.

Lemma ndev_queue_get_denied st slot s d type :
  ndev_array st !! slot = Some d ->
  get_denied type (queue_of s d) (nreq_spares st) = true ->
  ndev_queue_get (slot, s) type st = Some (None, st).
Proof.
  intros Hd Hden. unfold ndev_queue_get, get_denied in *.
  rewrite (bind_eq _ _ _ _ _ (read_queue_eq _ _ s _ Hd)).
  destruct (nq_count (queue_of s d) =? nq_max (queue_of s d)); [done|].
  simpl in Hden. unfold bind, gets. by rewrite Hden.
Qed.

Lemma ndev_queue_get_granted st slot s d type :
  pool_inv st ->
  ndev_array st !! slot = Some d ->
  (type = NDEV_RECV <-> s = RECVQ) ->
  get_denied type (queue_of s d) (nreq_spares st) = false ->
  exists nreq fl r,
    nreq_freelist st = nreq :: fl /\
    nreq_array st !! nreq = Some r /\
    ndev_queue_get (slot, s) type st
    = Some (Some (nreq, u32 (nq_head (queue_of s d) + nq_count (queue_of s d))),
            set_nreq_array
              (<[nreq := mk_ndev_req type (nreq_grant r) (nreq_id r)]>
                 (nreq_array st)) st).
Proof.
  intros Hp Hd Hty Hden. unfold get_denied in Hden.
  apply orb_false_iff in Hden as [Hne Hsp].
  apply Z.eqb_neq in Hne.
  pose proof (pool_freelist_length _ _ _ Hp Hd) as Hlen.
  pose proof (pool_spares_nonneg _ Hp) as Hnn.
  pose proof (pool_queues _ Hp slot d SENDQ Hd) as (Hc1 & Hm1 & _).
  pose proof (pool_queues _ Hp slot d RECVQ Hd) as (Hc2 & Hm2 & _ & Hr2 & _).
  specialize (Hr2 eq_refl). simpl in *.
  assert (0 < Z.of_nat (length (nreq_freelist st))) as Hpos.
  { unfold reserved_use, NDEV_SENDQ, NDEV_RECVQ in *.
    destruct s; simpl in *.
    - destruct (req_type_eqb type NDEV_RECV) eqn:Et.
      { apply req_type_eqb_eq in Et. apply Hty in Et. done. }
      simpl in Hsp. apply andb_false_iff in Hsp as [Hsp|Hsp].
      + apply Z.leb_gt in Hsp. lia.
      + apply Z.eqb_neq in Hsp. lia.
    - lia. }
  destruct (nreq_freelist st) as [|nreq fl] eqn:Efl; [simpl in Hpos; lia|].
  destruct (pool_free_lookup st nreq Hp) as [r Hr].
  { rewrite Efl. by left. }
  exists nreq, fl, r. split_and!; try done.
  unfold ndev_queue_get.
  rewrite (bind_eq _ _ _ _ _ (read_queue_eq _ _ s _ Hd)).
  apply Z.eqb_neq in Hne. rewrite Hne.
  unfold bind at 1. unfold gets at 1. rewrite Hsp.
  unfold bind at 1. unfold gets at 1. rewrite Efl.
  by rewrite (bind_eq _ _ _ _ _ (read_req_eq _ _ _ Hr)).
Qed.

Lemma ndev_queue_add_eq st slot s d nreq fl r :
  pool_inv st ->
  ndev_array st !! slot = Some d ->
  nreq_freelist st = nreq :: fl ->
  nreq_array st !! nreq = Some r ->
  (nreq_type r = NDEV_RECV <-> s = RECVQ) ->
  nq_count (queue_of s d) < nq_max (queue_of s d) ->
  (s = SENDQ -> NDEV_SENDQ <= nq_count (queue_of s d) -> 0 < nreq_spares st) ->
  ndev_queue_add (slot, s) nreq st = Some (tt, added slot s d nreq fl st).
Proof.
  intros Hp Hd Hfl Hr Hty Hlt Hsp.
  pose proof (pool_queues _ Hp slot d s Hd) as (Hc & Hm & _).
  pose proof (pool_spares_nonneg _ Hp) as Hnn.
  pose proof (pool_spares _ Hp) as Heq.
  pose proof (spares_in_use_ge _ _ _ Hd) as Hge.
  pose proof (spare_use_nonneg d) as Hsu.
  unfold ndev_queue_add.
  rewrite (bind_eq _ _ _ _ _ (read_queue_eq _ _ s _ Hd)).
  rewrite (bind_eq _ _ _ _ _ (read_req_eq _ _ _ Hr)).
  assert (u8 (nq_count (queue_of s d) + 1) = nq_count (queue_of s d) + 1) as Hu8.
  { apply u8_small. lia. }
  destruct (req_type_eqb (nreq_type r) NDEV_RECV) eqn:Et.
  - apply req_type_eqb_eq in Et. apply Hty in Et as ->.
    simpl queue_of in *. cbn.
    unfold bind, gets. rewrite Hfl. cbn.
    unfold write_queue, bind, read_ndev. cbn. rewrite Hd. cbn.
    unfold added. cbn. rewrite Hu8, Z.sub_0_r. by destruct st.
  - assert (s = SENDQ) as ->.
    { destruct s; [done|]. exfalso.
      assert (nreq_type r = NDEV_RECV) as Hr' by tauto.
      apply req_type_eqb_eq in Hr'. congruence. }
    simpl negb. simpl andb. simpl queue_of in *.
    destruct (NDEV_SENDQ <=? nq_count (ndev_sendq d)) eqn:Hle.
    + apply Z.leb_le in Hle. specialize (Hsp eq_refl Hle).
      assert (u32 (nreq_spares st - 1) = nreq_spares st - 1) as Hu32.
      { apply u32_small. unfold NREQ_SPARES in *. lia. }
      unfold when, bind, gets, c_assert, modify.
      destruct (0 <? nreq_spares st) eqn:Hpos; [|apply Z.ltb_ge in Hpos; lia].
      cbn. rewrite Hfl. cbn.
      unfold write_queue, bind, read_ndev. cbn. rewrite Hd. cbn.
      unfold added, spare_of. simpl queue_of in *. rewrite Hu8, Hu32.
      destruct (NDEV_SENDQ <? nq_count (ndev_sendq d) + 1) eqn:Hlt2;
        [|apply Z.ltb_ge in Hlt2; lia].
      by destruct st.
    + apply Z.leb_gt in Hle.
      unfold when, bind, gets. cbn. rewrite Hfl. cbn.
      unfold write_queue, bind, read_ndev. cbn. rewrite Hd. cbn.
      unfold added, spare_of. simpl queue_of in *. rewrite Hu8.
      destruct (NDEV_SENDQ <? nq_count (ndev_sendq d) + 1) eqn:Hlt2;
        [apply Z.ltb_lt in Hlt2; lia|].
      rewrite Z.sub_0_r. by destruct st.
Qed.

Lemma pool_inv_added st slot s d nreq fl r :
  pool_inv st ->
  ndev_array st !! slot = Some d ->
  nreq_freelist st = nreq :: fl ->
  nreq_array st !! nreq = Some r ->
  (nreq_type r = NDEV_RECV <-> s = RECVQ) ->
  nreq_id r = u32 (nq_head (queue_of s d) + nq_count (queue_of s d)) ->
  nq_count (queue_of s d) < nq_max (queue_of s d) ->
  (s = SENDQ -> NDEV_SENDQ <= nq_count (queue_of s d) -> 0 < nreq_spares st) ->
  pool_inv (added slot s d nreq fl st).
Proof.
  intros Hp Hd Hfl Hr Hty Hid Hlt Hsp.
  pose proof Hp as [H1 H2 H3 H4 H5 H6 H7].
  pose proof (H7 slot d s Hd) as (Hc & Hm & Hh & Hrq & Hq).
  split; unfold added; cbn; try done.
  - destruct (all_queued_insert _ _ _
                (set_queue_of s
                   (mk_ndev_queue (nq_head (queue_of s d))
                      (nq_count (queue_of s d) + 1) (nq_max (queue_of s d))
                      (nq_req (queue_of s d) ++ [nreq])) d)
                Hd) as (pre & post & E1 & E2).
    rewrite E2. rewrite <- H3, E1, Hfl.
    assert (queued (set_queue_of s
                   (mk_ndev_queue (nq_head (queue_of s d))
                      (nq_count (queue_of s d) + 1) (nq_max (queue_of s d))
                      (nq_req (queue_of s d) ++ [nreq])) d) ≡ₚ nreq :: queued d)
      as ->.
    { unfold queued. destruct s; simpl in *.
      - rewrite <- app_assoc. simpl. symmetry. apply Permutation_middle.
      - rewrite app_assoc. symmetry. apply Permutation_cons_append. }
    simpl. rewrite (app_assoc fl pre (nreq :: _)).
    symmetry. apply Permutation_cons_app. by rewrite <- app_assoc.
  - unfold spare_of. destruct s; [|lia].
    destruct (NDEV_SENDQ <? _) eqn:E; [|lia].
    apply Z.ltb_lt in E. simpl in *.
    assert (0 < nreq_spares st) by (apply Hsp; [done|lia]). lia.
  - unfold spares_in_use in *. cbn. rewrite (sumZ_insert _ _ _ _ _ Hd).
    rewrite H5. unfold spare_use, spare_of.
    destruct s; simpl in *.
    + destruct (NDEV_SENDQ <? nq_count (ndev_sendq d) + 1) eqn:E;
        [apply Z.ltb_lt in E|apply Z.ltb_ge in E]; unfold NDEV_SENDQ in *; lia.
    + lia.
  - by rewrite length_insert.
  - intros slot' d0 s' Hs.
    destruct (decide (slot = slot')) as [<-|Hne].
    2:{ rewrite list_lookup_insert_ne in Hs by done. eauto. }
    rewrite list_lookup_insert_eq in Hs by (by eapply lookup_lt_Some).
    simplify_eq.
    destruct (decide (s = s')) as [<-|Hns].
    2:{ rewrite queue_of_set_queue_of_ne by done. eauto. }
    rewrite queue_of_set_queue_of.
    unfold queue_wf. cbn. split_and!; try lia; try tauto.
    + rewrite length_app. simpl. lia.
    + intros j n Hj.
      apply lookup_app_Some in Hj as [Hj|[Hge Hj]].
      * eauto.
      * apply list_lookup_singleton_Some in Hj as [Hj <-].
        exists r. split_and!; try tauto.
        rewrite Hid, Hc. f_equal. lia.
Qed.

Lemma ndev_queue_remove_eq st slot s d type seq :
  pool_inv st ->
  ndev_array st !! slot = Some d ->
  match nq_req (queue_of s d) with
  | [] => ndev_queue_remove (slot, s) type seq st = Some (false, st)
  | nreq :: rest =>
      exists r, nreq_array st !! nreq = Some r /\
        (nreq_type r = NDEV_RECV <-> s = RECVQ) /\
        nreq_id r = nq_head (queue_of s d) /\
        ndev_queue_remove (slot, s) type seq st
        = if (nq_head (queue_of s d) =? seq) && req_type_eqb (nreq_type r) type
          then Some (true, advanced slot s d nreq rest r st)
          else Some (false, st)
  end.
Proof.
  intros Hp Hd.
  pose proof (pool_queues _ Hp slot d s Hd) as (Hc & Hm & _).
  unfold ndev_queue_remove.
  rewrite (bind_eq _ _ _ _ _ (read_queue_eq _ _ s _ Hd)).
  destruct (nq_req (queue_of s d)) as [|nreq rest] eqn:E.
  - change (nq_count (queue_of s d) = 0) in Hc. by rewrite Hc.
  - simpl length in Hc.
    destruct (ndev_queue_advance_eq _ _ _ _ _ _ Hp Hd E)
      as (r & Hr & Hty & Hid & Hadv).
    exists r. split_and!; try done.
    destruct (nq_count (queue_of s d) <? 1) eqn:Hlt;
      [apply Z.ltb_lt in Hlt; lia|].
    destruct (nq_head (queue_of s d) =? seq); [|done].
    cbn [orb negb andb].
    rewrite (bind_eq _ _ _ _ _ (read_req_eq _ _ _ Hr)).
    destruct (req_type_eqb (nreq_type r) type); [|done].
    simpl. by rewrite (bind_eq _ _ _ _ _ Hadv).
Qed.

(** ** The table invariant under updates of the state *)

Lemma table_inv_ext st st' :
  ndev_array st' = ndev_array st -> ndev_max st' = ndev_max st ->
  table_inv st -> table_inv st'.
Proof. intros Ha Hm [H1 H2 H3 H4]. split; rewrite ?Ha, ?Hm; done. Qed.

Lemma pool_inv_ext st st' :
  nreq_array st' = nreq_array st -> nreq_freelist st' = nreq_freelist st ->
  nreq_spares st' = nreq_spares st -> ndev_array st' = ndev_array st ->
  pool_inv st -> pool_inv st'.
Proof.
  intros Ha Hf Hs Hd [H1 H2 H3 H4 H5 H6 H7].
  split; unfold spares_in_use in *; rewrite ?Ha, ?Hf, ?Hs, ?Hd; done.
Qed.

(** Replacing the record of one slot. *)
Lemma table_inv_insert st st' slot d' :
  table_inv st ->
  ndev_array st' = <[slot := d']> (ndev_array st) ->
  ndev_max st' = ndev_max st ->
  ((ndev_max st <= slot)%nat \/ ndev_endpt d' = NONE ->
   nq_max (ndev_sendq d') = 0) ->
  (nq_max (ndev_sendq d') = 0 <-> nq_max (ndev_recvq d') = 0) ->
  (NDEV_ACTIVE d' = true -> ndev_ethif d' <> None) ->
  table_inv st'.
Proof.
  intros [H1 H2 H3 H4] Ha Hm Hv Hb He.
  split; rewrite ?Ha, ?Hm; try done.
  all: intros slot' d0 Hs;
    destruct (decide (slot = slot')) as [<-|Hne];
    [ apply list_lookup_insert_Some in Hs as [(_ & <- & _)|[? _]]; [|done]
    | rewrite list_lookup_insert_ne in Hs by done ]; eauto.
Qed.

Lemma NDEV_ACTIVE_false d : nq_max (ndev_sendq d) = 0 -> NDEV_ACTIVE d = false.
Proof. intros H. unfold NDEV_ACTIVE. rewrite H. done. Qed.

Lemma NDEV_ACTIVE_true d : NDEV_ACTIVE d = true <-> 0 < nq_max (ndev_sendq d).
Proof. unfold NDEV_ACTIVE. apply Z.ltb_lt. Qed.

(** ** [ndev_down] *)

Lemma ndev_max_shrink_le arr max : (ndev_max_shrink arr max <= max)%nat.
Proof.
  induction max as [|m IH]; simpl; [done|].
  destruct (arr !! m) as [d|]; [|done].
  destruct (ndev_endpt d =? NONE); lia.
Qed.

Lemma ndev_max_shrink_vacant arr max i d :
  (ndev_max_shrink arr max <= i < max)%nat -> arr !! i = Some d ->
  ndev_endpt d = NONE.
Proof.
  induction max as [|m IH]; simpl; [lia|].
  destruct (arr !! m) as [dm|] eqn:Em; [|lia].
  destruct (ndev_endpt dm =? NONE) eqn:En; [|lia].
  intros Hi Hd. destruct (decide (i = m)) as [->|Hne].
  - simplify_eq. by apply Z.eqb_eq.
  - apply IH; [lia|done].
Qed.

#[global] Arguments downed : simpl never.
#[global] Arguments closed_queue : simpl never.

(** Both queues of a slot are cleared. *)
Lemma ndev_queue_reset_both st slot d :
  pool_inv st ->
  ndev_array st !! slot = Some d ->
  exists st',
    (ndev_queue_reset (slot, SENDQ) ;; ndev_queue_reset (slot, RECVQ)) st
    = Some (tt, st') /\
    pool_inv st' /\
    released st st' /\
    (nq_max (ndev_sendq d) = 0 -> nq_max (ndev_recvq d) = 0 ->
     trace st' = trace st) /\
    ndev_array st'
    = <[slot := mk_ndev (ndev_endpt d) (ndev_label d) (ndev_ethif d)
                  (closed_queue (ndev_sendq d)) (closed_queue (ndev_recvq d))]>
        (ndev_array st).
Proof.
  intros Hp Hd.
  destruct (ndev_queue_reset_eq _ _ SENDQ _ Hp Hd)
    as (st1 & Hrun1 & Hp1 & Hrel1 & Htr1 & Harr1).
  simpl in Harr1.
  assert (ndev_array st1 !! slot
          = Some (mk_ndev (ndev_endpt d) (ndev_label d) (ndev_ethif d)
                    (closed_queue (ndev_sendq d)) (ndev_recvq d))) as Hd1.
  { rewrite Harr1. apply list_lookup_insert_eq. by eapply lookup_lt_Some. }
  destruct (ndev_queue_reset_eq _ _ RECVQ _ Hp1 Hd1)
    as (st2 & Hrun2 & Hp2 & Hrel2 & Htr2 & Harr2).
  simpl in Harr2, Htr2.
  exists st2. rewrite (bind_eq _ _ _ _ _ Hrun1).
  split_and!; try done.
  - eapply released_trans; eauto.
  - intros Hs Hr.
    pose proof (pool_queues _ Hp slot d SENDQ Hd) as Hw1.
    pose proof (pool_queues _ Hp slot d RECVQ Hd) as Hw2.
    destruct (queue_wf_closed _ _ _ Hw1 Hs) as [Hc1 _].
    destruct (queue_wf_closed _ _ _ Hw2 Hr) as [Hc2 _].
    rewrite Htr2, Htr1; done.
  - by rewrite Harr2, Harr1, list_insert_insert_eq.
Qed.

Lemma ndev_down_eq st slot d :
  inv st ->
  ndev_array st !! slot = Some d ->
  exists st',
    ndev_down slot st = Some (tt, st') /\
    inv st' /\
    ndev_array st' = <[slot := downed d]> (ndev_array st) /\
    ndev_max st' = ndev_max_shrink (ndev_array st') (ndev_max st) /\
    ndev_pending st'
    = ndev_pending st - match ndev_ethif d with Some _ => 0 | None => 1 end /\
    reported st' = reported st /\
    (exists gs, trace st'
                = trace st ++ map cpf_revoke gs
                  ++ match ndev_ethif d with
                     | Some ethif => [ethif_remove ethif]
                     | None => []
                     end) /\
    (nq_max (ndev_sendq d) = 0 ->
     trace st' = trace st ++ match ndev_ethif d with
                             | Some ethif => [ethif_remove ethif]
                             | None => []
                             end).
Proof.
  intros [Hp Ht] Hd.
  destruct (ndev_queue_reset_both _ _ _ Hp Hd)
    as (st1 & Hrun & Hp1 & (R1 & R2 & R3 & R4 & gs & R5) & Htr & Harr).
  set (d1 := mk_ndev (ndev_endpt d) (ndev_label d) (ndev_ethif d)
               (closed_queue (ndev_sendq d)) (closed_queue (ndev_recvq d))) in *.
  assert (ndev_array st1 !! slot = Some d1) as Hd1.
  { rewrite Harr. apply list_lookup_insert_eq. by eapply lookup_lt_Some. }
  unfold ndev_down.
  unfold bind at 1. unfold bind in Hrun. 
  destruct (ndev_queue_reset (slot, SENDQ) st) as [[[] st0]|] eqn:E0; [|done].
  unfold bind at 1. rewrite Hrun.
  rewrite (bind_eq _ _ _ _ _ (read_ndev_eq _ _ _ Hd1)).
  set (st2 := match ndev_ethif d with
              | Some ethif => set_trace (trace st1 ++ [ethif_remove ethif]) st1
              | None => set_ndev_pending (ndev_pending st1 - 1) st1
              end).
  assert (match ndev_ethif d1 with
          | Some ethif => emit (ethif_remove ethif)
          | None => modify (fun st => set_ndev_pending (ndev_pending st - 1) st)
          end st1 = Some (tt, st2)) as Hstep.
  { unfold st2, d1. simpl. by destruct (ndev_ethif d). }
  rewrite (bind_eq _ _ _ _ _ Hstep).
  unfold bind, write_ndev, modify.
  exists (set_ndev_max
            (ndev_max_shrink (<[slot := downed d]> (ndev_array st2)) (ndev_max st2))
            (set_ndev_array (<[slot := downed d]> (ndev_array st2)) st2)).
  split; [reflexivity|].
  assert (ndev_array st2 = ndev_array st1) as Ha2
    by (unfold st2; by destruct (ndev_ethif d)).
  assert (ndev_max st2 = ndev_max st) as Hm2
    by (unfold st2; destruct (ndev_ethif d); cbn; congruence).
  assert (pool_inv st2) as Hp2.
  { unfold st2. destruct (ndev_ethif d);
      [by apply pool_inv_set_trace|by apply pool_inv_set_pending]. }
  assert (<[slot := downed d]> (ndev_array st2)
          = <[slot := downed d]> (ndev_array st)) as Hins.
  { by rewrite Ha2, Harr, list_insert_insert_eq. }
  cbn. rewrite Hins.
  split_and!.
  - split.
    + apply pool_inv_set_max.
      rewrite <- Hins.
      eapply pool_inv_set_ndev; [done|by rewrite Ha2|done|done|].
      intros s. rewrite <- Ha2 in Hd1.
      pose proof (pool_queues _ Hp2 slot d1 s Hd1) as Hw. by destruct s.
    + pose proof Ht as [T1 T2 T3 T4].
      assert (forall i d0, <[slot := downed d]> (ndev_array st) !! i = Some d0 ->
                ndev_endpt d0 = NONE -> nq_max (ndev_sendq d0) = 0) as Hvac.
      { intros i d0 Hi Hn. destruct (decide (slot = i)) as [<-|Hne].
        - apply list_lookup_insert_Some in Hi as [(_ & <- & _)|[? _]]; done.
        - rewrite list_lookup_insert_ne in Hi by done. eauto. }
      split; cbn.
      * rewrite Hm2. etransitivity; [apply ndev_max_shrink_le|done].
      * intros i d0 Hi Hor.
        destruct (decide (ndev_max st <= i)%nat) as [Hge|Hlt].
        { destruct (decide (slot = i)) as [<-|Hne].
          - apply list_lookup_insert_Some in Hi as [(_ & <- & _)|[? _]]; done.
          - rewrite list_lookup_insert_ne in Hi by done. eauto. }
        destruct Hor as [Hor|Hor]; [|by eauto].
        apply (Hvac i d0 Hi).
        apply (ndev_max_shrink_vacant (<[slot := downed d]> (ndev_array st))
                 (ndev_max st) i d0); [|done].
        rewrite Hm2 in Hor. lia.
      * intros i d0 Hi. destruct (decide (slot = i)) as [<-|Hne].
        -- apply list_lookup_insert_Some in Hi as [(_ & <- & _)|[? _]]; done.
        -- rewrite list_lookup_insert_ne in Hi by done. eauto.
      * intros i d0 Hi. destruct (decide (slot = i)) as [<-|Hne].
        -- apply list_lookup_insert_Some in Hi as [(_ & <- & _)|[? _]]; done.
        -- rewrite list_lookup_insert_ne in Hi by done. eauto.
  - done.
  - by rewrite Hm2.
  - unfold st2. destruct (ndev_ethif d); cbn; lia.
  - unfold st2. destruct (ndev_ethif d); cbn; congruence.
  - exists gs. unfold st2. destruct (ndev_ethif d); cbn; rewrite R5.
    + by rewrite <- app_assoc.
    + by rewrite app_nil_r.
  - intros H0. pose proof (proj1 (table_both _ Ht slot d Hd) H0) as Hr.
    unfold st2. destruct (ndev_ethif d); cbn; rewrite (Htr H0 Hr); [done|].
    by rewrite app_nil_r.
Qed.

(** ** [ndev_up] *)

Lemma ndev_up_scan_inl label l slot free i :
  ndev_up_scan label l slot free = inl i ->
  exists d, l !! (i - slot)%nat = Some d /\ (slot <= i)%nat /\
            ndev_endpt d <> NONE /\ ndev_label d = label.
Proof.
  revert slot free. induction l as [|d l IH]; intros slot free H; simpl in H;
    [done|].
  destruct (ndev_endpt d =? NONE) eqn:En.
  - destruct (IH _ _ H) as (d' & Hl & Hle & Hd').
    exists d'. replace (i - slot)%nat with (S (i - S slot)) by lia.
    split_and!; [exact Hl|lia|tauto..].
  - destruct (String.eqb (ndev_label d) label) eqn:El.
    + simplify_eq. exists d. rewrite Nat.sub_diag.
      apply Z.eqb_neq in En. apply String.eqb_eq in El. done.
    + destruct (IH _ _ H) as (d' & Hl & Hle & Hd').
      exists d'. replace (i - slot)%nat with (S (i - S slot)) by lia.
      split_and!; [exact Hl|lia|tauto..].
Qed.

Lemma ndev_up_scan_inr label l slot free i :
  ndev_up_scan label l slot free = inr (Some i) ->
  free = Some i \/
  exists d, l !! (i - slot)%nat = Some d /\ (slot <= i)%nat /\
            ndev_endpt d = NONE.
Proof.
  revert slot free. induction l as [|d l IH]; intros slot free H; simpl in H.
  - left. congruence.
  - destruct (ndev_endpt d =? NONE) eqn:En.
    + destruct (IH _ _ H) as [Hf|(d' & Hl & Hle & Hd')].
      * destruct free; [by left|]. simplify_eq. right.
        exists d. rewrite Nat.sub_diag. apply Z.eqb_eq in En. done.
      * right. exists d'. replace (i - slot)%nat with (S (i - S slot)) by lia.
        split_and!; [exact Hl|lia|tauto..].
    + destruct (String.eqb (ndev_label d) label); [done|].
      destruct (IH _ _ H) as [Hf|(d' & Hl & Hle & Hd')]; [by left|].
      right. exists d'. replace (i - slot)%nat with (S (i - S slot)) by lia.
      split_and!; [exact Hl|lia|tauto..].
Qed.

Lemma ndev_send_init_eq st slot d :
  ndev_array st !! slot = Some d ->
  ndev_send_init slot st
  = Some (tt, set_trace
                (trace st ++ [asynsend3 (ndev_endpt d)
                                (M_INIT (nq_head (ndev_sendq d)))]) st).
Proof.
  intros Hd. unfold ndev_send_init.
  rewrite (bind_eq _ _ _ _ _ (read_ndev_eq _ _ _ Hd)). reflexivity.
Qed.

Lemma inv_set_trace st t : inv st -> inv (set_trace t st).
Proof.
  intros [Hp Ht]. split; [by apply pool_inv_set_trace|].
  by apply (table_inv_ext st).
Qed.

Lemma inv_set_pending st v : inv st -> inv (set_ndev_pending v st).
Proof.
  intros [Hp Ht]. split; [by apply pool_inv_set_pending|].
  by apply (table_inv_ext st).
Qed.

Lemma inv_set_reported st v : inv st -> inv (set_reported v st).
Proof.
  intros [Hp Ht]. split; [by apply pool_inv_set_reported|].
  by apply (table_inv_ext st).
Qed.

Lemma closed_queue_wf reqs s nq : queue_wf reqs s (closed_queue nq).
Proof. apply queue_wf_reset, u32_range. Qed.

(** A driver with a known label restarts: the state after [ndev_up]. *)
Lemma ndev_up_restart st slot d label endpt :
  inv st ->
  ndev_array st !! slot = Some d ->
  ndev_up_scan label (take (ndev_max st) (ndev_array st)) 0 None = inl slot ->
  exists st',
    ndev_up label endpt st = Some (tt, st') /\
    inv st' /\
    ndev_array st'
    = <[slot := mk_ndev endpt (ndev_label d) (ndev_ethif d)
                  (closed_queue (ndev_sendq d)) (closed_queue (ndev_recvq d))]>
        (ndev_array st) /\
    ndev_max st' = ndev_max st /\
    ndev_pending st'
    = ndev_pending st + match ndev_ethif d with Some _ => 1 | None => 0 end.
Proof.
  intros [Hp Ht] Hd Hscan.
  destruct (ndev_queue_reset_both _ _ _ Hp Hd)
    as (st1 & Hrun & Hp1 & (R1 & R2 & R3 & R4 & gs & R5) & Htr & Harr).
  set (d1 := mk_ndev (ndev_endpt d) (ndev_label d) (ndev_ethif d)
               (closed_queue (ndev_sendq d)) (closed_queue (ndev_recvq d))) in *.
  assert (ndev_array st1 !! slot = Some d1) as Hd1.
  { rewrite Harr. apply list_lookup_insert_eq. by eapply lookup_lt_Some. }
  unfold ndev_up. unfold bind at 1. unfold gets at 1.
  unfold bind at 1. unfold gets at 1. rewrite Hscan.
  unfold bind at 1. unfold bind in Hrun.
  destruct (ndev_queue_reset (slot, SENDQ) st) as [[[] st0]|] eqn:E0; [|done].
  unfold bind at 1. rewrite Hrun.
  rewrite (bind_eq _ _ _ _ _ (read_ndev_eq _ _ _ Hd1)).
  set (st2 := match ndev_ethif d with
              | Some ethif =>
                  set_ndev_pending (ndev_pending st1 + 1)
                    (set_trace (trace st1 ++ [ethif_disable ethif]) st1)
              | None => st1
              end).
  assert (match ndev_ethif d1 with
          | Some ethif =>
              emit (ethif_disable ethif) ;;
              modify (fun st => set_ndev_pending (ndev_pending st + 1) st)
          | None => ret tt
          end st1 = Some (tt, st2)) as Hstep.
  { unfold st2, d1. simpl. by destruct (ndev_ethif d). }
  rewrite (bind_eq _ _ _ _ _ Hstep).
  assert (ndev_array st2 = ndev_array st1) as Ha2
    by (unfold st2; by destruct (ndev_ethif d)).
  assert (ndev_max st2 = ndev_max st) as Hm2
    by (unfold st2; destruct (ndev_ethif d); cbn; congruence).
  assert (pool_inv st2) as Hp2.
  { unfold st2. destruct (ndev_ethif d); [|done].
    by apply pool_inv_set_pending, pool_inv_set_trace. }
  set (d3 := mk_ndev endpt (ndev_label d) (ndev_ethif d)
               (closed_queue (ndev_sendq d)) (closed_queue (ndev_recvq d))).
  set (st3 := set_ndev_array (<[slot := d3]> (ndev_array st2)) st2).
  unfold bind at 1. rewrite write_ndev_eq.
  change (set_ndev_array _ st2) with st3.
  assert (ndev_array st3 !! slot = Some d3) as Hd3.
  { unfold st3. cbn. apply list_lookup_insert_eq. rewrite Ha2.
    by eapply lookup_lt_Some. }
  rewrite (ndev_send_init_eq _ _ _ Hd3).
  eexists. split; [reflexivity|].
  assert (ndev_array st3 = <[slot := d3]> (ndev_array st)) as Ha3.
  { unfold st3. cbn. by rewrite Ha2, Harr, list_insert_insert_eq. }
  split_and!.
  - apply inv_set_trace. split.
    + unfold st3. eapply pool_inv_set_ndev; [done|by rewrite Ha2|done|done|].
      intros s. destruct s; apply closed_queue_wf.
    + eapply table_inv_insert; [exact Ht|exact Ha3|exact Hm2|done|done|done].
  - done.
  - done.
  - cbn. unfold st2. destruct (ndev_ethif d); cbn; lia.
Qed.

(** A driver takes a slot that holds none: the state after the slot is
    initialized. *)
Lemma ndev_up_new st slot d label endpt max' :
  inv st ->
  ndev_array st !! slot = Some d ->
  nq_max (ndev_sendq d) = 0 ->
  (ndev_max st <= max' <= NR_NDEV)%nat ->
  (slot < max')%nat ->
  let k : M unit :=
    d <- read_ndev slot ;;
    write_ndev slot (mk_ndev endpt (strlcpy_label label) None
                             (ndev_sendq d) (ndev_recvq d)) ;;
    ndev_queue_init (slot, SENDQ) ;;
    ndev_queue_init (slot, RECVQ) ;;
    ndev_send_init slot ;;
    modify (fun st => set_ndev_pending (ndev_pending st + 1) st) in
  exists st',
    k (set_ndev_max max' st) = Some (tt, st') /\
    inv st' /\
    ndev_array st'
    = <[slot := mk_ndev endpt (strlcpy_label label) None
                  (mk_ndev_queue (u32 (nq_head (ndev_sendq d) + 1)) 0 0 [])
                  (mk_ndev_queue (u32 (nq_head (ndev_recvq d) + 1)) 0 0 [])]>
        (ndev_array st) /\
    ndev_max st' = max' /\
    ndev_pending st' = ndev_pending st + 1.
Proof.
  intros [Hp Ht] Hd H0 Hmax Hlt k. unfold k.
  pose proof (proj1 (table_both _ Ht slot d Hd) H0) as H0r.
  set (st0 := set_ndev_max max' st).
  assert (ndev_array st0 !! slot = Some d) as Hd0 by done.
  rewrite (bind_eq _ _ _ _ _ (read_ndev_eq _ _ _ Hd0)).
  unfold bind at 1. rewrite write_ndev_eq.
  set (d1 := mk_ndev endpt (strlcpy_label label) None (ndev_sendq d) (ndev_recvq d)).
  set (st1 := set_ndev_array (<[slot := d1]> (ndev_array st0)) st0).
  assert (Hlen : (slot < length (ndev_array st))%nat) by (by eapply lookup_lt_Some).
  assert (ndev_array st1 !! slot = Some d1) as Hd1.
  { unfold st1. cbn. by apply list_lookup_insert_eq. }
  assert (pool_inv st1) as Hp1.
  { unfold st1. eapply pool_inv_set_ndev; [by apply pool_inv_set_max|done..|].
    intros s. pose proof (pool_queues _ Hp slot d s Hd). by destruct s. }
  rewrite (bind_eq _ _ _ _ _ (ndev_queue_init_eq _ _ SENDQ _ Hd1)).
  pose proof (pool_inv_queue_init _ _ SENDQ _ Hp1 Hd1 H0) as Hp2.
  set (d2 := set_queue_of SENDQ _ d1) in *.
  set (st2 := set_ndev_array _ st1) in *.
  assert (ndev_array st2 !! slot = Some d2) as Hd2.
  { unfold st2. cbn. apply list_lookup_insert_eq. by rewrite length_insert. }
  rewrite (bind_eq _ _ _ _ _ (ndev_queue_init_eq _ _ RECVQ _ Hd2)).
  pose proof (pool_inv_queue_init _ _ RECVQ _ Hp2 Hd2 H0r) as Hp3.
  set (d3 := set_queue_of RECVQ _ d2) in *.
  set (st3 := set_ndev_array _ st2) in *.
  assert (ndev_array st3 !! slot = Some d3) as Hd3.
  { unfold st3. cbn. apply list_lookup_insert_eq. by rewrite !length_insert. }
  rewrite (bind_eq _ _ _ _ _ (ndev_send_init_eq _ _ _ Hd3)).
  eexists. split; [reflexivity|].
  assert (ndev_array st3 = <[slot := d3]> (ndev_array st)) as Ha3.
  { unfold st3, st2, st1. cbn. by rewrite !list_insert_insert_eq. }
  split_and!; try done.
  apply inv_set_pending, inv_set_trace. split; [done|].
  pose proof Ht as [T1 T2 T3 T4].
  split.
  - unfold st3, st2, st1, st0. cbn. lia.
  - intros i d' Hi Hor. rewrite Ha3 in Hi.
    destruct (decide (slot = i)) as [<-|Hne].
    + apply list_lookup_insert_Some in Hi as [(_ & <- & _)|[? _]]; done.
    + rewrite list_lookup_insert_ne in Hi by done.
      apply (T2 i d' Hi). destruct Hor as [Hor|Hor]; [left|by right].
      change (ndev_max st3) with max' in Hor. lia.
  - intros i d' Hi. rewrite Ha3 in Hi.
    destruct (decide (slot = i)) as [<-|Hne].
    + apply list_lookup_insert_Some in Hi as [(_ & <- & _)|[? _]]; done.
    + rewrite list_lookup_insert_ne in Hi by done. eauto.
  - intros i d' Hi. rewrite Ha3 in Hi.
    destruct (decide (slot = i)) as [<-|Hne].
    + apply list_lookup_insert_Some in Hi as [(_ & <- & _)|[? _]]; done.
    + rewrite list_lookup_insert_ne in Hi by done. eauto.
Qed.

Lemma set_ndev_max_id st : set_ndev_max (ndev_max st) st = st.
Proof. by destruct st. Qed.

(** No assertion stops [ndev_up], and it returns in a state that satisfies
    the invariant. *)
Lemma ndev_up_inv st label endpt :
  inv st -> exists st', ndev_up label endpt st = Some (tt, st') /\ inv st'.
Proof.
  intros Hi. pose proof Hi as [Hp Ht].
  destruct (ndev_up_scan label (take (ndev_max st) (ndev_array st)) 0 None)
    as [slot|[slot|]] eqn:Hscan.
  - destruct (ndev_up_scan_inl _ _ _ _ _ Hscan) as (d & Hd & _).
    rewrite Nat.sub_0_r in Hd. apply lookup_take_Some in Hd as [Hd _].
    destruct (ndev_up_restart _ _ _ label endpt Hi Hd Hscan)
      as (st' & Hrun & Hi' & _). eauto.
  - destruct (ndev_up_scan_inr _ _ _ _ _ Hscan) as [|(d & Hd & _ & Hn)]; [done|].
    rewrite Nat.sub_0_r in Hd. apply lookup_take_Some in Hd as [Hd Hlt].
    destruct (ndev_up_new st slot d label endpt (ndev_max st) Hi Hd)
      as (st' & Hrun & Hi' & _).
    { apply (table_vacant _ Ht slot d Hd). by right. }
    { pose proof (table_max _ Ht). lia. }
    { done. }
    exists st'. split; [|done].
    rewrite set_ndev_max_id in Hrun.
    unfold ndev_up. unfold bind at 1. unfold gets at 1.
    unfold bind at 1. unfold gets at 1. rewrite Hscan.
    unfold bind at 1. unfold ret at 1. exact Hrun.
  - unfold ndev_up. unfold bind at 1. unfold gets at 1.
    unfold bind at 1. unfold gets at 1. rewrite Hscan.
    destruct (ndev_max st =? NR_NDEV)%nat eqn:Emax.
    + unfold bind at 1. unfold bind at 1. unfold gets at 1.
      destruct (reported st) eqn:Erep; cbn.
      * eauto.
      * eexists. split; [reflexivity|].
        by apply inv_set_reported, inv_set_trace.
    + apply Nat.eqb_neq in Emax. pose proof (table_max _ Ht) as Hle.
      destruct (lookup_lt_is_Some_2 (ndev_array st) (ndev_max st)) as [d Hd].
      { rewrite (pool_ndev_length _ Hp). lia. }
      destruct (ndev_up_new st (ndev_max st) d label endpt (S (ndev_max st)) Hi Hd)
        as (st' & Hrun & Hi' & _).
      { apply (table_vacant _ Ht _ d Hd). by left. }
      { lia. }
      { lia. }
      exists st'. split; [|done].
      unfold bind at 1. unfold bind at 1. unfold modify at 1.
      unfold ret at 1. exact Hrun.
Qed.

Lemma ndev_check_entry_inv st e :
  inv st -> exists st', ndev_check_entry e st = Some (tt, st') /\ inv st'.
Proof.
  intros Hi. unfold ndev_check_entry.
  destruct (negb _ || _); [by eauto|].
  destruct (negb (ds_driver_up e)); [by eauto|].
  cbv zeta. destruct (_ || _); [by eauto|].
  by apply ndev_up_inv.
Qed.

Lemma ndev_check_up_inv changes st :
  inv st -> exists st', ndev_check_up changes st = Some (tt, st') /\ inv st'.
Proof.
  revert st. induction changes as [|e changes IH]; intros st Hi; simpl.
  - by eauto.
  - destruct (ndev_check_entry_inv st e Hi) as (st1 & Hrun & Hi1).
    rewrite (bind_eq _ _ _ _ _ Hrun). by apply IH.
Qed.

Lemma ndev_check_down_unfold fuel ds_label slot :
  ndev_check_down fuel ds_label slot
  = (max <- gets ndev_max ;;
     if (slot <? max)%nat then
       match fuel with
       | O => panic
       | S fuel' =>
           d <- read_ndev slot ;;
           when (negb (ndev_endpt d =? NONE) && negb (ds_label (ndev_label d)))
             (ndev_down slot) ;;
           ndev_check_down fuel' ds_label (S slot)
       end
     else ret tt).
Proof. by destruct fuel. Qed.

Lemma ndev_check_down_inv fuel ds_label slot st :
  inv st -> (ndev_max st <= slot + fuel)%nat ->
  exists st', ndev_check_down fuel ds_label slot st = Some (tt, st') /\ inv st'.
Proof.
  revert slot st. induction fuel as [|fuel IH]; intros slot st Hi Hfuel;
    rewrite ndev_check_down_unfold; unfold bind at 1; unfold gets at 1;
    destruct (slot <? ndev_max st)%nat eqn:Hlt; try (by eauto).
  - apply Nat.ltb_lt in Hlt. lia.
  - apply Nat.ltb_lt in Hlt. pose proof Hi as [Hp Ht].
    destruct (lookup_lt_is_Some_2 (ndev_array st) slot) as [d Hd].
    { rewrite (pool_ndev_length _ Hp). pose proof (table_max _ Ht). lia. }
    rewrite (bind_eq _ _ _ _ _ (read_ndev_eq _ _ _ Hd)).
    destruct (negb _ && negb _).
    + destruct (ndev_down_eq _ _ _ Hi Hd) as (st1 & Hrun & Hi1 & _ & Hmax & _).
      simpl when. rewrite (bind_eq _ _ _ _ _ Hrun).
      apply IH; [done|].
      rewrite Hmax. pose proof (ndev_max_shrink_le (ndev_array st1) (ndev_max st)).
      lia.
    + simpl when. unfold bind at 1. unfold ret at 1.
      apply IH; [done|lia].
Qed.

(** No assertion stops [ndev_check], and it returns in a state that
    satisfies the invariant. *)
Lemma ndev_check_inv changes code ds_label st :
  inv st ->
  exists st', ndev_check changes code ds_label st = Some (tt, st') /\ inv st'.
Proof.
  intros Hi. unfold ndev_check.
  destruct (ndev_check_up_inv changes st Hi) as (st1 & Hrun & Hi1).
  rewrite (bind_eq _ _ _ _ _ Hrun).
  assert (exists st2, when (negb (code =? ENOENT))
                        (emit (printf ("LWIP: DS check failed (%d)" ++ LF)
                                 [code])) st1
                      = Some (tt, st2) /\ inv st2) as (st2 & Hrun2 & Hi2).
  { destruct (code =? ENOENT); simpl; eexists; (split; [reflexivity|]); [done|].
    by apply inv_set_trace. }
  rewrite (bind_eq _ _ _ _ _ Hrun2).
  apply ndev_check_down_inv; [done|].
  pose proof (table_max _ (proj2 Hi2)). lia.
Qed.

(** ** Building a request *)

Lemma req_touched_refl nreq st : req_touched nreq st st.
Proof. unfold req_touched. split_and!; eauto. Qed.

Lemma req_touched_trans nreq st1 st2 st3 :
  req_touched nreq st1 st2 -> req_touched nreq st2 st3 ->
  req_touched nreq st1 st3.
Proof.
  intros (A1 & A2 & A3 & A4 & A5 & A6 & A7 & A8 & A9)
         (B1 & B2 & B3 & B4 & B5 & B6 & B7 & B8 & B9).
  unfold req_touched. split_and!; try congruence.
  - intros n Hn. by rewrite B8, A8.
  - intros r Hr. destruct (A9 r Hr) as (r' & Hr' & T3).
    destruct (B9 r' Hr') as (r'' & Hr'' & U3).
    exists r''. split_and!; congruence.
Qed.

Lemma req_touched_set_trace nreq st t : req_touched nreq st (set_trace t st).
Proof. unfold req_touched. split_and!; eauto. Qed.

Lemma req_touched_write nreq st r r' :
  nreq_array st !! nreq = Some r ->
  length (nreq_grant r') = length (nreq_grant r) ->
  req_touched nreq st (set_nreq_array (<[nreq := r']> (nreq_array st)) st).
Proof.
  intros Hr T3. unfold req_touched. cbn. split_and!; try done.
  - by rewrite length_insert.
  - intros n Hn. by rewrite list_lookup_insert_ne.
  - intros r0 Hr0. simplify_eq. exists r'. split; [|done].
    apply list_lookup_insert_eq. by eapply lookup_lt_Some.
Qed.

Lemma pool_inv_touched nreq st st' :
  pool_inv st -> nreq ∈ nreq_freelist st -> req_touched nreq st st' ->
  pool_inv st'.
Proof.
  intros Hp Hf (A1 & A2 & A3 & A4 & A5 & A6 & A7 & A8 & A9).
  pose proof Hp as [H1 H2 H3 H4 H5 H6 H7].
  destruct (pool_free_lookup _ _ Hp Hf) as [r Hr].
  destruct (A9 r Hr) as (r' & Hr' & T3).
  split; rewrite ?A1, ?A2, ?A3.
  - congruence.
  - intros n r0 Hn. destruct (decide (n = nreq)) as [->|Hne].
    + simplify_eq. rewrite T3. eauto.
    + rewrite A8 in Hn by done. eauto.
  - done.
  - done.
  - unfold spares_in_use in *. by rewrite A3.
  - done.
  - intros slot d s Hd.
    destruct (H7 slot d s Hd) as (Ha & Hb & Hc & He & Hg).
    unfold queue_wf. do 4 (split; [done|]).
    intros j n Hj. destruct (Hg j n Hj) as (r0 & Hr0 & Hty & Hid).
    exists r0. split; [|done]. rewrite A8; [done|].
    intros ->. eapply pool_free_not_queued; eauto.
Qed.

Lemma inv_touched nreq st st' :
  inv st -> nreq ∈ nreq_freelist st -> req_touched nreq st st' -> inv st'.
Proof.
  intros [Hp Ht] Hf Hr. split; [by eapply pool_inv_touched|].
  destruct Hr as (A1 & A2 & A3 & A4 & _). by apply (table_inv_ext st).
Qed.

Lemma set_nreq_grant_eq st nreq r i grant :
  nreq_array st !! nreq = Some r ->
  (i < length (nreq_grant r))%nat ->
  set_nreq_grant nreq i grant st
  = Some (tt, set_nreq_array
                (<[nreq := mk_ndev_req (nreq_type r)
                             (<[i := grant]> (nreq_grant r)) (nreq_id r)]>
                   (nreq_array st)) st).
Proof.
  intros Hr Hi. unfold set_nreq_grant.
  rewrite (bind_eq _ _ _ _ _ (read_req_eq _ _ _ Hr)).
  apply Nat.ltb_lt in Hi. rewrite Hi. reflexivity.
Qed.

Lemma set_nreq_grant_None st nreq r i grant :
  nreq_array st !! nreq = Some r ->
  (length (nreq_grant r) <= i)%nat ->
  set_nreq_grant nreq i grant st = None.
Proof.
  intros Hr Hi. unfold set_nreq_grant.
  rewrite (bind_eq _ _ _ _ _ (read_req_eq _ _ _ Hr)).
  apply Nat.ltb_ge in Hi. rewrite Hi. reflexivity.
Qed.

Lemma set_nreq_id_eq st nreq r seq :
  nreq_array st !! nreq = Some r ->
  set_nreq_id nreq seq st
  = Some (tt, set_nreq_array
                (<[nreq := mk_ndev_req (nreq_type r) (nreq_grant r) seq]>
                   (nreq_array st)) st).
Proof.
  intros Hr. unfold set_nreq_id.
  by rewrite (bind_eq _ _ _ _ _ (read_req_eq _ _ _ Hr)).
Qed.

(** *** The loop of [ndev_transfer] *)

Lemma grants_below_S grants i :
  grants_below grants (S i) = grant_result grants i :: grants_below grants i.
Proof.
  unfold grants_below. by rewrite seq_S, map_app, rev_app_distr.
Qed.

#[global] Arguments grants_below : simpl never.

Lemma ndev_transfer_undo_eq st nreq r grants i :
  nreq_array st !! nreq = Some r ->
  (forall j, (j < i)%nat -> nreq_grant r !! j = Some (grant_result grants j)) ->
  ndev_transfer_undo nreq i st
  = Some (tt, set_trace (trace st ++ map cpf_revoke (grants_below grants i)) st).
Proof.
  intros Hr Hg. revert st Hr. induction i as [|i IH]; intros st Hr.
  - cbn. rewrite app_nil_r. by destruct st.
  - simpl. rewrite (bind_eq _ _ _ _ _ (read_req_eq _ _ _ Hr)).
    rewrite (Hg i) by lia.
    unfold bind at 1. unfold emit at 1. unfold modify at 1.
    rewrite IH; [|intros; apply Hg; lia|done].
    rewrite grants_below_S. cbn.
    by rewrite <- app_assoc.
Qed.

Lemma transfer_outcome_unfold grants chain left i :
  transfer_outcome grants chain left i
  = if 0 <? left then
      if (i <? NDEV_IOV_MAX)%nat then
        match chain with
        | [] => LOOP_PANIC
        | p :: next =>
            if negb (GRANT_VALID (grant_result grants i)) then LOOP_ENOMEM i
            else if len p <=? left
                 then transfer_outcome grants next (left - len p) (S i)
                 else LOOP_PANIC
        end
      else LOOP_PANIC
    else LOOP_OK i.
Proof. by destruct chain. Qed.

Lemma ndev_transfer_loop_unfold endpt do_send nreq grants chain left i mg ml :
  ndev_transfer_loop endpt do_send nreq grants chain left i mg ml
  = if 0 <? left then
      c_assert (i <? NDEV_IOV_MAX)%nat ;;
      match chain with
      | [] => panic
      | p :: next =>
          let grant := grant_result grants i in
          emit (cpf_grant_direct endpt (payload p) (len p)
                  (if do_send then CPF_READ else CPF_WRITE) grant) ;;
          if negb (GRANT_VALID grant) then
            ndev_transfer_undo nreq i ;;
            ret None
          else
            set_nreq_grant nreq i grant ;;
            c_assert (len p <=? left) ;;
            ndev_transfer_loop endpt do_send nreq grants next (left - len p)
              (S i) (mg ++ [grant]) (ml ++ [len p])
      end
    else ret (Some (i, mg, ml)).
Proof. by destruct chain. Qed.

(** The loop does what [transfer_outcome] tells. *)
Lemma ndev_transfer_loop_eq endpt do_send nreq grants chain :
  forall left i mg ml st r,
  nreq_array st !! nreq = Some r ->
  length (nreq_grant r) = NDEV_IOV_MAX ->
  (i <= NDEV_IOV_MAX)%nat ->
  (forall j, (j < i)%nat -> nreq_grant r !! j = Some (grant_result grants j)) ->
  match transfer_outcome grants chain left i with
  | LOOP_PANIC =>
      ndev_transfer_loop endpt do_send nreq grants chain left i mg ml st = None
  | LOOP_ENOMEM k =>
      (i <= k)%nat /\
      GRANT_VALID (grant_result grants k) = false /\
      (forall j, (i <= j < k)%nat -> GRANT_VALID (grant_result grants j) = true) /\
      exists st',
        ndev_transfer_loop endpt do_send nreq grants chain left i mg ml st
        = Some (None, st') /\
        req_touched nreq st st' /\
        trace st'
        = trace st ++ grant_calls endpt do_send grants chain i (S k - i)
          ++ map cpf_revoke (grants_below grants k)
  | LOOP_OK k =>
      (i <= k <= NDEV_IOV_MAX)%nat /\
      (forall j, (i <= j < k)%nat -> GRANT_VALID (grant_result grants j) = true) /\
      exists st' r',
        ndev_transfer_loop endpt do_send nreq grants chain left i mg ml st
        = Some (Some (k, mg ++ map (grant_result grants) (seq i (k - i)),
                      ml ++ map len (take (k - i) chain)), st') /\
        req_touched nreq st st' /\
        trace st' = trace st ++ grant_calls endpt do_send grants chain i (k - i) /\
        nreq_array st' !! nreq = Some r' /\
        nreq_type r' = nreq_type r /\ nreq_id r' = nreq_id r /\
        length (nreq_grant r') = NDEV_IOV_MAX /\
        (forall j, (j < k)%nat -> nreq_grant r' !! j = Some (grant_result grants j))
  end.
Proof.
  induction chain as [|p next IH]; intros left i mg ml st r Hr Hlen Hi Hg;
    rewrite transfer_outcome_unfold, ndev_transfer_loop_unfold.
  - destruct (0 <? left).
    + destruct (i <? NDEV_IOV_MAX)%nat; reflexivity.
    + split; [lia|]. split; [intros; lia|].
      exists st, r. rewrite Nat.sub_diag. cbn. rewrite !app_nil_r.
      split_and!; try done. apply req_touched_refl.
  - destruct (0 <? left).
    2:{ split; [lia|]. split; [intros; lia|].
        exists st, r. rewrite Nat.sub_diag. cbn. rewrite !app_nil_r.
        split_and!; try done. apply req_touched_refl. }
    destruct (i <? NDEV_IOV_MAX)%nat eqn:Hlt; [|reflexivity].
    apply Nat.ltb_lt in Hlt.
    cbv zeta.
    set (g := grant_result grants i).
    set (call := cpf_grant_direct endpt (payload p) (len p)
                   (if do_send then CPF_READ else CPF_WRITE) g).
    set (st0 := set_trace (trace st ++ [call]) st).
    assert (nreq_array st0 !! nreq = Some r) as Hr0 by done.
    destruct (GRANT_VALID g) eqn:Hv; simpl negb; cbv iota.
    + (* the grant is valid: store it and go on *)
      set (r1 := mk_ndev_req (nreq_type r) (<[i := g]> (nreq_grant r)) (nreq_id r)).
      set (st1 := set_nreq_array (<[nreq := r1]> (nreq_array st0)) st0).
      assert (req_touched nreq st st1) as Ht1.
      { eapply req_touched_trans; [apply (req_touched_set_trace _ _ (trace st0))|].
        apply (req_touched_write nreq st0 r r1); [done|].
        unfold r1. cbn. apply length_insert. }
      destruct (len p <=? left) eqn:Hle.
      2:{ unfold bind, c_assert, emit, modify, ret. cbn. fold st0.
          rewrite (set_nreq_grant_eq _ _ _ i g Hr0 ltac:(lia)). done. }
      assert (forall mg' ml',
                (c_assert true ;;
                 emit call ;;
                 set_nreq_grant nreq i g ;;
                 c_assert true ;;
                 ndev_transfer_loop endpt do_send nreq grants next
                   (left - len p) (S i) mg' ml') st
                = ndev_transfer_loop endpt do_send nreq grants next
                    (left - len p) (S i) mg' ml' st1) as Hstep.
      { intros mg' ml'. unfold bind, c_assert, emit, modify, ret. cbn. fold st0.
        by rewrite (set_nreq_grant_eq _ _ _ i g Hr0 ltac:(lia)). }
      rewrite !Hstep.
      assert (nreq_array st1 !! nreq = Some r1) as Hr1.
      { unfold st1. cbn. apply list_lookup_insert_eq. by eapply lookup_lt_Some. }
      specialize (IH (left - len p) (S i) (mg ++ [g]) (ml ++ [len p]) st1 r1 Hr1).
      assert (length (nreq_grant r1) = NDEV_IOV_MAX) as Hlen1.
      { unfold r1; cbn; by rewrite length_insert. }
      assert (forall j, (j < S i)%nat ->
                nreq_grant r1 !! j = Some (grant_result grants j)) as Hg1.
      { intros j Hj. unfold r1. cbn. destruct (decide (j = i)) as [->|Hne].
        - apply list_lookup_insert_eq. lia.
        - rewrite list_lookup_insert_ne by done. apply Hg. lia. }
      specialize (IH Hlen1 ltac:(lia) Hg1).
      destruct (transfer_outcome grants next (left - len p) (S i)) as [|k|k].
      * exact IH.
      * destruct IH as (Hk & Hinv & Hval & st' & Hrun & Ht' & Htr).
        split; [lia|]. split; [done|]. split.
        { intros j Hj. destruct (decide (j = i)) as [->|Hne]; [done|].
          apply Hval. lia. }
        exists st'. split_and!; try done.
        -- by eapply req_touched_trans.
        -- rewrite Htr. replace (S k - i)%nat with (S (S k - S i)) by lia.
           cbn. by rewrite <- app_assoc.
      * destruct IH as (Hk & Hval & st' & r' & Hrun & Ht' & Htr & Hr' & Hty' & Hid'
                        & Hlen' & Hg').
        split; [lia|]. split.
        { intros j Hj. destruct (decide (j = i)) as [->|Hne]; [done|].
          apply Hval. lia. }
        exists st', r'. split_and!; try done.
        -- rewrite Hrun. replace (k - i)%nat with (S (k - S i)) by lia.
           cbn. by rewrite <- !app_assoc.
        -- by eapply req_touched_trans.
        -- rewrite Htr. replace (k - i)%nat with (S (k - S i)) by lia.
           cbn. by rewrite <- app_assoc.
    + (* the grant is invalid: revoke what was granted *)
      split; [lia|]. split; [done|]. split; [intros; lia|].
      unfold bind at 1. unfold c_assert at 1. unfold ret at 1.
      unfold bind at 1. unfold emit at 1. unfold modify at 1. fold st0.
      rewrite (bind_eq _ _ _ _ _
                 (ndev_transfer_undo_eq st0 nreq r grants i Hr0 Hg)).
      eexists. split; [reflexivity|]. split.
      * eapply req_touched_trans; apply req_touched_set_trace.
      * cbn. replace (S i - i)%nat with 1%nat by lia. cbn.
        by rewrite <- app_assoc.
Qed.

Lemma ndev_of_id_eq st id d :
  (id < NR_NDEV)%nat ->
  ndev_array st !! id = Some d ->
  ndev_endpt d <> NONE ->
  NDEV_ACTIVE d = true ->
  ndev_of_id id st = Some (d, st).
Proof.
  intros Hid Hd Hn Ha. unfold ndev_of_id.
  apply Nat.ltb_lt in Hid. rewrite Hid.
  unfold bind at 1. unfold c_assert at 1. unfold ret at 1.
  rewrite (bind_eq _ _ _ _ _ (read_ndev_eq _ _ _ Hd)).
  apply Z.eqb_neq in Hn. rewrite Hn, Ha. reflexivity.
Qed.

Lemma ndev_of_id_Some st id d st' :
  ndev_of_id id st = Some (d, st') ->
  st' = st /\ (id < NR_NDEV)%nat /\ ndev_array st !! id = Some d /\
  ndev_endpt d <> NONE /\ NDEV_ACTIVE d = true.
Proof.
  unfold ndev_of_id. intros H.
  destruct (id <? NR_NDEV)%nat eqn:Hid; [|done].
  unfold bind at 1 in H. unfold c_assert at 1 in H. unfold ret at 1 in H.
  unfold bind at 1 in H. unfold read_ndev in H.
  destruct (ndev_array st !! id) as [d0|] eqn:Hd; [|done].
  destruct (ndev_endpt d0 =? NONE) eqn:Hn; [done|].
  destruct (NDEV_ACTIVE d0) eqn:Ha; [|done].
  unfold bind, c_assert, ret in H. cbn in H. simplify_eq.
  apply Nat.ltb_lt in Hid. apply Z.eqb_neq in Hn. by split_and!.
Qed.

Lemma ndev_of_id_None st id d :
  ndev_array st !! id = Some d ->
  ((NR_NDEV <= id)%nat \/ ndev_endpt d = NONE \/ NDEV_ACTIVE d = false) ->
  ndev_of_id id st = None.
Proof.
  intros Hd Hor. destruct (ndev_of_id id st) as [[d' st']|] eqn:E; [|done].
  apply ndev_of_id_Some in E as (_ & H1 & H2 & H3 & H4). simplify_eq.
  destruct Hor as [|[|]]; [lia|done|congruence].
Qed.

(** What [ndev_transfer] does, by the outcome of its loop. *)
Lemma ndev_transfer_eq st slot d chain do_send seq nreq grants r :
  ndev_array st !! slot = Some d ->
  nreq_array st !! nreq = Some r ->
  length (nreq_grant r) = NDEV_IOV_MAX ->
  match chain with
  | [] => ndev_transfer slot chain do_send seq nreq grants st = None
  | p :: _ =>
      match transfer_outcome grants chain (tot_len p) 0 with
      | LOOP_PANIC => ndev_transfer slot chain do_send seq nreq grants st = None
      | LOOP_ENOMEM k =>
          GRANT_VALID (grant_result grants k) = false /\
          (forall j, (j < k)%nat -> GRANT_VALID (grant_result grants j) = true) /\
          exists st',
            ndev_transfer slot chain do_send seq nreq grants st
            = Some (ENOMEM, st') /\
            req_touched nreq st st' /\
            trace st'
            = trace st
              ++ grant_calls (ndev_endpt d) do_send grants chain 0 (S k)
              ++ map cpf_revoke (grants_below grants k)
      | LOOP_OK k =>
          (k <= NDEV_IOV_MAX)%nat /\
          (forall j, (j < k)%nat -> GRANT_VALID (grant_result grants j) = true) /\
          exists st' r',
            ndev_transfer slot chain do_send seq nreq grants st
            = Some (OK, st') /\
            req_touched nreq st st' /\
            trace st'
            = trace st
              ++ grant_calls (ndev_endpt d) do_send grants chain 0 k
              ++ [asynsend3 (ndev_endpt d)
                    (M_TRANSFER do_send seq
                       (map (grant_result grants) (List.seq 0 k))
                       (map len (take k chain)) k)] /\
            nreq_array st' !! nreq = Some r' /\
            nreq_type r' = nreq_type r /\ nreq_id r' = seq
      end
  end.
Proof.
  intros Hd Hr Hlen. unfold ndev_transfer.
  rewrite (bind_eq _ _ _ _ _ (read_ndev_eq _ _ _ Hd)).
  rewrite (bind_eq _ _ _ _ _ (set_nreq_id_eq _ _ _ seq Hr)).
  set (ra := mk_ndev_req (nreq_type r) (nreq_grant r) seq).
  set (sta := set_nreq_array (<[nreq := ra]> (nreq_array st)) st).
  destruct chain as [|p next]; [done|].
  assert (nreq_array sta !! nreq = Some ra) as Hra.
  { unfold sta. cbn. apply list_lookup_insert_eq. by eapply lookup_lt_Some. }
  assert (req_touched nreq st sta) as Hta by (by apply (req_touched_write _ _ r)).
  pose proof (ndev_transfer_loop_eq (ndev_endpt d) do_send nreq grants (p :: next)
                (tot_len p) 0 [] [] sta ra Hra Hlen ltac:(lia) ltac:(intros; lia))
    as Hloop.
  destruct (transfer_outcome grants (p :: next) (tot_len p) 0) as [|k|k].
  - by rewrite (bind_None _ _ _ Hloop).
  - destruct Hloop as (_ & Hinv & Hval & st' & Hrun & Ht' & Htr).
    split; [done|]. split; [intros; apply Hval; lia|].
    exists st'. rewrite (bind_eq _ _ _ _ _ Hrun).
    rewrite Nat.sub_0_r in Htr.
    split_and!; [done|by eapply req_touched_trans|done].
  - destruct Hloop as (Hk & Hval & st' & r' & Hrun & Ht' & Htr & Hr' & Hty' & Hid'
                      & Hlen' & Hg').
    split; [lia|]. split; [intros; apply Hval; lia|].
    rewrite (bind_eq _ _ _ _ _ Hrun). rewrite Nat.sub_0_r in *. cbn [app].
    destruct (k <? NDEV_IOV_MAX)%nat eqn:Hlt.
    + apply Nat.ltb_lt in Hlt.
      unfold when.
      rewrite (bind_eq _ _ _ _ _
                 (set_nreq_grant_eq _ _ _ k GRANT_INVALID Hr' ltac:(lia))).
      eexists. eexists. split; [reflexivity|]. split_and!.
      * eapply req_touched_trans; [exact Hta|].
        eapply req_touched_trans; [exact Ht'|].
        eapply req_touched_trans; [|apply req_touched_set_trace].
        apply (req_touched_write _ _ r'); [done|]. cbn. apply length_insert.
      * cbn. rewrite Htr. by rewrite <- app_assoc.
      * cbn. apply list_lookup_insert_eq. by eapply lookup_lt_Some.
      * done.
      * done.
    + unfold when. unfold bind at 1. unfold ret at 1.
      eexists. exists r'. split; [reflexivity|]. split_and!.
      * eapply req_touched_trans; [exact Hta|].
        eapply req_touched_trans; [exact Ht'|apply req_touched_set_trace].
      * cbn. rewrite Htr. by rewrite <- app_assoc.
      * done.
      * done.
      * done.
Qed.

Lemma ndev_send_sendrecv : ndev_send = ndev_sendrecv SENDQ NDEV_SEND true.
Proof. reflexivity. Qed.

Lemma ndev_recv_sendrecv : ndev_recv = ndev_sendrecv RECVQ NDEV_RECV false.
Proof. reflexivity. Qed.

Lemma get_denied_false type s nq spares :
  (type = NDEV_RECV <-> s = RECVQ) ->
  get_denied type nq spares = false ->
  nq_count nq <> nq_max nq /\
  (s = SENDQ -> NDEV_SENDQ <= nq_count nq -> spares <> 0).
Proof.
  intros Hty H. unfold get_denied in H.
  apply orb_false_iff in H as [H1 H2]. apply Z.eqb_neq in H1.
  split; [done|]. intros -> Hle.
  destruct (req_type_eqb type NDEV_RECV) eqn:E.
  { apply req_type_eqb_eq in E. apply Hty in E. done. }
  apply Z.leb_le in Hle. rewrite Hle in H2. simpl in H2.
  by apply Z.eqb_neq.
Qed.

Lemma table_inv_added st st1 slot s d nreq fl :
  table_inv st ->
  ndev_array st !! slot = Some d ->
  ndev_array st1 = ndev_array st ->
  ndev_max st1 = ndev_max st ->
  table_inv (added slot s d nreq fl st1).
Proof.
  intros Ht Hd Ha Hm.
  eapply (table_inv_insert st); [done|by unfold added; cbn; rewrite Ha|done|..].
  - intros Hor. pose proof (table_vacant _ Ht slot d Hd) as Hv.
    destruct s; cbn; apply Hv; done.
  - pose proof (table_both _ Ht slot d Hd). by destruct s.
  - intros Hact. pose proof (table_ethif _ Ht slot d Hd) as He.
    destruct s; cbn in *; by apply He.
Qed.

(** What a send or receive request does, in a state that satisfies the
    invariant, for an active driver. *)
Lemma ndev_sendrecv_eq st s type do_send id d chain grants :
  inv st ->
  (id < NR_NDEV)%nat ->
  ndev_array st !! id = Some d ->
  ndev_endpt d <> NONE ->
  NDEV_ACTIVE d = true ->
  (type = NDEV_RECV <-> s = RECVQ) ->
  if get_denied type (queue_of s d) (nreq_spares st)
  then ndev_sendrecv s type do_send id chain grants st = Some (EBUSY, st)
  else
    exists nreq fl,
      nreq_freelist st = nreq :: fl /\
      match chain with
      | [] => ndev_sendrecv s type do_send id chain grants st = None
      | p :: _ =>
          match transfer_outcome grants chain (tot_len p) 0 with
          | LOOP_PANIC =>
              ndev_sendrecv s type do_send id chain grants st = None
          | LOOP_ENOMEM k =>
              GRANT_VALID (grant_result grants k) = false /\
              (forall j, (j < k)%nat ->
                 GRANT_VALID (grant_result grants j) = true) /\
              exists st',
                ndev_sendrecv s type do_send id chain grants st
                = Some (ENOMEM, st') /\
                inv st' /\
                req_touched nreq st st' /\
                trace st'
                = trace st
                  ++ grant_calls (ndev_endpt d) do_send grants chain 0 (S k)
                  ++ map cpf_revoke (grants_below grants k)
          | LOOP_OK k =>
              exists st1,
                ndev_sendrecv s type do_send id chain grants st
                = Some (OK, added id s d nreq fl st1) /\
                inv (added id s d nreq fl st1) /\
                req_touched nreq st st1 /\
                trace st1
                = trace st
                  ++ grant_calls (ndev_endpt d) do_send grants chain 0 k
                  ++ [asynsend3 (ndev_endpt d)
                        (M_TRANSFER do_send
                           (u32 (nq_head (queue_of s d) + nq_count (queue_of s d)))
                           (map (grant_result grants) (seq 0 k))
                           (map len (take k chain)) k)]
          end
      end.
Proof.
  intros Hi Hid Hd Hn Ha Hty. pose proof Hi as [Hp Ht].
  unfold ndev_sendrecv.
  rewrite (bind_eq _ _ _ _ _ (ndev_of_id_eq _ _ _ Hid Hd Hn Ha)).
  destruct (get_denied type (queue_of s d) (nreq_spares st)) eqn:Hden.
  { by rewrite (bind_eq _ _ _ _ _ (ndev_queue_get_denied _ _ _ _ _ Hd Hden)). }
  destruct (ndev_queue_get_granted _ _ _ _ _ Hp Hd Hty Hden)
    as (nreq & fl & r & Hfl & Hr & Hget).
  exists nreq, fl. split; [done|].
  rewrite (bind_eq _ _ _ _ _ Hget).
  set (seq0 := u32 (nq_head (queue_of s d) + nq_count (queue_of s d))).
  set (r0 := mk_ndev_req type (nreq_grant r) (nreq_id r)).
  set (st0 := set_nreq_array (<[nreq := r0]> (nreq_array st)) st).
  assert (nreq ∈ nreq_freelist st) as Hin by (rewrite Hfl; by left).
  assert (req_touched nreq st st0) as Ht0 by (by apply (req_touched_write _ _ r)).
  assert (nreq_array st0 !! nreq = Some r0) as Hr0.
  { unfold st0. cbn. apply list_lookup_insert_eq. by eapply lookup_lt_Some. }
  assert (length (nreq_grant r0) = NDEV_IOV_MAX) as Hlen0.
  { apply (pool_grant_length _ Hp nreq r Hr). }
  pose proof (ndev_transfer_eq st0 id d chain do_send seq0 nreq grants r0
                Hd Hr0 Hlen0) as Htr.
  destruct chain as [|p next]; [by rewrite (bind_None _ _ _ Htr)|].
  destruct (transfer_outcome grants (p :: next) (tot_len p) 0) as [|k|k].
  - by rewrite (bind_None _ _ _ Htr).
  - destruct Htr as (Hinv & Hval & st' & Hrun & Ht' & Htrace).
    split; [done|]. split; [done|].
    exists st'. rewrite (bind_eq _ _ _ _ _ Hrun).
    assert (req_touched nreq st st') as Htt by (by eapply req_touched_trans).
    split_and!; try done. by eapply inv_touched.
  - destruct Htr as (Hk & Hval & st1 & r1 & Hrun & Ht1 & Htrace & Hr1 & Hty1 & Hid1).
    exists st1. rewrite (bind_eq _ _ _ _ _ Hrun).
    assert (req_touched nreq st st1) as Htt by (by eapply req_touched_trans).
    pose proof (pool_inv_touched _ _ _ Hp Hin Htt) as Hp1.
    destruct Htt as (A1 & A2 & A3 & A4 & A5 & A6 & A7 & A8 & A9).
    destruct (get_denied_false _ _ _ _ Hty Hden) as [Hne Hsp].
    pose proof (pool_queues _ Hp id d s Hd) as (Hc & Hm & _).
    pose proof (pool_spares_nonneg _ Hp) as Hnn.
    assert (ndev_array st1 !! id = Some d) as Hd1 by (by rewrite A3).
    assert (nreq_freelist st1 = nreq :: fl) as Hfl1 by (by rewrite A1).
    assert (nreq_type r1 = NDEV_RECV <-> s = RECVQ) as Hty1'.
    { rewrite Hty1. done. }
    assert (nq_count (queue_of s d) < nq_max (queue_of s d)) as Hlt by lia.
    assert (s = SENDQ -> NDEV_SENDQ <= nq_count (queue_of s d) ->
            0 < nreq_spares st1) as Hsp1.
    { intros Hs Hle. specialize (Hsp Hs Hle). rewrite A2. lia. }
    rewrite (bind_eq _ _ _ _ _
               (ndev_queue_add_eq _ _ _ _ _ _ _ Hp1 Hd1 Hfl1 Hr1 Hty1' Hlt Hsp1)).
    split_and!; try done.
    split.
    + eapply pool_inv_added; eauto.
    + by apply (table_inv_added st).
Qed.

(** What a configuration request does, in a state that satisfies the
    invariant, for an active driver. *)
Lemma ndev_conf_eq st id d nconf grants :
  inv st ->
  (id < NR_NDEV)%nat ->
  ndev_array st !! id = Some d ->
  ndev_endpt d <> NONE ->
  NDEV_ACTIVE d = true ->
  if get_denied NDEV_CONF (ndev_sendq d) (nreq_spares st)
  then ndev_conf id nconf grants st = Some (EBUSY, st)
  else
    exists nreq fl,
      nreq_freelist st = nreq :: fl /\
      if conf_with_list nconf
         && (bool_decide (nconf_mclist nconf = None) || (nconf_mccount nconf =? 0))
      then ndev_conf id nconf grants st = None
      else if conf_with_list nconf && negb (GRANT_VALID (grant_result grants 0))
      then
        exists st',
          ndev_conf id nconf grants st = Some (ENOMEM, st') /\
          inv st' /\
          req_touched nreq st st' /\
          trace st' = trace st ++ [conf_grant_call d nconf grants]
      else
        exists st1 m,
          ndev_conf id nconf grants st = Some (OK, added id SENDQ d nreq fl st1) /\
          inv (added id SENDQ d nreq fl st1) /\
          req_touched nreq st st1 /\
          trace st1
          = trace st
            ++ (if conf_with_list nconf then [conf_grant_call d nconf grants]
                else [])
            ++ [asynsend3 (ndev_endpt d) m].
Proof.
  intros Hi Hid Hd Hn Ha. pose proof Hi as [Hp Ht].
  unfold ndev_conf.
  rewrite (bind_eq _ _ _ _ _ (ndev_of_id_eq _ _ _ Hid Hd Hn Ha)).
  destruct (get_denied NDEV_CONF (ndev_sendq d) (nreq_spares st)) eqn:Hden.
  { by rewrite (bind_eq _ _ _ _ _ (ndev_queue_get_denied _ _ SENDQ _ _ Hd Hden)). }
  assert (NDEV_CONF = NDEV_RECV <-> SENDQ = RECVQ) as Hty by (split; done).
  destruct (ndev_queue_get_granted _ _ SENDQ _ _ Hp Hd Hty Hden)
    as (nreq & fl & r & Hfl & Hr & Hget).
  exists nreq, fl. split; [done|].
  rewrite (bind_eq _ _ _ _ _ Hget).
  simpl queue_of in *.
  set (seq0 := u32 (nq_head (ndev_sendq d) + nq_count (ndev_sendq d))).
  set (r0 := mk_ndev_req NDEV_CONF (nreq_grant r) (nreq_id r)).
  set (st0 := set_nreq_array (<[nreq := r0]> (nreq_array st)) st).
  assert (nreq ∈ nreq_freelist st) as Hin by (rewrite Hfl; by left).
  assert (nreq_array st0 !! nreq = Some r0) as Hr0.
  { unfold st0. cbn. apply list_lookup_insert_eq. by eapply lookup_lt_Some. }
  rewrite (bind_eq _ _ _ _ _ (set_nreq_id_eq _ _ _ seq0 Hr0)).
  set (r1 := mk_ndev_req (nreq_type r0) (nreq_grant r0) seq0).
  set (st1 := set_nreq_array (<[nreq := r1]> (nreq_array st0)) st0).
  assert (nreq_array st1 !! nreq = Some r1) as Hr1.
  { unfold st1. cbn. apply list_lookup_insert_eq. by eapply lookup_lt_Some. }
  assert (req_touched nreq st st1) as Ht1.
  { eapply req_touched_trans; by eapply req_touched_write. }
  pose proof (pool_grant_length _ Hp nreq r Hr) as Hlen.
  fold (conf_with_list nconf). cbv zeta.
  destruct (conf_with_list nconf) eqn:Hwl; cbn [andb].
  - (* with a multicast list *)
    destruct (nconf_mclist nconf) as [mclist|] eqn:Hmc.
    2:{ rewrite bool_decide_eq_true_2 by done. reflexivity. }
    rewrite (bool_decide_eq_false_2 (Some mclist = None)) by done.
    rewrite (bool_decide_eq_true_2 (Some mclist <> None)) by done.
    cbn [orb].
    destruct (nconf_mccount nconf =? 0) eqn:Hcnt; [reflexivity|].
    cbn [negb]. repeat mstep.
    set (call := cpf_grant_direct _ _ _ _ _).
    assert (call = conf_grant_call d nconf grants) as Hcall.
    { unfold call, conf_grant_call. by rewrite Hmc. }
    set (st2 := set_trace (trace st1 ++ [call]) st1).
    assert (req_touched nreq st st2) as Ht2.
    { eapply req_touched_trans; [exact Ht1|apply req_touched_set_trace]. }
    destruct (GRANT_VALID (grant_result grants 0)) eqn:Hv; cbn [negb].
    + assert (nreq_array st2 !! nreq = Some r1) as Hr2 by done.
      mstep.
      match goal with
      | |- context [set_trace (trace st2 ++ [asynsend3 _ ?o]) st2] => set (m := o)
      end.
      set (st3 := set_trace (trace st2 ++ [asynsend3 (ndev_endpt d) m]) st2).
      assert (nreq_array st3 !! nreq = Some r1) as Hr3 by done.
      rewrite (bind_eq _ _ _ _ _
                 (set_nreq_grant_eq _ _ _ 0 (grant_result grants 0) Hr3
                    ltac:(cbn; rewrite Hlen; unfold NDEV_IOV_MAX; lia))).
      set (r4 := mk_ndev_req _ _ _).
      set (st4 := set_nreq_array _ st3).
      assert (nreq_array st4 !! nreq = Some r4) as Hr4.
      { unfold st4. cbn. apply list_lookup_insert_eq. by eapply lookup_lt_Some. }
      rewrite (bind_eq _ _ _ _ _
                 (set_nreq_grant_eq _ _ _ 1 GRANT_INVALID Hr4
                    ltac:(cbn; rewrite length_insert, Hlen;
                          unfold NDEV_IOV_MAX; lia))).
      set (r5 := mk_ndev_req _ _ _).
      set (st5 := set_nreq_array _ st4).
      assert (nreq_array st5 !! nreq = Some r5) as Hr5.
      { unfold st5. cbn. apply list_lookup_insert_eq. by eapply lookup_lt_Some. }
      assert (req_touched nreq st st5) as Ht5.
      { eapply req_touched_trans; [exact Ht2|].
        eapply req_touched_trans; [apply (req_touched_set_trace _ _ (trace st3))|].
        eapply req_touched_trans.
        - apply (req_touched_write _ st3 r1 r4 Hr3). unfold r4. cbn.
          apply length_insert.
        - apply (req_touched_write _ st4 r4 r5 Hr4). unfold r5. cbn.
          apply length_insert. }
      pose proof (pool_inv_touched _ _ _ Hp Hin Ht5) as Hp5.
      destruct (get_denied_false _ _ _ _ Hty Hden) as [Hne Hsp].
      pose proof (pool_queues _ Hp id d SENDQ Hd) as (Hc & Hm & _).
      pose proof (pool_spares_nonneg _ Hp) as Hnn.
      simpl queue_of in *.
      rewrite (bind_eq _ _ _ _ _
                 (ndev_queue_add_eq st5 id SENDQ d nreq fl r5 Hp5 Hd Hfl Hr5
                    ltac:(done) ltac:(simpl; lia)
                    ltac:(intros _ Hle; specialize (Hsp eq_refl Hle);
                          change (nreq_spares st5) with (nreq_spares st); lia))).
      exists st5, m. split_and!; try done.
      * split.
        -- apply (pool_inv_added st5 id SENDQ d nreq fl r5 Hp5 Hd Hfl Hr5).
           ++ done.
           ++ reflexivity.
           ++ simpl. lia.
           ++ intros _ Hle. specialize (Hsp eq_refl Hle).
              change (nreq_spares st5) with (nreq_spares st). lia.
        -- by apply (table_inv_added st).
      * cbn. rewrite <- app_assoc, <- Hcall. reflexivity.
    + eexists. split; [reflexivity|]. split_and!.
      * by eapply inv_touched.
      * done.
      * cbn. rewrite <- Hcall. reflexivity.
  - (* without a multicast list *)
    repeat mstep.
    match goal with
    | |- context [set_trace (trace ?s ++ [asynsend3 _ ?o]) ?s] => set (m := o)
    end.
    set (st3 := set_trace (trace st1 ++ [asynsend3 (ndev_endpt d) m]) st1).
    assert (nreq_array st3 !! nreq = Some r1) as Hr3 by done.
    rewrite (bind_eq _ _ _ _ _
               (set_nreq_grant_eq _ _ _ 0 GRANT_INVALID Hr3
                  ltac:(cbn; rewrite Hlen; unfold NDEV_IOV_MAX; lia))).
    set (r4 := mk_ndev_req _ _ _).
    set (st4 := set_nreq_array _ st3).
    assert (nreq_array st4 !! nreq = Some r4) as Hr4.
    { unfold st4. cbn. apply list_lookup_insert_eq. by eapply lookup_lt_Some. }
    rewrite (bind_eq _ _ _ _ _
               (set_nreq_grant_eq _ _ _ 1 GRANT_INVALID Hr4
                  ltac:(cbn; rewrite length_insert, Hlen;
                        unfold NDEV_IOV_MAX; lia))).
    set (r5 := mk_ndev_req _ _ _).
    set (st5 := set_nreq_array _ st4).
    assert (nreq_array st5 !! nreq = Some r5) as Hr5.
    { unfold st5. cbn. apply list_lookup_insert_eq. by eapply lookup_lt_Some. }
    assert (req_touched nreq st st5) as Ht5.
    { eapply req_touched_trans; [exact Ht1|].
      eapply req_touched_trans; [apply (req_touched_set_trace _ _ (trace st3))|].
      eapply req_touched_trans.
      - apply (req_touched_write _ st3 r1 r4 Hr3). unfold r4. cbn.
        apply length_insert.
      - apply (req_touched_write _ st4 r4 r5 Hr4). unfold r5. cbn.
        apply length_insert. }
    pose proof (pool_inv_touched _ _ _ Hp Hin Ht5) as Hp5.
    destruct (get_denied_false _ _ _ _ Hty Hden) as [Hne Hsp].
    pose proof (pool_queues _ Hp id d SENDQ Hd) as (Hc & Hm & _).
    pose proof (pool_spares_nonneg _ Hp) as Hnn.
    simpl queue_of in *.
    rewrite (bind_eq _ _ _ _ _
               (ndev_queue_add_eq st5 id SENDQ d nreq fl r5 Hp5 Hd Hfl Hr5
                  ltac:(done) ltac:(simpl; lia)
                  ltac:(intros _ Hle; specialize (Hsp eq_refl Hle);
                        change (nreq_spares st5) with (nreq_spares st); lia))).
    exists st5, m. split_and!; try done.
    split.
    + apply (pool_inv_added st5 id SENDQ d nreq fl r5 Hp5 Hd Hfl Hr5).
      * done.
      * reflexivity.
      * simpl. lia.
      * intros _ Hle. specialize (Hsp eq_refl Hle).
        change (nreq_spares st5) with (nreq_spares st). lia.
    + by apply (table_inv_added st).
Qed.

(** ** Requests keep the invariant *)

Lemma ndev_sendrecv_inv st s type do_send id chain grants res st' :
  inv st ->
  (type = NDEV_RECV <-> s = RECVQ) ->
  ndev_sendrecv s type do_send id chain grants st = Some (res, st') ->
  inv st'.
Proof.
  intros Hi Hty Hrun.
  assert (exists d, ndev_of_id id st = Some (d, st)) as [d Hof].
  { unfold ndev_sendrecv in Hrun. apply bind_inv in Hrun as (d & st0 & Hof & _).
    pose proof (ndev_of_id_Some _ _ _ _ Hof) as (-> & _). eauto. }
  apply ndev_of_id_Some in Hof as (_ & Hid & Hd & Hn & Ha).
  pose proof (ndev_sendrecv_eq st s type do_send id d chain grants
                Hi Hid Hd Hn Ha Hty) as Heq.
  destruct (get_denied type (queue_of s d) (nreq_spares st)).
  { rewrite Heq in Hrun. by simplify_eq. }
  destruct Heq as (nreq & fl & Hfl & Heq).
  destruct chain as [|p next]; [congruence|].
  destruct (transfer_outcome grants (p :: next) (tot_len p) 0) as [|k|k].
  - congruence.
  - destruct Heq as (_ & _ & st1 & Heq & Hi1 & _). rewrite Heq in Hrun.
    by simplify_eq.
  - destruct Heq as (st1 & Heq & Hi1 & _). rewrite Heq in Hrun. by simplify_eq.
Qed.

Lemma ndev_conf_inv st id nconf grants res st' :
  inv st -> ndev_conf id nconf grants st = Some (res, st') -> inv st'.
Proof.
  intros Hi Hrun.
  assert (exists d, ndev_of_id id st = Some (d, st)) as [d Hof].
  { unfold ndev_conf in Hrun. apply bind_inv in Hrun as (d & st0 & Hof & _).
    pose proof (ndev_of_id_Some _ _ _ _ Hof) as (-> & _). eauto. }
  apply ndev_of_id_Some in Hof as (_ & Hid & Hd & Hn & Ha).
  pose proof (ndev_conf_eq st id d nconf grants Hi Hid Hd Hn Ha) as Heq.
  destruct (get_denied NDEV_CONF (ndev_sendq d) (nreq_spares st)).
  { rewrite Heq in Hrun. by simplify_eq. }
  destruct Heq as (nreq & fl & Hfl & Heq).
  destruct (conf_with_list nconf && (_ || _)); [congruence|].
  destruct (conf_with_list nconf && negb _).
  - destruct Heq as (st1 & Heq & Hi1 & _). rewrite Heq in Hrun. by simplify_eq.
  - destruct Heq as (st1 & m & Heq & Hi1 & _). rewrite Heq in Hrun.
    by simplify_eq.
Qed.

Lemma ndev_can_recv_Some st id b st' :
  ndev_can_recv id st = Some (b, st') -> st' = st.
Proof.
  unfold ndev_can_recv. intros H. apply bind_inv in H as (d & st0 & Hof & H).
  apply ndev_of_id_Some in Hof as (-> & _). unfold ret in H. by simplify_eq.
Qed.

Lemma ndev_request_inv st r st' :
  inv st -> ndev_request r st = Some (tt, st') -> inv st'.
Proof.
  intros Hi Hrun. destruct r; simpl in Hrun;
    apply bind_inv in Hrun as (res & st1 & Hrun & Hret);
    unfold ret in Hret; simplify_eq.
  - by eapply ndev_conf_inv.
  - rewrite ndev_send_sendrecv in Hrun.
    eapply ndev_sendrecv_inv; [done| |done]. split; done.
  - apply ndev_can_recv_Some in Hrun. by subst.
  - rewrite ndev_recv_sendrecv in Hrun.
    eapply ndev_sendrecv_inv; [done| |done]. split; done.
Qed.

Lemma ndev_requests_inv rs st st' :
  inv st -> ndev_requests rs st = Some (tt, st') -> inv st'.
Proof.
  revert st. induction rs as [|r rs IH]; intros st Hi Hrun; simpl in Hrun.
  - unfold ret in Hrun. by simplify_eq.
  - apply bind_inv in Hrun as ([] & st1 & Hrun1 & Hrun).
    eapply IH; [|done]. by eapply ndev_request_inv.
Qed.

(** ** Replies to requests *)

(** A queue that holds a request belongs to an active driver that has an
    ethif object. *)
Lemma queue_nonempty_active st slot d s :
  inv st ->
  ndev_array st !! slot = Some d ->
  0 < nq_count (queue_of s d) ->
  NDEV_ACTIVE d = true /\ exists ethif, ndev_ethif d = Some ethif.
Proof.
  intros [Hp Ht] Hd Hc.
  pose proof (pool_queues _ Hp slot d s Hd) as (_ & Hm & _).
  assert (NDEV_ACTIVE d = true) as Ha.
  { apply NDEV_ACTIVE_true.
    pose proof (pool_queues _ Hp slot d SENDQ Hd) as (Hc1 & Hm1 & _).
    pose proof (table_both _ Ht slot d Hd) as Hb.
    destruct s; simpl in *; [lia|].
    destruct (decide (nq_max (ndev_sendq d) = 0)) as [H0|H0]; [|lia].
    apply Hb in H0. lia. }
  split; [done|].
  pose proof (table_ethif _ Ht slot d Hd Ha).
  destruct (ndev_ethif d); [eauto|done].
Qed.

Lemma inv_advanced st slot s d nreq rest r :
  inv st ->
  ndev_array st !! slot = Some d ->
  nq_req (queue_of s d) = nreq :: rest ->
  inv (advanced slot s d nreq rest r st).
Proof.
  intros [Hp Ht] Hd E. split; [by apply pool_inv_advanced|].
  eapply (table_inv_insert st); [done|reflexivity|done|..].
  - intros Hor. pose proof (table_vacant _ Ht slot d Hd) as Hv.
    destruct s; cbn in *; by apply Hv.
  - pose proof (table_both _ Ht slot d Hd). by destruct s.
  - intros Ha. pose proof (table_ethif _ Ht slot d Hd) as He.
    destruct s; cbn in *; by apply He.
Qed.

(** What a reply to a request does: it releases the head of the queue and
    calls the ethif layer if the head has the type and the ID of the
    reply, and does nothing otherwise. *)
Lemma ndev_reply_eq st slot s d type id call :
  inv st ->
  ndev_array st !! slot = Some d ->
  match nq_req (queue_of s d) with
  | [] => ndev_reply slot s type id call st = Some (tt, st)
  | nreq :: rest =>
      exists r ethif,
        nreq_array st !! nreq = Some r /\
        ndev_ethif d = Some ethif /\
        ndev_reply slot s type id call st
        = if (nq_head (queue_of s d) =? id) && req_type_eqb (nreq_type r) type
          then Some (tt, set_trace
                           (trace (advanced slot s d nreq rest r st)
                            ++ [call ethif])
                           (advanced slot s d nreq rest r st))
          else Some (tt, st)
  end.
Proof.
  intros Hi Hd. pose proof Hi as [Hp Ht].
  pose proof (ndev_queue_remove_eq st slot s d type id Hp Hd) as Hrem.
  pose proof (pool_queues _ Hp slot d s Hd) as (Hc & _).
  unfold ndev_reply.
  rewrite (bind_eq _ _ _ _ _ (read_ndev_eq _ _ _ Hd)).
  destruct (nq_req (queue_of s d)) as [|nreq rest] eqn:E.
  - destruct (NDEV_ACTIVE d); [|done]. cbn [negb].
    by rewrite (bind_eq _ _ _ _ _ Hrem).
  - simpl length in Hc.
    destruct (queue_nonempty_active st slot d s Hi Hd ltac:(lia))
      as [Ha [ethif He]].
    destruct Hrem as (r & Hr & Hty & Hid & Hrem).
    exists r, ethif. split; [done|]. split; [done|].
    rewrite Ha. cbn [negb].
    destruct ((nq_head (queue_of s d) =? id) && req_type_eqb (nreq_type r) type);
      rewrite (bind_eq _ _ _ _ _ Hrem).
    + cbn [negb].
      assert (ndev_array (advanced slot s d nreq rest r st) !! slot
              = Some (set_queue_of s
                        (mk_ndev_queue (u32 (nq_head (queue_of s d) + 1))
                           (nq_count (queue_of s d) - 1)
                           (nq_max (queue_of s d)) rest) d)) as Hd'.
      { unfold advanced. cbn. apply list_lookup_insert_eq.
        by eapply lookup_lt_Some. }
      rewrite (bind_eq _ _ _ _ _ (read_ndev_eq _ _ _ Hd')).
      replace (ndev_ethif (set_queue_of s _ d)) with (Some ethif)
        by (by destruct s).
      reflexivity.
    + reflexivity.
Qed.

Lemma ndev_reply_inv st slot s d type id call st' :
  inv st ->
  ndev_array st !! slot = Some d ->
  ndev_reply slot s type id call st = Some (tt, st') ->
  inv st'.
Proof.
  intros Hi Hd Hrun.
  pose proof (ndev_reply_eq st slot s d type id call Hi Hd) as Heq.
  destruct (nq_req (queue_of s d)) as [|nreq rest] eqn:E.
  - rewrite Heq in Hrun. by simplify_eq.
  - destruct Heq as (r & ethif & Hr & He & Heq). rewrite Heq in Hrun.
    destruct (_ && _); simplify_eq; [|done].
    apply inv_set_trace. by apply inv_advanced.
Qed.

Lemma ndev_status_inv st slot source s st' :
  inv st -> ndev_status slot source s st = Some (tt, st') -> inv st'.
Proof.
  intros Hi Hrun. unfold ndev_status in Hrun.
  apply bind_inv in Hrun as (d & st0 & Hd & Hrun).
  apply read_ndev_inv in Hd as [Hd ->].
  destruct (NDEV_ACTIVE d); simpl in Hrun.
  - destruct (ndev_ethif d); [|done].
    unfold bind, emit, modify in Hrun. simplify_eq.
    by do 2 apply inv_set_trace.
  - unfold ret in Hrun. by simplify_eq.
Qed.

(** ** Initialization replies *)

Lemma ndev_init_reply_eq st slot d source m env :
  ndev_array st !! slot = Some d ->
  ndev_init_reply slot source m env st
  = if NDEV_ACTIVE d || negb (ir_id m =? nq_head (ndev_sendq d))
    then Some (tt, st)
    else if invalid_name (ir_name m) then
      ndev_down slot
        (set_trace (trace st ++ [printf ("LWIP: driver %d provided invalid name" ++ LF)
                                   [source]]) st)
    else if invalid_hwaddr_len m then
      ndev_down slot
        (set_trace (trace st
                    ++ [printf ("LWIP: driver %d provided invalid HW-addr length" ++ LF)
                          [source]]) st)
    else if invalid_queue_max m then
      ndev_down slot
        (set_trace (trace st
                    ++ [printf ("LWIP: driver %d provided invalid queue maximum" ++ LF)
                          [source]]) st)
    else match ethif_after_add d env with
         | Some ethif => after_enable slot env (enable_state slot d m ethif st)
         | None =>
             ndev_down slot
               (set_trace (trace st ++ [ethif_add slot (ir_name m) (ir_caps m)])
                  st)
         end.
Proof.
  intros Hd. unfold ndev_init_reply.
  rewrite (bind_eq _ _ _ _ _ (read_ndev_eq _ _ _ Hd)).
  destruct (NDEV_ACTIVE d || negb (ir_id m =? nq_head (ndev_sendq d)));
    [reflexivity|].
  destruct (invalid_name (ir_name m)); [reflexivity|].
  cbv zeta. fold (invalid_hwaddr_len m).
  destruct (invalid_hwaddr_len m); [reflexivity|].
  fold (invalid_queue_max m).
  destruct (invalid_queue_max m); [reflexivity|].
  unfold ethif_after_add, after_enable, enable_state, add_calls, enabled_ndev.
  assert (Hlen : (slot < length (ndev_array st))%nat) by (by eapply lookup_lt_Some).
  destruct (ndev_ethif d) as [ethif|] eqn:He.
  - repeat mstep.
    rewrite (bind_eq _ _ _ _ _ (read_ndev_eq _ _ _ Hd)). rewrite He.
    repeat mstep. reflexivity.
  - repeat mstep.
    erewrite (bind_eq (read_ndev slot))
      by (apply read_ndev_eq; cbn; by apply list_lookup_insert_eq).
    cbn [ndev_ethif].
    destruct (ethif_add_result env) as [ethif|] eqn:Hadd.
    + repeat mstep. cbn [ndev_array set_ndev_array set_trace trace].
      rewrite list_insert_insert_eq, <- app_assoc. reflexivity.
    + repeat mstep. cbn.
      replace (mk_ndev (ndev_endpt d) (ndev_label d) None (ndev_sendq d)
                 (ndev_recvq d)) with d by (destruct d; cbn in *; congruence).
      rewrite list_insert_id by done. by destruct st.
Qed.

Lemma inv_enable_state st slot d m ethif :
  inv st ->
  ndev_array st !! slot = Some d ->
  (slot < ndev_max st)%nat ->
  ndev_endpt d <> NONE ->
  NDEV_ACTIVE d = false ->
  invalid_queue_max m = false ->
  inv (enable_state slot d m ethif st).
Proof.
  intros [Hp Ht] Hd Hlt Hn Ha Hq.
  pose proof (pool_queues _ Hp slot d SENDQ Hd) as Hw1.
  pose proof (pool_queues _ Hp slot d RECVQ Hd) as Hw2.
  assert (nq_max (ndev_sendq d) = 0) as H0.
  { unfold NDEV_ACTIVE in Ha. apply Z.ltb_ge in Ha.
    destruct Hw1 as (Hc & Hm & _). simpl in *. lia. }
  pose proof (proj1 (table_both _ Ht slot d Hd) H0) as H0r.
  destruct (queue_wf_closed _ _ _ Hw1 H0) as [Hc1 Hl1].
  destruct (queue_wf_closed _ _ _ Hw2 H0r) as [Hc2 Hl2].
  simpl in Hc1, Hl1, Hc2, Hl2.
  unfold invalid_queue_max in Hq. apply orb_false_iff in Hq as [Hq1 Hq2].
  apply Z.ltb_ge in Hq1, Hq2.
  assert (0 <= u8 (ir_max_send m) < 256) as Hs
    by (unfold u8; apply Z.mod_pos_bound; lia).
  assert (0 <= u8 (ir_max_recv m) < 256) as Hr
    by (unfold u8; apply Z.mod_pos_bound; lia).
  unfold enable_state. apply inv_set_trace. split.
  - eapply pool_inv_set_ndev; [done..|].
    intros s. destruct s; unfold enabled_ndev; cbn.
    + unfold queue_wf, NDEV_RECVQ. cbn. rewrite Hc1, Hl1. cbn.
      split_and!; try lia; try done; try apply u32_range;
        try (intros j n Hj; by rewrite lookup_nil in Hj).
    + unfold queue_wf, NDEV_RECVQ. cbn. rewrite Hc2, Hl2. cbn.
      split_and!; try (destruct (2 <? u8 (ir_max_recv m)) eqn:E;
                       [apply Z.ltb_lt in E|apply Z.ltb_ge in E]; lia);
        try apply u32_range; try done;
        try (intros j n Hj; by rewrite lookup_nil in Hj).
  - eapply (table_inv_insert st); [done|reflexivity|done|..].
    + intros [Hor|Hor]; [lia|done].
    + unfold enabled_ndev, NDEV_RECVQ. cbn.
      destruct (2 <? u8 (ir_max_recv m)); lia.
    + done.
Qed.

(** [ndev_init_reply] keeps the invariant. *)
Lemma ndev_init_reply_inv st slot d source m env st' :
  inv st ->
  ndev_array st !! slot = Some d ->
  (slot < ndev_max st)%nat ->
  ndev_endpt d <> NONE ->
  ndev_init_reply slot source m env st = Some (tt, st') ->
  inv st'.
Proof.
  intros Hi Hd Hlt Hn Hrun.
  rewrite (ndev_init_reply_eq _ _ _ _ _ _ Hd) in Hrun.
  assert (forall t st'', ndev_down slot (set_trace t st) = Some (tt, st'') ->
                         inv st'') as Hdown.
  { intros t st'' Hrun'.
    destruct (ndev_down_eq (set_trace t st) slot d (inv_set_trace _ _ Hi) Hd)
      as (st1 & Hrun1 & Hi1 & _).
    congruence. }
  destruct (NDEV_ACTIVE d || negb (ir_id m =? nq_head (ndev_sendq d))) eqn:Hfor.
  { by simplify_eq. }
  apply orb_false_iff in Hfor as [Ha _].
  destruct (invalid_name (ir_name m)); [by eapply Hdown|].
  destruct (invalid_hwaddr_len m); [by eapply Hdown|].
  destruct (invalid_queue_max m) eqn:Hq; [by eapply Hdown|].
  destruct (ethif_after_add d env) as [ethif|]; [|by eapply Hdown].
  pose proof (inv_enable_state st slot d m ethif Hi Hd Hlt Hn Ha Hq) as Hi1.
  unfold after_enable in Hrun.
  apply bind_inv in Hrun as ([] & st2 & Hreq & Hrun).
  pose proof (ndev_requests_inv _ _ _ Hi1 Hreq) as Hi2.
  destruct (negb (ethif_enable_result env)).
  - destruct (lookup_lt_is_Some_2 (ndev_array st2) slot) as [d2 Hd2].
    { rewrite (pool_ndev_length _ (proj1 Hi2)).
      rewrite <- (pool_ndev_length _ (proj1 Hi)). by eapply lookup_lt_Some. }
    destruct (ndev_down_eq st2 slot d2 Hi2 Hd2) as (st3 & Hrun3 & Hi3 & _).
    congruence.
  - unfold modify in Hrun. simplify_eq. by apply inv_set_pending.
Qed.

(** ** [ndev_process] *)

Lemma ndev_find_Some endpt l slot i :
  ndev_find endpt l slot = Some i ->
  exists d, l !! (i - slot)%nat = Some d /\ (slot <= i)%nat /\
            ndev_endpt d = endpt.
Proof.
  revert slot. induction l as [|d l IH]; intros slot H; simpl in H; [done|].
  destruct (ndev_endpt d =? endpt) eqn:E.
  - simplify_eq. exists d. rewrite Nat.sub_diag. apply Z.eqb_eq in E. done.
  - destruct (IH _ H) as (d' & Hl & Hle & Hd').
    exists d'. replace (i - slot)%nat with (S (i - S slot)) by lia.
    split_and!; [exact Hl|lia|done].
Qed.

Lemma ndev_process_inv st m env st' :
  inv st -> m_source m <> NONE ->
  ndev_process m env st = Some (tt, st') -> inv st'.
Proof.
  intros Hi Hsrc Hrun. unfold ndev_process in Hrun.
  rewrite !bind_gets in Hrun.
  destruct (ndev_find (m_source m) (take (ndev_max st) (ndev_array st)) 0)
    as [slot|] eqn:Hfind.
  2:{ unfold ret in Hrun. by simplify_eq. }
  destruct (ndev_find_Some _ _ _ _ Hfind) as (d & Hd & _ & He).
  rewrite Nat.sub_0_r in Hd. apply lookup_take_Some in Hd as [Hd Hlt].
  destruct (m_body m).
  - eapply ndev_init_reply_inv; eauto. congruence.
  - by eapply ndev_reply_inv.
  - by eapply ndev_reply_inv.
  - by eapply ndev_reply_inv.
  - by eapply ndev_status_inv.
  - unfold ret in Hrun. by simplify_eq.
Qed.

(** ** The invariant holds in every reachable state *)

Lemma ndev_init_lookup slot d :
  ndev_array ndev_init !! slot = Some d ->
  exists hs hr, d = mk_ndev 0 EmptyString None
                      (mk_ndev_queue (u32 hs) 0 0 []) (mk_ndev_queue (u32 hr) 0 0 []).
Proof.
  intros Hd. apply list_elem_of_lookup_2 in Hd.
  apply list_elem_of_fmap in Hd as (i & -> & _). by eexists _, _.
Qed.

Lemma inv_ndev_init : inv ndev_init.
Proof.
  split; split.
  - apply length_replicate.
  - intros nreq r Hr. apply lookup_replicate in Hr as [-> _].
    apply length_replicate.
  - by vm_compute.
  - by vm_compute.
  - by vm_compute.
  - cbn. by rewrite length_map, length_seq.
  - intros slot d s Hd. apply ndev_init_lookup in Hd as (hs & hr & ->).
    destruct s; apply queue_wf_reset, u32_range.
  - cbn. lia.
  - intros slot d Hd _. by apply ndev_init_lookup in Hd as (hs & hr & ->).
  - intros slot d Hd. by apply ndev_init_lookup in Hd as (hs & hr & ->).
  - intros slot d Hd. by apply ndev_init_lookup in Hd as (hs & hr & ->).
Qed.

Lemma step_inv e st st' :
  inv st -> valid_event e -> step e st = Some st' -> inv st'.
Proof.
  intros Hi Hv Hstep. destruct e as [changes code ds_label|m env|r];
    simpl in Hstep.
  - destruct (ndev_check_inv changes code ds_label st Hi) as (st1 & Hrun & Hi1).
    rewrite Hrun in Hstep. by simplify_eq/=.
  - destruct (ndev_process m env st) as [[[] st1]|] eqn:Hrun; simplify_eq/=.
    by eapply ndev_process_inv.
  - destruct (ndev_request r st) as [[[] st1]|] eqn:Hrun; simplify_eq/=.
    by eapply ndev_request_inv.
Qed.

Lemma reachable_inv st : reachable st -> inv st.
Proof.
  induction 1 as [|st e st' _ IH Hv Hstep]; [apply inv_ndev_init|].
  by eapply step_inv.
Qed.

Lemma reachable_run es st st' :
  reachable st -> Forall valid_event es -> run es st = Some st' ->
  reachable st'.
Proof.
  revert st. induction es as [|e es IH]; intros st Hr Hv Hrun; simpl in Hrun.
  - by simplify_eq.
  - apply Forall_cons in Hv as [Hv Hvs].
    destruct (step e st) as [st1|] eqn:Hstep; [|done].
    eapply IH; [|done|done]. by eapply reachable_step.
Qed.

(** No assertion stops the discovery handler. *)
Lemma ndev_check_total changes code ds_label st :
  reachable st -> is_Some (step (EV_CHECK changes code ds_label) st).
Proof.
  intros Hr. apply reachable_inv in Hr.
  destruct (ndev_check_inv changes code ds_label st Hr) as (st1 & Hrun & _).
  simpl. rewrite Hrun. by eexists.
Qed.

(** *** Sample runs *)

Lemma reachable_st_active : reachable st_active.
Proof.
  apply (reachable_run cold_start ndev_init); [apply reachable_init| |].
  - repeat constructor; vm_compute; discriminate.
  - vm_compute. reflexivity.
Qed.

Lemma slot_active_spec d :
  slot_active d = true <-> ndev_endpt d <> NONE /\ NDEV_ACTIVE d = true.
Proof.
  unfold slot_active. rewrite andb_true_iff, negb_true_iff, Z.eqb_neq. done.
Qed.

Lemma get_denied_true_iff type nq spares :
  get_denied type nq spares = true <->
  nq_count nq = nq_max nq \/
  (type <> NDEV_RECV /\ NDEV_SENDQ <= nq_count nq /\ spares = 0).
Proof.
  unfold get_denied.
  rewrite orb_true_iff, !andb_true_iff, negb_true_iff, Z.eqb_eq, Z.leb_le,
    Z.eqb_eq.
  assert (req_type_eqb type NDEV_RECV = false <-> type <> NDEV_RECV) as ->.
  { rewrite <- req_type_eqb_eq. by destruct (req_type_eqb type NDEV_RECV). }
  tauto.
Qed.

Lemma ndev_sendrecv_busy_iff st s type do_send id d chain grants :
  inv st ->
  (id < NR_NDEV)%nat ->
  ndev_array st !! id = Some d ->
  slot_active d = true ->
  (type = NDEV_RECV <-> s = RECVQ) ->
  fst <$> ndev_sendrecv s type do_send id chain grants st = Some EBUSY <->
  get_denied type (queue_of s d) (nreq_spares st) = true.
Proof.
  intros Hi Hid Hd Ha Hty. apply slot_active_spec in Ha as [Hn Ha].
  pose proof (ndev_sendrecv_eq st s type do_send id d chain grants
                Hi Hid Hd Hn Ha Hty) as Heq.
  destruct (get_denied type (queue_of s d) (nreq_spares st)).
  { by rewrite Heq. }
  destruct Heq as (nreq & fl & Hfl & Heq).
  destruct chain as [|p next]; [by rewrite Heq|].
  destruct (transfer_outcome grants (p :: next) (tot_len p) 0) as [|k|k].
  - by rewrite Heq.
  - destruct Heq as (_ & _ & st1 & -> & _). done.
  - destruct Heq as (st1 & -> & _). done.
Qed.

Lemma ndev_queue_get_None st slot s d type st' :
  ndev_array st !! slot = Some d ->
  ndev_queue_get (slot, s) type st = Some (None, st') ->
  get_denied type (queue_of s d) (nreq_spares st) = true.
Proof.
  intros Hd Hget. unfold ndev_queue_get in Hget.
  rewrite (bind_eq _ _ _ _ _ (read_queue_eq _ _ s _ Hd)) in Hget.
  unfold get_denied.
  destruct (nq_count (queue_of s d) =? nq_max (queue_of s d)); [done|].
  rewrite bind_gets in Hget. cbn [orb].
  destruct (negb (req_type_eqb type NDEV_RECV)
            && (NDEV_SENDQ <=? nq_count (queue_of s d))
            && (nreq_spares st =? 0)); [done|].
  rewrite bind_gets in Hget.
  destruct (nreq_freelist st) as [|nreq fl]; [done|].
  apply bind_inv in Hget as (r & st1 & _ & Hget).
  apply bind_inv in Hget as ([] & st2 & _ & Hget).
  unfold ret in Hget. by simplify_eq.
Qed.

(** [ndev_transfer] returns [OK] or [ENOMEM]. *)
Lemma ndev_transfer_result slot chain do_send seq nreq grants st r st' :
  ndev_transfer slot chain do_send seq nreq grants st = Some (r, st') ->
  r <> EBUSY.
Proof.
  intros Hrun. unfold ndev_transfer in Hrun.
  apply bind_inv in Hrun as (d & st1 & _ & Hrun).
  apply bind_inv in Hrun as ([] & st2 & _ & Hrun).
  destruct chain as [|p next]; [done|].
  apply bind_inv in Hrun as (built & st3 & _ & Hrun).
  destruct built as [[[i mgrant] mlen]|].
  - apply bind_inv in Hrun as ([] & st4 & _ & Hrun).
    apply bind_inv in Hrun as ([] & st5 & _ & Hrun).
    unfold ret in Hrun. by simplify_eq.
  - unfold ret in Hrun. by simplify_eq.
Qed.

(** For an active driver, whatever the state, [ndev_send] and [ndev_recv]
    return [EBUSY] exactly when [ndev_queue_get] denies the request, and
    then change nothing. *)
Lemma ndev_sendrecv_busy st s type do_send id d chain grants :
  (id < NR_NDEV)%nat ->
  ndev_array st !! id = Some d ->
  slot_active d = true ->
  (fst <$> ndev_sendrecv s type do_send id chain grants st = Some EBUSY <->
   get_denied type (queue_of s d) (nreq_spares st) = true) /\
  (get_denied type (queue_of s d) (nreq_spares st) = true ->
   ndev_sendrecv s type do_send id chain grants st = Some (EBUSY, st)).
Proof.
  intros Hid Hd Ha. apply slot_active_spec in Ha as [Hn Ha].
  assert (get_denied type (queue_of s d) (nreq_spares st) = true ->
          ndev_sendrecv s type do_send id chain grants st = Some (EBUSY, st))
    as Hden.
  { intros Hden. unfold ndev_sendrecv.
    rewrite (bind_eq _ _ _ _ _ (ndev_of_id_eq _ _ _ Hid Hd Hn Ha)).
    by rewrite (bind_eq _ _ _ _ _ (ndev_queue_get_denied _ _ _ _ _ Hd Hden)). }
  split; [|done]. split; [|by intros ->%Hden].
  intros Hrun.
  destruct (ndev_sendrecv s type do_send id chain grants st)
    as [[res st']|] eqn:E; [|done].
  simpl in Hrun. simplify_eq. unfold ndev_sendrecv in E.
  rewrite (bind_eq _ _ _ _ _ (ndev_of_id_eq _ _ _ Hid Hd Hn Ha)) in E.
  apply bind_inv in E as (got & st1 & Hget & E).
  destruct got as [[nreq seq]|]; [|by eapply ndev_queue_get_None].
  apply bind_inv in E as (r & st2 & Htr & E).
  apply ndev_transfer_result in Htr.
  destruct r; [|done|].
  - apply bind_inv in E as ([] & st3 & _ & E). unfold ret in E. by simplify_eq.
  - unfold ret in E. by simplify_eq.
Qed.

Lemma ndev_conf_busy st id d nconf grants :
  (id < NR_NDEV)%nat ->
  ndev_array st !! id = Some d ->
  slot_active d = true ->
  (fst <$> ndev_conf id nconf grants st = Some EBUSY <->
   get_denied NDEV_CONF (ndev_sendq d) (nreq_spares st) = true) /\
  (get_denied NDEV_CONF (ndev_sendq d) (nreq_spares st) = true ->
   ndev_conf id nconf grants st = Some (EBUSY, st)).
Proof.
  intros Hid Hd Ha. apply slot_active_spec in Ha as [Hn Ha].
  assert (get_denied NDEV_CONF (ndev_sendq d) (nreq_spares st) = true ->
          ndev_conf id nconf grants st = Some (EBUSY, st)) as Hden.
  { intros Hden. unfold ndev_conf.
    rewrite (bind_eq _ _ _ _ _ (ndev_of_id_eq _ _ _ Hid Hd Hn Ha)).
    by rewrite (bind_eq _ _ _ _ _
                  (ndev_queue_get_denied _ _ SENDQ _ _ Hd Hden)). }
  split; [|done]. split; [|by intros ->%Hden].
  intros Hrun.
  destruct (ndev_conf id nconf grants st) as [[res st']|] eqn:E; [|done].
  simpl in Hrun. simplify_eq. unfold ndev_conf in E.
  rewrite (bind_eq _ _ _ _ _ (ndev_of_id_eq _ _ _ Hid Hd Hn Ha)) in E.
  apply bind_inv in E as (got & st1 & Hget & E).
  destruct got as [[nreq seq]|];
    [|by apply (ndev_queue_get_None _ _ SENDQ _ _ _ Hd Hget)].
  apply bind_inv in E as ([] & st2 & _ & E).
  cbv zeta in E.
  apply bind_inv in E as ([] & st3 & _ & E).
  apply bind_inv in E as ([] & st4 & _ & E).
  destruct (_ && negb _) in E.
  - unfold ret in E. by simplify_eq.
  - apply bind_inv in E as ([] & st5 & _ & E).
    apply bind_inv in E as ([] & st6 & _ & E).
    apply bind_inv in E as ([] & st7 & _ & E).
    apply bind_inv in E as ([] & st8 & _ & E).
    unfold ret in E. by simplify_eq.
Qed.

(** C2: for an active driver, [ndev_send] and [ndev_conf] return [EBUSY]
    if and only if the send queue is at its maximum, or it holds at least
    [NDEV_SENDQ] requests and no spare object is free; [ndev_recv] returns
    [EBUSY] if and only if the receive queue is at its maximum, whatever
    the number of free spares.  This holds in every state of the module,
    and a request that is denied changes nothing. *)
Theorem busy_iff_admission_denied st id d :
  (id < NR_NDEV)%nat ->
  ndev_array st !! id = Some d ->
  slot_active d = true ->
  (forall chain grants,
     (fst <$> ndev_send id chain grants st = Some EBUSY <->
      nq_count (ndev_sendq d) = nq_max (ndev_sendq d) \/
      (NDEV_SENDQ <= nq_count (ndev_sendq d) /\ nreq_spares st = 0)) /\
     (fst <$> ndev_send id chain grants st = Some EBUSY ->
      ndev_send id chain grants st = Some (EBUSY, st))) /\
  (forall nconf grants,
     (fst <$> ndev_conf id nconf grants st = Some EBUSY <->
      nq_count (ndev_sendq d) = nq_max (ndev_sendq d) \/
      (NDEV_SENDQ <= nq_count (ndev_sendq d) /\ nreq_spares st = 0)) /\
     (fst <$> ndev_conf id nconf grants st = Some EBUSY ->
      ndev_conf id nconf grants st = Some (EBUSY, st))) /\
  (forall chain grants,
     (fst <$> ndev_recv id chain grants st = Some EBUSY <->
      nq_count (ndev_recvq d) = nq_max (ndev_recvq d)) /\
     (fst <$> ndev_recv id chain grants st = Some EBUSY ->
      ndev_recv id chain grants st = Some (EBUSY, st))).
Proof.
  intros Hid Hd Ha. split_and!.
  - intros chain grants. rewrite ndev_send_sendrecv.
    destruct (ndev_sendrecv_busy st SENDQ NDEV_SEND true id d chain grants
                Hid Hd Ha) as [Hiff Hden].
    split; [|by intros ?%Hiff%Hden].
    rewrite Hiff, get_denied_true_iff. simpl. intuition congruence.
  - intros nconf grants.
    destruct (ndev_conf_busy st id d nconf grants Hid Hd Ha) as [Hiff Hden].
    split; [|by intros ?%Hiff%Hden].
    rewrite Hiff, get_denied_true_iff. intuition congruence.
  - intros chain grants. rewrite ndev_recv_sendrecv.
    destruct (ndev_sendrecv_busy st RECVQ NDEV_RECV false id d chain grants
                Hid Hd Ha) as [Hiff Hden].
    split; [|by intros ?%Hiff%Hden].
    rewrite Hiff, get_denied_true_iff. simpl. intuition congruence.
Qed.

(** C10: for an active driver, [ndev_can_recv] returns whether the count
    of the receive queue is below its maximum, which is exactly when
    [ndev_recv], called next, does not return [EBUSY]. *)
Theorem can_recv_iff_recv_not_busy st id d :
  reachable st ->
  (id < NR_NDEV)%nat ->
  ndev_array st !! id = Some d ->
  slot_active d = true ->
  ndev_can_recv id st
  = Some (nq_count (ndev_recvq d) <? nq_max (ndev_recvq d), st) /\
  (ndev_can_recv id st = Some (true, st) <->
   nq_count (ndev_recvq d) < nq_max (ndev_recvq d)) /\
  (ndev_can_recv id st = Some (true, st) <->
   forall chain grants, fst <$> ndev_recv id chain grants st <> Some EBUSY).
Proof.
  intros Hr Hid Hd Ha. apply reachable_inv in Hr.
  pose proof (proj1 (slot_active_spec d) Ha) as [Hn Hact].
  assert (ndev_can_recv id st
          = Some (nq_count (ndev_recvq d) <? nq_max (ndev_recvq d), st)) as Hcan.
  { unfold ndev_can_recv.
    by rewrite (bind_eq _ _ _ _ _ (ndev_of_id_eq _ _ _ Hid Hd Hn Hact)). }
  pose proof (pool_queues _ (proj1 Hr) id d RECVQ Hd) as (_ & Hm & _).
  simpl in Hm.
  assert (ndev_can_recv id st = Some (true, st) <->
          nq_count (ndev_recvq d) < nq_max (ndev_recvq d)) as Hlt.
  { rewrite Hcan. rewrite <- Z.ltb_lt.
    destruct (nq_count (ndev_recvq d) <? nq_max (ndev_recvq d));
      split; congruence. }
  split_and!; [done|done|].
  rewrite Hlt. split.
  - intros Hc chain grants. rewrite ndev_recv_sendrecv.
    rewrite (ndev_sendrecv_busy_iff st RECVQ NDEV_RECV false id d) by done.
    rewrite get_denied_true_iff. simpl. intros [|[? _]]; [lia|done].
  - intros Hnb. specialize (Hnb [] []). rewrite ndev_recv_sendrecv in Hnb.
    rewrite (ndev_sendrecv_busy_iff st RECVQ NDEV_RECV false id d) in Hnb by done.
    rewrite get_denied_true_iff in Hnb. simpl in Hnb.
    destruct (decide (nq_count (ndev_recvq d) = nq_max (ndev_recvq d)));
      [tauto|lia].
Qed.

Lemma spares_balanced_added st slot s d nreq fl :
  ndev_array st !! slot = Some d ->
  0 <= nq_count (queue_of s d) ->
  spares_balanced st ->
  spares_balanced (added slot s d nreq fl st).
Proof.
  unfold spares_balanced, spares_in_use, added. intros Hd Hc Hb. cbn.
  rewrite (sumZ_insert _ _ _ _ _ Hd), Hb.
  unfold spare_use, spare_of. destruct s; simpl in *.
  - destruct (NDEV_SENDQ <? nq_count (ndev_sendq d) + 1) eqn:E;
      [apply Z.ltb_lt in E|apply Z.ltb_ge in E]; unfold NDEV_SENDQ in *; lia.
  - lia.
Qed.

Lemma ndev_queue_get_Some st slot s d type nreq seq st1 :
  ndev_array st !! slot = Some d ->
  ndev_queue_get (slot, s) type st = Some (Some (nreq, seq), st1) ->
  get_denied type (queue_of s d) (nreq_spares st) = false /\
  seq = u32 (nq_head (queue_of s d) + nq_count (queue_of s d)).
Proof.
  intros Hd Hget. unfold ndev_queue_get in Hget.
  rewrite (bind_eq _ _ _ _ _ (read_queue_eq _ _ s _ Hd)) in Hget.
  unfold get_denied.
  destruct (nq_count (queue_of s d) =? nq_max (queue_of s d)); [done|].
  rewrite bind_gets in Hget.
  destruct (negb (req_type_eqb type NDEV_RECV)
            && (NDEV_SENDQ <=? nq_count (queue_of s d))
            && (nreq_spares st =? 0)); [done|].
  split; [done|]. rewrite bind_gets in Hget.
  destruct (nreq_freelist st) as [|n fl]; [done|].
  apply bind_inv in Hget as (r & st0 & _ & Hget).
  unfold bind, write_req, modify, ret in Hget. by simplify_eq.
Qed.

(** C3: in every reachable state the number of free spare objects is
    [NREQ_SPARES] minus the sum, over the slots, of the requests that the
    send queue holds beyond [NDEV_SENDQ]; clearing a queue, releasing the
    head of a queue and adding an obtained request object to a queue all
    keep this balance. *)
Theorem spares_balance st :
  reachable st ->
  spares_balanced st /\
  forall slot s d,
    ndev_array st !! slot = Some d ->
    (exists st', ndev_queue_reset (slot, s) st = Some (tt, st') /\
                 spares_balanced st') /\
    (nq_req (queue_of s d) <> [] ->
     exists st', ndev_queue_advance (slot, s) st = Some (tt, st') /\
                 spares_balanced st') /\
    (forall type nreq seq st1,
       (type = NDEV_RECV <-> s = RECVQ) ->
       ndev_queue_get (slot, s) type st = Some (Some (nreq, seq), st1) ->
       exists st2, ndev_queue_add (slot, s) nreq st1 = Some (tt, st2) /\
                   spares_balanced st2).
Proof.
  intros Hr. apply reachable_inv in Hr as [Hp Ht].
  split; [apply (pool_spares _ Hp)|].
  intros slot s d Hd. split_and!.
  - destruct (ndev_queue_reset_eq _ _ s _ Hp Hd) as (st' & Hrun & Hp' & _).
    exists st'. split; [done|]. apply (pool_spares _ Hp').
  - intros Hne. destruct (nq_req (queue_of s d)) as [|nreq rest] eqn:E; [done|].
    destruct (ndev_queue_advance_eq _ _ _ _ _ _ Hp Hd E) as (r & _ & _ & _ & Hrun).
    eexists. split; [exact Hrun|].
    apply (pool_spares _ (pool_inv_advanced _ _ _ _ _ _ r Hp Hd E)).
  - intros type nreq seq st1 Hty Hget.
    destruct (ndev_queue_get_Some _ _ _ _ _ _ _ _ Hd Hget) as [Hden _].
    destruct (ndev_queue_get_granted _ _ _ _ _ Hp Hd Hty Hden)
      as (nreq' & fl & r & Hfl & Hlook & Hget').
    rewrite Hget' in Hget. simplify_eq.
    set (r0 := mk_ndev_req type (nreq_grant r) (nreq_id r)).
    set (st1 := set_nreq_array (<[nreq := r0]> (nreq_array st)) st).
    assert (pool_inv st1) as Hp1.
    { apply (pool_inv_write_req st nreq r r0); try done. rewrite Hfl. by left. }
    assert (nreq_array st1 !! nreq = Some r0) as Hr0.
    { unfold st1. cbn. apply list_lookup_insert_eq. by eapply lookup_lt_Some. }
    destruct (get_denied_false _ _ _ _ Hty Hden) as [Hne Hsp].
    pose proof (pool_queues _ Hp slot d s Hd) as (Hc & Hm & _).
    pose proof (pool_spares_nonneg _ Hp) as Hnn.
    exists (added slot s d nreq fl st1). split.
    + apply (ndev_queue_add_eq st1 slot s d nreq fl r0); try done.
      * lia.
      * intros Hs Hle. specialize (Hsp Hs Hle).
        change (nreq_spares st1) with (nreq_spares st). lia.
    + apply spares_balanced_added; [done|lia|]. apply (pool_spares _ Hp).
Qed.

(** C4, as the code has it: clearing a queue always succeeds and leaves it
    closed ([nq_max] zero) and empty ([nq_count] zero), with its head
    moved on by the number of requests that it held: by one or more for a
    queue that held requests, and not at all for an empty queue. *)
Theorem reset_closes_queue st slot s d :
  reachable st ->
  ndev_array st !! slot = Some d ->
  exists st' d',
    ndev_queue_reset (slot, s) st = Some (tt, st') /\
    ndev_array st' !! slot = Some d' /\
    nq_max (queue_of s d') = 0 /\
    nq_count (queue_of s d') = 0 /\
    nq_req (queue_of s d') = [] /\
    nq_head (queue_of s d')
    = u32 (nq_head (queue_of s d) + nq_count (queue_of s d)) /\
    0 <= nq_count (queue_of s d) <= 255.
Proof.
  intros Hr Hd. apply reachable_inv in Hr as [Hp Ht].
  destruct (ndev_queue_reset_eq _ _ s _ Hp Hd) as (st' & Hrun & _ & _ & _ & Harr).
  pose proof (pool_queues _ Hp slot d s Hd) as (Hc & Hm & _).
  eexists st', _. split; [done|]. split.
  { rewrite Harr. apply list_lookup_insert_eq. by eapply lookup_lt_Some. }
  rewrite queue_of_set_queue_of. cbn. split_and!; try done; lia.
Qed.

(** C4, as stated, fails: when a driver restarts before it has answered
    the initialization request, its queues are empty, and clearing the
    send queue leaves its head where it was; so does the restart of the
    driver as a whole, which clears both queues. *)
Lemma reset_empty_queue_keeps_head :
  exists st st' st'',
    run [ev_up "e0" 1001] ndev_init = Some st /\
    (nq_head ∘ ndev_sendq) <$> ndev_array st !! 0%nat = Some 1 /\
    (nq_count ∘ ndev_sendq) <$> ndev_array st !! 0%nat = Some 0 /\
    ndev_queue_reset (0%nat, SENDQ) st = Some (tt, st') /\
    (nq_head ∘ ndev_sendq) <$> ndev_array st' !! 0%nat = Some 1 /\
    step (ev_up "e0" 1002) st = Some st'' /\
    (nq_head ∘ ndev_sendq) <$> ndev_array st'' !! 0%nat = Some 1 /\
    (nq_head ∘ ndev_recvq) <$> ndev_array st !! 0%nat
    = (nq_head ∘ ndev_recvq) <$> ndev_array st'' !! 0%nat.
Proof.
  eexists. eexists. eexists. split; [vm_compute; reflexivity|].
  split; [reflexivity|]. split; [reflexivity|].
  split; [vm_compute; reflexivity|]. split; [reflexivity|].
  split; [vm_compute; reflexivity|]. split; reflexivity.
Qed.

Lemma reply_handler_eq k slot id result :
  reply_handler k slot id result
  = ndev_reply slot (reply_queue k) (reply_type k) id
      (fun ethif => reply_call k ethif result).
Proof. by destruct k. Qed.

(** C5: a configure, send or receive reply releases the head of its queue
    and is forwarded to the ethif layer, with its result, if and only if
    the queue is not empty, the ID of the reply is the head of the queue
    and the request at the head has the type that the reply answers;
    otherwise the reply changes nothing and no call is made. *)
Theorem reply_forwarded_iff_head_matches st slot d k id result :
  reachable st ->
  ndev_array st !! slot = Some d ->
  let s := reply_queue k in
  let nq := queue_of s d in
  (head_matches st nq (reply_type k) id ->
   exists ethif nreq rest r st',
     ndev_ethif d = Some ethif /\
     nq_req nq = nreq :: rest /\
     nreq_array st !! nreq = Some r /\
     reply_handler k slot id result st = Some (tt, st') /\
     trace st'
     = trace st ++ map cpf_revoke (valid_grants (nreq_grant r))
       ++ [reply_call k ethif result] /\
     ndev_array st'
     = <[slot := set_queue_of s
                   (mk_ndev_queue (u32 (nq_head nq + 1)) (nq_count nq - 1)
                                  (nq_max nq) rest) d]> (ndev_array st)) /\
  (~ head_matches st nq (reply_type k) id ->
   reply_handler k slot id result st = Some (tt, st)).
Proof.
  intros Hr Hd s nq. apply reachable_inv in Hr.
  rewrite reply_handler_eq.
  pose proof (ndev_reply_eq st slot s d (reply_type k) id
                (fun ethif => reply_call k ethif result) Hr Hd) as Heq.
  fold s. fold nq in Heq.
  destruct (nq_req nq) as [|nreq rest] eqn:E.
  - split; [|done]. intros (n & l & r & Hq & _). unfold nq in *. congruence.
  - destruct Heq as (r & ethif & Hlook & He & Heq). split.
    + intros (n & l & r' & Hq & Hlook' & Hid & Hty). unfold nq in *.
      rewrite E in Hq. simplify_eq.
      rewrite Z.eqb_refl in Heq.
      rewrite (proj2 (req_type_eqb_eq _ (reply_type k)) Hty) in Heq.
      eexists ethif, _, _, _, _.
      split; [done|]. split; [done|]. split; [done|]. split; [exact Heq|].
      split; [cbn; by rewrite <- app_assoc|reflexivity].
    + intros Hnm.
      destruct ((nq_head nq =? id) && req_type_eqb (nreq_type r) (reply_type k))
        eqn:Hb; [|done].
      exfalso. apply Hnm. apply andb_true_iff in Hb as [Hb1 Hb2].
      apply Z.eqb_eq in Hb1. apply req_type_eqb_eq in Hb2.
      exists nreq, rest, r. by split_and!.
Qed.

Lemma queue_ids_eq (reqs : list ndev_req) head (l : list nat) :
  (forall (j nreq : nat), l !! j = Some nreq ->
     exists r, reqs !! nreq = Some r /\ nreq_id r = u32 (head + Z.of_nat j)) ->
  omap (fun nreq => nreq_id <$> reqs !! nreq) l = ids_from head (length l).
Proof.
  unfold ids_from. intros H.
  assert (forall start,
            (forall (j nreq : nat), l !! j = Some nreq ->
               exists r, reqs !! nreq = Some r /\
                         nreq_id r = u32 (head + Z.of_nat (start + j))) ->
            omap (fun nreq => nreq_id <$> reqs !! nreq) l
            = map (fun i : nat => u32 (head + Z.of_nat i)) (seq start (length l)))
    as Hgen.
  { clear H. induction l as [|n l IH]; intros start H; [done|].
    destruct (H 0%nat n eq_refl) as (r & Hr & Hid).
    cbn. rewrite Hr. cbn. rewrite Hid, Nat.add_0_r. f_equal.
    apply IH. intros j nreq Hj. destruct (H (S j) nreq Hj) as (r' & Hr' & Hid').
    exists r'. split; [done|]. rewrite Hid'. do 2 f_equal. lia. }
  apply (Hgen 0%nat). done.
Qed.

(** C6: in every reachable state the sequence IDs sent with the pending
    requests of a queue are, oldest first, [nq_head], [nq_head + 1], ...,
    [nq_head + nq_count - 1] (as [uint32_t]); [ndev_queue_get] gives a new
    request the ID [nq_head + nq_count], and releasing the head adds one to
    [nq_head] and takes one off [nq_count]. *)
Theorem queue_ids_consecutive st slot s d :
  reachable st ->
  ndev_array st !! slot = Some d ->
  let nq := queue_of s d in
  queue_ids (nreq_array st) nq = ids_from (nq_head nq) (Z.to_nat (nq_count nq)) /\
  length (queue_ids (nreq_array st) nq) = length (nq_req nq) /\
  (forall type nreq seq st1,
     ndev_queue_get (slot, s) type st = Some (Some (nreq, seq), st1) ->
     seq = u32 (nq_head nq + nq_count nq)) /\
  (nq_req nq <> [] ->
   exists st' d',
     ndev_queue_advance (slot, s) st = Some (tt, st') /\
     ndev_array st' !! slot = Some d' /\
     nq_head (queue_of s d') = u32 (nq_head nq + 1) /\
     nq_count (queue_of s d') = nq_count nq - 1 /\
     nq_req (queue_of s d') = tail (nq_req nq)).
Proof.
  intros Hr Hd nq. apply reachable_inv in Hr as [Hp Ht].
  pose proof (pool_queues _ Hp slot d s Hd) as (Hc & Hm & Hh & _ & Hq).
  fold nq in Hc, Hm, Hh, Hq.
  assert (queue_ids (nreq_array st) nq
          = ids_from (nq_head nq) (length (nq_req nq))) as Hids.
  { unfold queue_ids. apply queue_ids_eq. intros j nreq Hj.
    destruct (Hq j nreq Hj) as (r & Hlook & _ & Hid). eauto. }
  split_and!.
  - rewrite Hids, Hc, Nat2Z.id. done.
  - rewrite Hids. unfold ids_from. by rewrite length_map, length_seq.
  - intros type nreq seq st1 Hget.
    by destruct (ndev_queue_get_Some _ _ _ _ _ _ _ _ Hd Hget) as [_ ->].
  - intros Hne. destruct (nq_req nq) as [|nreq rest] eqn:E; [done|].
    destruct (ndev_queue_advance_eq _ _ _ _ _ _ Hp Hd E) as (r & _ & _ & _ & Hrun).
    eexists _, _. split; [exact Hrun|]. split.
    { unfold advanced. cbn. apply list_lookup_insert_eq. by eapply lookup_lt_Some. }
    by rewrite queue_of_set_queue_of.
Qed.

(** C7: when an initialization reply passes the checks and the driver has
    or gets an ethif object, [ethif_enable] is called in a state in which
    the maximum of the send queue is the advertised [max_send] (at most
    255, the message field being a [uint8_t]), the maximum of the receive
    queue is the smaller of the advertised [max_recv] and [NDEV_RECVQ],
    and both heads have moved on by one; whatever the ethif layer does
    within the call runs from that state. *)
Theorem init_reply_opens_queues st slot d source m env ethif :
  ndev_array st !! slot = Some d ->
  NDEV_ACTIVE d = false ->
  ir_id m = nq_head (ndev_sendq d) ->
  invalid_name (ir_name m) = false ->
  invalid_hwaddr_len m = false ->
  1 <= ir_max_send m < 256 ->
  1 <= ir_max_recv m < 256 ->
  ethif_after_add d env = Some ethif ->
  exists st1 d1 name hwaddr,
    ndev_init_reply slot source m env st = after_enable slot env st1 /\
    trace st1
    = trace st ++ add_calls slot d m
      ++ [ethif_enable ethif name hwaddr (ir_hwaddr_len m) (ir_caps m)
            (ir_link m) (ir_media m)] /\
    ndev_array st1 !! slot = Some d1 /\
    nq_max (ndev_sendq d1) = Z.min (ir_max_send m) 255 /\
    nq_max (ndev_recvq d1) = Z.min (ir_max_recv m) NDEV_RECVQ /\
    nq_head (ndev_sendq d1) = u32 (nq_head (ndev_sendq d) + 1) /\
    nq_head (ndev_recvq d1) = u32 (nq_head (ndev_recvq d) + 1) /\
    (ethif_enable_calls env = [] -> ethif_enable_result env = true ->
     ndev_init_reply slot source m env st
     = Some (tt, set_ndev_pending (ndev_pending st - 1) st1)).
Proof.
  intros Hd Ha Hid Hname Hhw Hs Hr He.
  assert (invalid_queue_max m = false) as Hq.
  { unfold invalid_queue_max. rewrite !u8_small by lia.
    apply orb_false_iff. split; apply Z.ltb_ge; lia. }
  assert (ndev_init_reply slot source m env st
          = after_enable slot env (enable_state slot d m ethif st)) as Heq.
  { rewrite (ndev_init_reply_eq _ _ _ _ _ _ Hd).
    by rewrite Ha, Hid, Z.eqb_refl, Hname, Hhw, Hq, He. }
  eexists (enable_state slot d m ethif st), (enabled_ndev d m ethif), _, _.
  split; [exact Heq|]. split; [reflexivity|]. split.
  { unfold enable_state. cbn. apply list_lookup_insert_eq.
    by eapply lookup_lt_Some. }
  unfold enabled_ndev, NDEV_RECVQ. cbn. rewrite !u8_small by lia.
  split_and!; try done; try lia.
  - destruct (2 <? ir_max_recv m) eqn:E;
      [apply Z.ltb_lt in E|apply Z.ltb_ge in E]; lia.
  - intros Hcalls Hres. rewrite Heq. unfold after_enable.
    rewrite Hcalls, Hres. reflexivity.
Qed.

(** C9: for an active driver whose request is admitted, when a call of
    [cpf_grant_direct] fails after [k] calls that succeeded, [ndev_send]
    and [ndev_recv] return [ENOMEM] having revoked those [k] grants, last
    one first, and [ndev_conf], which needs one grant at most, returns
    [ENOMEM]; in both cases no request is added to a queue: the driver
    table, with the heads and counts of its queues, the free list and the
    number of free spares are as before. *)
Theorem grant_failure_rolls_back st id d :
  reachable st ->
  (id < NR_NDEV)%nat ->
  ndev_array st !! id = Some d ->
  slot_active d = true ->
  (forall s type do_send p next grants k,
     (s = SENDQ /\ type = NDEV_SEND /\ do_send = true) \/
     (s = RECVQ /\ type = NDEV_RECV /\ do_send = false) ->
     get_denied type (queue_of s d) (nreq_spares st) = false ->
     transfer_outcome grants (p :: next) (tot_len p) 0 = LOOP_ENOMEM k ->
     GRANT_VALID (grant_result grants k) = false /\
     (forall j, (j < k)%nat -> GRANT_VALID (grant_result grants j) = true) /\
     exists st',
       (if do_send then ndev_send else ndev_recv) id (p :: next) grants st
       = Some (ENOMEM, st') /\
       trace st'
       = trace st
         ++ grant_calls (ndev_endpt d) do_send grants (p :: next) 0 (S k)
         ++ map cpf_revoke (grants_below grants k) /\
       ndev_array st' = ndev_array st /\
       nreq_freelist st' = nreq_freelist st /\
       nreq_spares st' = nreq_spares st) /\
  (forall nconf grants,
     get_denied NDEV_CONF (ndev_sendq d) (nreq_spares st) = false ->
     conf_with_list nconf = true ->
     nconf_mclist nconf <> None ->
     nconf_mccount nconf <> 0 ->
     GRANT_VALID (grant_result grants 0) = false ->
     exists st',
       ndev_conf id nconf grants st = Some (ENOMEM, st') /\
       trace st' = trace st ++ [conf_grant_call d nconf grants] /\
       ndev_array st' = ndev_array st /\
       nreq_freelist st' = nreq_freelist st /\
       nreq_spares st' = nreq_spares st).
Proof.
  intros Hr Hid Hd Ha. apply reachable_inv in Hr.
  apply slot_active_spec in Ha as [Hn Ha].
  split.
  - intros s type do_send p next grants k Hkind Hden Hout.
    assert (type = NDEV_RECV <-> s = RECVQ) as Hty.
    { destruct Hkind as [(-> & -> & _)|(-> & -> & _)]; split; done. }
    pose proof (ndev_sendrecv_eq st s type do_send id d (p :: next) grants
                  Hr Hid Hd Hn Ha Hty) as Heq.
    rewrite Hden, Hout in Heq.
    destruct Heq as (nreq & fl & Hfl & Hinv & Hval & st' & Hrun & _ & Ht & Htr).
    split; [done|]. split; [done|]. exists st'.
    destruct Ht as (A1 & A2 & A3 & _).
    split_and!; try done.
    destruct Hkind as [(-> & -> & ->)|(-> & -> & ->)]; exact Hrun.
  - intros nconf grants Hden Hwl Hmc Hcnt Hv.
    pose proof (ndev_conf_eq st id d nconf grants Hr Hid Hd Hn Ha) as Heq.
    rewrite Hden, Hwl, Hv in Heq.
    rewrite bool_decide_eq_false_2 in Heq by done.
    apply Z.eqb_neq in Hcnt. rewrite Hcnt in Heq. cbn in Heq.
    destruct Heq as (nreq & fl & Hfl & st' & Hrun & _ & Ht & Htr).
    exists st'. destruct Ht as (A1 & A2 & A3 & _). by split_and!.
Qed.

(** C1, at a failing input: a driver that restarts twice before it answers
    is counted twice in [ndev_pending], and a restarting driver that goes
    away stays counted, while the number of initializing slots is one and
    zero. *)
Theorem pending_miscounts_restarts :
  (exists st,
     run (cold_start ++ [ev_up "e0" 1002; ev_up "e0" 1003]) ndev_init = Some st /\
     ndev_pending st = 2 /\ count_initializing st = 1) /\
  (exists st,
     run (cold_start ++ [ev_up "e0" 1002; ev_down]) ndev_init = Some st /\
     ndev_pending st = 1 /\ count_initializing st = 0).
Proof.
  split; eexists; (split; [vm_compute; reflexivity|]); split; reflexivity.
Qed.

(** C8, at a failing input: a restarted driver, initializing again, sends
    an initialization reply with an empty name; the slot is given up and a
    line is printed, without a call of [ethif_add] or [ethif_enable], but
    [ndev_pending] stays as it was. *)
Theorem invalid_reply_of_restarted_driver :
  exists st st',
    run (cold_start ++ [ev_up "e0" 1002]) ndev_init = Some st /\
    slot_initializing <$> ndev_array st !! 0%nat = Some true /\
    (nq_head ∘ ndev_sendq) <$> ndev_array st !! 0%nat = Some 2 /\
    step (ev_init_reply 1002 2 (replicate 16 Ascii.zero)) st = Some st' /\
    slot_vacant <$> ndev_array st' !! 0%nat = Some true /\
    trace st'
    = trace st ++ [printf ("LWIP: driver %d provided invalid name" ++ LF) [1002];
                   ethif_remove 77] /\
    ndev_pending st = 1 /\
    ndev_pending st' = 1 /\
    count_initializing st' = 0.
Proof.
  eexists. eexists. split; [vm_compute; reflexivity|].
  split; [reflexivity|]. split; [reflexivity|].
  split; [vm_compute; reflexivity|].
  split_and!; reflexivity.
Qed.

(** ** Messages never stop the service *)

Lemma ndev_down_total st slot t :
  inv st -> (slot < NR_NDEV)%nat -> is_Some (ndev_down slot (set_trace t st)).
Proof.
  intros Hi Hlt.
  destruct (lookup_lt_is_Some_2 (ndev_array st) slot) as [d Hd].
  { by rewrite (pool_ndev_length _ (proj1 Hi)). }
  destruct (ndev_down_eq (set_trace t st) slot d (inv_set_trace _ _ Hi) Hd)
    as (st1 & Hrun & _).
  rewrite Hrun. by eexists.
Qed.

(** A message of a driver, to which the ethif layer does not react with
    requests from within [ethif_enable], is always processed to the end. *)
Lemma ndev_process_total st m env :
  reachable st -> m_source m <> NONE -> ethif_enable_calls env = [] ->
  is_Some (step (EV_PROCESS m env) st).
Proof.
  intros Hr Hsrc Hcalls. apply reachable_inv in Hr as Hi.
  assert (is_Some (ndev_process m env st)) as [[[] st'] Hrun];
    [|simpl; rewrite Hrun; by eexists].
  unfold ndev_process. rewrite !bind_gets.
  destruct (ndev_find (m_source m) (take (ndev_max st) (ndev_array st)) 0)
    as [slot|] eqn:Hfind; [|by eexists].
  destruct (ndev_find_Some _ _ _ _ Hfind) as (d & Hd & _ & He).
  rewrite Nat.sub_0_r in Hd. apply lookup_take_Some in Hd as [Hd Hlt].
  assert (slot < NR_NDEV)%nat as Hslot.
  { pose proof (table_max _ (proj2 Hi)). lia. }
  destruct (m_body m) as [r|id result|id result|id result|s|ty].
  - rewrite (ndev_init_reply_eq _ _ _ _ _ _ Hd).
    destruct (NDEV_ACTIVE d || negb (ir_id r =? nq_head (ndev_sendq d))) eqn:Hfor;
      [by eexists|].
    apply orb_false_iff in Hfor as [Ha _].
    destruct (invalid_name (ir_name r)); [by apply ndev_down_total|].
    destruct (invalid_hwaddr_len r); [by apply ndev_down_total|].
    destruct (invalid_queue_max r) eqn:Hq; [by apply ndev_down_total|].
    destruct (ethif_after_add d env) as [ethif|]; [|by apply ndev_down_total].
    unfold after_enable. rewrite Hcalls. simpl ndev_requests. rewrite bind_ret.
    assert (inv (enable_state slot d r ethif st)) as Hi1.
    { apply inv_enable_state; try done. congruence. }
    destruct (negb (ethif_enable_result env)); [|by eexists].
    unfold enable_state in *.
    apply ndev_down_total; [|done].
    destruct Hi1 as [Hp1 Ht1]. split.
    + eapply pool_inv_ext; [..|exact Hp1]; done.
    + by eapply table_inv_ext; [..|exact Ht1].
  - pose proof (ndev_reply_eq st slot SENDQ d NDEV_CONF id
                  (fun ethif => ethif_configured ethif result) Hi Hd) as Heq.
    unfold ndev_conf_reply.
    destruct (nq_req (queue_of SENDQ d)); [rewrite Heq; by eexists|].
    destruct Heq as (r & ethif & _ & _ & ->). destruct (_ && _); by eexists.
  - pose proof (ndev_reply_eq st slot SENDQ d NDEV_SEND id
                  (fun ethif => ethif_sent ethif result) Hi Hd) as Heq.
    unfold ndev_send_reply.
    destruct (nq_req (queue_of SENDQ d)); [rewrite Heq; by eexists|].
    destruct Heq as (r & ethif & _ & _ & ->). destruct (_ && _); by eexists.
  - pose proof (ndev_reply_eq st slot RECVQ d NDEV_RECV id
                  (fun ethif => ethif_received ethif result) Hi Hd) as Heq.
    unfold ndev_recv_reply.
    destruct (nq_req (queue_of RECVQ d)); [rewrite Heq; by eexists|].
    destruct Heq as (r & ethif & _ & _ & ->). destruct (_ && _); by eexists.
  - unfold ndev_status.
    rewrite (bind_eq _ _ _ _ _ (read_ndev_eq _ _ _ Hd)).
    destruct (NDEV_ACTIVE d) eqn:Ha; [|by eexists].
    pose proof (table_ethif _ (proj2 Hi) slot d Hd Ha).
    destruct (ndev_ethif d); [by eexists|done].
  - by eexists.
Qed.

(** An invalid initialization reply of a driver that has no ethif object
    yet: the slot is given up, a line is printed, no call is made into the
    ethif layer, and [ndev_pending] goes down by one. *)
Lemma invalid_init_reply_of_new_driver st slot d source m env :
  reachable st ->
  ndev_array st !! slot = Some d ->
  slot_initializing d = true ->
  ndev_ethif d = None ->
  ir_id m = nq_head (ndev_sendq d) ->
  invalid_name (ir_name m) || invalid_hwaddr_len m || invalid_queue_max m = true ->
  exists st' line,
    ndev_init_reply slot source m env st = Some (tt, st') /\
    trace st' = trace st ++ [printf line [source]] /\
    ndev_pending st' = ndev_pending st - 1 /\
    slot_vacant <$> ndev_array st' !! slot = Some true.
Proof.
  intros Hr Hd Hinit He Hid Hbad. apply reachable_inv in Hr as Hi.
  unfold slot_initializing in Hinit.
  apply andb_true_iff in Hinit as [_ H0]. apply Z.eqb_eq in H0.
  rewrite (ndev_init_reply_eq _ _ _ _ _ _ Hd).
  rewrite (NDEV_ACTIVE_false _ H0), Hid, Z.eqb_refl. cbn [orb negb].
  assert (forall line,
            exists st',
              ndev_down slot (set_trace (trace st ++ [printf line [source]]) st)
              = Some (tt, st') /\
              trace st' = trace st ++ [printf line [source]] /\
              ndev_pending st' = ndev_pending st - 1 /\
              slot_vacant <$> ndev_array st' !! slot = Some true) as Hdown.
  { intros line.
    destruct (ndev_down_eq _ slot d (inv_set_trace _ (trace st ++ [printf line [source]]) Hi) Hd)
      as (st' & Hrun & _ & Harr & _ & Hpend & _ & _ & Htr).
    exists st'. rewrite He in *. specialize (Htr H0).
    rewrite app_nil_r in Htr. split_and!; try done.
    rewrite Harr. cbn.
    rewrite list_lookup_insert_eq by (by eapply lookup_lt_Some). done. }
  destruct (invalid_name (ir_name m)).
  { destruct (Hdown ("LWIP: driver %d provided invalid name" ++ LF)%string) as [st' H].
    by exists st', ("LWIP: driver %d provided invalid name" ++ LF)%string. }
  destruct (invalid_hwaddr_len m).
  { destruct (Hdown ("LWIP: driver %d provided invalid HW-addr length" ++ LF)%string)
      as [st' H].
    by exists st', ("LWIP: driver %d provided invalid HW-addr length" ++ LF)%string. }
  destruct (invalid_queue_max m); [|done].
  destruct (Hdown ("LWIP: driver %d provided invalid queue maximum" ++ LF)%string)
    as [st' H].
  by exists st', ("LWIP: driver %d provided invalid queue maximum" ++ LF)%string.
Qed.

Lemma reachable_st_up : reachable st_up.
Proof.
  apply (reachable_run [ev_up "e0" 1001] ndev_init); [apply reachable_init| |].
  - repeat constructor.
  - vm_compute. reflexivity.
Qed.

Lemma reachable_st_sent : reachable st_sent.
Proof.
  apply (reachable_run sent_one ndev_init); [apply reachable_init| |].
  - repeat constructor; vm_compute; discriminate.
  - vm_compute. reflexivity.
Qed.

Lemma busy_iff_admission_denied_witness :
  (0 < NR_NDEV)%nat /\
  ndev_array st_busy !! 0%nat = Some d_busy /\
  slot_active d_busy = true /\
  (NDEV_SENDQ <= nq_count (ndev_sendq d_busy) /\ nreq_spares st_busy = 0) /\
  nq_count (ndev_sendq d_busy) <> nq_max (ndev_sendq d_busy) /\
  nq_count (ndev_recvq d_busy) = nq_max (ndev_recvq d_busy) /\
  ndev_send 0 packet [5] st_busy = Some (EBUSY, st_busy) /\
  ndev_conf 0 conf_nothing [] st_busy = Some (EBUSY, st_busy) /\
  ndev_recv 0 packet [6] st_busy = Some (EBUSY, st_busy) /\
  fst <$> ndev_send 0 packet [5] st_active <> Some EBUSY /\
  fst <$> ndev_recv 0 packet [6] st_active <> Some EBUSY.
Proof.
  assert ((0 < NR_NDEV)%nat) as H1 by (vm_compute; lia).
  assert (ndev_array st_busy !! 0%nat = Some d_busy) as H2 by reflexivity.
  assert (slot_active d_busy = true) as H3 by reflexivity.
  assert (NDEV_SENDQ <= nq_count (ndev_sendq d_busy) /\ nreq_spares st_busy = 0)
    as H4 by (split; [vm_compute; discriminate|reflexivity]).
  assert (nq_count (ndev_sendq d_busy) <> nq_max (ndev_sendq d_busy)) as H5
    by (vm_compute; discriminate).
  assert (nq_count (ndev_recvq d_busy) = nq_max (ndev_recvq d_busy)) as H6
    by reflexivity.
  split; [exact H1|]. split; [exact H2|]. split; [exact H3|].
  split; [exact H4|]. split; [exact H5|]. split; [exact H6|].
  destruct (busy_iff_admission_denied st_busy 0 d_busy H1 H2 H3)
    as (Hs & Hc & Hr).
  destruct (Hs packet [5]) as [Hs1 Hs2].
  destruct (Hc conf_nothing []) as [Hc1 Hc2].
  destruct (Hr packet [6]) as [Hr1 Hr2].
  split; [exact (Hs2 (proj2 Hs1 (or_intror H4)))|].
  split; [exact (Hc2 (proj2 Hc1 (or_intror H4)))|].
  split; [exact (Hr2 (proj2 Hr1 H6))|].
  destruct (busy_iff_admission_denied st_active 0 d_active H1 eq_refl eq_refl)
    as (Ha & _ & Hb).
  split.
  - intros E. apply (proj1 (proj1 (Ha packet [5]))) in E.
    vm_compute in E. destruct E as [E|[_ E]]; discriminate E.
  - intros E. apply (proj1 (proj1 (Hb packet [6]))) in E.
    vm_compute in E. discriminate E.
Defined.

Lemma can_recv_iff_recv_not_busy_witness :
  reachable st_active /\
  (0 < NR_NDEV)%nat /\
  ndev_array st_active !! 0%nat = Some d_active /\
  slot_active d_active = true /\
  ndev_can_recv 0 st_active = Some (true, st_active).
Proof.
  split; [exact reachable_st_active|].
  assert ((0 < NR_NDEV)%nat) as H1 by (vm_compute; lia).
  assert (ndev_array st_active !! 0%nat = Some d_active) as H2 by reflexivity.
  assert (slot_active d_active = true) as H3 by reflexivity.
  split; [exact H1|]. split; [exact H2|]. split; [exact H3|].
  exact (proj1 (can_recv_iff_recv_not_busy st_active 0 d_active
                  reachable_st_active H1 H2 H3)).
Defined.

Lemma spares_balance_witness :
  reachable st_sent /\
  spares_balanced st_sent /\
  exists st', ndev_queue_reset (0%nat, SENDQ) st_sent = Some (tt, st') /\
              spares_balanced st'.
Proof.
  split; [exact reachable_st_sent|].
  pose proof (spares_balance st_sent reachable_st_sent) as [Hb Hops].
  split; [exact Hb|].
  exact (proj1 (Hops 0%nat SENDQ d_sent eq_refl)).
Defined.

Lemma reset_closes_queue_witness :
  reachable st_sent /\
  ndev_array st_sent !! 0%nat = Some d_sent /\
  exists st' d',
    ndev_queue_reset (0%nat, SENDQ) st_sent = Some (tt, st') /\
    ndev_array st' !! 0%nat = Some d' /\
    nq_max (ndev_sendq d') = 0 /\
    nq_count (ndev_sendq d') = 0 /\
    nq_req (ndev_sendq d') = [] /\
    nq_head (ndev_sendq d') = 3.
Proof.
  split; [exact reachable_st_sent|].
  split; [reflexivity|].
  destruct (reset_closes_queue st_sent 0 SENDQ d_sent reachable_st_sent eq_refl)
    as (st' & d' & H1 & H2 & H3 & H4 & H5 & H6 & _).
  exists st', d'. simpl in *. by split_and!.
Defined.

Lemma reply_forwarded_iff_head_matches_witness :
  reachable st_sent /\
  ndev_array st_sent !! 0%nat = Some d_sent /\
  head_matches st_sent (ndev_sendq d_sent) NDEV_SEND 2 /\
  exists st',
    ndev_send_reply 0 2 0 st_sent = Some (tt, st') /\
    trace st' = trace st_sent ++ [cpf_revoke 5; ethif_sent 77 0].
Proof.
  split; [exact reachable_st_sent|].
  assert (ndev_array st_sent !! 0%nat = Some d_sent) as H1 by reflexivity.
  assert (head_matches st_sent (ndev_sendq d_sent) NDEV_SEND 2) as H2.
  { eexists _, _, _. split; [reflexivity|]. split; [reflexivity|].
    split; reflexivity. }
  split; [exact H1|]. split; [exact H2|].
  destruct (proj1 (reply_forwarded_iff_head_matches st_sent 0 d_sent REPLY_SEND
                     2 0 reachable_st_sent H1) H2)
    as (ethif & nreq & rest & r & st' & E1 & E2 & E3 & E4 & E5 & _).
  exists st'. split; [exact E4|].
  vm_compute in E1, E2. simplify_eq. vm_compute in E3. simplify_eq.
  exact E5.
Defined.

Lemma queue_ids_consecutive_witness :
  reachable st_sent /\
  ndev_array st_sent !! 0%nat = Some d_sent /\
  queue_ids (nreq_array st_sent) (ndev_sendq d_sent) = [2].
Proof.
  split; [exact reachable_st_sent|].
  split; [reflexivity|].
  exact (proj1 (queue_ids_consecutive st_sent 0 SENDQ d_sent reachable_st_sent
                  eq_refl)).
Defined.

Lemma init_reply_opens_queues_witness :
  ndev_array st_up !! 0%nat = Some d_up /\
  NDEV_ACTIVE d_up = false /\
  ethif_after_add d_up sample_env = Some 77 /\
  exists st1 d1,
    ndev_init_reply 0 1001 (sample_reply 1 eth0) sample_env st_up
    = after_enable 0 sample_env st1 /\
    ndev_array st1 !! 0%nat = Some d1 /\
    nq_max (ndev_sendq d1) = 16 /\
    nq_max (ndev_recvq d1) = 2 /\
    nq_head (ndev_sendq d1) = 2 /\
    nq_head (ndev_recvq d1) = 1048578.
Proof.
  split; [reflexivity|]. split; [reflexivity|]. split; [reflexivity|].
  destruct (init_reply_opens_queues st_up 0 d_up 1001 (sample_reply 1 eth0)
              sample_env 77 eq_refl eq_refl eq_refl eq_refl eq_refl
              ltac:(simpl; lia) ltac:(simpl; lia) eq_refl)
    as (st1 & d1 & name & hwaddr & H1 & _ & H3 & H4 & H5 & H6 & H7 & _).
  exists st1, d1. by split_and!.
Defined.

Lemma grant_failure_rolls_back_witness :
  reachable st_active /\
  (0 < NR_NDEV)%nat /\
  ndev_array st_active !! 0%nat = Some d_active /\
  slot_active d_active = true /\
  get_denied NDEV_SEND (ndev_sendq d_active) (nreq_spares st_active) = false /\
  transfer_outcome [5] packet2 128 0 = LOOP_ENOMEM 1 /\
  exists st',
    ndev_send 0 packet2 [5] st_active = Some (ENOMEM, st') /\
    trace st'
    = trace st_active
      ++ [cpf_grant_direct 1001 4096 64 CPF_READ 5;
          cpf_grant_direct 1001 8192 64 CPF_READ GRANT_INVALID;
          cpf_revoke 5] /\
    ndev_array st' = ndev_array st_active /\
    nreq_freelist st' = nreq_freelist st_active /\
    nreq_spares st' = nreq_spares st_active.
Proof.
  split; [exact reachable_st_active|].
  assert ((0 < NR_NDEV)%nat) as H1 by (vm_compute; lia).
  assert (ndev_array st_active !! 0%nat = Some d_active) as H2 by reflexivity.
  assert (slot_active d_active = true) as H3 by reflexivity.
  assert (get_denied NDEV_SEND (ndev_sendq d_active) (nreq_spares st_active)
          = false) as H4 by reflexivity.
  assert (transfer_outcome [5] packet2 128 0 = LOOP_ENOMEM 1) as H5
    by reflexivity.
  split; [exact H1|]. split; [exact H2|]. split; [exact H3|].
  split; [exact H4|]. split; [exact H5|].
  destruct (proj1 (grant_failure_rolls_back st_active 0 d_active
                     reachable_st_active H1 H2 H3)
              SENDQ NDEV_SEND true (mk_pbuf 4096 128 64) [mk_pbuf 8192 64 64]
              [5] 1%nat (or_introl (conj eq_refl (conj eq_refl eq_refl)))
              H4 H5)
    as (_ & _ & st' & E1 & E2 & E3 & E4 & E5).
  exists st'. by split_and!.
Defined.

(** ** The request pool in the reachable states *)

Lemma spares_in_use_nonneg st : 0 <= spares_in_use st.
Proof. unfold spares_in_use. apply sumZ_nonneg, spare_use_nonneg. Qed.

(** X1: in every reachable state each of the [NR_NREQ] request objects is
    in exactly one place: the free list and the queues of the drivers,
    put together, hold every object once. *)
Theorem request_objects_partitioned st :
  reachable st ->
  nreq_freelist st ++ all_queued (ndev_array st) ≡ₚ seq 0 NR_NREQ /\
  NoDup (nreq_freelist st ++ all_queued (ndev_array st)) /\
  (length (nreq_freelist st) + length (all_queued (ndev_array st)) = NR_NREQ)%nat /\
  forall nreq,
    (nreq < NR_NREQ)%nat <->
    nreq ∈ nreq_freelist st \/ nreq ∈ all_queued (ndev_array st).
Proof.
  intros Hr. apply reachable_inv in Hr as [Hp _].
  pose proof (pool_partition _ Hp) as Hperm. split_and!.
  - exact Hperm.
  - rewrite Hperm. apply NoDup_seq.
  - rewrite <- length_app, Hperm. apply length_seq.
  - intros nreq. rewrite <- elem_of_app, Hperm, elem_of_seq. lia.
Qed.

(** X2: the assertion of [ndev_queue_get] on the free list never fails.
    In a reachable state, a request for a queue either is denied, and
    nothing changes, or gets the first object of the free list, which is
    not empty, with the ID [nq_head + nq_count]; the call writes the
    request type into that object and nothing else. *)
Theorem queue_get_never_fails st slot s d type :
  reachable st ->
  ndev_array st !! slot = Some d ->
  (type = NDEV_RECV <-> s = RECVQ) ->
  (get_denied type (queue_of s d) (nreq_spares st) = true /\
   ndev_queue_get (slot, s) type st = Some (None, st)) \/
  (get_denied type (queue_of s d) (nreq_spares st) = false /\
   exists nreq fl r,
     nreq_freelist st = nreq :: fl /\
     nreq_array st !! nreq = Some r /\
     (nreq ∉ all_queued (ndev_array st)) /\
     ndev_queue_get (slot, s) type st
     = Some (Some (nreq, u32 (nq_head (queue_of s d) + nq_count (queue_of s d))),
             set_nreq_array
               (<[nreq := mk_ndev_req type (nreq_grant r) (nreq_id r)]>
                  (nreq_array st)) st)).
Proof.
  intros Hr Hd Hty. apply reachable_inv in Hr as [Hp _].
  destruct (get_denied type (queue_of s d) (nreq_spares st)) eqn:Hden.
  - left. split; [done|]. by apply (ndev_queue_get_denied _ _ _ d).
  - right. split; [done|].
    destruct (ndev_queue_get_granted _ _ _ _ _ Hp Hd Hty Hden)
      as (nreq & fl & r & Hfl & Hlook & Hget).
    exists nreq, fl, r. split_and!; try done.
    pose proof (pool_partition _ Hp) as Hperm.
    assert (NoDup (nreq_freelist st ++ all_queued (ndev_array st))) as Hnd.
    { rewrite Hperm. apply NoDup_seq. }
    apply NoDup_app in Hnd as (_ & Hdisj & _).
    apply Hdisj. rewrite Hfl. by left.
Qed.

(** X3: a request object obtained with [ndev_queue_get] need not be given
    back: whatever the state, the call leaves the free list, the number of
    free spares, the driver table and the trace as they are, a denied call
    changes nothing at all, and a granted call changes the type field of
    the returned object only. *)
Theorem queue_get_nothing_to_undo q type st res st' :
  ndev_queue_get q type st = Some (res, st') ->
  nreq_freelist st' = nreq_freelist st /\
  nreq_spares st' = nreq_spares st /\
  ndev_array st' = ndev_array st /\
  ndev_max st' = ndev_max st /\
  ndev_pending st' = ndev_pending st /\
  trace st' = trace st /\
  match res with
  | None => st' = st
  | Some (nreq, seq) =>
      exists r,
        nreq_array st !! nreq = Some r /\
        head (nreq_freelist st) = Some nreq /\
        nreq_array st'
        = <[nreq := mk_ndev_req type (nreq_grant r) (nreq_id r)]> (nreq_array st)
  end.
Proof.
  unfold ndev_queue_get. intros H.
  apply bind_inv in H as (nq & st0 & Hq & H).
  assert (st0 = st) as ->.
  { unfold read_queue in Hq. apply bind_inv in Hq as (d & st1 & Hd & Hq).
    apply read_ndev_inv in Hd as [_ ->]. unfold ret in Hq. by simplify_eq. }
  destruct (nq_count nq =? nq_max nq).
  { unfold ret in H. by simplify_eq. }
  rewrite bind_gets in H.
  destruct (negb (req_type_eqb type NDEV_RECV) && (NDEV_SENDQ <=? nq_count nq)
            && (nreq_spares st =? 0)).
  { unfold ret in H. by simplify_eq. }
  rewrite bind_gets in H.
  destruct (nreq_freelist st) as [|nreq fl] eqn:Hfl; [done|].
  apply bind_inv in H as (r & st1 & Hr & H).
  unfold read_req in Hr.
  destruct (nreq_array st !! nreq) as [r0|] eqn:Hlook; [|done].
  simplify_eq.
  unfold bind, write_req, modify, ret in H. simplify_eq. cbn.
  split_and!; try done. by exists r.
Qed.

(** X4: the bounds of the queues.  In every reachable state the number of
    free spares lies between zero and [NREQ_SPARES]; the count of a queue
    is the length of its list and does not exceed its maximum, which is at
    most 255 and, for a receive queue, at most [NDEV_RECVQ]; and the
    receive queue holds receive requests only, the send queue none. *)
Theorem queue_bounds st slot d :
  reachable st ->
  ndev_array st !! slot = Some d ->
  0 <= nreq_spares st <= NREQ_SPARES /\
  (forall s,
     nq_count (queue_of s d) = Z.of_nat (length (nq_req (queue_of s d))) /\
     0 <= nq_count (queue_of s d) <= nq_max (queue_of s d) /\
     nq_max (queue_of s d) <= 255) /\
  nq_count (ndev_recvq d) <= nq_max (ndev_recvq d) <= NDEV_RECVQ /\
  (forall s nreq,
     nreq ∈ nq_req (queue_of s d) ->
     exists r, nreq_array st !! nreq = Some r /\
               (nreq_type r = NDEV_RECV <-> s = RECVQ)).
Proof.
  intros Hr Hd. apply reachable_inv in Hr as [Hp _]. split_and!.
  - apply (pool_spares_nonneg _ Hp).
  - rewrite (pool_spares _ Hp). pose proof (spares_in_use_nonneg st). lia.
  - intros s. destruct (pool_queues _ Hp slot d s Hd) as (Hc & Hm & _).
    split_and!; lia.
  - destruct (pool_queues _ Hp slot d RECVQ Hd) as (_ & Hm & _). simpl in Hm. lia.
  - destruct (pool_queues _ Hp slot d RECVQ Hd) as (_ & _ & _ & Hm & _).
    simpl in Hm. by apply Hm.
  - intros s nreq Hin. apply list_elem_of_lookup in Hin as [j Hj].
    destruct (pool_queues _ Hp slot d s Hd) as (_ & _ & _ & _ & Hq).
    destruct (Hq j nreq Hj) as (r & Hlook & Hty & _). eauto.
Qed.

(** X5: the states of a slot.  In every reachable state a slot without an
    active driver (no driver, a driver that is initializing, a slot from
    [ndev_max] on) has no pending request; the two queues of a slot are
    open or closed together; and an active driver has an ethif object, so
    that the assertions of the reply and status handlers hold. *)
Theorem inactive_slot_has_no_requests st slot d :
  reachable st ->
  ndev_array st !! slot = Some d ->
  (ndev_max st <= NR_NDEV)%nat /\
  ((ndev_max st <= slot)%nat \/ ndev_endpt d = NONE -> NDEV_ACTIVE d = false) /\
  (NDEV_ACTIVE d = false ->
   forall s, nq_max (queue_of s d) = 0 /\ nq_count (queue_of s d) = 0 /\
             nq_req (queue_of s d) = []) /\
  (NDEV_ACTIVE d = true ->
   0 < nq_max (ndev_recvq d) /\ exists ethif, ndev_ethif d = Some ethif).
Proof.
  intros Hr Hd. apply reachable_inv in Hr as [Hp Ht]. split_and!.
  - apply (table_max _ Ht).
  - intros H. apply NDEV_ACTIVE_false. by eapply (table_vacant _ Ht).
  - intros Ha s.
    assert (nq_max (ndev_sendq d) = 0) as H0.
    { destruct (pool_queues _ Hp slot d SENDQ Hd) as (Hc & Hm & _).
      simpl in Hc, Hm. unfold NDEV_ACTIVE in Ha. apply Z.ltb_ge in Ha. lia. }
    assert (nq_max (queue_of s d) = 0) as Hs.
    { destruct s; [done|]. by apply (table_both _ Ht slot d Hd). }
    split; [done|]. by eapply queue_wf_closed; [apply (pool_queues _ Hp slot d s Hd)|].
  - intros Ha. apply NDEV_ACTIVE_true in Ha as Hpos. split.
    + destruct (pool_queues _ Hp slot d RECVQ Hd) as (Hc & Hm & _).
      simpl in Hc, Hm.
      destruct (decide (nq_max (ndev_recvq d) = 0)) as [E|E]; [|lia].
      apply (table_both _ Ht slot d Hd) in E. lia.
    + pose proof (table_ethif _ Ht slot d Hd Ha).
      destruct (ndev_ethif d); [by eexists|done].
Qed.

(** ** What clearing a queue releases *)

Lemma released_to_nil st : released_to [] st st.
Proof. split; try done. by rewrite app_nil_r. Qed.

Lemma released_to_app l1 l2 st1 st2 st3 :
  released_to l1 st1 st2 -> released_to l2 st2 st3 ->
  released_to (l1 ++ l2) st1 st3.
Proof.
  intros [A1 A2 A3 A4 A5 A6] [B1 B2 B3 B4 B5 B6]. split; try congruence.
  - rewrite B2, A2, rev_app_distr. by rewrite app_assoc.
  - rewrite B3, A3, A1. unfold queue_grants.
    by rewrite flat_map_app, map_app, app_assoc.
Qed.

Lemma released_to_advanced slot s d nreq rest r st :
  nreq_array st !! nreq = Some r ->
  released_to [nreq] st (advanced slot s d nreq rest r st).
Proof.
  intros Hr. unfold advanced. split; cbn; try done.
  by rewrite Hr, app_nil_r.
Qed.

Lemma ndev_queue_reset_loop_released fuel st slot s d st' :
  pool_inv st ->
  ndev_array st !! slot = Some d ->
  ndev_queue_reset_loop fuel (slot, s) st = Some (tt, st') ->
  released_to (nq_req (queue_of s d)) st st'.
Proof.
  revert st d. induction fuel as [|fuel IH]; intros st d Hp Hd;
    pose proof (pool_queues _ Hp slot d s Hd) as (Hc & Hm & Hh & _ & _);
    rewrite ndev_queue_reset_loop_unfold;
    rewrite (bind_eq _ _ _ _ _ (read_queue_eq _ _ s _ Hd));
    destruct (nq_req (queue_of s d)) as [|nreq rest] eqn:E;
    simpl length in *.
  1,3: change (nq_count (queue_of s d) = 0) in Hc; rewrite Hc; cbn;
    unfold ret; intros; simplify_eq; apply released_to_nil.
  - destruct (0 <? nq_count (queue_of s d)) eqn:Hpos; [done|].
    apply Z.ltb_ge in Hpos. lia.
  - destruct (0 <? nq_count (queue_of s d)) eqn:Hpos;
      [|apply Z.ltb_ge in Hpos; lia].
    rewrite bool_decide_eq_false_2 by done.
    change (c_assert (negb false)) with (ret tt).
    unfold bind at 1. unfold ret at 1.
    destruct (ndev_queue_advance_eq _ _ _ _ _ _ Hp Hd E)
      as (r & Hr & Hty & Hid & Hadv).
    rewrite (bind_eq _ _ _ _ _ Hadv).
    pose proof (pool_inv_advanced _ _ _ _ _ _ r Hp Hd E) as Hp'.
    set (d' := set_queue_of s
                 (mk_ndev_queue (u32 (nq_head (queue_of s d) + 1))
                    (nq_count (queue_of s d) - 1) (nq_max (queue_of s d)) rest) d).
    assert (ndev_array (advanced slot s d nreq rest r st) !! slot = Some d')
      as Hd'.
    { unfold advanced. cbn. apply list_lookup_insert_eq. by eapply lookup_lt_Some. }
    intros Hrun. specialize (IH _ d' Hp' Hd' Hrun).
    unfold d' in IH. rewrite queue_of_set_queue_of in IH. simpl in IH.
    apply (released_to_app [nreq] rest _ _ _
             (released_to_advanced slot s d nreq rest r st Hr) IH).
Qed.

Lemma ndev_queue_reset_released st slot s d st' :
  pool_inv st ->
  ndev_array st !! slot = Some d ->
  ndev_queue_reset (slot, s) st = Some (tt, st') ->
  released_to (nq_req (queue_of s d)) st st'.
Proof.
  intros Hp Hd Hrun. unfold ndev_queue_reset in Hrun.
  apply bind_inv in Hrun as ([] & st1 & Hloop & Hrun).
  pose proof (ndev_queue_reset_loop_released _ _ _ _ _ _ Hp Hd Hloop)
    as [A1 A2 A3 A4 A5 A6].
  apply bind_inv in Hrun as (nq & st2 & Hq & Hrun).
  unfold read_queue in Hq. apply bind_inv in Hq as (d1 & st3 & Hd1 & Hq).
  apply read_ndev_inv in Hd1 as [Hd1 ->]. unfold ret in Hq. simplify_eq.
  rewrite (write_queue_eq _ _ _ _ _ Hd1) in Hrun. simplify_eq.
  by split.
Qed.

Lemma ndev_queue_reset_both_released st slot d st' :
  pool_inv st ->
  ndev_array st !! slot = Some d ->
  (ndev_queue_reset (slot, SENDQ) ;; ndev_queue_reset (slot, RECVQ)) st
  = Some (tt, st') ->
  released_to (queued d) st st'.
Proof.
  intros Hp Hd Hrun.
  destruct (ndev_queue_reset_eq _ _ SENDQ _ Hp Hd)
    as (st1 & Hrun1 & Hp1 & _ & _ & Harr1).
  rewrite (bind_eq _ _ _ _ _ Hrun1) in Hrun.
  assert (ndev_array st1 !! slot
          = Some (set_queue_of SENDQ
                    (mk_ndev_queue
                       (u32 (nq_head (ndev_sendq d) + nq_count (ndev_sendq d)))
                       0 0 []) d)) as Hd1.
  { rewrite Harr1. apply list_lookup_insert_eq. by eapply lookup_lt_Some. }
  pose proof (ndev_queue_reset_released _ _ _ _ _ Hp Hd Hrun1) as R1.
  pose proof (ndev_queue_reset_released _ _ _ _ _ Hp1 Hd1 Hrun) as R2.
  apply (released_to_app _ _ _ _ _ R1 R2).
Qed.

(** The spares that the state has free once the slot is cleared. *)
Lemma spares_after_clear st st' slot d d' :
  pool_inv st -> pool_inv st' ->
  ndev_array st !! slot = Some d ->
  ndev_array st' = <[slot := d']> (ndev_array st) ->
  nq_count (ndev_sendq d') = 0 ->
  nreq_spares st' = nreq_spares st + spare_use d.
Proof.
  intros Hp Hp' Hd Harr H0.
  rewrite (pool_spares _ Hp), (pool_spares _ Hp').
  unfold spares_in_use. rewrite Harr, (sumZ_insert _ _ _ _ _ Hd).
  unfold spare_use at 3. rewrite H0. unfold NDEV_SENDQ. lia.
Qed.

Lemma ndev_max_shrink_tight arr max :
  (max <= length arr)%nat ->
  ndev_max_shrink arr max = 0%nat \/
  exists d, arr !! (ndev_max_shrink arr max - 1)%nat = Some d /\
            ndev_endpt d <> NONE.
Proof.
  induction max as [|m IH]; intros Hlen; [by left|].
  simpl. destruct (arr !! m) as [d|] eqn:E.
  - destruct (ndev_endpt d =? NONE) eqn:En.
    + apply IH. lia.
    + right. exists d. apply Z.eqb_neq in En.
      split; [|done]. by replace (S m - 1)%nat with m by lia.
  - apply lookup_ge_None in E. lia.
Qed.

(** The exact effect of [ndev_down]. *)
Lemma ndev_down_exact st slot d :
  inv st ->
  ndev_array st !! slot = Some d ->
  exists st',
    ndev_down slot st = Some (tt, st') /\
    ndev_array st' = <[slot := downed d]> (ndev_array st) /\
    nreq_array st' = nreq_array st /\
    nreq_freelist st'
    = rev (nq_req (ndev_recvq d)) ++ rev (nq_req (ndev_sendq d))
      ++ nreq_freelist st /\
    nreq_spares st' = nreq_spares st + spare_use d /\
    trace st'
    = trace st
      ++ map cpf_revoke (queue_grants (nreq_array st) (nq_req (ndev_sendq d)))
      ++ map cpf_revoke (queue_grants (nreq_array st) (nq_req (ndev_recvq d)))
      ++ match ndev_ethif d with
         | Some ethif => [ethif_remove ethif]
         | None => []
         end /\
    ndev_pending st'
    = ndev_pending st - match ndev_ethif d with Some _ => 0 | None => 1 end /\
    (ndev_max st' <= ndev_max st)%nat /\
    (forall i di, (ndev_max st' <= i < ndev_max st)%nat ->
       ndev_array st' !! i = Some di -> ndev_endpt di = NONE) /\
    (ndev_max st' = 0%nat \/
     exists dl, ndev_array st' !! (ndev_max st' - 1)%nat = Some dl /\
                ndev_endpt dl <> NONE).
Proof.
  intros Hi Hd. pose proof Hi as [Hp Ht].
  destruct (ndev_down_eq _ _ _ Hi Hd)
    as (st' & Hrun & [Hp' Ht'] & Harr & Hmax & Hpend & _ & _ & _).
  exists st'. split; [done|]. split; [done|].
  assert (released_to (queued d) st
            (set_trace (trace st ++ map cpf_revoke (queue_grants (nreq_array st)
                                                      (queued d)))
               (set_nreq_freelist (nreq_freelist st')
                  (set_nreq_array (nreq_array st') st))) /\
          trace st'
          = trace st ++ map cpf_revoke (queue_grants (nreq_array st) (queued d))
            ++ match ndev_ethif d with
               | Some ethif => [ethif_remove ethif]
               | None => []
               end) as [[R1 R2 _ _ _ _] Htr].
  { destruct (ndev_queue_reset_both _ _ _ Hp Hd)
      as (st1 & Hrun1 & Hp1 & _ & _ & Harr1).
    pose proof (ndev_queue_reset_both_released _ _ _ _ Hp Hd Hrun1)
      as [A1 A2 A3 A4 A5 A6].
    assert (ndev_array st1 !! slot
            = Some (mk_ndev (ndev_endpt d) (ndev_label d) (ndev_ethif d)
                      (closed_queue (ndev_sendq d)) (closed_queue (ndev_recvq d))))
      as Hd1.
    { rewrite Harr1. apply list_lookup_insert_eq. by eapply lookup_lt_Some. }
    unfold ndev_down in Hrun. rewrite <- bind_assoc in Hrun.
    rewrite (bind_eq _ _ _ _ _ Hrun1) in Hrun.
    rewrite (bind_eq _ _ _ _ _ (read_ndev_eq _ _ _ Hd1)) in Hrun.
    cbn [ndev_ethif] in Hrun.
    destruct (ndev_ethif d) as [ethif|].
    - rewrite bind_emit, bind_write_ndev in Hrun.
      unfold modify in Hrun. simplify_eq. cbn.
      split; [split; cbn; try done|]. rewrite A3. by rewrite <- app_assoc.
    - rewrite bind_modify, bind_write_ndev in Hrun.
      unfold modify in Hrun. simplify_eq. cbn.
      split; [split; cbn; try done|]. by rewrite A3, !app_nil_r. }
  cbn in R1, R2.
  pose proof (table_max _ Ht) as Hle.
  pose proof (pool_ndev_length _ Hp) as Hlen.
  split_and!.
  - done.
  - rewrite R2. unfold queued. by rewrite rev_app_distr, <- app_assoc.
  - by apply (spares_after_clear st st' slot d (downed d)).
  - rewrite Htr. unfold queued, queue_grants.
    by rewrite flat_map_app, map_app, <- app_assoc.
  - done.
  - rewrite Hmax. apply ndev_max_shrink_le.
  - intros i di Hrange Hlook.
    apply (ndev_max_shrink_vacant (ndev_array st') (ndev_max st) i di);
      [by rewrite <- Hmax|done].
  - rewrite Hmax. apply ndev_max_shrink_tight.
    rewrite Harr, length_insert. lia.
Qed.

(** X6: a driver that goes down gives back all that it holds.  Whenever
    [ndev_down] returns from a reachable state (it ends the service if a
    [cpf_revoke] fails), it has left the slot without a driver and with
    both queues closed, has put every request of the two queues back on
    the free list, has freed the spares that the send queue used, has
    revoked the grants of those requests, oldest request first, has
    called [ethif_remove] if the driver has an ethif object and has taken
    one off [ndev_pending] if it has none; the other slots are left alone,
    and [ndev_max] is lowered past the slots without a driver at the end
    of the table. *)
Theorem driver_down_releases_everything st slot d st' :
  reachable st ->
  ndev_array st !! slot = Some d ->
  ndev_down slot st = Some (tt, st') ->
  ndev_array st' = <[slot := downed d]> (ndev_array st) /\
  nreq_array st' = nreq_array st /\
  nreq_freelist st'
  = rev (nq_req (ndev_recvq d)) ++ rev (nq_req (ndev_sendq d))
    ++ nreq_freelist st /\
  nreq_spares st' = nreq_spares st + spare_use d /\
  trace st'
  = trace st
    ++ map cpf_revoke (queue_grants (nreq_array st) (nq_req (ndev_sendq d)))
    ++ map cpf_revoke (queue_grants (nreq_array st) (nq_req (ndev_recvq d)))
    ++ match ndev_ethif d with
       | Some ethif => [ethif_remove ethif]
       | None => []
       end /\
  ndev_pending st'
  = ndev_pending st - match ndev_ethif d with Some _ => 0 | None => 1 end /\
  (ndev_max st' <= ndev_max st)%nat /\
  (forall i di, (ndev_max st' <= i < ndev_max st)%nat ->
     ndev_array st' !! i = Some di -> ndev_endpt di = NONE) /\
  (ndev_max st' = 0%nat \/
   exists dl, ndev_array st' !! (ndev_max st' - 1)%nat = Some dl /\
              ndev_endpt dl <> NONE).
Proof.
  intros Hr Hd Hrun. apply reachable_inv in Hr.
  destruct (ndev_down_exact st slot d Hr Hd) as (s' & E & H).
  rewrite Hrun in E. by simplify_eq.
Qed.

(** ** Drivers coming up *)

(** What the search loop of [ndev_up] finds. *)
Lemma ndev_up_scan_spec label l : forall slot free,
  match ndev_up_scan label l slot free with
  | inl i =>
      exists d, l !! (i - slot)%nat = Some d /\ (slot <= i)%nat /\
        holds_label label d /\
        forall j dj, (j < i - slot)%nat -> l !! j = Some dj ->
                     ~ holds_label label dj
  | inr r =>
      (forall j dj, l !! j = Some dj -> ~ holds_label label dj) /\
      match free, r with
      | Some f, _ => r = Some f
      | None, Some i =>
          exists d, l !! (i - slot)%nat = Some d /\ (slot <= i)%nat /\
            ndev_endpt d = NONE /\
            forall j dj, (j < i - slot)%nat -> l !! j = Some dj ->
                         ndev_endpt dj <> NONE
      | None, None => forall j dj, l !! j = Some dj -> ndev_endpt dj <> NONE
      end
  end.
Proof.
  induction l as [|d l IH]; intros slot free.
  { simpl. split; [done|]. by destruct free. }
  simpl. destruct (ndev_endpt d =? NONE) eqn:En.
  - apply Z.eqb_eq in En.
    specialize (IH (S slot) (match free with None => Some slot | Some _ => free end)).
    destruct (ndev_up_scan label l (S slot) _) as [i|r].
    + destruct IH as (d' & Hd' & Hle & Hh & Hfirst).
      exists d'. replace (i - slot)%nat with (S (i - S slot)) by lia.
      split_and!; try done; [lia|].
      intros [|j] dj Hj Hlook; simplify_eq/=.
      * intros [? _]. done.
      * apply (Hfirst j); [lia|done].
    + destruct IH as [Hnone IH]. split.
      * intros [|j] dj Hlook; simplify_eq/=; [by intros [? _]|by eapply Hnone].
      * destruct free as [f|]; [done|]. subst r.
        exists d. rewrite Nat.sub_diag. split_and!; try done. lia.
  - apply Z.eqb_neq in En. destruct (String.eqb (ndev_label d) label) eqn:El.
    + apply String.eqb_eq in El. exists d. rewrite Nat.sub_diag.
      split_and!; try done. lia.
    + apply String.eqb_neq in El. specialize (IH (S slot) free).
      destruct (ndev_up_scan label l (S slot) free) as [i|r].
      * destruct IH as (d' & Hd' & Hle & Hh & Hfirst).
        exists d'. replace (i - slot)%nat with (S (i - S slot)) by lia.
        split_and!; try done; [lia|].
        intros [|j] dj Hj Hlook; simplify_eq/=.
        -- by intros [_ ?].
        -- apply (Hfirst j); [lia|done].
      * destruct IH as [Hnone IH]. split.
        -- intros [|j] dj Hlook; simplify_eq/=; [by intros [_ ?]|by eapply Hnone].
        -- destruct free as [f|]; [done|]. destruct r as [i|].
           ++ destruct IH as (d' & Hd' & Hle & Hv & Hfirst).
              exists d'. replace (i - slot)%nat with (S (i - S slot)) by lia.
              split_and!; try done; [lia|].
              intros [|j] dj Hj Hlook; simplify_eq/=; [done|].
              apply (Hfirst j); [lia|done].
           ++ intros [|j] dj Hlook; simplify_eq/=; [done|by eapply IH].
Qed.

Lemma ndev_up_scan_known label st slot :
  is_slot_of label st slot ->
  ndev_up_scan label (take (ndev_max st) (ndev_array st)) 0 None = inl slot.
Proof.
  intros (Hlt & (d & Hd & Hh) & Hfirst).
  pose proof (ndev_up_scan_spec label (take (ndev_max st) (ndev_array st)) 0 None)
    as Hspec.
  destruct (ndev_up_scan label _ 0 None) as [i|r].
  - destruct Hspec as (d' & Hd' & _ & Hh' & Hfirst').
    rewrite Nat.sub_0_r in *. f_equal.
    apply lookup_take_Some in Hd' as [Hd' Hi].
    destruct (Nat.lt_trichotomy i slot) as [Hc|[Hc|Hc]]; [|done|].
    + by destruct (Hfirst i d' Hc Hd').
    + destruct (Hfirst' slot d Hc); [|done].
      by apply lookup_take_Some.
  - destruct Hspec as [Hnone _]. destruct (Hnone slot d); [|done].
    by apply lookup_take_Some.
Qed.

Lemma ndev_up_scan_unknown label st :
  unknown_label label st ->
  (forall slot, is_free_slot st slot -> (slot < ndev_max st)%nat ->
     is_Some (ndev_array st !! slot) ->
     ndev_up_scan label (take (ndev_max st) (ndev_array st)) 0 None
     = inr (Some slot)) /\
  ((forall j dj, (j < ndev_max st)%nat -> ndev_array st !! j = Some dj ->
      ndev_endpt dj <> NONE) ->
   ndev_up_scan label (take (ndev_max st) (ndev_array st)) 0 None = inr None).
Proof.
  intros Hunk.
  pose proof (ndev_up_scan_spec label (take (ndev_max st) (ndev_array st)) 0 None)
    as Hspec.
  destruct (ndev_up_scan label _ 0 None) as [i|r].
  { destruct Hspec as (d' & Hd' & _ & Hh' & _). rewrite Nat.sub_0_r in *.
    apply lookup_take_Some in Hd' as [Hd' Hi]. by destruct (Hunk i d' Hi Hd'). }
  destruct Hspec as [_ Hspec]. split.
  - intros slot (_ & _ & Hocc & Hvac) Hlt [d Hd]. specialize (Hvac d Hlt Hd).
    destruct r as [i|].
    + destruct Hspec as (d' & Hd' & _ & Hv & Hfirst). rewrite Nat.sub_0_r in *.
      apply lookup_take_Some in Hd' as [Hd' Hi]. do 2 f_equal.
      destruct (Nat.lt_trichotomy i slot) as [Hc|[Hc|Hc]]; [|done|].
      * by destruct (Hocc i d' Hc Hd').
      * destruct (Hfirst slot d Hc); [|done]. by apply lookup_take_Some.
    + destruct (Hspec slot d); [|done]. by apply lookup_take_Some.
  - intros Hocc. destruct r as [i|]; [|done].
    destruct Hspec as (d' & Hd' & _ & Hv & _). rewrite Nat.sub_0_r in *.
    apply lookup_take_Some in Hd' as [Hd' Hi]. by destruct (Hocc i d' Hi Hd').
Qed.

(** X7: a driver that restarts.  When the table holds a driver with the
    announced label, [ndev_up] cancels its requests (both queues are
    closed, the request objects go back to the free list with their spares
    and their grants are revoked), tells the ethif layer, if the driver
    has an ethif object, that the interface is disabled, and adds one to
    [ndev_pending] in that case only; it records the new endpoint and
    sends it an initialization request whose ID is the head of the cleared
    send queue.  The slot keeps its label and its ethif object and is
    initializing. *)
Theorem driver_restart_cancels_requests st slot d label endpt :
  reachable st ->
  is_slot_of label st slot ->
  ndev_array st !! slot = Some d ->
  exists st',
    ndev_up label endpt st = Some (tt, st') /\
    ndev_array st'
    = <[slot := mk_ndev endpt (ndev_label d) (ndev_ethif d)
                  (closed_queue (ndev_sendq d)) (closed_queue (ndev_recvq d))]>
        (ndev_array st) /\
    nreq_array st' = nreq_array st /\
    nreq_freelist st'
    = rev (nq_req (ndev_recvq d)) ++ rev (nq_req (ndev_sendq d))
      ++ nreq_freelist st /\
    nreq_spares st' = nreq_spares st + spare_use d /\
    trace st'
    = trace st
      ++ map cpf_revoke (queue_grants (nreq_array st) (nq_req (ndev_sendq d)))
      ++ map cpf_revoke (queue_grants (nreq_array st) (nq_req (ndev_recvq d)))
      ++ match ndev_ethif d with
         | Some ethif => [ethif_disable ethif]
         | None => []
         end
      ++ [asynsend3 endpt
            (M_INIT (u32 (nq_head (ndev_sendq d) + nq_count (ndev_sendq d))))] /\
    ndev_max st' = ndev_max st /\
    ndev_pending st'
    = ndev_pending st + match ndev_ethif d with Some _ => 1 | None => 0 end.
Proof.
  intros Hr Hslot Hd. apply reachable_inv in Hr as Hi. pose proof Hi as [Hp Ht].
  pose proof (ndev_up_scan_known _ _ _ Hslot) as Hscan.
  destruct (ndev_up_restart _ _ _ label endpt Hi Hd Hscan)
    as (st' & Hrun & [Hp' Ht'] & Harr & Hmax & Hpend).
  exists st'. split; [done|]. split; [done|].
  set (d3 := mk_ndev endpt (ndev_label d) (ndev_ethif d)
               (closed_queue (ndev_sendq d)) (closed_queue (ndev_recvq d))) in *.
  assert (nreq_array st' = nreq_array st /\
          nreq_freelist st' = rev (queued d) ++ nreq_freelist st /\
          trace st'
          = (trace st ++ map cpf_revoke (queue_grants (nreq_array st) (queued d)))
            ++ match ndev_ethif d with
               | Some ethif => [ethif_disable ethif]
               | None => []
               end
            ++ [asynsend3 endpt
                  (M_INIT (u32 (nq_head (ndev_sendq d) + nq_count (ndev_sendq d))))])
    as (R1 & R2 & Htr).
  { destruct (ndev_queue_reset_both _ _ _ Hp Hd)
      as (st1 & Hrun1 & Hp1 & _ & _ & Harr1).
    pose proof (ndev_queue_reset_both_released _ _ _ _ Hp Hd Hrun1)
      as [A1 A2 A3 A4 A5 A6].
    assert (ndev_array st1 !! slot
            = Some (mk_ndev (ndev_endpt d) (ndev_label d) (ndev_ethif d)
                      (closed_queue (ndev_sendq d)) (closed_queue (ndev_recvq d))))
      as Hd1.
    { rewrite Harr1. apply list_lookup_insert_eq. by eapply lookup_lt_Some. }
    unfold ndev_up in Hrun. rewrite !bind_gets, Hscan in Hrun.
    rewrite <- bind_assoc in Hrun.
    rewrite (bind_eq _ _ _ _ _ Hrun1) in Hrun.
    rewrite (bind_eq _ _ _ _ _ (read_ndev_eq _ _ _ Hd1)) in Hrun.
    cbn [ndev_ethif ndev_label ndev_sendq ndev_recvq] in Hrun.
    fold d3 in Hrun.
    assert (forall st2, ndev_array st2 = ndev_array st1 ->
              ndev_send_init slot
                (set_ndev_array (<[slot := d3]> (ndev_array st2)) st2)
              = Some (tt, set_trace
                            (trace st2 ++ [asynsend3 endpt
                                             (M_INIT (nq_head (closed_queue (ndev_sendq d))))])
                            (set_ndev_array (<[slot := d3]> (ndev_array st2)) st2)))
      as Hinit.
    { intros st2 Ha2.
      apply (ndev_send_init_eq
               (set_ndev_array (<[slot := d3]> (ndev_array st2)) st2) slot d3).
      cbn. apply list_lookup_insert_eq. rewrite Ha2. by eapply lookup_lt_Some. }
    destruct (ndev_ethif d) as [ethif|].
    - rewrite bind_assoc, bind_emit, bind_modify, bind_write_ndev in Hrun.
      cbv beta in Hrun. set (st2 := set_ndev_pending _ _) in Hrun.
      rewrite (Hinit st2 eq_refl) in Hrun. simplify_eq. cbn.
      split_and!; try done. rewrite A3. by rewrite <- !app_assoc.
    - rewrite bind_ret, bind_write_ndev in Hrun.
      rewrite (Hinit st1 eq_refl) in Hrun. simplify_eq. cbn.
      split_and!; try done. by rewrite A3. }
  split_and!; try done.
  - rewrite R2. unfold queued. by rewrite rev_app_distr, <- app_assoc.
  - apply (spares_after_clear st st' slot d d3); done.
  - rewrite Htr. unfold queued, queue_grants.
    by rewrite flat_map_app, map_app, <- !app_assoc.
Qed.

Lemma ndev_up_slot_eq st slot d label endpt :
  ndev_array st !! slot = Some d ->
  (d <- read_ndev slot ;;
   write_ndev slot (mk_ndev endpt (strlcpy_label label) None
                            (ndev_sendq d) (ndev_recvq d)) ;;
   ndev_queue_init (slot, SENDQ) ;;
   ndev_queue_init (slot, RECVQ) ;;
   ndev_send_init slot ;;
   modify (fun st => set_ndev_pending (ndev_pending st + 1) st)) st
  = Some (tt, set_ndev_pending (ndev_pending st + 1)
                (set_trace
                   (trace st ++ [asynsend3 endpt
                                   (M_INIT (u32 (nq_head (ndev_sendq d) + 1)))])
                   (set_ndev_array
                      (<[slot := mk_ndev endpt (strlcpy_label label) None
                           (mk_ndev_queue (u32 (nq_head (ndev_sendq d) + 1)) 0 0 [])
                           (mk_ndev_queue (u32 (nq_head (ndev_recvq d) + 1)) 0 0 [])]>
                         (ndev_array st)) st))).
Proof.
  intros Hd.
  assert (Hlen : (slot < length (ndev_array st))%nat) by (by eapply lookup_lt_Some).
  rewrite (bind_eq _ _ _ _ _ (read_ndev_eq _ _ _ Hd)).
  rewrite bind_write_ndev.
  set (d1 := mk_ndev endpt (strlcpy_label label) None (ndev_sendq d) (ndev_recvq d)).
  set (st1 := set_ndev_array (<[slot := d1]> (ndev_array st)) st).
  assert (ndev_array st1 !! slot = Some d1) as Hd1.
  { unfold st1. cbn. by apply list_lookup_insert_eq. }
  rewrite (bind_eq _ _ _ _ _ (ndev_queue_init_eq _ _ SENDQ _ Hd1)).
  set (d2 := set_queue_of SENDQ _ d1) in *.
  set (st2 := set_ndev_array _ st1) in *.
  assert (ndev_array st2 !! slot = Some d2) as Hd2.
  { unfold st2. cbn. apply list_lookup_insert_eq. by rewrite length_insert. }
  rewrite (bind_eq _ _ _ _ _ (ndev_queue_init_eq _ _ RECVQ _ Hd2)).
  set (d3 := set_queue_of RECVQ _ d2) in *.
  set (st3 := set_ndev_array _ st2) in *.
  assert (ndev_array st3 !! slot = Some d3) as Hd3.
  { unfold st3. cbn. apply list_lookup_insert_eq. by rewrite !length_insert. }
  rewrite (bind_eq _ _ _ _ _ (ndev_send_init_eq _ _ _ Hd3)).
  unfold modify. do 2 f_equal.
  unfold st3, st2, st1. cbn. by rewrite !list_insert_insert_eq.
Qed.

(** The exact effect of [ndev_up] for a driver that the table does not
    hold, when there is a free slot. *)
Lemma ndev_up_new_eq st slot d label endpt :
  unknown_label label st ->
  is_free_slot st slot ->
  ndev_array st !! slot = Some d ->
  ndev_up label endpt st = Some (tt, driver_added slot d label endpt st).
Proof.
  intros Hunk Hfree Hd.
  destruct (ndev_up_scan_unknown _ _ Hunk) as [Hsome Hnone].
  pose proof Hfree as (Hlt & Hle & Hocc & Hvac).
  unfold ndev_up. rewrite !bind_gets.
  destruct (decide (slot < ndev_max st)%nat) as [Hin|Hout].
  - rewrite (Hsome slot Hfree Hin) by eauto.
    rewrite bind_ret. rewrite (ndev_up_slot_eq _ _ _ _ _ Hd).
    unfold driver_added.
    replace (Nat.max (ndev_max st) (S slot)) with (ndev_max st) by lia.
    by rewrite set_ndev_max_id.
  - assert (slot = ndev_max st) as -> by lia.
    rewrite Hnone by (intros j dj Hj; by apply Hocc).
    destruct (ndev_max st =? NR_NDEV)%nat eqn:E.
    { apply Nat.eqb_eq in E. lia. }
    rewrite bind_assoc, bind_modify, bind_ret.
    rewrite (ndev_up_slot_eq (set_ndev_max (S (ndev_max st)) st) _ _ _ _ Hd).
    unfold driver_added.
    by replace (Nat.max (ndev_max st) (S (ndev_max st))) with (S (ndev_max st)) by lia.
Qed.

(** X8: a new driver.  When no slot holds a driver with the announced
    label and the table has a free slot, [ndev_up] takes the first slot
    without a driver below [ndev_max], or else the slot [ndev_max] itself,
    raising [ndev_max] by one.  The slot gets the endpoint and the label,
    no ethif object, and two closed, empty queues whose heads have moved
    on by one; an initialization request with the new head of the send
    queue as its ID is sent to the driver, and [ndev_pending] goes up by
    one.  The request pool and the other slots are not touched. *)
Theorem new_driver_gets_first_free_slot st slot d label endpt :
  unknown_label label st ->
  is_free_slot st slot ->
  ndev_array st !! slot = Some d ->
  ndev_up label endpt st = Some (tt, driver_added slot d label endpt st) /\
  let st' := driver_added slot d label endpt st in
  (exists d', ndev_array st' !! slot = Some d' /\
     ndev_endpt d' = endpt /\ ndev_label d' = strlcpy_label label /\
     ndev_ethif d' = None /\ NDEV_ACTIVE d' = false /\
     nq_req (ndev_sendq d') = [] /\ nq_req (ndev_recvq d') = [] /\
     nq_head (ndev_sendq d') = u32 (nq_head (ndev_sendq d) + 1) /\
     nq_head (ndev_recvq d') = u32 (nq_head (ndev_recvq d) + 1) /\
     trace st' = trace st ++ [asynsend3 endpt (M_INIT (nq_head (ndev_sendq d')))]) /\
  (forall j, j <> slot -> ndev_array st' !! j = ndev_array st !! j) /\
  ndev_max st' = (if decide (slot = ndev_max st) then S slot else ndev_max st) /\
  ndev_pending st' = ndev_pending st + 1 /\
  nreq_array st' = nreq_array st /\
  nreq_freelist st' = nreq_freelist st /\
  nreq_spares st' = nreq_spares st.
Proof.
  intros Hunk Hfree Hd. split; [by apply ndev_up_new_eq|].
  pose proof Hfree as (Hlt & Hle & _).
  unfold driver_added. cbn. split_and!; try done.
  - eexists. split.
    + apply list_lookup_insert_eq. by eapply lookup_lt_Some.
    + by split_and!.
  - intros j Hne. by rewrite list_lookup_insert_ne.
  - destruct (decide (slot = ndev_max st)); lia.
Qed.

(** X9: a full table.  When all [NR_NDEV] slots hold drivers and none has
    the announced label, [ndev_up] ignores the driver: no slot changes and
    nothing is sent.  The complaint is printed the first time only. *)
Theorem full_table_ignores_new_driver st label endpt :
  table_full st ->
  unknown_label label st ->
  ndev_up label endpt st
  = Some (tt, if reported st then st
              else set_reported true
                     (set_trace (trace st ++ [printf ("LWIP: not enough ndev slots!" ++ LF) []])
                        st)) /\
  forall st', ndev_up label endpt st = Some (tt, st') ->
    reported st' = true /\
    ndev_up label endpt st' = Some (tt, st').
Proof.
  intros [Hmax Hocc] Hunk.
  assert (forall st0, ndev_max st0 = ndev_max st -> ndev_array st0 = ndev_array st ->
            ndev_up label endpt st0
            = Some (tt, if reported st0 then st0
                        else set_reported true
                               (set_trace (trace st0 ++ [printf ("LWIP: not enough ndev slots!" ++ LF) []])
                                  st0))) as Hgen.
  { intros st0 Hm Ha.
    assert (unknown_label label st0) as Hunk0.
    { intros j dj Hj Hlook. rewrite Hm in Hj. rewrite Ha in Hlook. by eapply Hunk. }
    destruct (ndev_up_scan_unknown _ _ Hunk0) as [_ Hnone].
    unfold ndev_up. rewrite !bind_gets, Hnone.
    - rewrite Hm, Hmax, Nat.eqb_refl.
      rewrite bind_assoc, bind_gets.
      destruct (reported st0); cbn; done.
    - intros j dj Hj Hlook. rewrite Ha in Hlook. apply (Hocc j dj); [|done].
      rewrite Hm, Hmax in Hj. done. }
  split; [by apply Hgen|].
  intros st' Hrun. rewrite (Hgen st eq_refl eq_refl) in Hrun.
  injection Hrun as <-. destruct (reported st) eqn:Hrep.
  - split; [done|]. rewrite (Hgen st eq_refl eq_refl). by rewrite Hrep.
  - split; [done|]. by rewrite Hgen.
Qed.

(** ** Discovery events *)

Lemma substring_all (s : string) : substring 0 (String.length s) s = s.
Proof. induction s as [|c s IH]; simpl; [done|by rewrite IH]. Qed.

Lemma substring_prefix (p s : string) :
  substring 0 (String.length p) (String.append p s) = p.
Proof. induction p as [|c p IH]; simpl; [by destruct s|by rewrite IH]. Qed.

Lemma substring_suffix (p s : string) :
  substring (String.length p)
    (String.length (String.append p s) - String.length p) (String.append p s)
  = s.
Proof.
  induction p as [|c p IH]; simpl.
  - rewrite Nat.sub_0_r. apply substring_all.
  - exact IH.
Qed.

(** X10: the keys of the data store.  An entry whose key is the prefix
    ["drv.net."] followed by a label stands for the driver with that label:
    [ndev_check] hands it to [ndev_up] when the driver is announced as up,
    its endpoint is not [NONE], and the label is not empty and fits, with
    its terminator, the [LABEL_MAX] bytes of the label field; otherwise it
    skips the entry, as it skips every key without the prefix. *)
Theorem check_entry_decodes_driver_keys :
  (forall label endpt up,
     ndev_check_entry (mk_ds_entry (String.append ds_prefix label) endpt up)
     = if up && negb (endpt =? NONE)
          && (0 <? String.length label)%nat
          && (String.length label <? LABEL_MAX)%nat
       then ndev_up label endpt
       else ret tt) /\
  (forall e, String.prefix ds_prefix (ds_key e) = false ->
             ndev_check_entry e = ret tt).
Proof.
  split.
  - intros label endpt up. unfold ndev_check_entry.
    assert (String.prefix ds_prefix (String.append ds_prefix label) = true) as Hpre
      by (apply String.prefix_correct, substring_prefix).
    cbn [ds_key]. rewrite Hpre.
    cbn [negb orb ds_key ds_endpt ds_driver_up].
    rewrite substring_suffix.
    destruct up; cbn [negb andb orb]; [|by destruct (endpt =? NONE)].
    destruct (endpt =? NONE); cbn [negb andb orb]; [done|].
    destruct (Nat.eqb_spec (String.length label) 0),
      (Nat.leb_spec LABEL_MAX (String.length label)),
      (Nat.ltb_spec 0 (String.length label)),
      (Nat.ltb_spec (String.length label) LABEL_MAX); try lia; done.
  - intros e Hpre. unfold ndev_check_entry. by rewrite Hpre.
Qed.

Lemma ndev_check_down_eq fuel ds_label : forall slot st,
  inv st -> (ndev_max st <= slot + fuel)%nat ->
  exists st',
    ndev_check_down fuel ds_label slot st = Some (tt, st') /\ inv st' /\
    (ndev_max st' <= ndev_max st)%nat /\
    (forall j d, (ndev_max st' <= j < ndev_max st)%nat ->
       ndev_array st' !! j = Some d -> ndev_endpt d = NONE) /\
    forall j d, ndev_array st !! j = Some d ->
      ndev_array st' !! j
      = Some (checked_down ds_label slot (ndev_max st) j d).
Proof.
  induction fuel as [|fuel IH]; intros slot st Hi Hfuel;
    rewrite ndev_check_down_unfold; rewrite bind_gets;
    destruct (slot <? ndev_max st)%nat eqn:Hlt.
  - apply Nat.ltb_lt in Hlt. lia.
  - exists st. split_and!; try done; [lia|].
    intros j d Hd. rewrite Hd. f_equal. unfold checked_down.
    apply Nat.ltb_ge in Hlt.
    destruct (slot <=? j)%nat eqn:E1; [|done]. apply Nat.leb_le in E1.
    destruct (j <? ndev_max st)%nat eqn:E2; [|done]. apply Nat.ltb_lt in E2. lia.
  - apply Nat.ltb_lt in Hlt. pose proof Hi as [Hp Ht].
    destruct (lookup_lt_is_Some_2 (ndev_array st) slot) as [d Hd].
    { rewrite (pool_ndev_length _ Hp). pose proof (table_max _ Ht). lia. }
    rewrite (bind_eq _ _ _ _ _ (read_ndev_eq _ _ _ Hd)).
    fold (is_gone ds_label d). destruct (is_gone ds_label d) eqn:Hgone.
    + destruct (ndev_down_eq _ _ _ Hi Hd) as (st1 & Hrun & Hi1 & Harr & Hmax & _).
      simpl when. rewrite (bind_eq _ _ _ _ _ Hrun).
      pose proof (ndev_max_shrink_le (ndev_array st1) (ndev_max st)) as Hle.
      rewrite <- Hmax in Hle.
      destruct (IH (S slot) st1 Hi1) as (st' & Hrun' & Hi' & Hle' & Hvac' & Hpost);
        [lia|].
      assert (forall j dj, (ndev_max st1 <= j < ndev_max st)%nat ->
                ndev_array st1 !! j = Some dj -> ndev_endpt dj = NONE) as Hvac1.
      { intros j dj Hj Hlook.
        apply (ndev_max_shrink_vacant (ndev_array st1) (ndev_max st) j dj);
          [by rewrite <- Hmax|done]. }
      exists st'. split_and!; try done; [lia| |].
      * intros j dj Hj Hlook.
        destruct (decide (ndev_max st1 <= j)%nat) as [Hge|Hlt1].
        -- destruct (lookup_lt_is_Some_2 (ndev_array st1) j) as [d1 Hd1].
           { rewrite (pool_ndev_length _ (proj1 Hi1)).
             rewrite <- (pool_ndev_length _ (proj1 Hi')). by eapply lookup_lt_Some. }
           rewrite (Hpost j d1 Hd1) in Hlook. simplify_eq.
           unfold checked_down.
           assert (ndev_endpt d1 = NONE) as Hn by (apply (Hvac1 j); [lia|done]).
           by destruct (_ && _).
        -- apply (Hvac' j); [lia|done].
      * intros j dj Hlook.
        destruct (decide (slot = j)) as [<-|Hne].
        -- simplify_eq.
           assert (ndev_array st1 !! slot = Some (downed d)) as Hd1.
           { rewrite Harr. apply list_lookup_insert_eq. by eapply lookup_lt_Some. }
           rewrite (Hpost slot _ Hd1). f_equal. unfold checked_down.
           rewrite Hgone. replace (slot <=? slot)%nat with true
             by (symmetry; by apply Nat.leb_le).
           replace (slot <? ndev_max st)%nat with true
             by (symmetry; by apply Nat.ltb_lt).
           replace (S slot <=? slot)%nat with false
             by (symmetry; apply Nat.leb_gt; lia). done.
        -- assert (ndev_array st1 !! j = Some dj) as Hd1.
           { rewrite Harr. by rewrite list_lookup_insert_ne. }
           rewrite (Hpost j _ Hd1). f_equal. unfold checked_down.
           destruct (is_gone ds_label dj) eqn:Hg; [|by rewrite !andb_false_r].
           rewrite !andb_true_r.
           destruct (decide (slot <= j < ndev_max st)%nat) as [Hin|Hout].
           ++ assert (j < ndev_max st1)%nat.
              { destruct (decide (j < ndev_max st1)%nat); [done|].
                unfold is_gone in Hg. apply andb_true_iff in Hg as [Hg _].
                apply negb_true_iff, Z.eqb_neq in Hg.
                destruct Hg. apply (Hvac1 j); [lia|done]. }
              replace (S slot <=? j)%nat with true
                by (symmetry; apply Nat.leb_le; lia).
              replace (j <? ndev_max st1)%nat with true
                by (symmetry; by apply Nat.ltb_lt).
              replace (slot <=? j)%nat with true
                by (symmetry; apply Nat.leb_le; lia).
              replace (j <? ndev_max st)%nat with true
                by (symmetry; apply Nat.ltb_lt; lia). done.
           ++ replace ((slot <=? j)%nat && (j <? ndev_max st)%nat) with false.
              2:{ symmetry. apply andb_false_iff.
                  destruct (decide (slot <= j)%nat);
                    [right; apply Nat.ltb_ge; lia|left; apply Nat.leb_gt; lia]. }
              replace ((S slot <=? j)%nat && (j <? ndev_max st1)%nat) with false;
                [done|].
              symmetry. apply andb_false_iff.
              destruct (decide (S slot <= j)%nat);
                [right; apply Nat.ltb_ge; lia|left; apply Nat.leb_gt; lia].
    + simpl when. rewrite bind_ret.
      destruct (IH (S slot) st Hi) as (st' & Hrun' & Hi' & Hle' & Hvac' & Hpost);
        [lia|].
      exists st'. split_and!; try done.
      intros j dj Hlook. rewrite (Hpost j dj Hlook). f_equal. unfold checked_down.
      destruct (decide (slot = j)) as [<-|Hne].
      * simplify_eq. by rewrite Hgone, !andb_false_r.
      * replace (S slot <=? j)%nat with (slot <=? j)%nat; [done|].
        destruct (slot <=? j)%nat eqn:E.
        -- apply Nat.leb_le in E. symmetry. apply Nat.leb_le. lia.
        -- apply Nat.leb_gt in E. symmetry. apply Nat.leb_gt. lia.
  - exists st. split_and!; try done; [lia|].
    intros j d Hd. rewrite Hd. f_equal. unfold checked_down.
    apply Nat.ltb_ge in Hlt.
    destruct (slot <=? j)%nat eqn:E1; [|done]. apply Nat.leb_le in E1.
    destruct (j <? ndev_max st)%nat eqn:E2; [|done]. apply Nat.ltb_lt in E2. lia.
Qed.

(** What [ndev_check] does: the announced drivers are taken in, and the
    second loop then takes down the drivers below [ndev_max] whose label
    the data store no longer has. *)
Lemma ndev_check_exact changes code ds_label st :
  inv st ->
  exists st1 st',
    ndev_check_up changes st = Some (tt, st1) /\
    ndev_check changes code ds_label st = Some (tt, st') /\
    (forall slot d, ndev_array st1 !! slot = Some d ->
       ndev_array st' !! slot
       = Some (if (slot <? ndev_max st1)%nat && is_gone ds_label d
               then downed d else d)) /\
    (forall slot d, (slot < ndev_max st')%nat ->
       ndev_array st' !! slot = Some d ->
       ndev_endpt d <> NONE -> ds_label (ndev_label d) = true).
Proof.
  intros Hi.
  destruct (ndev_check_up_inv changes st Hi) as (st1 & Hrun & Hi1).
  exists st1. unfold ndev_check. rewrite (bind_eq _ _ _ _ _ Hrun).
  set (line := printf ("LWIP: DS check failed (%d)" ++ LF) [code]).
  set (st2 := if code =? ENOENT then st1
              else set_trace (trace st1 ++ [line]) st1).
  assert (when (negb (code =? ENOENT)) (emit line) st1 = Some (tt, st2))
    as Hrun2 by (unfold st2; by destruct (code =? ENOENT)).
  assert (inv st2) as Hi2.
  { unfold st2. destruct (code =? ENOENT); [done|]. by apply inv_set_trace. }
  assert (ndev_array st2 = ndev_array st1) as Ha2
    by (unfold st2; by destruct (code =? ENOENT)).
  assert (ndev_max st2 = ndev_max st1) as Hm2
    by (unfold st2; by destruct (code =? ENOENT)).
  rewrite (bind_eq _ _ _ _ _ Hrun2).
  destruct (ndev_check_down_eq NR_NDEV ds_label 0 st2 Hi2)
    as (st' & Hrun' & Hi' & Hle & Hvac & Hpost).
  { pose proof (table_max _ (proj2 Hi2)). lia. }
  exists st'. split; [done|]. split; [done|].
  assert (forall slot d, ndev_array st1 !! slot = Some d ->
            ndev_array st' !! slot
            = Some (if (slot <? ndev_max st1)%nat && is_gone ds_label d
                    then downed d else d)) as Hall.
  { intros slot d Hd. rewrite <- Ha2 in Hd. rewrite (Hpost slot d Hd).
    unfold checked_down. by rewrite Hm2. }
  split; [done|].
  intros slot d Hlt Hd Hocc.
  destruct (lookup_lt_is_Some_2 (ndev_array st1) slot) as [d1 Hd1].
  { rewrite (pool_ndev_length _ (proj1 Hi1)).
    rewrite <- (pool_ndev_length _ (proj1 Hi')). by eapply lookup_lt_Some. }
  rewrite (Hall slot d1 Hd1) in Hd. simplify_eq.
  replace (slot <? ndev_max st1)%nat with true in *
    by (symmetry; apply Nat.ltb_lt; lia).
  cbn [andb] in *. destruct (is_gone ds_label d1) eqn:Hg; [done|].
  unfold is_gone in Hg. apply andb_false_iff in Hg as [Hg|Hg].
  - apply negb_false_iff, Z.eqb_eq in Hg. done.
  - by apply negb_false_iff in Hg.
Qed.

(** X11: which drivers [ndev_check] removes.  Whenever [ndev_check]
    returns from a reachable state (a failed [cpf_revoke] or [asynsend3]
    ends the service instead), it has first taken in the announced
    drivers, which gives the state [st1], and its second loop has then
    taken down exactly the drivers below [ndev_max] whose label the data
    store no longer has, and has left every other slot as it was in
    [st1]; every driver of the table now has its label in the data
    store. *)
Theorem check_removes_the_gone_drivers changes code ds_label st st1 st' :
  reachable st ->
  ndev_check_up changes st = Some (tt, st1) ->
  ndev_check changes code ds_label st = Some (tt, st') ->
  (forall slot d, ndev_array st1 !! slot = Some d ->
     ndev_array st' !! slot
     = Some (if (slot <? ndev_max st1)%nat && is_gone ds_label d
             then downed d else d)) /\
  (forall slot d, (slot < ndev_max st')%nat ->
     ndev_array st' !! slot = Some d ->
     ndev_endpt d <> NONE -> ds_label (ndev_label d) = true).
Proof.
  intros Hr Hup Hrun. apply reachable_inv in Hr.
  destruct (ndev_check_exact changes code ds_label st Hr)
    as (s1 & s' & E1 & E2 & H1 & H2).
  rewrite Hup in E1. rewrite Hrun in E2. by simplify_eq.
Qed.

(** X12: what the drivers and the data store send breaks no assertion of
    the module.  From a reachable state, and for as long as the calls of
    [cpf_revoke], [asynsend3] and [asynsend] succeed (the module panics
    when one fails, and the model has no such run), a discovery event is
    handled to its end, whatever the data store holds, and so is a
    message of a driver, whatever the message holds (the ethif layer
    issuing no request from within [ethif_enable]): no [assert] fails, no
    list is empty where its head is taken, and no loop runs longer than
    its counter allows. *)
Theorem driver_events_pass_the_assertions st :
  reachable st ->
  (forall changes code ds_label,
     is_Some (step (EV_CHECK changes code ds_label) st)) /\
  (forall m env,
     m_source m <> NONE -> ethif_enable_calls env = [] ->
     is_Some (step (EV_PROCESS m env) st)).
Proof.
  intros Hr. split.
  - intros changes code ds_label. by apply ndev_check_total.
  - intros m env Hsrc Hcalls.
    destruct (ndev_process_total st m env Hr Hsrc Hcalls) as [st' Hstep].
    by exists st'.
Qed.

(** ** Messages of the drivers *)

(** What the search loop of [ndev_process] finds. *)
Lemma ndev_find_spec endpt l : forall slot,
  match ndev_find endpt l slot with
  | Some i =>
      exists d, l !! (i - slot)%nat = Some d /\ (slot <= i)%nat /\
        ndev_endpt d = endpt /\
        forall j dj, (j < i - slot)%nat -> l !! j = Some dj ->
                     ndev_endpt dj <> endpt
  | None => forall j dj, l !! j = Some dj -> ndev_endpt dj <> endpt
  end.
Proof.
  induction l as [|d l IH]; intros slot; [done|].
  simpl. destruct (ndev_endpt d =? endpt) eqn:E.
  - apply Z.eqb_eq in E. exists d. rewrite Nat.sub_diag.
    split_and!; try done. lia.
  - apply Z.eqb_neq in E. specialize (IH (S slot)).
    destruct (ndev_find endpt l (S slot)) as [i|].
    + destruct IH as (d' & Hd' & Hle & He & Hfirst).
      exists d'. replace (i - slot)%nat with (S (i - S slot)) by lia.
      split_and!; try done; [lia|].
      intros [|j] dj Hj Hlook; simplify_eq/=; [done|].
      apply (Hfirst j); [lia|done].
    + intros [|j] dj Hlook; simplify_eq/=; [done|by eapply IH].
Qed.

Lemma ndev_find_sender st source slot :
  is_sender st source slot ->
  ndev_find source (take (ndev_max st) (ndev_array st)) 0 = Some slot.
Proof.
  intros (Hlt & (d & Hd & He) & Hfirst).
  pose proof (ndev_find_spec source (take (ndev_max st) (ndev_array st)) 0)
    as Hspec.
  destruct (ndev_find source _ 0) as [i|].
  - destruct Hspec as (d' & Hd' & _ & He' & Hfirst').
    rewrite Nat.sub_0_r in *. f_equal.
    apply lookup_take_Some in Hd' as [Hd' Hi].
    destruct (Nat.lt_trichotomy i slot) as [Hc|[Hc|Hc]]; [|done|].
    + by destruct (Hfirst i d' Hc Hd').
    + destruct (Hfirst' slot d Hc); [|done]. by apply lookup_take_Some.
  - destruct (Hspec slot d); [|done]. by apply lookup_take_Some.
Qed.

Lemma ndev_find_unknown st source :
  unknown_sender st source ->
  ndev_find source (take (ndev_max st) (ndev_array st)) 0 = None.
Proof.
  intros Hunk.
  pose proof (ndev_find_spec source (take (ndev_max st) (ndev_array st)) 0)
    as Hspec.
  destruct (ndev_find source _ 0) as [i|]; [|done].
  destruct Hspec as (d' & Hd' & _ & He' & _). rewrite Nat.sub_0_r in *.
  apply lookup_take_Some in Hd' as [Hd' Hi]. by destruct (Hunk i d' Hi Hd').
Qed.

Lemma ndev_process_sender st m env slot :
  is_sender st (m_source m) slot ->
  ndev_process m env st
  = match m_body m with
    | NDEV_INIT_REPLY r => ndev_init_reply slot (m_source m) r env
    | NDEV_CONF_REPLY id result => ndev_conf_reply slot id result
    | NDEV_SEND_REPLY id result => ndev_send_reply slot id result
    | NDEV_RECV_REPLY id result => ndev_recv_reply slot id result
    | NDEV_STATUS s => ndev_status slot (m_source m) s
    | NDEV_OTHER _ => ret tt
    end st.
Proof.
  intros Hs. unfold ndev_process.
  by rewrite !bind_gets, (ndev_find_sender _ _ _ Hs).
Qed.

(** X13: the messages that are dropped.  [ndev_process] changes nothing,
    calls nothing and sends nothing for a message whose source has no slot
    below [ndev_max]; for an initialization reply of a driver that is
    active already, or whose ID is not the head of the send queue; for a
    reply to a request and for a status report of a driver that is still
    initializing; and for a message of any other type. *)
Theorem dropped_messages_change_nothing st m env :
  (unknown_sender st (m_source m) -> ndev_process m env st = Some (tt, st)) /\
  (forall slot d,
     is_sender st (m_source m) slot ->
     ndev_array st !! slot = Some d ->
     dropped d (m_body m) ->
     ndev_process m env st = Some (tt, st)).
Proof.
  split.
  - intros Hunk. unfold ndev_process.
    by rewrite !bind_gets, (ndev_find_unknown _ _ Hunk).
  - intros slot d Hs Hd Hdrop. rewrite (ndev_process_sender _ _ _ _ Hs).
    assert (forall s type id call, NDEV_ACTIVE d = false ->
              ndev_reply slot s type id call st = Some (tt, st)) as Hreply.
    { intros s type id call Ha. unfold ndev_reply.
      rewrite (bind_eq _ _ _ _ _ (read_ndev_eq _ _ _ Hd)). by rewrite Ha. }
    destruct (m_body m) as [r|id result|id result|id result|s|ty]; simpl in Hdrop.
    + rewrite (ndev_init_reply_eq _ _ _ _ _ _ Hd).
      destruct Hdrop as [->|Hne]; [done|].
      apply Z.eqb_neq in Hne. rewrite Hne. by rewrite orb_true_r.
    + by apply Hreply.
    + by apply Hreply.
    + by apply Hreply.
    + unfold ndev_status.
      rewrite (bind_eq _ _ _ _ _ (read_ndev_eq _ _ _ Hd)). by rewrite Hdrop.
    + done.
Qed.

(** X14: a status report of an active driver is passed on to the ethif
    layer with its six fields, and answered with a status reply that
    echoes the ID chosen by the driver, sent to the source of the report;
    nothing else changes, and the assertion on the ethif object holds. *)
Theorem status_report_is_passed_on_and_answered st m env slot d s :
  reachable st ->
  is_sender st (m_source m) slot ->
  ndev_array st !! slot = Some d ->
  NDEV_ACTIVE d = true ->
  m_body m = NDEV_STATUS s ->
  exists ethif,
    ndev_ethif d = Some ethif /\
    ndev_process m env st
    = Some (tt, set_trace
                  (trace st
                   ++ [ethif_status ethif (sr_link s) (sr_media s) (sr_oerror s)
                         (sr_coll s) (sr_ierror s) (sr_iqdrop s);
                       asynsend (m_source m) (M_STATUS_REPLY (sr_id s))])
                  st).
Proof.
  intros Hr Hs Hd Ha Hbody. apply reachable_inv in Hr as [Hp Ht].
  pose proof (table_ethif _ Ht slot d Hd Ha) as He.
  destruct (ndev_ethif d) as [ethif|] eqn:E; [|done].
  exists ethif. split; [done|].
  rewrite (ndev_process_sender _ _ _ _ Hs), Hbody. unfold ndev_status.
  rewrite (bind_eq _ _ _ _ _ (read_ndev_eq _ _ _ Hd)), Ha, E. cbn [negb].
  rewrite bind_emit. unfold emit, modify. cbn. by rewrite <- app_assoc.
Qed.

(** X15: an interface that cannot be set up.  For an initializing driver
    whose initialization reply passes the checks, when [ethif_add] returns
    no object, or [ethif_enable] (from within which the ethif layer issues
    no request) returns false, the driver is taken down: its slot is left
    without a driver.  In the first case no other call is made and
    [ndev_pending] goes down by one; in the second [ethif_remove] follows
    [ethif_enable], and [ndev_pending] stays as it is. *)
Theorem failed_interface_setup_gives_up_slot st slot d source m env :
  reachable st ->
  (slot < ndev_max st)%nat ->
  ndev_array st !! slot = Some d ->
  slot_initializing d = true ->
  ir_id m = nq_head (ndev_sendq d) ->
  valid_init_reply m = true ->
  ethif_enable_calls env = [] ->
  ethif_after_add d env = None \/ ethif_enable_result env = false ->
  exists st',
    ndev_init_reply slot source m env st = Some (tt, st') /\
    slot_vacant <$> ndev_array st' !! slot = Some true /\
    (forall j, j <> slot -> ndev_array st' !! j = ndev_array st !! j) /\
    match ethif_after_add d env with
    | None =>
        trace st' = trace st ++ [ethif_add slot (ir_name m) (ir_caps m)] /\
        ndev_pending st' = ndev_pending st - 1
    | Some ethif =>
        trace st'
        = trace st ++ add_calls slot d m
          ++ [ethif_enable ethif
                (match ndev_ethif d with
                 | None => None
                 | Some _ => Some (ir_name m)
                 end)
                (copy_hwaddr (ir_hwaddr m) (u8 (ir_hwaddr_len m)))
                (ir_hwaddr_len m) (ir_caps m) (ir_link m) (ir_media m);
              ethif_remove ethif] /\
        ndev_pending st' = ndev_pending st
    end.
Proof.
  intros Hr Hlt Hd Hinit Hid Hvalid Hcalls Hfail.
  apply reachable_inv in Hr as Hi. pose proof Hi as [Hp Ht].
  unfold slot_initializing in Hinit.
  apply andb_true_iff in Hinit as [Hn H0].
  apply negb_true_iff, Z.eqb_neq in Hn. apply Z.eqb_eq in H0.
  unfold valid_init_reply in Hvalid.
  apply andb_true_iff in Hvalid as [Hvalid V3].
  apply andb_true_iff in Hvalid as [V1 V2].
  apply negb_true_iff in V1, V2, V3.
  pose proof (proj1 (table_both _ Ht slot d Hd) H0) as H0r.
  pose proof (pool_queues _ Hp slot d SENDQ Hd) as Hws.
  pose proof (pool_queues _ Hp slot d RECVQ Hd) as Hwr.
  destruct (queue_wf_closed _ _ _ Hws H0) as [_ Hes].
  destruct (queue_wf_closed _ _ _ Hwr H0r) as [_ Her].
  simpl in Hes, Her.
  rewrite (ndev_init_reply_eq _ _ _ _ _ _ Hd).
  rewrite (NDEV_ACTIVE_false _ H0), Hid, Z.eqb_refl, V1, V2, V3. cbn [orb negb].
  destruct (ethif_after_add d env) as [ethif|] eqn:Eadd.
  - destruct Hfail as [?|Hres]; [done|].
    unfold after_enable. rewrite Hcalls, Hres. simpl ndev_requests.
    rewrite bind_ret. cbn [negb].
    set (st1 := enable_state slot d m ethif st).
    assert (inv st1) as Hi1 by (by apply inv_enable_state; [..|apply NDEV_ACTIVE_false|]).
    assert (ndev_array st1 !! slot = Some (enabled_ndev d m ethif)) as Hd1.
    { unfold st1, enable_state. cbn. apply list_lookup_insert_eq.
      by eapply lookup_lt_Some. }
    destruct (ndev_down_exact _ _ _ Hi1 Hd1)
      as (st' & Hrun & Harr & _ & _ & _ & Htr & Hpend & _).
    exists st'. split; [done|]. split_and!.
    + rewrite Harr. rewrite list_lookup_insert_eq; [done|].
      unfold st1, enable_state. cbn. rewrite length_insert.
      by eapply lookup_lt_Some.
    + intros j Hne. rewrite Harr. rewrite list_lookup_insert_ne by done.
      unfold st1, enable_state. cbn. by rewrite list_lookup_insert_ne.
    + rewrite Htr. cbn [enabled_ndev ndev_sendq ndev_recvq ndev_ethif nq_req].
      rewrite Hes, Her. unfold st1, enable_state. cbn.
      by rewrite <- !app_assoc.
    + rewrite Hpend. cbn. lia.
  - unfold ethif_after_add in Eadd. destruct (ndev_ethif d) eqn:Ee; [done|].
    set (st1 := set_trace (trace st ++ [ethif_add slot (ir_name m) (ir_caps m)]) st).
    assert (inv st1) as Hi1 by (by apply inv_set_trace).
    destruct (ndev_down_exact st1 slot d Hi1 Hd)
      as (st' & Hrun & Harr & _ & _ & _ & Htr & Hpend & _).
    exists st'. split; [done|]. split_and!.
    + rewrite Harr. rewrite list_lookup_insert_eq; [done|].
      by eapply lookup_lt_Some.
    + intros j Hne. rewrite Harr. by rewrite list_lookup_insert_ne.
    + rewrite Htr, Hes, Her, Ee. cbn. by rewrite app_nil_r.
    + rewrite Hpend, Ee. done.
Qed.

(** X16: an invalid initialization reply of a new driver.  A driver that
    has no ethif object yet and answers the initialization request with
    an invalid name, hardware address length or queue maximum is taken
    down: [ndev_process] prints one line that names the source, makes no
    call into the ethif layer, leaves the slot without a driver and takes
    one off [ndev_pending]. *)
Theorem invalid_reply_of_new_driver_is_refused st m env slot d r :
  reachable st ->
  is_sender st (m_source m) slot ->
  ndev_array st !! slot = Some d ->
  slot_initializing d = true ->
  ndev_ethif d = None ->
  m_body m = NDEV_INIT_REPLY r ->
  ir_id r = nq_head (ndev_sendq d) ->
  valid_init_reply r = false ->
  exists st' line,
    ndev_process m env st = Some (tt, st') /\
    trace st' = trace st ++ [printf line [m_source m]] /\
    ndev_pending st' = ndev_pending st - 1 /\
    slot_vacant <$> ndev_array st' !! slot = Some true.
Proof.
  intros Hr Hs Hd Hinit He Hbody Hid Hbad.
  rewrite (ndev_process_sender _ _ _ _ Hs), Hbody.
  apply (invalid_init_reply_of_new_driver st slot d (m_source m) r env);
    try done.
  unfold valid_init_reply in Hbad.
  destruct (invalid_name (ir_name r)), (invalid_hwaddr_len r),
    (invalid_queue_max r); done.
Qed.

(** ** Requests that are sent *)

Lemma sumZ_cons {A} (f : A -> Z) x l : sumZ f (x :: l) = f x + sumZ f l.
Proof. reflexivity. Qed.

Lemma transfer_outcome_ok grants : forall k chain left i,
  (k <= length chain)%nat ->
  Forall (fun b => 0 < len b) (take k chain) ->
  sumZ len (take k chain) = left ->
  (i + k <= NDEV_IOV_MAX)%nat ->
  (forall j, (i <= j < i + k)%nat -> GRANT_VALID (grant_result grants j) = true) ->
  transfer_outcome grants chain left i = LOOP_OK (i + k).
Proof.
  induction k as [|k IH]; intros chain left i Hlen Hpos Hsum Hmax Hval;
    rewrite transfer_outcome_unfold.
  - rewrite take_0 in Hsum. change (sumZ len []) with 0 in Hsum. subst left.
    simpl. by rewrite Nat.add_0_r.
  - destruct chain as [|p next]; [simpl in Hlen; lia|].
    rewrite firstn_cons in Hpos, Hsum. rewrite sumZ_cons in Hsum.
    apply Forall_cons in Hpos as [Hp Hpos].
    assert (0 <= sumZ len (take k next)) as Hnn.
    { clear -Hpos. induction Hpos as [|b l Hb _ IHl]; [done|].
      rewrite sumZ_cons. lia. }
    replace (0 <? left) with true by (symmetry; apply Z.ltb_lt; lia).
    replace (i <? NDEV_IOV_MAX)%nat with true by (symmetry; apply Nat.ltb_lt; lia).
    rewrite (Hval i) by lia. cbn [negb].
    replace (len p <=? left) with true by (symmetry; apply Z.leb_le; lia).
    rewrite (IH next (left - len p) (S i)).
    + f_equal. lia.
    + simpl in Hlen. lia.
    + done.
    + lia.
    + lia.
    + intros j Hj. apply Hval. lia.
Qed.

Lemma valid_grants_prefix (g : nat -> cp_grant_id_t) : forall k l start,
  (forall j, (j < k)%nat -> l !! j = Some (g (start + j)%nat)) ->
  (forall j, (j < k)%nat -> GRANT_VALID (g (start + j)%nat) = true) ->
  length l = k \/ l !! k = Some GRANT_INVALID ->
  valid_grants l = map g (seq start k).
Proof.
  induction k as [|k IH]; intros l start Hl Hv Hend.
  - destruct Hend as [Hend|Hend].
    + by destruct l.
    + destruct l as [|x l]; simplify_eq/=. done.
  - pose proof (Hl 0%nat ltac:(lia)) as H0. rewrite Nat.add_0_r in H0.
    destruct l as [|x l]; simplify_eq/=.
    pose proof (Hv 0%nat ltac:(lia)) as Hv0. rewrite Nat.add_0_r in Hv0.
    rewrite Hv0. f_equal. apply IH.
    + intros j Hj. specialize (Hl (S j) ltac:(lia)). simpl in Hl.
      by replace (S start + j)%nat with (start + S j)%nat by lia.
    + intros j Hj. specialize (Hv (S j) ltac:(lia)).
      by replace (S start + j)%nat with (start + S j)%nat by lia.
    + destruct Hend as [Hend|Hend]; [left; lia|by right].
Qed.

(** A transfer request that is built to its end: besides what
    [ndev_transfer_eq] tells, the request object holds the grants of the
    request, followed by an invalid one unless the array is full. *)
Lemma ndev_transfer_ok st slot d p next do_send seq nreq grants r k :
  ndev_array st !! slot = Some d ->
  nreq_array st !! nreq = Some r ->
  length (nreq_grant r) = NDEV_IOV_MAX ->
  transfer_outcome grants (p :: next) (tot_len p) 0 = LOOP_OK k ->
  exists st' r',
    ndev_transfer slot (p :: next) do_send seq nreq grants st = Some (OK, st') /\
    req_touched nreq st st' /\
    trace st'
    = trace st
      ++ grant_calls (ndev_endpt d) do_send grants (p :: next) 0 k
      ++ [asynsend3 (ndev_endpt d)
            (M_TRANSFER do_send seq
               (map (grant_result grants) (List.seq 0 k))
               (map len (take k (p :: next))) k)] /\
    nreq_array st' !! nreq = Some r' /\
    nreq_type r' = nreq_type r /\ nreq_id r' = seq /\
    valid_grants (nreq_grant r') = map (grant_result grants) (List.seq 0 k).
Proof.
  intros Hd Hr Hlen Hout. unfold ndev_transfer.
  rewrite (bind_eq _ _ _ _ _ (read_ndev_eq _ _ _ Hd)).
  rewrite (bind_eq _ _ _ _ _ (set_nreq_id_eq _ _ _ seq Hr)).
  set (ra := mk_ndev_req (nreq_type r) (nreq_grant r) seq).
  set (sta := set_nreq_array (<[nreq := ra]> (nreq_array st)) st).
  assert (nreq_array sta !! nreq = Some ra) as Hra.
  { unfold sta. cbn. apply list_lookup_insert_eq. by eapply lookup_lt_Some. }
  assert (req_touched nreq st sta) as Hta by (by apply (req_touched_write _ _ r)).
  pose proof (ndev_transfer_loop_eq (ndev_endpt d) do_send nreq grants (p :: next)
                (tot_len p) 0 [] [] sta ra Hra Hlen ltac:(lia) ltac:(intros; lia))
    as Hloop.
  rewrite Hout in Hloop.
  destruct Hloop as (Hk & Hval & st' & r' & Hrun & Ht' & Htr & Hr' & Hty' & Hid'
                    & Hlen' & Hg').
  rewrite (bind_eq _ _ _ _ _ Hrun). rewrite Nat.sub_0_r in *. cbn [app].
  destruct (k <? NDEV_IOV_MAX)%nat eqn:Hlt.
  - apply Nat.ltb_lt in Hlt. unfold when.
    rewrite (bind_eq _ _ _ _ _
               (set_nreq_grant_eq _ _ _ k GRANT_INVALID Hr' ltac:(lia))).
    eexists. eexists. split; [reflexivity|]. split_and!.
    + eapply req_touched_trans; [exact Hta|].
      eapply req_touched_trans; [exact Ht'|].
      eapply req_touched_trans; [|apply req_touched_set_trace].
      apply (req_touched_write _ _ r'); [done|]. cbn. apply length_insert.
    + cbn. rewrite Htr. by rewrite <- app_assoc.
    + cbn. apply list_lookup_insert_eq. by eapply lookup_lt_Some.
    + done.
    + done.
    + cbn. apply (valid_grants_prefix (grant_result grants) k _ 0).
      * intros j Hj. rewrite list_lookup_insert_ne by lia. by apply Hg'.
      * intros j Hj. apply Hval. lia.
      * right. apply list_lookup_insert_eq. lia.
  - apply Nat.ltb_ge in Hlt. unfold when. unfold bind at 1. unfold ret at 1.
    eexists. exists r'. split; [reflexivity|]. split_and!.
    + eapply req_touched_trans; [exact Hta|].
      eapply req_touched_trans; [exact Ht'|apply req_touched_set_trace].
    + cbn. rewrite Htr. by rewrite <- app_assoc.
    + done.
    + done.
    + done.
    + apply (valid_grants_prefix (grant_result grants) k _ 0).
      * intros j Hj. by apply Hg'.
      * intros j Hj. apply Hval. lia.
      * left. lia.
Qed.

Lemma ndev_sendrecv_ok st s type do_send id d p next grants k :
  inv st ->
  (id < NR_NDEV)%nat ->
  ndev_array st !! id = Some d ->
  ndev_endpt d <> NONE ->
  NDEV_ACTIVE d = true ->
  (type = NDEV_RECV <-> s = RECVQ) ->
  get_denied type (queue_of s d) (nreq_spares st) = false ->
  transfer_outcome grants (p :: next) (tot_len p) 0 = LOOP_OK k ->
  exists nreq fl st',
    ndev_sendrecv s type do_send id (p :: next) grants st = Some (OK, st') /\
    request_sent id s d nreq fl type
      (map (grant_result grants) (seq 0 k))
      (grant_calls (ndev_endpt d) do_send grants (p :: next) 0 k
       ++ [asynsend3 (ndev_endpt d)
             (M_TRANSFER do_send
                (u32 (nq_head (queue_of s d) + nq_count (queue_of s d)))
                (map (grant_result grants) (seq 0 k))
                (map len (take k (p :: next))) k)])
      st st'.
Proof.
  intros Hi Hid Hd Hn Ha Hty Hden Hout. pose proof Hi as [Hp Ht].
  unfold ndev_sendrecv.
  rewrite (bind_eq _ _ _ _ _ (ndev_of_id_eq _ _ _ Hid Hd Hn Ha)).
  destruct (ndev_queue_get_granted _ _ _ _ _ Hp Hd Hty Hden)
    as (nreq & fl & r & Hfl & Hr & Hget).
  exists nreq, fl.
  rewrite (bind_eq _ _ _ _ _ Hget).
  set (seq0 := u32 (nq_head (queue_of s d) + nq_count (queue_of s d))).
  set (r0 := mk_ndev_req type (nreq_grant r) (nreq_id r)).
  set (st0 := set_nreq_array (<[nreq := r0]> (nreq_array st)) st).
  assert (nreq ∈ nreq_freelist st) as Hin by (rewrite Hfl; by left).
  assert (req_touched nreq st st0) as Ht0 by (by apply (req_touched_write _ _ r)).
  assert (nreq_array st0 !! nreq = Some r0) as Hr0.
  { unfold st0. cbn. apply list_lookup_insert_eq. by eapply lookup_lt_Some. }
  assert (length (nreq_grant r0) = NDEV_IOV_MAX) as Hlen0.
  { apply (pool_grant_length _ Hp nreq r Hr). }
  destruct (ndev_transfer_ok st0 id d p next do_send seq0 nreq grants r0 k
              Hd Hr0 Hlen0 Hout)
    as (st1 & r1 & Hrun & Ht1 & Htrace & Hr1 & Hty1 & Hid1 & Hg1).
  rewrite (bind_eq _ _ _ _ _ Hrun).
  assert (req_touched nreq st st1) as Htt by (by eapply req_touched_trans).
  pose proof (pool_inv_touched _ _ _ Hp Hin Htt) as Hp1.
  destruct Htt as (A1 & A2 & A3 & A4 & A5 & A6 & A7 & A8 & A9).
  destruct (get_denied_false _ _ _ _ Hty Hden) as [Hne Hsp].
  pose proof (pool_queues _ Hp id d s Hd) as (Hc & Hm & _).
  pose proof (pool_spares_nonneg _ Hp) as Hnn.
  assert (ndev_array st1 !! id = Some d) as Hd1 by (by rewrite A3).
  assert (nreq_freelist st1 = nreq :: fl) as Hfl1 by (by rewrite A1).
  assert (nreq_type r1 = NDEV_RECV <-> s = RECVQ) as Hty1'.
  { rewrite Hty1. done. }
  assert (nq_count (queue_of s d) < nq_max (queue_of s d)) as Hlt by lia.
  assert (s = SENDQ -> NDEV_SENDQ <= nq_count (queue_of s d) ->
          0 < nreq_spares st1) as Hsp1.
  { intros Hs Hle. specialize (Hsp Hs Hle). rewrite A2. lia. }
  rewrite (bind_eq _ _ _ _ _
             (ndev_queue_add_eq _ _ _ _ _ _ _ Hp1 Hd1 Hfl1 Hr1 Hty1' Hlt Hsp1)).
  eexists. split; [reflexivity|].
  split; unfold added; cbn.
  - by rewrite A3.
  - done.
  - by rewrite A2.
  - by rewrite Htrace.
  - exists r1. by split_and!.
  - done.
  - done.
  - split.
    + eapply pool_inv_added; eauto.
    + by apply (table_inv_added st).
Qed.

Lemma transfer_request_sendrecv do_send :
  transfer_request do_send
  = ndev_sendrecv (transfer_queue do_send) (transfer_type do_send) do_send.
Proof. destruct do_send; [apply ndev_send_sendrecv|apply ndev_recv_sendrecv]. Qed.

Lemma packet_outcome grants chain k :
  packet_of chain k ->
  (k <= NDEV_IOV_MAX)%nat ->
  (forall j, (j < k)%nat -> GRANT_VALID (grant_result grants j) = true) ->
  exists p next, chain = p :: next /\
    transfer_outcome grants (p :: next) (tot_len p) 0 = LOOP_OK k.
Proof.
  intros Hpkt Hmax Hval. destruct chain as [|p next]; [done|].
  destruct Hpkt as (Hlen & Hpos & Hsum).
  exists p, next. split; [done|].
  apply (transfer_outcome_ok grants k (p :: next) (tot_len p) 0); try done.
  intros j Hj. apply Hval. lia.
Qed.

(** X17: a packet that is sent or asked for.  For an active driver whose
    queue accepts the request, a packet of [k] buffers, [k] at most
    [NDEV_IOV_MAX], for which the grant library hands out [k] grants:
    [ndev_send] and [ndev_recv] return [OK]; they make one grant per
    buffer, for reading when sending and for writing when receiving, and
    send one request that carries the ID [nq_head + nq_count], the grants
    and the lengths; the request object, taken from the head of the free
    list, keeps the grants and goes to the tail of the queue, and a send
    beyond [NDEV_SENDQ] pending requests takes a spare. *)
Theorem packet_request_is_sent st id d do_send chain grants k :
  reachable st ->
  (id < NR_NDEV)%nat ->
  ndev_array st !! id = Some d ->
  slot_active d = true ->
  get_denied (transfer_type do_send) (queue_of (transfer_queue do_send) d)
    (nreq_spares st) = false ->
  packet_of chain k ->
  (k <= NDEV_IOV_MAX)%nat ->
  (forall j, (j < k)%nat -> GRANT_VALID (grant_result grants j) = true) ->
  let s := transfer_queue do_send in
  exists nreq fl st',
    transfer_request do_send id chain grants st = Some (OK, st') /\
    request_sent id s d nreq fl (transfer_type do_send)
      (map (grant_result grants) (seq 0 k))
      (grant_calls (ndev_endpt d) do_send grants chain 0 k
       ++ [asynsend3 (ndev_endpt d)
             (M_TRANSFER do_send
                (u32 (nq_head (queue_of s d) + nq_count (queue_of s d)))
                (map (grant_result grants) (seq 0 k))
                (map len (take k chain)) k)])
      st st'.
Proof.
  intros Hr Hid Hd Ha Hden Hpkt Hmax Hval s.
  apply reachable_inv in Hr as Hi.
  apply slot_active_spec in Ha as [Hn Ha].
  destruct (packet_outcome grants chain k Hpkt Hmax Hval) as (p & next & -> & Hout).
  rewrite transfer_request_sendrecv.
  apply ndev_sendrecv_ok; try done.
  by destruct do_send.
Qed.

(** X18: a request and its reply.  When a packet is sent or asked for on
    an empty queue of an active driver and the driver answers with the ID
    of the request, the reply is passed on to the ethif layer, the grants
    that were made for the request, and no others, are revoked, in the
    order in which they were made, and the request object is back at the
    head of the free list: the queue is empty again, with its head moved
    on by one, and the free list and the number of free spares are what
    they were before the request. *)
Theorem request_and_reply_round_trip st id d do_send chain grants k result :
  reachable st ->
  (id < NR_NDEV)%nat ->
  ndev_array st !! id = Some d ->
  slot_active d = true ->
  nq_count (queue_of (transfer_queue do_send) d) = 0 ->
  packet_of chain k ->
  (k <= NDEV_IOV_MAX)%nat ->
  (forall j, (j < k)%nat -> GRANT_VALID (grant_result grants j) = true) ->
  let s := transfer_queue do_send in
  exists ethif st1 st2,
    ndev_ethif d = Some ethif /\
    transfer_request do_send id chain grants st = Some (OK, st1) /\
    reply_handler (transfer_reply do_send) id (nq_head (queue_of s d)) result st1
    = Some (tt, st2) /\
    trace st2
    = trace st
      ++ grant_calls (ndev_endpt d) do_send grants chain 0 k
      ++ [asynsend3 (ndev_endpt d)
            (M_TRANSFER do_send (nq_head (queue_of s d))
               (map (grant_result grants) (seq 0 k))
               (map len (take k chain)) k)]
      ++ map cpf_revoke (map (grant_result grants) (seq 0 k))
      ++ [reply_call (transfer_reply do_send) ethif result] /\
    ndev_array st2
    = <[id := set_queue_of s
                (mk_ndev_queue (u32 (nq_head (queue_of s d) + 1)) 0
                   (nq_max (queue_of s d)) []) d]> (ndev_array st) /\
    nreq_freelist st2 = nreq_freelist st /\
    nreq_spares st2 = nreq_spares st.
Proof.
  intros Hr Hid Hd Hact H0 Hpkt Hmax Hval s.
  apply reachable_inv in Hr as Hi. pose proof Hi as [Hp Ht].
  apply slot_active_spec in Hact as [Hn Ha].
  pose proof (table_ethif _ Ht id d Hd Ha) as He.
  destruct (ndev_ethif d) as [ethif|] eqn:Ee; [|done].
  pose proof (pool_queues _ Hp id d s Hd) as (Hc & Hm & Hh & _).
  fold s in H0. rewrite H0 in Hc.
  assert (nq_req (queue_of s d) = []) as Hempty.
  { destruct (nq_req (queue_of s d)); [done|]. simpl in Hc. lia. }
  assert (0 < nq_max (queue_of s d)) as Hpos.
  { apply NDEV_ACTIVE_true in Ha. destruct do_send; [done|].
    destruct (decide (nq_max (ndev_recvq d) = 0)) as [E|E]; [|simpl in *; lia].
    apply (table_both _ Ht id d Hd) in E. lia. }
  assert (get_denied (transfer_type do_send) (queue_of s d) (nreq_spares st)
          = false) as Hden.
  { unfold get_denied. rewrite H0.
    replace (0 =? nq_max (queue_of s d)) with false by (symmetry; apply Z.eqb_neq; lia).
    by rewrite andb_false_r. }
  destruct (packet_outcome grants chain k Hpkt Hmax Hval) as (p & next & -> & Hout).
  destruct (ndev_sendrecv_ok st s (transfer_type do_send) do_send id d p next
              grants k Hi Hid Hd Hn Ha ltac:(by destruct do_send) Hden Hout)
    as (nreq & fl & st1 & Hrun & [S1 [S2 S2'] S3 S4 (r' & S5 & S5t & S5i & S5g) S6 S7 Hi1]).
  rewrite H0, Z.add_0_r, Hempty in *. rewrite (u32_small _ Hh) in *.
  exists ethif, st1. rewrite transfer_request_sendrecv.
  set (d1 := set_queue_of s
               (mk_ndev_queue (nq_head (queue_of s d)) (0 + 1)
                  (nq_max (queue_of s d)) ([] ++ [nreq])) d) in *.
  assert (ndev_array st1 !! id = Some d1) as Hd1.
  { rewrite S1. apply list_lookup_insert_eq. by eapply lookup_lt_Some. }
  pose proof (ndev_reply_eq st1 id s d1 (transfer_type do_send)
                (nq_head (queue_of s d))
                (fun e => reply_call (transfer_reply do_send) e result) Hi1 Hd1)
    as Hrep.
  unfold d1 in Hrep. rewrite queue_of_set_queue_of in Hrep. cbn in Hrep.
  destruct Hrep as (r & ethif' & Hr1 & He1 & Hrep).
  assert (ethif' = ethif) as ->.
  { destruct s, d; simpl in *; congruence. }
  assert (r = r') as -> by congruence.
  rewrite Z.eqb_refl, S5t in Hrep.
  rewrite (proj2 (req_type_eqb_eq _ _) eq_refl) in Hrep. cbn [andb] in Hrep.
  eexists. split; [done|]. split; [exact Hrun|]. split.
  { rewrite reply_handler_eq.
    replace (reply_queue (transfer_reply do_send)) with s by (by destruct do_send).
    replace (reply_type (transfer_reply do_send)) with (transfer_type do_send)
      by (by destruct do_send).
    exact Hrep. }
  unfold advanced. cbn. rewrite queue_of_set_queue_of. cbn.
  split_and!.
  - rewrite S4, S5g. by rewrite <- !app_assoc.
  - rewrite S1, list_insert_insert_eq. f_equal.
    destruct s, d; cbn; do 2 f_equal; lia.
  - by rewrite S2', S2.
  - rewrite S3. unfold spare_of, NDEV_SENDQ. destruct s; simpl; lia.
Qed.

(** ** Configuration requests *)

(** The end of [ndev_conf], from the sending of the message on. *)
Lemma ndev_conf_tail st st2 id d nreq fl r1 grant m out :
  inv st ->
  ndev_array st !! id = Some d ->
  nreq_freelist st = nreq :: fl ->
  get_denied NDEV_CONF (ndev_sendq d) (nreq_spares st) = false ->
  req_touched nreq st st2 ->
  trace st2 = trace st ++ out ->
  nreq_array st2 !! nreq = Some r1 ->
  nreq_type r1 = NDEV_CONF ->
  nreq_id r1 = u32 (nq_head (ndev_sendq d) + nq_count (ndev_sendq d)) ->
  exists st',
    (emit (asynsend3 (ndev_endpt d) m) ;;
     set_nreq_grant nreq 0 grant ;;
     set_nreq_grant nreq 1 GRANT_INVALID ;;
     ndev_queue_add (id, SENDQ) nreq ;;
     ret OK) st2 = Some (OK, st') /\
    request_sent id SENDQ d nreq fl NDEV_CONF
      (if GRANT_VALID grant then [grant] else [])
      (out ++ [asynsend3 (ndev_endpt d) m]) st st'.
Proof.
  intros Hi Hd Hfl Hden Ht2 Htr2 Hr1 Hty1 Hid1. pose proof Hi as [Hp Ht].
  assert (NDEV_CONF = NDEV_RECV <-> SENDQ = RECVQ) as Hty by (split; done).
  assert (nreq ∈ nreq_freelist st) as Hin by (rewrite Hfl; by left).
  assert (length (nreq_grant r1) = NDEV_IOV_MAX) as Hlen.
  { apply (pool_grant_length _ (pool_inv_touched _ _ _ Hp Hin Ht2) nreq r1 Hr1). }
  rewrite bind_emit.
  set (st3 := set_trace (trace st2 ++ [asynsend3 (ndev_endpt d) m]) st2).
  assert (nreq_array st3 !! nreq = Some r1) as Hr3 by done.
  rewrite (bind_eq _ _ _ _ _
             (set_nreq_grant_eq _ _ _ 0 grant Hr3
                ltac:(rewrite Hlen; unfold NDEV_IOV_MAX; lia))).
  set (r4 := mk_ndev_req _ _ _).
  set (st4 := set_nreq_array _ st3).
  assert (nreq_array st4 !! nreq = Some r4) as Hr4.
  { unfold st4. cbn. apply list_lookup_insert_eq. by eapply lookup_lt_Some. }
  rewrite (bind_eq _ _ _ _ _
             (set_nreq_grant_eq _ _ _ 1 GRANT_INVALID Hr4
                ltac:(cbn; rewrite length_insert, Hlen;
                      unfold NDEV_IOV_MAX; lia))).
  set (r5 := mk_ndev_req _ _ _).
  set (st5 := set_nreq_array _ st4).
  assert (nreq_array st5 !! nreq = Some r5) as Hr5.
  { unfold st5. cbn. apply list_lookup_insert_eq. by eapply lookup_lt_Some. }
  assert (req_touched nreq st st5) as Ht5.
  { eapply req_touched_trans; [exact Ht2|].
    eapply req_touched_trans; [apply (req_touched_set_trace _ _ (trace st3))|].
    eapply req_touched_trans.
    - apply (req_touched_write _ st3 r1 r4 Hr3). unfold r4. cbn.
      apply length_insert.
    - apply (req_touched_write _ st4 r4 r5 Hr4). unfold r5. cbn.
      apply length_insert. }
  pose proof (pool_inv_touched _ _ _ Hp Hin Ht5) as Hp5.
  destruct (get_denied_false _ _ _ _ Hty Hden) as [Hne Hsp].
  pose proof (pool_queues _ Hp id d SENDQ Hd) as (Hc & Hm & _).
  pose proof (pool_spares_nonneg _ Hp) as Hnn.
  pose proof Ht5 as (A1 & A2 & A3 & A4 & A5 & A6 & A7 & A8 & A9).
  assert (ndev_array st5 !! id = Some d) as Hd5 by (by rewrite A3).
  assert (nreq_freelist st5 = nreq :: fl) as Hfl5 by (by rewrite A1).
  simpl queue_of in *.
  assert (nreq_type r5 = NDEV_RECV <-> SENDQ = RECVQ) as Hty5.
  { unfold r5, r4. cbn. rewrite Hty1. done. }
  assert (SENDQ = SENDQ -> NDEV_SENDQ <= nq_count (ndev_sendq d) ->
          0 < nreq_spares st5) as Hsp5.
  { intros _ Hle. specialize (Hsp eq_refl Hle). rewrite A2. lia. }
  rewrite (bind_eq _ _ _ _ _
             (ndev_queue_add_eq st5 id SENDQ d nreq fl r5 Hp5 Hd5 Hfl5 Hr5
                Hty5 ltac:(simpl; lia) Hsp5)).
  eexists. split; [reflexivity|].
  assert (trace st5 = trace st ++ out ++ [asynsend3 (ndev_endpt d) m]) as Htr5.
  { unfold st5, st4, st3. cbn. rewrite Htr2. by rewrite <- app_assoc. }
  clearbody st5.
  split. 1-7: unfold added; cbn.
  - by rewrite A3.
  - done.
  - by rewrite A2.
  - done.
  - exists r5. split_and!.
    + done.
    + done.
    + done.
    + unfold r5, r4. cbn.
      destruct (nreq_grant r1) as [|g0 [|g1 gs]] eqn:Eg;
        [simpl in Hlen; unfold NDEV_IOV_MAX in Hlen; lia..|].
      cbn. by destruct (GRANT_VALID grant).
  - done.
  - done.
  - split.
    + apply (pool_inv_added st5 id SENDQ d nreq fl r5 Hp5 Hd5 Hfl5 Hr5 Hty5).
      * unfold r5, r4. cbn. done.
      * simpl. lia.
      * done.
    + by apply (table_inv_added st).
Qed.

(** X19: a configuration request that is sent.  For an active driver
    whose send queue accepts the request, [ndev_conf] returns [OK] when the
    request carries no multicast list, or when its list is there and the
    grant for it is handed out.  It then sends one request with the ID
    [nq_head + nq_count] in which exactly the settings selected by
    [nconf_set] are filled in, puts the request object at the tail of the
    send queue, and keeps in it the grant of the list, if any, to be
    revoked with the reply.  A request with no flag at all is sent like
    any other, with all its settings zero. *)
Theorem configuration_request_is_sent st id d nconf grants :
  reachable st ->
  (id < NR_NDEV)%nat ->
  ndev_array st !! id = Some d ->
  slot_active d = true ->
  get_denied NDEV_CONF (ndev_sendq d) (nreq_spares st) = false ->
  (conf_with_list nconf = true ->
   nconf_mclist nconf <> None /\ nconf_mccount nconf <> 0 /\
   GRANT_VALID (grant_result grants 0) = true) ->
  let seq := u32 (nq_head (ndev_sendq d) + nq_count (ndev_sendq d)) in
  let grant := if conf_with_list nconf then grant_result grants 0
               else GRANT_INVALID in
  (exists nreq fl st',
     ndev_conf id nconf grants st = Some (OK, st') /\
     request_sent id SENDQ d nreq fl NDEV_CONF
       (if conf_with_list nconf then [grant_result grants 0] else [])
       ((if conf_with_list nconf then [conf_grant_call d nconf grants] else [])
        ++ [asynsend3 (ndev_endpt d) (conf_message seq nconf grant)])
       st st') /\
  (nconf_set nconf = 0 ->
   conf_with_list nconf = false /\
   conf_message seq nconf grant = M_CONF seq 0 0 GRANT_INVALID 0 0 0 0 []).
Proof.
  intros Hr Hid Hd Hact Hden Hlist seq0 grant. split.
  2:{ intros H0. unfold grant, conf_message, conf_with_list. rewrite H0.
      by cbn. }
  apply reachable_inv in Hr as Hi. pose proof Hi as [Hp Ht].
  apply slot_active_spec in Hact as [Hn Ha].
  unfold ndev_conf.
  rewrite (bind_eq _ _ _ _ _ (ndev_of_id_eq _ _ _ Hid Hd Hn Ha)).
  assert (NDEV_CONF = NDEV_RECV <-> SENDQ = RECVQ) as Hty by (split; done).
  destruct (ndev_queue_get_granted _ _ SENDQ _ _ Hp Hd Hty Hden)
    as (nreq & fl & r & Hfl & Hr0' & Hget).
  exists nreq, fl.
  rewrite (bind_eq _ _ _ _ _ Hget).
  simpl queue_of in *. fold seq0.
  set (r0 := mk_ndev_req NDEV_CONF (nreq_grant r) (nreq_id r)).
  set (st0 := set_nreq_array (<[nreq := r0]> (nreq_array st)) st).
  assert (nreq_array st0 !! nreq = Some r0) as Hr0.
  { unfold st0. cbn. apply list_lookup_insert_eq. by eapply lookup_lt_Some. }
  rewrite (bind_eq _ _ _ _ _ (set_nreq_id_eq _ _ _ seq0 Hr0)).
  set (r1 := mk_ndev_req (nreq_type r0) (nreq_grant r0) seq0).
  set (st1 := set_nreq_array (<[nreq := r1]> (nreq_array st0)) st0).
  assert (nreq_array st1 !! nreq = Some r1) as Hr1.
  { unfold st1. cbn. apply list_lookup_insert_eq. by eapply lookup_lt_Some. }
  assert (req_touched nreq st st1) as Ht1.
  { eapply req_touched_trans; by eapply req_touched_write. }
  fold (conf_with_list nconf). cbv zeta.
  fold (conf_message seq0 nconf grant).
  destruct (conf_with_list nconf) eqn:Hwl; cbn [andb].
  - destruct (Hlist eq_refl) as (Hmc & Hcnt & Hv).
    destruct (nconf_mclist nconf) as [mclist|] eqn:Emc; [|done].
    rewrite (bool_decide_eq_true_2 (Some mclist <> None)) by done.
    apply Z.eqb_neq in Hcnt. rewrite Hcnt. cbn [negb]. repeat mstep.
    set (call := cpf_grant_direct _ _ _ _ _).
    assert (call = conf_grant_call d nconf grants) as Hcall.
    { unfold call, conf_grant_call. by rewrite Emc. }
    set (st2 := set_trace (trace st1 ++ [call]) st1).
    assert (req_touched nreq st st2) as Ht2.
    { eapply req_touched_trans; [exact Ht1|apply req_touched_set_trace]. }
    unfold grant in *. rewrite Hv. cbn [negb].
    destruct (ndev_conf_tail st st2 id d nreq fl r1 (grant_result grants 0)
                (conf_message seq0 nconf (grant_result grants 0))
                [conf_grant_call d nconf grants] Hi Hd Hfl Hden Ht2)
      as (st' & Hrun & Hsent); try done.
    { unfold st2. cbn. by rewrite Hcall. }
    rewrite Hv in Hsent. exists st'. split; [|done].
    rewrite <- Hrun. unfold conf_message. by rewrite Hwl.
  - repeat mstep.
    destruct (ndev_conf_tail st st1 id d nreq fl r1 GRANT_INVALID
                (conf_message seq0 nconf GRANT_INVALID) [] Hi Hd Hfl Hden Ht1)
      as (st' & Hrun & Hsent); try done.
    { cbn. by rewrite app_nil_r. }
    change (GRANT_VALID GRANT_INVALID) with false in Hsent.
    exists st'. split; [|done].
    rewrite <- Hrun. unfold conf_message. by rewrite Hwl.
Qed.

(** ** What requests and their replies leave alone *)

Lemma same_drivers_refl st : same_drivers st st.
Proof. done. Qed.

Lemma same_drivers_trans st1 st2 st3 :
  same_drivers st1 st2 -> same_drivers st2 st3 -> same_drivers st1 st3.
Proof. intros (A1 & A2 & A3 & A4) (B1 & B2 & B3 & B4). split_and!; congruence. Qed.

Lemma same_drivers_touched nreq st st' :
  req_touched nreq st st' -> same_drivers st st'.
Proof.
  intros (A1 & A2 & A3 & A4 & A5 & A6 & _). split_and!; try done. by rewrite A3.
Qed.

Lemma map_insert_same {A B} (f : A -> B) (l : list A) i d d' :
  l !! i = Some d -> f d' = f d -> map f (<[i := d']> l) = map f l.
Proof.
  intros Hd Hf. change (f <$> <[i := d']> l = f <$> l).
  rewrite list_fmap_insert, Hf. apply list_insert_id.
  by rewrite list_lookup_fmap, Hd.
Qed.

Lemma same_drivers_added st st1 slot s d nreq fl :
  same_drivers st st1 ->
  ndev_array st1 !! slot = Some d ->
  same_drivers st (added slot s d nreq fl st1).
Proof.
  intros (A1 & A2 & A3 & A4) Hd. unfold added. split_and!; try done. cbn.
  rewrite <- A1. apply (map_insert_same _ _ _ d); [done|]. by destruct s.
Qed.

Lemma same_drivers_advanced st slot s d nreq rest r :
  ndev_array st !! slot = Some d ->
  same_drivers st (advanced slot s d nreq rest r st).
Proof.
  intros Hd. unfold advanced. split_and!; try done. cbn.
  apply (map_insert_same _ _ _ d); [done|]. by destruct s.
Qed.

Lemma ndev_sendrecv_same st s type do_send id chain grants res st' :
  inv st ->
  (type = NDEV_RECV <-> s = RECVQ) ->
  ndev_sendrecv s type do_send id chain grants st = Some (res, st') ->
  same_drivers st st'.
Proof.
  intros Hi Hty Hrun.
  assert (exists d, ndev_of_id id st = Some (d, st)) as [d Hof].
  { unfold ndev_sendrecv in Hrun. apply bind_inv in Hrun as (d & st0 & Hof & _).
    pose proof (ndev_of_id_Some _ _ _ _ Hof) as (-> & _). eauto. }
  apply ndev_of_id_Some in Hof as (_ & Hid & Hd & Hn & Ha).
  pose proof (ndev_sendrecv_eq st s type do_send id d chain grants
                Hi Hid Hd Hn Ha Hty) as Heq.
  destruct (get_denied type (queue_of s d) (nreq_spares st)).
  { rewrite Heq in Hrun. by simplify_eq. }
  destruct Heq as (nreq & fl & Hfl & Heq).
  destruct chain as [|p next]; [congruence|].
  destruct (transfer_outcome grants (p :: next) (tot_len p) 0) as [|k|k].
  - congruence.
  - destruct Heq as (_ & _ & st1 & Heq & _ & Ht1 & _). rewrite Heq in Hrun.
    simplify_eq. by eapply same_drivers_touched.
  - destruct Heq as (st1 & Heq & _ & Ht1 & _). rewrite Heq in Hrun.
    simplify_eq. apply same_drivers_added; [by eapply same_drivers_touched|].
    destruct Ht1 as (_ & _ & -> & _). done.
Qed.

Lemma ndev_conf_same st id nconf grants res st' :
  inv st -> ndev_conf id nconf grants st = Some (res, st') ->
  same_drivers st st'.
Proof.
  intros Hi Hrun.
  assert (exists d, ndev_of_id id st = Some (d, st)) as [d Hof].
  { unfold ndev_conf in Hrun. apply bind_inv in Hrun as (d & st0 & Hof & _).
    pose proof (ndev_of_id_Some _ _ _ _ Hof) as (-> & _). eauto. }
  apply ndev_of_id_Some in Hof as (_ & Hid & Hd & Hn & Ha).
  pose proof (ndev_conf_eq st id d nconf grants Hi Hid Hd Hn Ha) as Heq.
  destruct (get_denied NDEV_CONF (ndev_sendq d) (nreq_spares st)).
  { rewrite Heq in Hrun. by simplify_eq. }
  destruct Heq as (nreq & fl & Hfl & Heq).
  destruct (conf_with_list nconf && (_ || _)); [congruence|].
  destruct (conf_with_list nconf && negb _).
  - destruct Heq as (st1 & Heq & _ & Ht1 & _). rewrite Heq in Hrun.
    simplify_eq. by eapply same_drivers_touched.
  - destruct Heq as (st1 & m & Heq & _ & Ht1 & _). rewrite Heq in Hrun.
    simplify_eq. apply same_drivers_added; [by eapply same_drivers_touched|].
    destruct Ht1 as (_ & _ & -> & _). done.
Qed.

Lemma ndev_request_same st r st' :
  inv st -> ndev_request r st = Some (tt, st') -> same_drivers st st'.
Proof.
  intros Hi Hrun. destruct r; simpl in Hrun;
    apply bind_inv in Hrun as (res & st1 & Hrun & Hret);
    unfold ret in Hret; simplify_eq.
  - by eapply ndev_conf_same.
  - rewrite ndev_send_sendrecv in Hrun.
    eapply ndev_sendrecv_same; [done| |done]. split; done.
  - apply ndev_can_recv_Some in Hrun. by subst.
  - rewrite ndev_recv_sendrecv in Hrun.
    eapply ndev_sendrecv_same; [done| |done]. split; done.
Qed.

Lemma ndev_requests_same rs st st' :
  inv st -> ndev_requests rs st = Some (tt, st') -> same_drivers st st'.
Proof.
  revert st. induction rs as [|r rs IH]; intros st Hi Hrun; simpl in Hrun.
  - unfold ret in Hrun. by simplify_eq.
  - apply bind_inv in Hrun as ([] & st1 & Hrun1 & Hrun).
    eapply same_drivers_trans; [by eapply ndev_request_same|].
    eapply IH; [|done]. by eapply ndev_request_inv.
Qed.

Lemma ndev_reply_same st slot s d type id call st' :
  inv st ->
  ndev_array st !! slot = Some d ->
  ndev_reply slot s type id call st = Some (tt, st') ->
  same_drivers st st'.
Proof.
  intros Hi Hd Hrun.
  pose proof (ndev_reply_eq st slot s d type id call Hi Hd) as Heq.
  destruct (nq_req (queue_of s d)) as [|nreq rest] eqn:E.
  - rewrite Heq in Hrun. by simplify_eq.
  - destruct Heq as (r & ethif & Hr & He & Heq). rewrite Heq in Hrun.
    destruct (_ && _); simplify_eq; [|done].
    eapply same_drivers_trans; [by apply same_drivers_advanced|]. done.
Qed.

Lemma ndev_status_same st slot source s st' :
  ndev_status slot source s st = Some (tt, st') -> same_drivers st st'.
Proof.
  intros Hrun. unfold ndev_status in Hrun.
  apply bind_inv in Hrun as (d & st0 & Hd & Hrun).
  apply read_ndev_inv in Hd as [Hd ->].
  destruct (NDEV_ACTIVE d); simpl in Hrun.
  - destruct (ndev_ethif d); [|done].
    unfold bind, emit, modify in Hrun. by simplify_eq.
  - unfold ret in Hrun. by simplify_eq.
Qed.

(** X20: requests and their replies never change which drivers there
    are.  From a reachable state, a configuration, send or receive
    request, a reply to one, a status report or a message of an unknown
    type leaves, in every slot, the endpoint, the label, the ethif object
    and the maxima of the two queues as they are, and leaves [ndev_max]
    and [ndev_pending] as they are: only discovery events and
    initialization replies add, remove or restart a driver. *)
Theorem request_traffic_keeps_the_drivers st e st' :
  reachable st ->
  request_traffic e ->
  step e st = Some st' ->
  same_drivers st st' /\
  forall slot d, ndev_array st !! slot = Some d ->
    exists d', ndev_array st' !! slot = Some d' /\
               driver_view d' = driver_view d.
Proof.
  intros Hr Hreq Hstep. apply reachable_inv in Hr as Hi.
  assert (same_drivers st st') as Hsame.
  { destruct e as [changes code ds_label|m env|r]; simpl in Hstep, Hreq.
    - done.
    - destruct (ndev_process m env st) as [[[] st1]|] eqn:Hrun; simplify_eq/=.
      unfold ndev_process in Hrun. rewrite !bind_gets in Hrun.
      destruct (ndev_find (m_source m) (take (ndev_max st) (ndev_array st)) 0)
        as [slot|] eqn:Hfind.
      2:{ unfold ret in Hrun. by simplify_eq. }
      destruct (ndev_find_Some _ _ _ _ Hfind) as (d & Hd & _ & He).
      rewrite Nat.sub_0_r in Hd. apply lookup_take_Some in Hd as [Hd Hlt].
      destruct (m_body m).
      + done.
      + by eapply ndev_reply_same.
      + by eapply ndev_reply_same.
      + by eapply ndev_reply_same.
      + by eapply ndev_status_same.
      + unfold ret in Hrun. by simplify_eq.
    - destruct (ndev_request r st) as [[[] st1]|] eqn:Hrun; simplify_eq/=.
      by eapply ndev_request_same. }
  split; [done|]. intros slot d Hd. destruct Hsame as (Hmap & _).
  assert (map driver_view (ndev_array st') !! slot = Some (driver_view d)) as Hl.
  { rewrite Hmap. change (map driver_view (ndev_array st))
      with (driver_view <$> ndev_array st).
    by rewrite list_lookup_fmap, Hd. }
  change (map driver_view (ndev_array st')) with (driver_view <$> ndev_array st')
    in Hl.
  rewrite list_lookup_fmap in Hl.
  destruct (ndev_array st' !! slot) as [d'|]; [|done].
  simpl in Hl. exists d'. split; [done|]. congruence.
Qed.

(** ** The drivers of the table *)

Lemma initc_view d : initc d = view_initc (driver_view d).
Proof. reflexivity. Qed.

Lemma initc_range d : 0 <= initc d <= 1.
Proof. unfold initc. destruct (slot_initializing d); lia. Qed.

Lemma sumZ_map {A B} (f : A -> B) (g : B -> Z) l :
  sumZ g (map f l) = sumZ (fun x => g (f x)) l.
Proof. induction l as [|x l IH]; [done|]. simpl map. by rewrite !sumZ_cons, IH. Qed.

Lemma count_filter {A} (f : A -> bool) l :
  Z.of_nat (length (List.filter f l)) = sumZ (fun x => if f x then 1 else 0) l.
Proof.
  induction l as [|x l IH]; [done|]. simpl List.filter. rewrite sumZ_cons.
  destruct (f x); simpl length; lia.
Qed.

Lemma count_initializing_eq st :
  count_initializing st = sumZ initc (take (ndev_max st) (ndev_array st)).
Proof. unfold count_initializing. apply count_filter. Qed.

Lemma count_views n (l l' : list ndev) :
  map driver_view l' = map driver_view l ->
  sumZ initc (take n l') = sumZ initc (take n l).
Proof.
  intros Hmap.
  assert (forall k : list ndev,
            sumZ initc (take n k) = sumZ view_initc (take n (map driver_view k)))
    as Hk.
  { intros k. rewrite firstn_map, sumZ_map. done. }
  by rewrite !Hk, Hmap.
Qed.

Lemma count_insert_lt (l : list ndev) n i d d' :
  (i < n)%nat -> l !! i = Some d ->
  sumZ initc (take n (<[i := d']> l)) = sumZ initc (take n l) - initc d + initc d'.
Proof.
  intros Hlt Hd. rewrite take_insert_lt by done.
  apply sumZ_insert. by apply lookup_take_Some.
Qed.

Lemma count_shrink (l : list ndev) m : forall n,
  (m <= n)%nat ->
  (forall i d, (m <= i < n)%nat -> l !! i = Some d -> initc d = 0) ->
  sumZ initc (take n l) = sumZ initc (take m l).
Proof.
  induction n as [|n IH]; intros Hle Hz.
  - by replace m with 0%nat by lia.
  - destruct (decide (m = S n)) as [->|Hne]; [done|].
    rewrite <- IH; [|lia|intros i d Hi; apply Hz; lia].
    destruct (l !! n) as [x|] eqn:E.
    + rewrite (take_S_r _ _ _ E), sumZ_app, sumZ_cons.
      rewrite (Hz n x) by (done || lia). change (sumZ initc []) with 0. lia.
    + apply lookup_ge_None in E. by rewrite !take_ge by lia.
Qed.

Lemma count_grow (l : list ndev) n x :
  l !! n = Some x ->
  sumZ initc (take (S n) l) = sumZ initc (take n l) + initc x.
Proof.
  intros E. rewrite (take_S_r _ _ _ E), sumZ_app, sumZ_cons.
  change (sumZ initc []) with 0. lia.
Qed.

Lemma lookup_views (l l' : list ndev) i d' :
  map driver_view l' = map driver_view l -> l' !! i = Some d' ->
  exists d, l !! i = Some d /\ driver_view d = driver_view d'.
Proof.
  intros Hmap Hd'.
  assert ((driver_view <$> l) !! i = Some (driver_view d')) as Hl.
  { change (driver_view <$> l) with (map driver_view l).
    rewrite <- Hmap. change (map driver_view l') with (driver_view <$> l').
    by rewrite list_lookup_fmap, Hd'. }
  rewrite list_lookup_fmap in Hl.
  destruct (l !! i) as [d|]; [|done]. simpl in Hl. exists d. split; congruence.
Qed.

(** *** Both properties are kept by every event *)

Lemma labels_unique_same st st' :
  same_drivers st st' -> labels_unique st -> labels_unique st'.
Proof.
  intros (Hmap & Hmax & _) HU i j di dj Hi Hj Hdi Hdj Hni Hnj Hl.
  destruct (lookup_views _ _ _ _ Hmap Hdi) as (ei & Hei & Hvi).
  destruct (lookup_views _ _ _ _ Hmap Hdj) as (ej & Hej & Hvj).
  unfold driver_view in Hvi, Hvj. simplify_eq.
  apply (HU i j ei ej); try done; congruence.
Qed.

Lemma drivers_inv_same st st' :
  same_drivers st st' -> drivers_inv st -> drivers_inv st'.
Proof.
  intros Hs [HU HP]. split; [by eapply labels_unique_same|].
  destruct Hs as (Hmap & Hmax & Hpend & _).
  unfold pending_covers in *. rewrite count_initializing_eq in *.
  by rewrite Hmax, Hpend, (count_views _ _ _ Hmap).
Qed.

Lemma labels_unique_insert st st' slot d d' :
  labels_unique st ->
  ndev_array st !! slot = Some d ->
  ndev_array st' = <[slot := d']> (ndev_array st) ->
  (ndev_max st' <= ndev_max st)%nat ->
  ndev_label d' = ndev_label d ->
  (ndev_endpt d' <> NONE -> ndev_endpt d <> NONE) ->
  labels_unique st'.
Proof.
  intros HU Hd Harr Hmax Hl Hn i j di dj Hi Hj Hdi Hdj Hni Hnj Hlab.
  rewrite Harr in Hdi, Hdj.
  assert (forall k dk, <[slot := d']> (ndev_array st) !! k = Some dk ->
            ndev_endpt dk <> NONE ->
            exists ek, ndev_array st !! k = Some ek /\
                       ndev_label ek = ndev_label dk /\ ndev_endpt ek <> NONE)
    as Hback.
  { intros k dk Hk Hnk. destruct (decide (slot = k)) as [<-|Hne].
    - apply list_lookup_insert_Some in Hk as [(_ & <- & _)|[? _]]; [|done].
      exists d. split_and!; auto.
    - rewrite list_lookup_insert_ne in Hk by done. eauto. }
  destruct (Hback i di Hdi Hni) as (ei & Hei & Hli & Hnei).
  destruct (Hback j dj Hdj Hnj) as (ej & Hej & Hlj & Hnej).
  apply (HU i j ei ej); try done; [lia|lia|congruence].
Qed.

Lemma not_initializing_has_ethif st slot d :
  inv st -> ndev_array st !! slot = Some d ->
  ndev_endpt d <> NONE -> initc d = 0 ->
  exists ethif, ndev_ethif d = Some ethif.
Proof.
  intros [Hp Ht] Hd Hn H0.
  assert (NDEV_ACTIVE d = true) as Ha.
  { unfold initc, slot_initializing in H0. apply Z.eqb_neq in Hn. rewrite Hn in H0.
    cbn [negb andb] in H0.
    destruct (nq_max (ndev_sendq d) =? 0) eqn:E; [done|]. apply Z.eqb_neq in E.
    destruct (pool_queues _ Hp slot d SENDQ Hd) as (Hc & Hm & _).
    simpl in Hc, Hm. apply NDEV_ACTIVE_true. lia. }
  pose proof (table_ethif _ Ht slot d Hd Ha).
  destruct (ndev_ethif d); [by eexists|done].
Qed.

Lemma substring_short (s : string) : forall n,
  (String.length s <= n)%nat -> substring 0 n s = s.
Proof.
  induction s as [|c s IH]; intros n Hle; [by destruct n|].
  destruct n as [|n]; [simpl in Hle; lia|].
  simpl. rewrite IH; [done|]. simpl in Hle. lia.
Qed.

Lemma strlcpy_label_short label :
  (String.length label < LABEL_MAX)%nat -> strlcpy_label label = label.
Proof. intros Hlen. unfold strlcpy_label. apply substring_short. lia. Qed.

(** What [ndev_up] does, by what the search loop finds. *)
Lemma ndev_up_effect st label endpt st' :
  inv st ->
  ndev_up label endpt st = Some (tt, st') ->
  (exists slot d,
     is_slot_of label st slot /\ ndev_array st !! slot = Some d /\
     ndev_array st'
     = <[slot := mk_ndev endpt (ndev_label d) (ndev_ethif d)
                   (closed_queue (ndev_sendq d)) (closed_queue (ndev_recvq d))]>
         (ndev_array st) /\
     ndev_max st' = ndev_max st /\
     ndev_pending st'
     = ndev_pending st + match ndev_ethif d with Some _ => 1 | None => 0 end) \/
  (exists slot d,
     unknown_label label st /\ is_free_slot st slot /\
     ndev_array st !! slot = Some d /\
     st' = driver_added slot d label endpt st) \/
  (unknown_label label st /\ ndev_array st' = ndev_array st /\
   ndev_max st' = ndev_max st /\ ndev_pending st' = ndev_pending st).
Proof.
  intros Hi Hrun. pose proof Hi as [Hp Ht].
  pose proof (table_max _ Ht) as Hmax.
  pose proof (pool_ndev_length _ Hp) as Hlen.
  pose proof (ndev_up_scan_spec label (take (ndev_max st) (ndev_array st)) 0 None)
    as Hspec.
  destruct (ndev_up_scan label (take (ndev_max st) (ndev_array st)) 0 None)
    as [slot|r] eqn:Hscan.
  - left. destruct Hspec as (d & Hd & _ & Hh & Hfirst).
    rewrite Nat.sub_0_r in *. apply lookup_take_Some in Hd as [Hd Hlt].
    destruct (ndev_up_restart _ _ _ label endpt Hi Hd Hscan)
      as (st1 & Hrun1 & _ & Harr & Hm & Hpend).
    rewrite Hrun1 in Hrun. simplify_eq.
    exists slot, d. split_and!; try done.
    split_and!; [done|by exists d|].
    intros j dj Hj Hlook. apply (Hfirst j dj Hj).
    apply lookup_take_Some. split; [done|lia].
  - destruct Hspec as [Hnone Hspec].
    assert (unknown_label label st) as Hunk.
    { intros j dj Hj Hlook. apply (Hnone j dj). by apply lookup_take_Some. }
    right. destruct r as [slot|].
    + left. destruct Hspec as (d & Hd & _ & Hv & Hfirst).
      rewrite Nat.sub_0_r in *. apply lookup_take_Some in Hd as [Hd Hlt].
      assert (is_free_slot st slot) as Hfree.
      { split_and!; [lia|lia| |].
        - intros j dj Hj Hlook. apply (Hfirst j dj Hj).
          apply lookup_take_Some. split; [done|lia].
        - intros d0 _ Hd0. congruence. }
      rewrite (ndev_up_new_eq _ _ _ _ endpt Hunk Hfree Hd) in Hrun.
      simplify_eq. by exists slot, d.
    + destruct (decide (ndev_max st = NR_NDEV)) as [Hfull|Hroom].
      * right. split; [done|].
        unfold ndev_up in Hrun. rewrite !bind_gets, Hscan in Hrun.
        rewrite Hfull, Nat.eqb_refl in Hrun.
        rewrite bind_assoc, bind_gets in Hrun.
        destruct (reported st); cbn in Hrun; unfold ret in Hrun; by simplify_eq.
      * left.
        destruct (lookup_lt_is_Some_2 (ndev_array st) (ndev_max st)) as [d Hd];
          [lia|].
        assert (is_free_slot st (ndev_max st)) as Hfree.
        { split_and!; [lia|lia| |intros; lia].
          intros j dj Hj Hlook. apply (Hspec j dj).
          by apply lookup_take_Some. }
        rewrite (ndev_up_new_eq _ _ _ _ endpt Hunk Hfree Hd) in Hrun.
        simplify_eq. by exists (ndev_max st), d.
Qed.

Lemma ndev_up_drivers_inv st label endpt st' :
  inv st -> drivers_inv st ->
  (String.length label < LABEL_MAX)%nat ->
  ndev_up label endpt st = Some (tt, st') ->
  drivers_inv st'.
Proof.
  intros Hi [HU HP] Hshort Hrun. pose proof Hi as [Hp Ht].
  unfold pending_covers in HP. rewrite count_initializing_eq in HP.
  destruct (ndev_up_effect _ _ _ _ Hi Hrun)
    as [(slot & d & Hslot & Hd & Harr & Hmax & Hpend)
       |[(slot & d & Hunk & Hfree & Hd & ->)|(Hunk & Harr & Hmax & Hpend)]].
  - destruct Hslot as (Hlt & (d0 & Hd0 & [Hn Hl]) & _). simplify_eq.
    split.
    + eapply (labels_unique_insert st st' slot d0); try done. lia.
    + unfold pending_covers. rewrite count_initializing_eq.
      rewrite Harr, Hmax, Hpend, (count_insert_lt _ _ _ d0) by done.
      set (d3 := mk_ndev _ _ _ _ _).
      pose proof (initc_range d3). pose proof (initc_range d0).
      destruct (decide (initc d0 = 0)) as [E|E].
      * destruct (not_initializing_has_ethif st slot d0 Hi Hd0 Hn E) as [e ->]. lia.
      * destruct (ndev_ethif d0); lia.
  - pose proof Hfree as (Hlt & Hle & Hocc & Hvac).
    set (dn := mk_ndev endpt (strlcpy_label label) None
                 (mk_ndev_queue (u32 (nq_head (ndev_sendq d) + 1)) 0 0 [])
                 (mk_ndev_queue (u32 (nq_head (ndev_recvq d) + 1)) 0 0 [])).
    assert (ndev_array (driver_added slot d label endpt st)
            = <[slot := dn]> (ndev_array st)) as Harr by done.
    assert (ndev_max (driver_added slot d label endpt st)
            = Nat.max (ndev_max st) (S slot)) as Hmax by done.
    assert (ndev_pending (driver_added slot d label endpt st)
            = ndev_pending st + 1) as Hpend by done.
    split.
    + intros i j di dj Hi' Hj' Hdi Hdj Hni Hnj Hlab.
      rewrite Harr in Hdi, Hdj. rewrite Hmax in Hi', Hj'.
      assert (forall k dk, k <> slot -> (k < Nat.max (ndev_max st) (S slot))%nat ->
                <[slot := dn]> (ndev_array st) !! k = Some dk ->
                ndev_endpt dk <> NONE ->
                (k < ndev_max st)%nat /\ ndev_array st !! k = Some dk /\
                ndev_label dk <> label) as Hother.
      { intros k dk Hne Hk Hlook Hnk.
        rewrite list_lookup_insert_ne in Hlook by done.
        assert (k < ndev_max st)%nat as Hk' by lia.
        split_and!; [done|done|].
        intros Hl. by apply (Hunk k dk Hk' Hlook). }
      assert (ndev_label dn = label) as Hdn.
      { unfold dn. cbn. by apply strlcpy_label_short. }
      destruct (decide (i = slot)) as [->|Hi1], (decide (j = slot)) as [->|Hj1];
        [done| | |].
      * apply list_lookup_insert_Some in Hdi as [(_ & <- & _)|[? _]]; [|done].
        destruct (Hother j dj Hj1 Hj' Hdj Hnj) as (_ & _ & Hne). congruence.
      * apply list_lookup_insert_Some in Hdj as [(_ & <- & _)|[? _]]; [|done].
        destruct (Hother i di Hi1 Hi' Hdi Hni) as (_ & _ & Hne). congruence.
      * destruct (Hother i di Hi1 Hi' Hdi Hni) as (Hi2 & Hdi2 & _).
        destruct (Hother j dj Hj1 Hj' Hdj Hnj) as (Hj2 & Hdj2 & _).
        by apply (HU i j di dj).
    + unfold pending_covers. rewrite count_initializing_eq.
      rewrite Harr, Hmax, Hpend.
      pose proof (initc_range dn). pose proof (initc_range d).
      destruct (decide (slot < ndev_max st)%nat) as [Hin|Hout].
      * replace (Nat.max (ndev_max st) (S slot)) with (ndev_max st) by lia.
        rewrite (count_insert_lt _ _ _ d) by done. lia.
      * assert (slot = ndev_max st) as -> by lia.
        replace (Nat.max (ndev_max st) (S (ndev_max st))) with (S (ndev_max st))
          by lia.
        rewrite (count_grow _ _ dn).
        2:{ apply list_lookup_insert_eq. by eapply lookup_lt_Some. }
        rewrite take_insert_ge by lia. lia.
  - split.
    + intros i j di dj. rewrite Harr, Hmax. apply HU.
    + unfold pending_covers. rewrite count_initializing_eq.
      by rewrite Harr, Hmax, Hpend.
Qed.

Lemma ndev_down_drivers_inv st slot d st' :
  inv st -> labels_unique st ->
  (slot < ndev_max st)%nat ->
  ndev_array st !! slot = Some d ->
  ndev_endpt d <> NONE ->
  ndev_down slot st = Some (tt, st') ->
  labels_unique st' /\
  count_initializing st' = count_initializing st - initc d /\
  ndev_pending st'
  = ndev_pending st - match ndev_ethif d with Some _ => 0 | None => 1 end /\
  (ndev_ethif d = None -> initc d = 1).
Proof.
  intros Hi HU Hlt Hd Hn Hrun.
  destruct (ndev_down_eq _ _ _ Hi Hd)
    as (st1 & Hrun1 & Hi1 & Harr & Hmax & Hpend & _).
  rewrite Hrun1 in Hrun. simplify_eq.
  pose proof (ndev_max_shrink_le (ndev_array st') (ndev_max st)) as Hle.
  rewrite <- Hmax in Hle.
  split_and!.
  - by eapply (labels_unique_insert st st' slot d (downed d)).
  - rewrite !count_initializing_eq.
    rewrite <- (count_shrink (ndev_array st') (ndev_max st') (ndev_max st) Hle).
    + rewrite Harr, (count_insert_lt _ _ _ d) by done.
      change (initc (downed d)) with 0. lia.
    + intros i di Hrange Hlook.
      assert (ndev_endpt di = NONE) as Hv.
      { apply (ndev_max_shrink_vacant (ndev_array st') (ndev_max st) i di);
          [by rewrite <- Hmax|done]. }
      unfold initc, slot_initializing. by rewrite Hv.
  - done.
  - intros He. pose proof (initc_range d).
    destruct (decide (initc d = 0)) as [E|E]; [|lia].
    destruct (not_initializing_has_ethif st slot d Hi Hd Hn E). congruence.
Qed.

Lemma ndev_down_drivers_inv' st slot d st' :
  inv st -> drivers_inv st ->
  (slot < ndev_max st)%nat ->
  ndev_array st !! slot = Some d ->
  ndev_endpt d <> NONE ->
  ndev_down slot st = Some (tt, st') ->
  drivers_inv st'.
Proof.
  intros Hi [HU HP] Hlt Hd Hn Hrun.
  destruct (ndev_down_drivers_inv _ _ _ _ Hi HU Hlt Hd Hn Hrun)
    as (HU' & Hc & Hpend & He).
  split; [done|]. unfold pending_covers in *. rewrite Hc, Hpend.
  pose proof (initc_range d).
  destruct (ndev_ethif d); [lia|]. rewrite (He eq_refl). lia.
Qed.

Lemma ndev_check_entry_drivers_inv st e st' :
  inv st -> drivers_inv st ->
  ndev_check_entry e st = Some (tt, st') -> drivers_inv st'.
Proof.
  intros Hi HJ Hrun. unfold ndev_check_entry in Hrun.
  destruct (negb _ || _); [unfold ret in Hrun; by simplify_eq|].
  destruct (negb (ds_driver_up e)); [unfold ret in Hrun; by simplify_eq|].
  cbv zeta in Hrun.
  destruct (_ || _) eqn:E; [unfold ret in Hrun; by simplify_eq|].
  apply orb_false_iff in E as [_ E]. apply Nat.leb_gt in E.
  by eapply ndev_up_drivers_inv.
Qed.

Lemma ndev_check_up_drivers_inv changes : forall st st',
  inv st -> drivers_inv st ->
  ndev_check_up changes st = Some (tt, st') -> drivers_inv st'.
Proof.
  induction changes as [|e changes IH]; intros st st' Hi HJ Hrun; simpl in Hrun.
  - unfold ret in Hrun. by simplify_eq.
  - apply bind_inv in Hrun as ([] & st1 & Hrun1 & Hrun).
    destruct (ndev_check_entry_inv st e Hi) as (st1' & Hrun1' & Hi1).
    rewrite Hrun1 in Hrun1'. simplify_eq.
    refine (IH _ _ Hi1 _ Hrun).
    exact (ndev_check_entry_drivers_inv _ _ _ Hi HJ Hrun1).
Qed.

Lemma ndev_check_down_drivers_inv fuel ds_label : forall slot st st',
  inv st -> drivers_inv st ->
  ndev_check_down fuel ds_label slot st = Some (tt, st') -> drivers_inv st'.
Proof.
  induction fuel as [|fuel IH]; intros slot st st' Hi HJ;
    rewrite ndev_check_down_unfold; rewrite bind_gets;
    destruct (slot <? ndev_max st)%nat eqn:Hlt;
    try (unfold ret, panic; intros; by simplify_eq).
  apply Nat.ltb_lt in Hlt. pose proof Hi as [Hp Ht].
  destruct (lookup_lt_is_Some_2 (ndev_array st) slot) as [d Hd].
  { rewrite (pool_ndev_length _ Hp). pose proof (table_max _ Ht). lia. }
  rewrite (bind_eq _ _ _ _ _ (read_ndev_eq _ _ _ Hd)).
  destruct (negb (ndev_endpt d =? NONE)) eqn:En; cbn [andb].
  - destruct (negb (ds_label (ndev_label d))).
    + destruct (ndev_down_eq _ _ _ Hi Hd) as (st1 & Hrun1 & Hi1 & _).
      simpl when. rewrite (bind_eq _ _ _ _ _ Hrun1).
      apply IH; [done|].
      apply negb_true_iff, Z.eqb_neq in En.
      exact (ndev_down_drivers_inv' _ _ _ _ Hi HJ Hlt Hd En Hrun1).
    + simpl when. unfold bind at 1. unfold ret at 1. by apply IH.
  - simpl when. unfold bind at 1. unfold ret at 1. by apply IH.
Qed.

Lemma ndev_check_drivers_inv changes code ds_label st st' :
  inv st -> drivers_inv st ->
  ndev_check changes code ds_label st = Some (tt, st') -> drivers_inv st'.
Proof.
  intros Hi HJ Hrun. unfold ndev_check in Hrun.
  destruct (ndev_check_up_inv changes st Hi) as (st1 & Hrun1 & Hi1).
  rewrite (bind_eq _ _ _ _ _ Hrun1) in Hrun.
  pose proof (ndev_check_up_drivers_inv _ _ _ Hi HJ Hrun1) as HJ1.
  destruct (code =? ENOENT); simpl when in Hrun.
  - unfold bind at 1 in Hrun. unfold ret at 1 in Hrun.
    by eapply ndev_check_down_drivers_inv.
  - rewrite bind_emit in Hrun.
    refine (ndev_check_down_drivers_inv _ _ _ _ _ (inv_set_trace _ _ Hi1) _ Hrun).
    exact HJ1.
Qed.

Lemma initc_inactive d :
  ndev_endpt d <> NONE -> NDEV_ACTIVE d = false ->
  0 <= nq_max (ndev_sendq d) -> initc d = 1.
Proof.
  intros Hn Ha Hm. unfold initc, slot_initializing.
  apply Z.eqb_neq in Hn. rewrite Hn. cbn [negb andb].
  unfold NDEV_ACTIVE in Ha. apply Z.ltb_ge in Ha.
  replace (nq_max (ndev_sendq d)) with 0 by lia. done.
Qed.

Lemma ndev_init_reply_drivers_inv st slot d source m env st' :
  inv st -> drivers_inv st ->
  ndev_array st !! slot = Some d ->
  (slot < ndev_max st)%nat ->
  ndev_endpt d <> NONE ->
  ndev_init_reply slot source m env st = Some (tt, st') ->
  drivers_inv st'.
Proof.
  intros Hi HJ Hd Hlt Hn Hrun.
  rewrite (ndev_init_reply_eq _ _ _ _ _ _ Hd) in Hrun.
  assert (forall t st'', ndev_down slot (set_trace t st) = Some (tt, st'') ->
                         drivers_inv st'') as Hdown.
  { intros t st'' Hrun'.
    exact (ndev_down_drivers_inv' (set_trace t st) slot d st''
             (inv_set_trace _ _ Hi) HJ Hlt Hd Hn Hrun'). }
  destruct (NDEV_ACTIVE d || negb (ir_id m =? nq_head (ndev_sendq d))) eqn:Hfor.
  { by simplify_eq. }
  apply orb_false_iff in Hfor as [Ha _].
  destruct (invalid_name (ir_name m)); [by eapply Hdown|].
  destruct (invalid_hwaddr_len m); [by eapply Hdown|].
  destruct (invalid_queue_max m) eqn:Hq; [by eapply Hdown|].
  destruct (ethif_after_add d env) as [ethif|]; [|by eapply Hdown].
  pose proof (inv_enable_state st slot d m ethif Hi Hd Hlt Hn Ha Hq) as Hi1.
  destruct HJ as [HU HP].
  unfold pending_covers in HP. rewrite count_initializing_eq in HP.
  set (st1 := enable_state slot d m ethif st) in *.
  assert (ndev_array st1 = <[slot := enabled_ndev d m ethif]> (ndev_array st))
    as Harr1 by done.
  assert (ndev_max st1 = ndev_max st) as Hmax1 by done.
  assert (ndev_pending st1 = ndev_pending st) as Hpend1 by done.
  assert (labels_unique st1) as HU1.
  { eapply (labels_unique_insert st st1 slot d); try done. }
  assert (initc d = 1) as Hd1.
  { apply initc_inactive; try done.
    destruct (pool_queues _ (proj1 Hi) slot d SENDQ Hd) as (Hc & Hm & _).
    simpl in Hc, Hm. lia. }
  assert (initc (enabled_ndev d m ethif) = 0) as He0.
  { unfold initc, slot_initializing, enabled_ndev. cbn.
    unfold invalid_queue_max in Hq. apply orb_false_iff in Hq as [Hq _].
    apply Z.ltb_ge in Hq.
    destruct (u8 (ir_max_send m) =? 0) eqn:E; [apply Z.eqb_eq in E; lia|].
    by rewrite andb_false_r. }
  assert (sumZ initc (take (ndev_max st1) (ndev_array st1)) <= ndev_pending st1 - 1)
    as HP1.
  { rewrite Harr1, Hmax1, Hpend1, (count_insert_lt _ _ _ d) by done. lia. }
  clearbody st1. unfold after_enable in Hrun.
  apply bind_inv in Hrun as ([] & st2 & Hreq & Hrun).
  pose proof (ndev_requests_inv _ _ _ Hi1 Hreq) as Hi2.
  pose proof (ndev_requests_same _ _ _ Hi1 Hreq) as Hsame.
  pose proof (labels_unique_same _ _ Hsame HU1) as HU2.
  destruct Hsame as (Hmap & Hmax2 & Hpend2 & _).
  assert (sumZ initc (take (ndev_max st2) (ndev_array st2)) <= ndev_pending st2 - 1)
    as HP2.
  { by rewrite Hmax2, Hpend2, (count_views _ _ _ Hmap). }
  destruct (negb (ethif_enable_result env)).
  - destruct (lookup_lt_is_Some_2 (ndev_array st2) slot) as [d2 Hd2].
    { rewrite (pool_ndev_length _ (proj1 Hi2)).
      rewrite <- (pool_ndev_length _ (proj1 Hi)). by eapply lookup_lt_Some. }
    destruct (lookup_views _ _ _ _ Hmap Hd2) as (e1 & He1 & Hv).
    rewrite Harr1 in He1.
    apply list_lookup_insert_Some in He1 as [(_ & <- & _)|[? _]]; [|done].
    unfold driver_view in Hv. injection Hv as Hv1 _ Hv3 _ _.
    cbn in Hv1, Hv3.
    assert (ndev_endpt d2 <> NONE) as Hn2 by congruence.
    assert (slot < ndev_max st2)%nat as Hlt2 by lia.
    destruct (ndev_down_drivers_inv _ _ _ _ Hi2 HU2 Hlt2 Hd2 Hn2 Hrun)
      as (HU3 & Hc3 & Hpend3 & _).
    split; [done|]. unfold pending_covers. rewrite Hc3, Hpend3.
    rewrite count_initializing_eq. pose proof (initc_range d2).
    rewrite <- Hv3. lia.
  - unfold modify in Hrun. simplify_eq. split.
    + intros i j di dj. apply HU2.
    + unfold pending_covers. rewrite count_initializing_eq. cbn.
      change (ndev_max (set_ndev_pending (ndev_pending st2 - 1) st2))
        with (ndev_max st2). lia.
Qed.

Lemma ndev_process_same st m env st' :
  inv st ->
  match m_body m with NDEV_INIT_REPLY _ => False | _ => True end ->
  ndev_process m env st = Some (tt, st') -> same_drivers st st'.
Proof.
  intros Hi Hbody Hrun.
  unfold ndev_process in Hrun. rewrite !bind_gets in Hrun.
  destruct (ndev_find (m_source m) (take (ndev_max st) (ndev_array st)) 0)
    as [slot|] eqn:Hfind.
  2:{ unfold ret in Hrun. by simplify_eq. }
  destruct (ndev_find_Some _ _ _ _ Hfind) as (d & Hd & _ & He).
  rewrite Nat.sub_0_r in Hd. apply lookup_take_Some in Hd as [Hd Hlt].
  destruct (m_body m).
  - done.
  - by eapply ndev_reply_same.
  - by eapply ndev_reply_same.
  - by eapply ndev_reply_same.
  - by eapply ndev_status_same.
  - unfold ret in Hrun. by simplify_eq.
Qed.

Lemma ndev_process_drivers_inv st m env st' :
  inv st -> drivers_inv st -> m_source m <> NONE ->
  ndev_process m env st = Some (tt, st') -> drivers_inv st'.
Proof.
  intros Hi HJ Hsrc Hrun.
  destruct (m_body m) as [r| | | | |] eqn:Hbody.
  2-6: apply (drivers_inv_same st st'); [|done];
       apply (ndev_process_same st m env st' Hi); [by rewrite Hbody|done].
  unfold ndev_process in Hrun. rewrite !bind_gets in Hrun.
  destruct (ndev_find (m_source m) (take (ndev_max st) (ndev_array st)) 0)
    as [slot|] eqn:Hfind.
  2:{ unfold ret in Hrun. by simplify_eq. }
  destruct (ndev_find_Some _ _ _ _ Hfind) as (d & Hd & _ & He).
  rewrite Nat.sub_0_r in Hd. apply lookup_take_Some in Hd as [Hd Hlt].
  rewrite Hbody in Hrun.
  eapply ndev_init_reply_drivers_inv; try done. congruence.
Qed.

Lemma step_drivers_inv st e st' :
  inv st -> drivers_inv st -> valid_event e ->
  step e st = Some st' -> drivers_inv st'.
Proof.
  intros Hi HJ Hv Hstep.
  destruct e as [changes code ds_label|m env|r]; simpl in Hstep, Hv.
  - destruct (ndev_check changes code ds_label st) as [[[] st1]|] eqn:Hrun;
      simplify_eq/=. by eapply ndev_check_drivers_inv.
  - destruct (ndev_process m env st) as [[[] st1]|] eqn:Hrun; simplify_eq/=.
    by eapply ndev_process_drivers_inv.
  - destruct (ndev_request r st) as [[[] st1]|] eqn:Hrun; simplify_eq/=.
    eapply drivers_inv_same; [|done]. by eapply ndev_request_same.
Qed.

Lemma drivers_inv_init : drivers_inv ndev_init.
Proof.
  split.
  - intros i j di dj Hi. simpl in Hi. lia.
  - unfold pending_covers. by vm_compute.
Qed.

Lemma reachable_drivers_inv st : reachable st -> drivers_inv st.
Proof.
  induction 1 as [|st e st' Hr IH Hv Hstep]; [apply drivers_inv_init|].
  eapply step_drivers_inv; [by apply reachable_inv|done|done|done].
Qed.

(** X21: no two drivers of the table have the same label.  In every
    reachable state, two different slots below [ndev_max] that both hold
    a driver (their endpoint is not [NONE]) hold drivers with different
    labels; so a label names at most one driver, and the search loop of
    [ndev_up] finds the only slot there is. *)
Theorem driver_labels_are_unique st i j di dj :
  reachable st ->
  (i < ndev_max st)%nat -> (j < ndev_max st)%nat ->
  ndev_array st !! i = Some di -> ndev_array st !! j = Some dj ->
  ndev_endpt di <> NONE -> ndev_endpt dj <> NONE ->
  i <> j ->
  ndev_label di <> ndev_label dj.
Proof.
  intros Hr Hi Hj Hdi Hdj Hni Hnj Hne Hl.
  destruct (reachable_drivers_inv st Hr) as [HU _].
  by apply Hne, (HU i j di dj).
Qed.

(** *** The range of [ndev_pending] *)

Lemma ndev_up_pending st label endpt st' :
  inv st ->
  ndev_up label endpt st = Some (tt, st') ->
  ndev_pending st <= ndev_pending st' <= ndev_pending st + 1.
Proof.
  intros Hi Hrun.
  destruct (ndev_up_effect _ _ _ _ Hi Hrun)
    as [(slot & d & _ & _ & _ & _ & Hpend)
       |[(slot & d & _ & _ & _ & ->)|(_ & _ & _ & Hpend)]].
  - rewrite Hpend. destruct (ndev_ethif d); lia.
  - cbn. lia.
  - lia.
Qed.

Lemma ndev_check_entry_pending st e st' :
  inv st ->
  ndev_check_entry e st = Some (tt, st') ->
  ndev_pending st <= ndev_pending st' <= ndev_pending st + 1.
Proof.
  intros Hi Hrun. unfold ndev_check_entry in Hrun.
  destruct (negb _ || _); [unfold ret in Hrun; simplify_eq; lia|].
  destruct (negb (ds_driver_up e)); [unfold ret in Hrun; simplify_eq; lia|].
  cbv zeta in Hrun.
  destruct (_ || _); [unfold ret in Hrun; simplify_eq; lia|].
  by eapply ndev_up_pending.
Qed.

Lemma ndev_check_up_pending changes : forall st st',
  inv st ->
  ndev_check_up changes st = Some (tt, st') ->
  ndev_pending st <= ndev_pending st'
  <= ndev_pending st + Z.of_nat (length changes).
Proof.
  induction changes as [|e changes IH]; intros st st' Hi Hrun; simpl in Hrun.
  - unfold ret in Hrun. simplify_eq. simpl. lia.
  - apply bind_inv in Hrun as ([] & st1 & Hrun1 & Hrun).
    destruct (ndev_check_entry_inv st e Hi) as (st1' & Hrun1' & Hi1).
    rewrite Hrun1 in Hrun1'. simplify_eq.
    pose proof (ndev_check_entry_pending _ _ _ Hi Hrun1).
    pose proof (IH _ _ Hi1 Hrun). simpl length. lia.
Qed.

Lemma ndev_down_pending st slot d st' :
  inv st ->
  ndev_array st !! slot = Some d ->
  ndev_down slot st = Some (tt, st') ->
  ndev_pending st' <= ndev_pending st.
Proof.
  intros Hi Hd Hrun.
  destruct (ndev_down_eq _ _ _ Hi Hd) as (st1 & Hrun1 & _ & _ & _ & Hpend & _).
  rewrite Hrun1 in Hrun. simplify_eq. rewrite Hpend.
  destruct (ndev_ethif d); lia.
Qed.

Lemma ndev_check_down_pending fuel ds_label : forall slot st st',
  inv st ->
  ndev_check_down fuel ds_label slot st = Some (tt, st') ->
  ndev_pending st' <= ndev_pending st.
Proof.
  induction fuel as [|fuel IH]; intros slot st st' Hi;
    rewrite ndev_check_down_unfold; rewrite bind_gets;
    destruct (slot <? ndev_max st)%nat eqn:Hlt;
    try (unfold ret, panic; intros; simplify_eq; lia).
  apply Nat.ltb_lt in Hlt. pose proof Hi as [Hp Ht].
  destruct (lookup_lt_is_Some_2 (ndev_array st) slot) as [d Hd].
  { rewrite (pool_ndev_length _ Hp). pose proof (table_max _ Ht). lia. }
  rewrite (bind_eq _ _ _ _ _ (read_ndev_eq _ _ _ Hd)).
  destruct (negb _ && negb _).
  - destruct (ndev_down_eq _ _ _ Hi Hd) as (st1 & Hrun1 & Hi1 & _).
    simpl when. rewrite (bind_eq _ _ _ _ _ Hrun1). intros Hrun.
    pose proof (ndev_down_pending _ _ _ _ Hi Hd Hrun1).
    pose proof (IH _ _ _ Hi1 Hrun). lia.
  - simpl when. unfold bind at 1. unfold ret at 1. by apply IH.
Qed.

Lemma ndev_check_pending changes code ds_label st st' :
  inv st ->
  ndev_check changes code ds_label st = Some (tt, st') ->
  ndev_pending st' <= ndev_pending st + Z.of_nat (length changes).
Proof.
  intros Hi Hrun. unfold ndev_check in Hrun.
  destruct (ndev_check_up_inv changes st Hi) as (st1 & Hrun1 & Hi1).
  rewrite (bind_eq _ _ _ _ _ Hrun1) in Hrun.
  pose proof (ndev_check_up_pending _ _ _ Hi Hrun1) as Hup.
  destruct (code =? ENOENT); simpl when in Hrun.
  - unfold bind at 1 in Hrun. unfold ret at 1 in Hrun.
    pose proof (ndev_check_down_pending _ _ _ _ _ Hi1 Hrun). lia.
  - rewrite bind_emit in Hrun.
    pose proof (ndev_check_down_pending _ _ _ _ _ (inv_set_trace _ _ Hi1) Hrun)
      as Hdown.
    change (ndev_pending (set_trace _ st1)) with (ndev_pending st1) in Hdown.
    lia.
Qed.

Lemma ndev_init_reply_pending st slot d source m env st' :
  inv st ->
  ndev_array st !! slot = Some d ->
  (slot < ndev_max st)%nat ->
  ndev_endpt d <> NONE ->
  ndev_init_reply slot source m env st = Some (tt, st') ->
  ndev_pending st' <= ndev_pending st.
Proof.
  intros Hi Hd Hlt Hn Hrun.
  rewrite (ndev_init_reply_eq _ _ _ _ _ _ Hd) in Hrun.
  assert (forall t st'', ndev_down slot (set_trace t st) = Some (tt, st'') ->
                         ndev_pending st'' <= ndev_pending st) as Hdown.
  { intros t st'' Hrun'.
    exact (ndev_down_pending (set_trace t st) slot d st''
             (inv_set_trace _ _ Hi) Hd Hrun'). }
  destruct (NDEV_ACTIVE d || negb (ir_id m =? nq_head (ndev_sendq d))) eqn:Hfor.
  { simplify_eq. lia. }
  apply orb_false_iff in Hfor as [Ha _].
  destruct (invalid_name (ir_name m)); [by eapply Hdown|].
  destruct (invalid_hwaddr_len m); [by eapply Hdown|].
  destruct (invalid_queue_max m) eqn:Hq; [by eapply Hdown|].
  destruct (ethif_after_add d env) as [ethif|]; [|by eapply Hdown].
  pose proof (inv_enable_state st slot d m ethif Hi Hd Hlt Hn Ha Hq) as Hi1.
  set (st1 := enable_state slot d m ethif st) in *.
  assert (ndev_pending st1 = ndev_pending st) as Hpend1 by done.
  clearbody st1. unfold after_enable in Hrun.
  apply bind_inv in Hrun as ([] & st2 & Hreq & Hrun).
  pose proof (ndev_requests_inv _ _ _ Hi1 Hreq) as Hi2.
  destruct (ndev_requests_same _ _ _ Hi1 Hreq) as (_ & _ & Hpend2 & _).
  destruct (negb (ethif_enable_result env)).
  - destruct (lookup_lt_is_Some_2 (ndev_array st2) slot) as [d2 Hd2].
    { rewrite (pool_ndev_length _ (proj1 Hi2)).
      rewrite <- (pool_ndev_length _ (proj1 Hi)). by eapply lookup_lt_Some. }
    pose proof (ndev_down_pending _ _ _ _ Hi2 Hd2 Hrun). lia.
  - unfold modify in Hrun. simplify_eq. cbn. lia.
Qed.

Lemma ndev_process_pending st m env st' :
  inv st -> m_source m <> NONE ->
  ndev_process m env st = Some (tt, st') ->
  ndev_pending st' <= ndev_pending st.
Proof.
  intros Hi Hsrc Hrun.
  destruct (m_body m) as [r| | | | |] eqn:Hbody.
  2-6: assert (same_drivers st st') as (_ & _ & -> & _);
       [apply (ndev_process_same st m env st' Hi); [by rewrite Hbody|done]|lia].
  unfold ndev_process in Hrun. rewrite !bind_gets in Hrun.
  destruct (ndev_find (m_source m) (take (ndev_max st) (ndev_array st)) 0)
    as [slot|] eqn:Hfind.
  2:{ unfold ret in Hrun. simplify_eq. lia. }
  destruct (ndev_find_Some _ _ _ _ Hfind) as (d & Hd & _ & He).
  rewrite Nat.sub_0_r in Hd. apply lookup_take_Some in Hd as [Hd Hlt].
  rewrite Hbody in Hrun.
  eapply ndev_init_reply_pending; try done. congruence.
Qed.

Lemma step_pending st e st' :
  inv st -> valid_event e -> step e st = Some st' ->
  ndev_pending st' <= ndev_pending st + ds_entries [e].
Proof.
  intros Hi Hv Hstep. unfold ds_entries. rewrite sumZ_cons.
  change (sumZ _ []) with 0.
  destruct e as [changes code ds_label|m env|r]; simpl in Hstep, Hv.
  - destruct (ndev_check changes code ds_label st) as [[[] st1]|] eqn:Hrun;
      simplify_eq/=. pose proof (ndev_check_pending _ _ _ _ _ Hi Hrun). lia.
  - destruct (ndev_process m env st) as [[[] st1]|] eqn:Hrun; simplify_eq/=.
    pose proof (ndev_process_pending _ _ _ _ Hi Hv Hrun). lia.
  - destruct (ndev_request r st) as [[[] st1]|] eqn:Hrun; simplify_eq/=.
    destruct (ndev_request_same _ _ _ Hi Hrun) as (_ & _ & -> & _). lia.
Qed.

Lemma run_pending es : forall st st',
  inv st -> Forall valid_event es -> run es st = Some st' ->
  ndev_pending st' <= ndev_pending st + ds_entries es.
Proof.
  induction es as [|e es IH]; intros st st' Hi Hv Hrun; simpl in Hrun.
  - simplify_eq. unfold ds_entries. change (sumZ _ []) with 0. lia.
  - apply Forall_cons in Hv as [Hv Hvs].
    destruct (step e st) as [st1|] eqn:Hstep; [|done].
    pose proof (step_pending _ _ _ Hi Hv Hstep) as H1.
    pose proof (IH _ _ (step_inv _ _ _ Hi Hv Hstep) Hvs Hrun) as H2.
    unfold ds_entries in *. rewrite sumZ_cons in *.
    change (sumZ _ []) with 0 in H1. lia.
Qed.

(** X22: [ndev_pending] stays in the range of an [int] and never
    undercounts.  [ndev_up] is the only place that adds to the counter,
    by one at most, and it is called at most once for each entry that
    [ds_check] yields.  So after a run in which the data store has
    yielded no more than [INT_MAX] entries, the counter is at most the
    number of these entries: it has never left the range of an [int];
    and it is at least the number of initializing drivers (the drivers
    below [ndev_max] whose send queue maximum is zero), hence never
    negative, and no driver is initializing when it is zero.  While the
    first loop of the next [ndev_check] runs, it does not go down and it
    goes up by the number of entries at most. *)
Theorem pending_covers_initializing es st :
  Forall valid_event es ->
  run es ndev_init = Some st ->
  ds_entries es <= INT_MAX ->
  0 <= count_initializing st <= ndev_pending st /\
  ndev_pending st <= ds_entries es /\
  ndev_pending st <= INT_MAX /\
  (ndev_pending st = 0 ->
   forall slot d, (slot < ndev_max st)%nat -> ndev_array st !! slot = Some d ->
     slot_initializing d = false) /\
  (forall changes st1,
     ndev_check_up changes st = Some (tt, st1) ->
     ndev_pending st <= ndev_pending st1
     <= ndev_pending st + Z.of_nat (length changes)).
Proof.
  intros Hv Hrun Hmax.
  assert (reachable st) as Hr
    by exact (reachable_run es ndev_init st reachable_init Hv Hrun).
  destruct (reachable_drivers_inv st Hr) as [_ HP]. unfold pending_covers in HP.
  pose proof (run_pending es _ _ inv_ndev_init Hv Hrun) as Hup.
  change (ndev_pending ndev_init) with 0 in Hup.
  assert (0 <= count_initializing st) as H0 by (unfold count_initializing; lia).
  split_and!; [lia|lia|lia|lia| |].
  - intros Hz slot d Hlt Hd.
    assert (count_initializing st = 0) as Hc by lia.
    unfold count_initializing in Hc.
    destruct (slot_initializing d) eqn:E; [|done]. exfalso.
    assert (d ∈ List.filter slot_initializing
                  (take (ndev_max st) (ndev_array st))) as Hin.
    { apply list_elem_of_In, filter_In. split; [|done].
      apply list_elem_of_In, list_elem_of_lookup. exists slot.
      by apply lookup_take_Some. }
    destruct (List.filter _ _); [by apply elem_of_nil in Hin|].
    simpl in Hc. lia.
  - intros changes st1 Hrun1.
    apply (ndev_check_up_pending changes st st1); [|done].
    by apply reachable_inv.
Qed.

(** ** Sample runs of the properties *)

Lemma is_slot_of_first label st d :
  (0 < ndev_max st)%nat -> ndev_array st !! 0%nat = Some d ->
  ndev_endpt d <> NONE -> ndev_label d = label ->
  is_slot_of label st 0.
Proof.
  intros Hlt Hd Hn Hl. split_and!; [done|by exists d|]. intros j dj Hj. lia.
Qed.

Lemma is_sender_first source st d :
  (0 < ndev_max st)%nat -> ndev_array st !! 0%nat = Some d ->
  ndev_endpt d = source ->
  is_sender st source 0.
Proof.
  intros Hlt Hd He. split_and!; [done|by exists d|]. intros j dj Hj. lia.
Qed.

Lemma packet_of_packet : packet_of packet 1.
Proof.
  unfold packet_of, packet. split_and!; [simpl; lia| |reflexivity].
  repeat constructor.
Qed.

Lemma grants_valid_5 j :
  (j < 1)%nat -> GRANT_VALID (grant_result [5] j) = true.
Proof. intros Hj. assert (j = 0%nat) as -> by lia. reflexivity. Qed.

Lemma unknown_label_st_up : unknown_label "e1" st_up.
Proof.
  intros j dj Hj Hl [_ Hlab].
  assert (j = 0%nat) as -> by (vm_compute in Hj; lia).
  vm_compute in Hl. injection Hl as <-. discriminate Hlab.
Qed.

Lemma is_free_slot_st_up : is_free_slot st_up 1.
Proof.
  split_and!.
  - vm_compute. lia.
  - vm_compute. lia.
  - intros j dj Hj Hl. assert (j = 0%nat) as -> by lia.
    vm_compute in Hl. injection Hl as <-. vm_compute. discriminate.
  - intros d Hlt. vm_compute in Hlt. lia.
Qed.

Lemma table_full_st_full : table_full st_full.
Proof.
  split; [reflexivity|]. intros j dj Hj Hl.
  do 8 (destruct j as [|j];
        [vm_compute in Hl; injection Hl as <-; vm_compute; discriminate|]).
  vm_compute in Hj. lia.
Qed.

Lemma unknown_label_st_full : unknown_label "e9" st_full.
Proof.
  intros j dj Hj Hl [_ Hlab].
  do 8 (destruct j as [|j];
        [vm_compute in Hl; injection Hl as <-; discriminate Hlab|]).
  vm_compute in Hj. lia.
Qed.

Lemma unknown_sender_st_active : unknown_sender st_active 4242.
Proof.
  intros j dj Hj Hl.
  assert (j = 0%nat) as -> by (vm_compute in Hj; lia).
  vm_compute in Hl. injection Hl as <-. vm_compute. discriminate.
Qed.

Lemma request_objects_partitioned_witness :
  reachable st_sent /\
  NoDup (nreq_freelist st_sent ++ all_queued (ndev_array st_sent)) /\
  (length (nreq_freelist st_sent) + length (all_queued (ndev_array st_sent))
   = NR_NREQ)%nat.
Proof.
  split; [exact reachable_st_sent|].
  destruct (request_objects_partitioned st_sent reachable_st_sent)
    as (_ & H1 & H2 & _).
  split; [exact H1|exact H2].
Defined.

Lemma queue_get_never_fails_witness :
  reachable st_active /\
  ndev_array st_active !! 0%nat = Some d_active /\
  (NDEV_SEND = NDEV_RECV <-> SENDQ = RECVQ) /\
  exists nreq fl st',
    nreq_freelist st_active = nreq :: fl /\
    ndev_queue_get (0%nat, SENDQ) NDEV_SEND st_active
    = Some (Some (nreq, 2), st').
Proof.
  split; [exact reachable_st_active|].
  assert (ndev_array st_active !! 0%nat = Some d_active) as H1 by reflexivity.
  assert (NDEV_SEND = NDEV_RECV <-> SENDQ = RECVQ) as H2 by (split; discriminate).
  split; [exact H1|]. split; [exact H2|].
  destruct (queue_get_never_fails st_active 0 SENDQ d_active NDEV_SEND
              reachable_st_active H1 H2)
    as [[Hden _]|(_ & nreq & fl & r & Hfl & _ & _ & Hrun)].
  - vm_compute in Hden. discriminate Hden.
  - exists nreq, fl. eexists. split; [exact Hfl|exact Hrun].
Defined.

Lemma queue_get_nothing_to_undo_witness :
  exists res st',
    ndev_queue_get (0%nat, SENDQ) NDEV_SEND st_active = Some (res, st') /\
    nreq_freelist st' = nreq_freelist st_active /\
    nreq_spares st' = nreq_spares st_active /\
    ndev_array st' = ndev_array st_active.
Proof.
  destruct (ndev_queue_get (0%nat, SENDQ) NDEV_SEND st_active)
    as [[res st']|] eqn:E.
  - exists res, st'. split; [reflexivity|].
    destruct (queue_get_nothing_to_undo _ _ _ _ _ E) as (H1 & H2 & H3 & _).
    split; [exact H1|]. split; [exact H2|exact H3].
  - vm_compute in E. discriminate E.
Defined.

Lemma queue_bounds_witness :
  reachable st_sent /\
  ndev_array st_sent !! 0%nat = Some d_sent /\
  0 <= nreq_spares st_sent <= NREQ_SPARES /\
  nq_count (ndev_recvq d_sent) <= nq_max (ndev_recvq d_sent) <= NDEV_RECVQ.
Proof.
  split; [exact reachable_st_sent|]. split; [reflexivity|].
  destruct (queue_bounds st_sent 0 d_sent reachable_st_sent eq_refl)
    as (H1 & _ & H2 & _).
  split; [exact H1|exact H2].
Defined.

Lemma inactive_slot_has_no_requests_witness :
  reachable st_up /\
  ndev_array st_up !! 0%nat = Some d_up /\
  NDEV_ACTIVE d_up = false /\
  forall s, nq_max (queue_of s d_up) = 0 /\ nq_count (queue_of s d_up) = 0 /\
            nq_req (queue_of s d_up) = [].
Proof.
  split; [exact reachable_st_up|]. split; [reflexivity|]. split; [reflexivity|].
  destruct (inactive_slot_has_no_requests st_up 0 d_up reachable_st_up eq_refl)
    as (_ & _ & H & _).
  exact (H eq_refl).
Defined.

Lemma driver_down_releases_everything_witness :
  reachable st_sent /\
  ndev_array st_sent !! 0%nat = Some d_sent /\
  exists st',
    ndev_down 0 st_sent = Some (tt, st') /\
    ndev_array st' = <[0%nat := downed d_sent]> (ndev_array st_sent) /\
    nreq_freelist st' = rev (nq_req (ndev_sendq d_sent)) ++ nreq_freelist st_sent /\
    trace st' = trace st_sent ++ [cpf_revoke 5; ethif_remove 77] /\
    ndev_pending st' = ndev_pending st_sent /\
    ndev_max st' = 0%nat.
Proof.
  split; [exact reachable_st_sent|]. split; [reflexivity|].
  destruct (ndev_down 0 st_sent) as [[[] st']|] eqn:E;
    [|vm_compute in E; discriminate E].
  destruct (driver_down_releases_everything st_sent 0 d_sent st'
              reachable_st_sent eq_refl E)
    as (H2 & _ & H7 & _ & H3 & H4 & H5 & _ & H6).
  exists st'. split; [reflexivity|]. split; [exact H2|]. split; [exact H7|].
  split; [exact H3|]. split; [exact H4|].
  destruct H6 as [H6|(dl & Hdl & Hn)]; [exact H6|]. exfalso.
  assert (ndev_max st_sent = 1%nat) as Hm by reflexivity.
  assert ((ndev_max st' - 1)%nat = 0%nat) as E0 by (rewrite Hm in H5; lia).
  rewrite E0, H2 in Hdl. vm_compute in Hdl. injection Hdl as <-.
  apply Hn. reflexivity.
Defined.

Lemma driver_restart_cancels_requests_witness :
  reachable st_sent /\
  is_slot_of "e0" st_sent 0 /\
  ndev_array st_sent !! 0%nat = Some d_sent /\
  exists st',
    ndev_up "e0" 1002 st_sent = Some (tt, st') /\
    trace st'
    = trace st_sent
      ++ [cpf_revoke 5; ethif_disable 77; asynsend3 1002 (M_INIT 3)] /\
    ndev_pending st' = ndev_pending st_sent + 1.
Proof.
  split; [exact reachable_st_sent|].
  assert (is_slot_of "e0" st_sent 0) as H1.
  { apply (is_slot_of_first "e0" st_sent d_sent);
      [vm_compute; lia|reflexivity|vm_compute; discriminate|reflexivity]. }
  split; [exact H1|]. split; [reflexivity|].
  destruct (driver_restart_cancels_requests st_sent 0 d_sent "e0" 1002
              reachable_st_sent H1 eq_refl)
    as (st' & E1 & _ & _ & _ & _ & E2 & _ & E3).
  exists st'. split; [exact E1|]. split; [exact E2|exact E3].
Defined.

Lemma new_driver_gets_first_free_slot_witness :
  unknown_label "e1" st_up /\
  is_free_slot st_up 1 /\
  ndev_array st_up !! 1%nat = Some d_free /\
  ndev_up "e1" 1002 st_up = Some (tt, driver_added 1 d_free "e1" 1002 st_up) /\
  ndev_max (driver_added 1 d_free "e1" 1002 st_up) = 2%nat.
Proof.
  split; [exact unknown_label_st_up|]. split; [exact is_free_slot_st_up|].
  split; [reflexivity|].
  destruct (new_driver_gets_first_free_slot st_up 1 d_free "e1" 1002
              unknown_label_st_up is_free_slot_st_up eq_refl)
    as (H1 & _ & _ & H2 & _).
  split; [exact H1|exact H2].
Defined.

Lemma full_table_ignores_new_driver_witness :
  table_full st_full /\
  unknown_label "e9" st_full /\
  ndev_up "e9" 1009 st_full
  = Some (tt, set_reported true
                (set_trace
                   (trace st_full ++ [printf ("LWIP: not enough ndev slots!" ++ LF) []])
                   st_full)).
Proof.
  split; [exact table_full_st_full|]. split; [exact unknown_label_st_full|].
  exact (proj1 (full_table_ignores_new_driver st_full "e9" 1009
                  table_full_st_full unknown_label_st_full)).
Defined.

Lemma reachable_st_two : reachable st_two.
Proof.
  apply (reachable_run [ev_up "e0" 1001; ev_up "e1" 1002] ndev_init);
    [apply reachable_init| |].
  - repeat constructor.
  - vm_compute. reflexivity.
Qed.

Lemma check_removes_the_gone_drivers_witness :
  reachable st_two /\
  ndev_check_up [] st_two = Some (tt, st_two) /\
  ndev_check [] (-5) (String.eqb "e1") st_two = Some (tt, st_two_checked) /\
  ndev_array st_two_checked !! 0%nat = Some (downed d_two_0) /\
  ndev_array st_two_checked !! 1%nat = Some d_two_1 /\
  (String.eqb "e1" (ndev_label d_two_1) = true) /\
  trace st_two_checked
  = trace st_two ++ [printf ("LWIP: DS check failed (%d)" ++ LF) [-5]].
Proof.
  split; [exact reachable_st_two|]. split; [reflexivity|].
  assert (ndev_check [] (-5) (String.eqb "e1") st_two
          = Some (tt, st_two_checked)) as H1 by (vm_compute; reflexivity).
  split; [exact H1|].
  destruct (check_removes_the_gone_drivers [] (-5) (String.eqb "e1") st_two
              st_two st_two_checked reachable_st_two eq_refl H1)
    as [H2 H3].
  split; [exact (H2 0%nat d_two_0 eq_refl)|].
  split; [exact (H2 1%nat d_two_1 eq_refl)|].
  split; [|reflexivity].
  apply (H3 1%nat d_two_1); [vm_compute; lia|reflexivity|].
  vm_compute. discriminate.
Defined.

Lemma driver_events_pass_the_assertions_witness :
  reachable st_active /\
  is_Some (step ev_down st_active) /\
  is_Some (step (EV_PROCESS (mk_message 1001 (NDEV_SEND_REPLY 7 0)) sample_env)
             st_active).
Proof.
  split; [exact reachable_st_active|].
  destruct (driver_events_pass_the_assertions st_active reachable_st_active)
    as [H1 H2].
  split; [exact (H1 [] ENOENT (fun _ => false))|].
  apply H2; [vm_compute; discriminate|reflexivity].
Defined.

Lemma dropped_messages_change_nothing_witness :
  unknown_sender st_active 4242 /\
  ndev_process (mk_message 4242 (NDEV_OTHER 0)) sample_env st_active
  = Some (tt, st_active).
Proof.
  split; [exact unknown_sender_st_active|].
  exact (proj1 (dropped_messages_change_nothing st_active
                  (mk_message 4242 (NDEV_OTHER 0)) sample_env)
           unknown_sender_st_active).
Defined.

Lemma status_report_is_passed_on_and_answered_witness :
  reachable st_active /\
  is_sender st_active 1001 0 /\
  ndev_array st_active !! 0%nat = Some d_active /\
  NDEV_ACTIVE d_active = true /\
  ndev_process (mk_message 1001 (NDEV_STATUS sample_status)) sample_env st_active
  = Some (tt, set_trace
                (trace st_active
                 ++ [ethif_status 77 1 0 0 0 0 0;
                     asynsend 1001 (M_STATUS_REPLY 9)])
                st_active).
Proof.
  split; [exact reachable_st_active|].
  assert (is_sender st_active 1001 0) as H1.
  { apply (is_sender_first 1001 st_active d_active);
      [vm_compute; lia|reflexivity|reflexivity]. }
  split; [exact H1|]. split; [reflexivity|]. split; [reflexivity|].
  destruct (status_report_is_passed_on_and_answered st_active
              (mk_message 1001 (NDEV_STATUS sample_status)) sample_env 0
              d_active sample_status reachable_st_active H1 eq_refl eq_refl
              eq_refl)
    as (ethif & E1 & E2).
  vm_compute in E1. injection E1 as <-. exact E2.
Defined.

Lemma failed_interface_setup_gives_up_slot_witness :
  reachable st_up /\
  (0 < ndev_max st_up)%nat /\
  ndev_array st_up !! 0%nat = Some d_up /\
  slot_initializing d_up = true /\
  valid_init_reply (sample_reply 1 eth0) = true /\
  ethif_after_add d_up env_no_ethif = None /\
  exists st',
    ndev_init_reply 0 1001 (sample_reply 1 eth0) env_no_ethif st_up
    = Some (tt, st') /\
    slot_vacant <$> ndev_array st' !! 0%nat = Some true /\
    trace st' = trace st_up ++ [ethif_add 0 eth0 0] /\
    ndev_pending st' = ndev_pending st_up - 1.
Proof.
  split; [exact reachable_st_up|].
  assert ((0 < ndev_max st_up)%nat) as H1 by (vm_compute; lia).
  split; [exact H1|]. split; [reflexivity|]. split; [reflexivity|].
  split; [reflexivity|]. split; [reflexivity|].
  destruct (failed_interface_setup_gives_up_slot st_up 0 d_up 1001
              (sample_reply 1 eth0) env_no_ethif reachable_st_up H1 eq_refl
              eq_refl eq_refl eq_refl eq_refl (or_introl eq_refl))
    as (st' & E1 & E2 & _ & E3 & E4).
  exists st'. split; [exact E1|]. split; [exact E2|].
  split; [exact E3|exact E4].
Defined.

Lemma invalid_reply_of_new_driver_is_refused_witness :
  reachable st_up /\
  is_sender st_up 1001 0 /\
  ndev_array st_up !! 0%nat = Some d_up /\
  slot_initializing d_up = true /\
  ndev_ethif d_up = None /\
  valid_init_reply (sample_reply 1 []) = false /\
  exists st',
    ndev_process (mk_message 1001 (NDEV_INIT_REPLY (sample_reply 1 [])))
      sample_env st_up = Some (tt, st') /\
    ndev_pending st' = ndev_pending st_up - 1 /\
    slot_vacant <$> ndev_array st' !! 0%nat = Some true.
Proof.
  split; [exact reachable_st_up|].
  assert (is_sender st_up 1001 0) as H1.
  { apply (is_sender_first 1001 st_up d_up);
      [vm_compute; lia|reflexivity|reflexivity]. }
  split; [exact H1|]. split; [reflexivity|]. split; [reflexivity|].
  split; [reflexivity|]. split; [reflexivity|].
  destruct (invalid_reply_of_new_driver_is_refused st_up
              (mk_message 1001 (NDEV_INIT_REPLY (sample_reply 1 []))) sample_env
              0 d_up (sample_reply 1 []) reachable_st_up H1 eq_refl eq_refl
              eq_refl eq_refl eq_refl eq_refl)
    as (st' & line & E1 & _ & E2 & E3).
  exists st'. split; [exact E1|]. split; [exact E2|exact E3].
Defined.

Lemma packet_request_is_sent_witness :
  reachable st_active /\
  (0 < NR_NDEV)%nat /\
  ndev_array st_active !! 0%nat = Some d_active /\
  slot_active d_active = true /\
  get_denied NDEV_SEND (ndev_sendq d_active) (nreq_spares st_active) = false /\
  packet_of packet 1 /\
  exists st',
    ndev_send 0 packet [5] st_active = Some (OK, st') /\
    trace st'
    = trace st_active
      ++ [cpf_grant_direct 1001 4096 64 CPF_READ 5;
          asynsend3 1001 (M_TRANSFER true 2 [5] [64] 1)].
Proof.
  split; [exact reachable_st_active|].
  assert ((0 < NR_NDEV)%nat) as H1 by (vm_compute; lia).
  assert ((1 <= NDEV_IOV_MAX)%nat) as H2 by (vm_compute; lia).
  split; [exact H1|]. split; [reflexivity|]. split; [reflexivity|].
  split; [reflexivity|]. split; [exact packet_of_packet|].
  destruct (packet_request_is_sent st_active 0 d_active true packet [5] 1
              reachable_st_active H1 eq_refl eq_refl eq_refl packet_of_packet
              H2 grants_valid_5)
    as (nreq & fl & st' & E1 & E2).
  exists st'. split; [exact E1|]. exact (sent_trace _ _ _ _ _ _ _ _ _ _ E2).
Defined.

Lemma request_and_reply_round_trip_witness :
  reachable st_active /\
  (0 < NR_NDEV)%nat /\
  ndev_array st_active !! 0%nat = Some d_active /\
  slot_active d_active = true /\
  nq_count (ndev_sendq d_active) = 0 /\
  packet_of packet 1 /\
  exists st1 st2,
    ndev_send 0 packet [5] st_active = Some (OK, st1) /\
    ndev_send_reply 0 2 0 st1 = Some (tt, st2) /\
    trace st2
    = trace st_active
      ++ [cpf_grant_direct 1001 4096 64 CPF_READ 5;
          asynsend3 1001 (M_TRANSFER true 2 [5] [64] 1);
          cpf_revoke 5; ethif_sent 77 0] /\
    nreq_freelist st2 = nreq_freelist st_active /\
    nreq_spares st2 = nreq_spares st_active.
Proof.
  split; [exact reachable_st_active|].
  assert ((0 < NR_NDEV)%nat) as H1 by (vm_compute; lia).
  assert ((1 <= NDEV_IOV_MAX)%nat) as H2 by (vm_compute; lia).
  split; [exact H1|]. split; [reflexivity|]. split; [reflexivity|].
  split; [reflexivity|]. split; [exact packet_of_packet|].
  destruct (request_and_reply_round_trip st_active 0 d_active true packet [5] 1
              0 reachable_st_active H1 eq_refl eq_refl eq_refl packet_of_packet
              H2 grants_valid_5)
    as (ethif & st1 & st2 & E0 & E1 & E2 & E3 & _ & E4 & E5).
  vm_compute in E0. injection E0 as <-.
  exists st1, st2. split; [exact E1|]. split; [exact E2|].
  split; [exact E3|]. split; [exact E4|exact E5].
Defined.

Lemma configuration_request_is_sent_witness :
  reachable st_active /\
  (0 < NR_NDEV)%nat /\
  ndev_array st_active !! 0%nat = Some d_active /\
  slot_active d_active = true /\
  get_denied NDEV_CONF (ndev_sendq d_active) (nreq_spares st_active) = false /\
  conf_with_list conf_nothing = false /\
  exists st',
    ndev_conf 0 conf_nothing [] st_active = Some (OK, st') /\
    trace st'
    = trace st_active
      ++ [asynsend3 1001 (M_CONF 2 0 0 GRANT_INVALID 0 0 0 0 [])].
Proof.
  split; [exact reachable_st_active|].
  assert ((0 < NR_NDEV)%nat) as H1 by (vm_compute; lia).
  assert (conf_with_list conf_nothing = true ->
          nconf_mclist conf_nothing <> None /\ nconf_mccount conf_nothing <> 0 /\
          GRANT_VALID (grant_result [] 0) = true) as H2.
  { intros H. vm_compute in H. discriminate H. }
  split; [exact H1|]. split; [reflexivity|]. split; [reflexivity|].
  split; [reflexivity|]. split; [reflexivity|].
  destruct (configuration_request_is_sent st_active 0 d_active conf_nothing []
              reachable_st_active H1 eq_refl eq_refl eq_refl H2)
    as ((nreq & fl & st' & E1 & E2) & E3).
  exists st'. split; [exact E1|].
  destruct (E3 eq_refl) as [_ E4].
  pose proof (sent_trace _ _ _ _ _ _ _ _ _ _ E2) as E5.
  rewrite E5. f_equal.
Defined.

Lemma request_traffic_keeps_the_drivers_witness :
  reachable st_active /\
  request_traffic (EV_REQUEST (REQ_SEND 0 packet [5])) /\
  step (EV_REQUEST (REQ_SEND 0 packet [5])) st_active = Some st_sent /\
  same_drivers st_active st_sent.
Proof.
  split; [exact reachable_st_active|]. split; [exact I|].
  assert (step (EV_REQUEST (REQ_SEND 0 packet [5])) st_active = Some st_sent)
    as H1 by (vm_compute; reflexivity).
  split; [exact H1|].
  exact (proj1 (request_traffic_keeps_the_drivers st_active
                  (EV_REQUEST (REQ_SEND 0 packet [5])) st_sent
                  reachable_st_active I H1)).
Defined.

Lemma driver_labels_are_unique_witness :
  reachable st_two /\
  (0 < ndev_max st_two)%nat /\ (1 < ndev_max st_two)%nat /\
  ndev_array st_two !! 0%nat = Some d_two_0 /\
  ndev_array st_two !! 1%nat = Some d_two_1 /\
  ndev_endpt d_two_0 <> NONE /\ ndev_endpt d_two_1 <> NONE /\
  0%nat <> 1%nat /\
  ndev_label d_two_0 <> ndev_label d_two_1.
Proof.
  split; [exact reachable_st_two|].
  assert ((0 < ndev_max st_two)%nat) as H1 by (vm_compute; lia).
  assert ((1 < ndev_max st_two)%nat) as H2 by (vm_compute; lia).
  assert (ndev_endpt d_two_0 <> NONE) as H3 by (vm_compute; discriminate).
  assert (ndev_endpt d_two_1 <> NONE) as H4 by (vm_compute; discriminate).
  assert (0%nat <> 1%nat) as H5 by discriminate.
  split; [exact H1|]. split; [exact H2|]. split; [reflexivity|].
  split; [reflexivity|]. split; [exact H3|]. split; [exact H4|].
  split; [exact H5|].
  exact (driver_labels_are_unique st_two 0 1 d_two_0 d_two_1 reachable_st_two
           H1 H2 eq_refl eq_refl H3 H4 H5).
Defined.

Lemma pending_covers_initializing_witness :
  Forall valid_event [ev_up "e0" 1001; ev_up "e1" 1002] /\
  run [ev_up "e0" 1001; ev_up "e1" 1002] ndev_init = Some st_two /\
  ds_entries [ev_up "e0" 1001; ev_up "e1" 1002] <= INT_MAX /\
  0 <= count_initializing st_two <= ndev_pending st_two /\
  ndev_pending st_two <= 2.
Proof.
  assert (Forall valid_event [ev_up "e0" 1001; ev_up "e1" 1002]) as H1
    by (repeat constructor).
  assert (run [ev_up "e0" 1001; ev_up "e1" 1002] ndev_init = Some st_two) as H2
    by (vm_compute; reflexivity).
  assert (ds_entries [ev_up "e0" 1001; ev_up "e1" 1002] <= INT_MAX) as H3
    by (vm_compute; discriminate).
  split; [exact H1|]. split; [exact H2|]. split; [exact H3|].
  destruct (pending_covers_initializing _ st_two H1 H2 H3) as (E1 & E2 & _).
  split; [exact E1|exact E2].
Defined.
